(** * libpe (PECore/libpe.cpp): a shallow embedding of the PE parsing core

    The development follows [Clibpe] of [src/PECore/libpe.cpp].  Machine
    integers are [Z] with the wrap-around of their C++ type written out,
    pointers are 64-bit addresses ([DWORD_PTR] of the x64 build), the mapped
    file is a window of the address space, and every parser is a function on
    the object state. *)

From Stdlib Require Import ZArith List Bool Lia.
Import ListNotations.
Local Open Scope Z_scope.

(** ** Machine integers *)

Module Mach.

Definition WORD_MOD : Z := 2 ^ 16.
Definition DWORD_MOD : Z := 2 ^ 32.
Definition PTR_MOD : Z := 2 ^ 64.

(** [static_cast<WORD>], [static_cast<DWORD>], [static_cast<DWORD_PTR>]. *)
Definition to_WORD (z : Z) : Z := z mod WORD_MOD.
Definition to_DWORD (z : Z) : Z := z mod DWORD_MOD.
Definition to_PTR (z : Z) : Z := z mod PTR_MOD.

(** Unsigned 32-bit and 64-bit addition and subtraction. *)
Definition DWORD_add (a b : Z) : Z := to_DWORD (a + b).
Definition DWORD_sub (a b : Z) : Z := to_DWORD (a - b).
Definition PTR_add (a b : Z) : Z := to_PTR (a + b).
Definition PTR_sub (a b : Z) : Z := to_PTR (a - b).

(** A [LONG] read from its 32-bit pattern. *)
Definition to_LONG (z : Z) : Z :=
  let u := to_DWORD z in if u <? 2 ^ 31 then u else u - DWORD_MOD.

Definition HIWORD (d : Z) : Z := to_WORD (Z.shiftr d 16).
Definition LOWORD (d : Z) : Z := to_WORD d.

End Mach.
Import Mach.

(** [IsSumOverflow]: overflow of the sum of two [DWORD_PTR]. *)
Definition IsSumOverflow (dwFirst dwSecond : Z) : bool :=
  PTR_add dwFirst dwSecond <? dwFirst.

(** ** The mapped file

    [LoadPe(LPCWSTR)] maps the file and hands the view to
    [LoadPe(std::span)], so [GetBaseAddr()] (the view pointer [m_ptr]) and
    [m_spnData.data()] are the same address; [v_base] is that address and
    [v_size] is [m_spnData.size()].  [v_byte] is the content of the address
    space: the file inside [[v_base, v_base + v_size)], and whatever the
    process holds around it, since the source dereferences some pointers
    that it only checked in part. *)

Record View := {
  v_base : Z;
  v_size : Z;
  v_byte : Z -> Z
}.

Definition rd8 (v : View) (a : Z) : Z := v_byte v (to_PTR a) mod 256.
Definition rd16 (v : View) (a : Z) : Z := rd8 v a + 2 ^ 8 * rd8 v (a + 1).
Definition rd32 (v : View) (a : Z) : Z := rd16 v a + 2 ^ 16 * rd16 v (a + 2).
Definition rd64 (v : View) (a : Z) : Z := rd32 v a + 2 ^ 32 * rd32 v (a + 4).

(** A run of [n] bytes starting at [a] (a struct or an array copied out). *)
Fixpoint rd_bytes (v : View) (a : Z) (n : nat) : list Z :=
  match n with
  | O => []
  | S k => rd8 v a :: rd_bytes v (a + 1) k
  end.

(** A file given by its bytes, mapped at [base], with [ambient] around it. *)
Definition map_file (base : Z) (bytes : list Z) (ambient : Z -> Z) : View :=
  {| v_base := base;
     v_size := Z.of_nat (length bytes);
     v_byte := fun a =>
       if (base <=? a) && (a <? base + Z.of_nat (length bytes))
       then nth (Z.to_nat (a - base)) bytes 0
       else ambient a |}.

(** Little-endian stores, used to lay out test images. *)
Definition poke8 (a x : Z) (f : Z -> Z) : Z -> Z :=
  fun b => if b =? a then x mod 256 else f b.
Definition poke16 (a x : Z) (f : Z -> Z) : Z -> Z :=
  poke8 a x (poke8 (a + 1) (Z.shiftr x 8) f).
Definition poke32 (a x : Z) (f : Z -> Z) : Z -> Z :=
  poke16 a x (poke16 (a + 2) (Z.shiftr x 16) f).
Definition poke64 (a x : Z) (f : Z -> Z) : Z -> Z :=
  poke32 a x (poke32 (a + 4) (Z.shiftr x 32) f).

(** ** The model: records handed to client code *)

(** [PEFILEINFO]: one presence flag per header and directory. *)
Record PEFILEINFO := {
  IsPE32 : bool; IsPE64 : bool;
  HasDosHdr : bool; HasRichHdr : bool; HasNTHdr : bool;
  HasDataDirs : bool; HasSections : bool;
  HasExport : bool; HasImport : bool; HasResource : bool;
  HasException : bool; HasSecurity : bool; HasReloc : bool;
  HasDebug : bool; HasArchitect : bool; HasGlobalPtr : bool;
  HasTLS : bool; HasLoadCFG : bool; HasBoundImp : bool;
  HasIAT : bool; HasDelayImp : bool; HasCOMDescr : bool
}.

(** [m_stFileInfo = { }]. *)
Definition no_info : PEFILEINFO :=
  {| IsPE32 := false; IsPE64 := false;
     HasDosHdr := false; HasRichHdr := false; HasNTHdr := false;
     HasDataDirs := false; HasSections := false;
     HasExport := false; HasImport := false; HasResource := false;
     HasException := false; HasSecurity := false; HasReloc := false;
     HasDebug := false; HasArchitect := false; HasGlobalPtr := false;
     HasTLS := false; HasLoadCFG := false; HasBoundImp := false;
     HasIAT := false; HasDelayImp := false; HasCOMDescr := false |}.


(** Modelled from the spec: the declaration of [PERICHHDR] (libpe.h) is not
    under src/.  The spec's data model gives a Rich entry as file offset,
    product-id (16-bit), build-id (16-bit), use-count (32-bit); the members
    are taken in that order, which is the order in which [ParseRichHeader]
    passes its four values to [emplace_back]. *)
Record PERICHHDR := {
  rich_dwOffset : Z;
  rich_product_id : Z;
  rich_build_id : Z;
  rich_use_count : Z
}.

(** [IMAGE_SECTION_HEADER] (winnt.h), 40 bytes. *)
Record IMAGE_SECTION_HEADER := {
  sh_Name : list Z;
  sh_VirtualSize : Z;          (* Misc.VirtualSize *)
  sh_VirtualAddress : Z;
  sh_SizeOfRawData : Z;
  sh_PointerToRawData : Z;
  sh_PointerToRelocations : Z;
  sh_PointerToLinenumbers : Z;
  sh_NumberOfRelocations : Z;
  sh_NumberOfLinenumbers : Z;
  sh_Characteristics : Z
}.

(** [PESECHDR]: file offset, raw header, resolved name. *)
Record PESECHDR := {
  sec_dwOffset : Z;
  SecHdr : IMAGE_SECTION_HEADER;
  SectionName : list Z
}.

(** [PENtHeader]: offset of the NT signature and the copied header (248 bytes
    for PE32, 264 for PE32+). *)
Record PENtHeader := {
  nt_dwOffset : Z;
  nt_bytes : list Z
}.

(** [PEExportFunction] and [PEExport]. *)
Record PEExportFunction := {
  ef_FuncRVA : Z;
  ef_Ordinal : Z;
  ef_NameRVA : Z;
  ef_FuncName : list Z;
  ef_ForwarderName : list Z
}.

Record PEExport := {
  exp_dwOffset : Z;
  exp_ExportDesc : list Z;     (* the 40 bytes of IMAGE_EXPORT_DIRECTORY *)
  exp_ModuleName : list Z;
  exp_Funcs : list PEExportFunction
}.

(** [IMAGE_IMPORT_BY_NAME] as copied by [stImpByName = *pName]: the hint and
    the one declared character of the name. *)
Record IMAGE_IMPORT_BY_NAME := {
  ibn_Hint : Z;
  ibn_Name0 : Z
}.

Definition no_import_by_name : IMAGE_IMPORT_BY_NAME :=
  {| ibn_Hint := 0; ibn_Name0 := 0 |}.

(** [PEImportFunction]: the thunk (as its 32- or 64-bit value),
    the hint/name struct, the name. *)
Record PEImportFunction := {
  if_Thunk : Z;
  if_ImpByName : IMAGE_IMPORT_BY_NAME;
  if_FuncName : list Z
}.

Record PEImport := {
  imp_dwOffset : Z;
  imp_ImportDesc : list Z;     (* the 20 bytes of IMAGE_IMPORT_DESCRIPTOR *)
  imp_ModuleName : list Z;
  imp_Funcs : list PEImportFunction
}.

(** [PEDelayImportFunc::PEDelayImportThunk] ([st32] or [st64]). *)
Record PEDelayImportThunk := {
  ImportAddressTable : Z;
  ImportNameTable : Z;
  BoundImportAddressTable : Z;
  UnloadInformationTable : Z
}.

Record PEDelayImportFunc := {
  dif_Thunk : PEDelayImportThunk;
  dif_ImpByName : IMAGE_IMPORT_BY_NAME;
  dif_FuncName : list Z
}.

Record PEDelayImport := {
  dimp_dwOffset : Z;
  dimp_DelayImpDesc : list Z;  (* the 32 bytes of IMAGE_DELAYLOAD_DESCRIPTOR *)
  dimp_ModuleName : list Z;
  dimp_Funcs : list PEDelayImportFunc
}.

(** [PERelocData] and [PEReloc]. *)
Record PERelocData := {
  rd_dwOffset : Z;
  rd_RelocType : Z;
  rd_RelocOffset : Z
}.

Record PEReloc := {
  rel_dwOffset : Z;
  rel_BaseReloc : list Z;      (* the 8 bytes of IMAGE_BASE_RELOCATION *)
  rel_Data : list PERelocData
}.

(** [PETLS]. *)
Record PETLS := {
  tls_dwOffset : Z;
  tls_Dir : list Z;            (* IMAGE_TLS_DIRECTORY32 (24) or 64 (40) *)
  tls_Callbacks : list Z
}.

Definition no_tls : PETLS :=
  {| tls_dwOffset := 0; tls_Dir := []; tls_Callbacks := [] |}.

Definition no_export : PEExport :=
  {| exp_dwOffset := 0; exp_ExportDesc := []; exp_ModuleName := [];
     exp_Funcs := [] |}.

(** *** Resources *)

(** [IMAGE_RESOURCE_DIRECTORY_ENTRY]: two DWORDs, each a union with a
    31-bit offset and a 1-bit flag. *)
Record IMAGE_RESOURCE_DIRECTORY_ENTRY := {
  rde_Name : Z;
  rde_OffsetToData : Z
}.

Definition NameIsString (e : IMAGE_RESOURCE_DIRECTORY_ENTRY) : bool :=
  Z.testbit (rde_Name e) 31.
Definition NameOffset (e : IMAGE_RESOURCE_DIRECTORY_ENTRY) : Z :=
  rde_Name e mod 2 ^ 31.
Definition DataIsDirectory (e : IMAGE_RESOURCE_DIRECTORY_ENTRY) : bool :=
  Z.testbit (rde_OffsetToData e) 31.
Definition OffsetToDirectory (e : IMAGE_RESOURCE_DIRECTORY_ENTRY) : Z :=
  rde_OffsetToData e mod 2 ^ 31.

(** [IMAGE_RESOURCE_DATA_ENTRY], 16 bytes. *)
Record IMAGE_RESOURCE_DATA_ENTRY := {
  de_OffsetToData : Z;
  de_Size : Z;
  de_CodePage : Z;
  de_Reserved : Z
}.

Definition no_data_entry : IMAGE_RESOURCE_DATA_ENTRY :=
  {| de_OffsetToData := 0; de_Size := 0; de_CodePage := 0; de_Reserved := 0 |}.

Record PEResLevel3Data := {
  r3_ResDirEntry : IMAGE_RESOURCE_DIRECTORY_ENTRY;
  r3_ResName : list Z;
  r3_ResDataEntry : IMAGE_RESOURCE_DATA_ENTRY;
  r3_RawResData : list Z
}.

Record PEResLevel3 := {
  l3_dwOffset : Z;
  l3_ResDir : list Z;          (* the 16 bytes of IMAGE_RESOURCE_DIRECTORY *)
  l3_ResData : list PEResLevel3Data
}.

Record PEResLevel2Data := {
  r2_ResDirEntry : IMAGE_RESOURCE_DIRECTORY_ENTRY;
  r2_ResName : list Z;
  r2_ResDataEntry : IMAGE_RESOURCE_DATA_ENTRY;
  r2_RawResData : list Z;
  r2_ResLvL3 : PEResLevel3
}.

Record PEResLevel2 := {
  l2_dwOffset : Z;
  l2_ResDir : list Z;
  l2_ResData : list PEResLevel2Data
}.

Record PEResRootData := {
  r1_ResDirEntry : IMAGE_RESOURCE_DIRECTORY_ENTRY;
  r1_ResName : list Z;
  r1_ResDataEntry : IMAGE_RESOURCE_DATA_ENTRY;
  r1_RawResData : list Z;
  r1_ResLvL2 : PEResLevel2
}.

Record PEResRoot := {
  l1_dwOffset : Z;
  l1_ResDir : list Z;
  l1_ResData : list PEResRootData
}.

(** Value-initialised ([{ }]) levels. *)
Definition no_level3 : PEResLevel3 :=
  {| l3_dwOffset := 0; l3_ResDir := []; l3_ResData := [] |}.
Definition no_level2 : PEResLevel2 :=
  {| l2_dwOffset := 0; l2_ResDir := []; l2_ResData := [] |}.
Definition no_resource : PEResRoot :=
  {| l1_dwOffset := 0; l1_ResDir := []; l1_ResData := [] |}.

(** ** The object state: the data members of [Clibpe] *)

Record Clibpe := {
  m_view : View;                       (* m_ptr / m_spnData *)
  m_fLoaded : bool;
  m_pNTHeader32 : Z;                   (* 0 is nullptr *)
  m_pNTHeader64 : Z;
  m_stFileInfo : PEFILEINFO;
  m_stMSDOSHeader : list Z;            (* IMAGE_DOS_HEADER, 64 bytes *)
  m_vecRichHeader : list PERICHHDR;
  m_stNTHeader : PENtHeader;
  m_vecSecHeaders : list PESECHDR;
  m_stExport : PEExport;
  m_vecImport : list PEImport;
  m_stResource : PEResRoot;
  m_vecRelocs : list PEReloc;
  m_stTLS : PETLS;
  m_vecDelayImp : list PEDelayImport
}.

Definition zero_memory : Z -> Z := fun _ => 0.

(** A freshly constructed [Clibpe] (the default member initialisers). *)
Definition new_Clibpe : Clibpe :=
  {| m_view := {| v_base := 0; v_size := 0; v_byte := zero_memory |};
     m_fLoaded := false;
     m_pNTHeader32 := 0;
     m_pNTHeader64 := 0;
     m_stFileInfo := no_info;
     m_stMSDOSHeader := [];
     m_vecRichHeader := [];
     m_stNTHeader := {| nt_dwOffset := 0; nt_bytes := [] |};
     m_vecSecHeaders := [];
     m_stExport := no_export;
     m_vecImport := [];
     m_stResource := no_resource;
     m_vecRelocs := [];
     m_stTLS := no_tls;
     m_vecDelayImp := [] |}.

(** ** Address arithmetic *)

Definition GetBaseAddr (m : Clibpe) : Z := v_base (m_view m).
Definition GetDataSize (m : Clibpe) : Z := v_size (m_view m).
(** [GetDosPtr()] is [m_spnData.data()]. *)
Definition GetDosPtr (m : Clibpe) : Z := v_base (m_view m).

(** Fields of the headers, read through the typed pointers of the source. *)
Definition e_magic (m : Clibpe) : Z := rd16 (m_view m) (GetDosPtr m).
Definition e_lfanew (m : Clibpe) : Z := to_LONG (rd32 (m_view m) (GetDosPtr m + 60)).

Definition IsPtrSafe (m : Clibpe) (dwAddr : Z) (fCanReferenceBoundary : bool) : bool :=
  let ullMaxAddr := PTR_add (GetBaseAddr m) (GetDataSize m) in
  if dwAddr =? 0 then false
  else if fCanReferenceBoundary
       then (dwAddr <=? ullMaxAddr) && (GetBaseAddr m <=? dwAddr)
       else (dwAddr <? ullMaxAddr) && (GetBaseAddr m <=? dwAddr).

Definition PtrToOffset (m : Clibpe) (lp : Z) : Z :=
  if lp =? 0 then 0 else to_DWORD (PTR_sub lp (GetBaseAddr m)).

(** Data directory indices (winnt.h). *)
Definition IMAGE_DIRECTORY_ENTRY_EXPORT : Z := 0.
Definition IMAGE_DIRECTORY_ENTRY_IMPORT : Z := 1.
Definition IMAGE_DIRECTORY_ENTRY_RESOURCE : Z := 2.
Definition IMAGE_DIRECTORY_ENTRY_BASERELOC : Z := 5.
Definition IMAGE_DIRECTORY_ENTRY_TLS : Z := 9.
Definition IMAGE_DIRECTORY_ENTRY_DELAY_IMPORT : Z := 13.

(** [OptionalHeader.DataDirectory] starts 120 bytes into IMAGE_NT_HEADERS32
    and 136 bytes into IMAGE_NT_HEADERS64; an entry is (VirtualAddress, Size). *)
Definition GetDirEntryRVA (m : Clibpe) (dwEntry : Z) : Z :=
  if negb (HasNTHdr (m_stFileInfo m)) then 0
  else if IsPE32 (m_stFileInfo m)
       then rd32 (m_view m) (m_pNTHeader32 m + 120 + 8 * dwEntry)
  else if IsPE64 (m_stFileInfo m)
       then rd32 (m_view m) (m_pNTHeader64 m + 136 + 8 * dwEntry)
  else 0.

Definition GetDirEntrySize (m : Clibpe) (dwEntry : Z) : Z :=
  if negb (HasNTHdr (m_stFileInfo m)) then 0
  else if IsPE32 (m_stFileInfo m)
       then rd32 (m_view m) (m_pNTHeader32 m + 120 + 8 * dwEntry + 4)
  else if IsPE64 (m_stFileInfo m)
       then rd32 (m_view m) (m_pNTHeader64 m + 136 + 8 * dwEntry + 4)
  else 0.

(** [OptionalHeader.ImageBase]: a DWORD at +52 (PE32), a ULONGLONG at +48
    (PE32+). *)
Definition GetImageBase (m : Clibpe) : Z :=
  if IsPE32 (m_stFileInfo m) then rd32 (m_view m) (m_pNTHeader32 m + 52)
  else if IsPE64 (m_stFileInfo m) then rd64 (m_view m) (m_pNTHeader64 m + 48)
  else 0.

(** [IMAGE_FIRST_SECTION]: the header pointer plus the offset of
    OptionalHeader (24) plus FileHeader.SizeOfOptionalHeader (a WORD at +20). *)
Definition IMAGE_FIRST_SECTION (v : View) (pNTHeader : Z) : Z :=
  PTR_add (PTR_add pNTHeader 24) (rd16 v (pNTHeader + 20)).

(** FileHeader.NumberOfSections is a WORD at +6. *)
Definition NumberOfSections (v : View) (pNTHeader : Z) : Z :=
  rd16 v (pNTHeader + 6).

(** Fields of an IMAGE_SECTION_HEADER in the file. *)
Definition psh_VirtualSize (v : View) (p : Z) : Z := rd32 v (p + 8).
Definition psh_VirtualAddress (v : View) (p : Z) : Z := rd32 v (p + 12).
Definition psh_PointerToRawData (v : View) (p : Z) : Z := rd32 v (p + 20).

(** The loop of [GetSecHdrFromRVA]; [n] counts the headers still to visit. *)
Fixpoint GetSecHdrFromRVA_loop (m : Clibpe) (ullRVA : Z) (n : nat) (pSecHdr : Z) : Z :=
  match n with
  | O => 0
  | S k =>
    if negb (IsPtrSafe m (PTR_add pSecHdr 40) false) then 0
    else if (psh_VirtualAddress (m_view m) pSecHdr <=? ullRVA)
            && (ullRVA <? DWORD_add (psh_VirtualAddress (m_view m) pSecHdr)
                                    (psh_VirtualSize (m_view m) pSecHdr))
    then pSecHdr
    else GetSecHdrFromRVA_loop m ullRVA k (PTR_add pSecHdr 40)
  end.

Definition GetSecHdrFromRVA (m : Clibpe) (ullRVA : Z) : Z :=
  if IsPE32 (m_stFileInfo m) && HasNTHdr (m_stFileInfo m) then
    GetSecHdrFromRVA_loop m ullRVA
      (Z.to_nat (NumberOfSections (m_view m) (m_pNTHeader32 m)))
      (IMAGE_FIRST_SECTION (m_view m) (m_pNTHeader32 m))
  else if IsPE64 (m_stFileInfo m) && HasNTHdr (m_stFileInfo m) then
    GetSecHdrFromRVA_loop m ullRVA
      (Z.to_nat (NumberOfSections (m_view m) (m_pNTHeader64 m)))
      (IMAGE_FIRST_SECTION (m_view m) (m_pNTHeader64 m))
  else 0.

Definition RVAToPtr (m : Clibpe) (ullRVA : Z) : Z :=
  let pSecHdr := GetSecHdrFromRVA m ullRVA in
  if pSecHdr =? 0 then 0
  else
    let ptr := PTR_sub (PTR_add (GetBaseAddr m) ullRVA)
                 (DWORD_sub (psh_VirtualAddress (m_view m) pSecHdr)
                            (psh_PointerToRawData (m_view m) pSecHdr)) in
    if IsPtrSafe m ptr true then ptr else 0.

(** *** [RVAToOffset] over the collected section headers *)

(** "Is RVA within this section?": the test of the source, whose range end
    is the DWORD sum VirtualAddress + VirtualSize. *)
Definition rva_in_section (ullRVA : Z) (h : IMAGE_SECTION_HEADER) : bool :=
  (sh_VirtualAddress h <=? ullRVA)
  && (ullRVA <? DWORD_add (sh_VirtualAddress h) (sh_VirtualSize h)).

(** [static_cast<DWORD>(ullRVA) - (VirtualAddress - PointerToRawData)]. *)
Definition section_offset (ullRVA : Z) (h : IMAGE_SECTION_HEADER) : Z :=
  DWORD_sub (to_DWORD ullRVA)
            (DWORD_sub (sh_VirtualAddress h) (sh_PointerToRawData h)).

(** The body of the range-for: every section is visited, a later match
    overwrites [dwOffset]. *)
Fixpoint RVAToOffset_loop (ullDataSize ullRVA : Z) (secs : list PESECHDR)
    (dwOffset : Z) : Z :=
  match secs with
  | [] => dwOffset
  | iter :: rest =>
    let pSecHdr := SecHdr iter in
    if rva_in_section ullRVA pSecHdr then
      let dwOffset' := section_offset ullRVA pSecHdr in
      RVAToOffset_loop ullDataSize ullRVA rest
        (if dwOffset' >? to_DWORD ullDataSize then 0 else dwOffset')
    else RVAToOffset_loop ullDataSize ullRVA rest dwOffset
  end.

Definition RVAToOffset (m : Clibpe) (ullRVA : Z) : Z :=
  RVAToOffset_loop (GetDataSize m) ullRVA (m_vecSecHeaders m) 0.

Definition GetOffsetFromRVA (m : Clibpe) (ullRVA : Z) : Z :=
  if negb (m_fLoaded m) then 0 else RVAToOffset m ullRVA.

Definition GetOffsetFromVA (m : Clibpe) (ullVA : Z) : Z :=
  if negb (m_fLoaded m) then 0
  else RVAToOffset m (PTR_sub ullVA (GetImageBase m)).

(** *** The conversion in the words of the specification

    "find the unique section s with s.VirtualAddress <= r < s.VirtualAddress
    + s.Misc.VirtualSize; the file offset is r - s.VirtualAddress +
    s.PointerToRawData.  If that offset exceeds file_size, the conversion
    fails."  Range and offset are integers here, not DWORDs. *)

Definition in_virtual_range (r : Z) (h : IMAGE_SECTION_HEADER) : bool :=
  (sh_VirtualAddress h <=? r) && (r <? sh_VirtualAddress h + sh_VirtualSize h).

Definition spec_offset (r : Z) (h : IMAGE_SECTION_HEADER) : Z :=
  r - sh_VirtualAddress h + sh_PointerToRawData h.

Definition offset_from_rva_spec (m : Clibpe) (r : Z) : Prop :=
  (forall e,
      filter (fun s => in_virtual_range r (SecHdr s)) (m_vecSecHeaders m) = [e] ->
      (spec_offset r (SecHdr e) <= GetDataSize m ->
       GetOffsetFromRVA m r = spec_offset r (SecHdr e))
      /\ (GetDataSize m < spec_offset r (SecHdr e) -> GetOffsetFromRVA m r = 0))
  /\ (filter (fun s => in_virtual_range r (SecHdr s)) (m_vecSecHeaders m) = [] ->
      GetOffsetFromRVA m r = 0).

(** The fields of a collected section header are DWORDs. *)
Definition section_fields_ok (s : PESECHDR) : Prop :=
  0 <= sh_VirtualAddress (SecHdr s) < DWORD_MOD
  /\ 0 <= sh_VirtualSize (SecHdr s) < DWORD_MOD
  /\ 0 <= sh_PointerToRawData (SecHdr s) < DWORD_MOD.

(** The file-size check of [RVAToOffset]. *)
Definition checked_offset (ullDataSize dwOffset : Z) : Z :=
  if dwOffset >? to_DWORD ullDataSize then 0 else dwOffset.

(** ** Assignments to single members *)

Definition set_IsPE32 (b : bool) (i : PEFILEINFO) : PEFILEINFO :=
  {| IsPE32 := b; IsPE64 := IsPE64 i; HasDosHdr := HasDosHdr i;
     HasRichHdr := HasRichHdr i; HasNTHdr := HasNTHdr i; HasDataDirs := HasDataDirs i;
     HasSections := HasSections i; HasExport := HasExport i; HasImport := HasImport i;
     HasResource := HasResource i; HasException := HasException i;
     HasSecurity := HasSecurity i; HasReloc := HasReloc i; HasDebug := HasDebug i;
     HasArchitect := HasArchitect i; HasGlobalPtr := HasGlobalPtr i;
     HasTLS := HasTLS i; HasLoadCFG := HasLoadCFG i; HasBoundImp := HasBoundImp i;
     HasIAT := HasIAT i; HasDelayImp := HasDelayImp i; HasCOMDescr := HasCOMDescr i |}.

Definition set_IsPE64 (b : bool) (i : PEFILEINFO) : PEFILEINFO :=
  {| IsPE32 := IsPE32 i; IsPE64 := b; HasDosHdr := HasDosHdr i;
     HasRichHdr := HasRichHdr i; HasNTHdr := HasNTHdr i; HasDataDirs := HasDataDirs i;
     HasSections := HasSections i; HasExport := HasExport i; HasImport := HasImport i;
     HasResource := HasResource i; HasException := HasException i;
     HasSecurity := HasSecurity i; HasReloc := HasReloc i; HasDebug := HasDebug i;
     HasArchitect := HasArchitect i; HasGlobalPtr := HasGlobalPtr i;
     HasTLS := HasTLS i; HasLoadCFG := HasLoadCFG i; HasBoundImp := HasBoundImp i;
     HasIAT := HasIAT i; HasDelayImp := HasDelayImp i; HasCOMDescr := HasCOMDescr i |}.

Definition set_HasDosHdr (b : bool) (i : PEFILEINFO) : PEFILEINFO :=
  {| IsPE32 := IsPE32 i; IsPE64 := IsPE64 i; HasDosHdr := b;
     HasRichHdr := HasRichHdr i; HasNTHdr := HasNTHdr i; HasDataDirs := HasDataDirs i;
     HasSections := HasSections i; HasExport := HasExport i; HasImport := HasImport i;
     HasResource := HasResource i; HasException := HasException i;
     HasSecurity := HasSecurity i; HasReloc := HasReloc i; HasDebug := HasDebug i;
     HasArchitect := HasArchitect i; HasGlobalPtr := HasGlobalPtr i;
     HasTLS := HasTLS i; HasLoadCFG := HasLoadCFG i; HasBoundImp := HasBoundImp i;
     HasIAT := HasIAT i; HasDelayImp := HasDelayImp i; HasCOMDescr := HasCOMDescr i |}.

Definition set_HasRichHdr (b : bool) (i : PEFILEINFO) : PEFILEINFO :=
  {| IsPE32 := IsPE32 i; IsPE64 := IsPE64 i; HasDosHdr := HasDosHdr i; HasRichHdr := b;
     HasNTHdr := HasNTHdr i; HasDataDirs := HasDataDirs i;
     HasSections := HasSections i; HasExport := HasExport i; HasImport := HasImport i;
     HasResource := HasResource i; HasException := HasException i;
     HasSecurity := HasSecurity i; HasReloc := HasReloc i; HasDebug := HasDebug i;
     HasArchitect := HasArchitect i; HasGlobalPtr := HasGlobalPtr i;
     HasTLS := HasTLS i; HasLoadCFG := HasLoadCFG i; HasBoundImp := HasBoundImp i;
     HasIAT := HasIAT i; HasDelayImp := HasDelayImp i; HasCOMDescr := HasCOMDescr i |}.

Definition set_HasNTHdr (b : bool) (i : PEFILEINFO) : PEFILEINFO :=
  {| IsPE32 := IsPE32 i; IsPE64 := IsPE64 i; HasDosHdr := HasDosHdr i;
     HasRichHdr := HasRichHdr i; HasNTHdr := b; HasDataDirs := HasDataDirs i;
     HasSections := HasSections i; HasExport := HasExport i; HasImport := HasImport i;
     HasResource := HasResource i; HasException := HasException i;
     HasSecurity := HasSecurity i; HasReloc := HasReloc i; HasDebug := HasDebug i;
     HasArchitect := HasArchitect i; HasGlobalPtr := HasGlobalPtr i;
     HasTLS := HasTLS i; HasLoadCFG := HasLoadCFG i; HasBoundImp := HasBoundImp i;
     HasIAT := HasIAT i; HasDelayImp := HasDelayImp i; HasCOMDescr := HasCOMDescr i |}.

Definition set_HasDataDirs (b : bool) (i : PEFILEINFO) : PEFILEINFO :=
  {| IsPE32 := IsPE32 i; IsPE64 := IsPE64 i; HasDosHdr := HasDosHdr i;
     HasRichHdr := HasRichHdr i; HasNTHdr := HasNTHdr i; HasDataDirs := b;
     HasSections := HasSections i; HasExport := HasExport i; HasImport := HasImport i;
     HasResource := HasResource i; HasException := HasException i;
     HasSecurity := HasSecurity i; HasReloc := HasReloc i; HasDebug := HasDebug i;
     HasArchitect := HasArchitect i; HasGlobalPtr := HasGlobalPtr i;
     HasTLS := HasTLS i; HasLoadCFG := HasLoadCFG i; HasBoundImp := HasBoundImp i;
     HasIAT := HasIAT i; HasDelayImp := HasDelayImp i; HasCOMDescr := HasCOMDescr i |}.

Definition set_HasSections (b : bool) (i : PEFILEINFO) : PEFILEINFO :=
  {| IsPE32 := IsPE32 i; IsPE64 := IsPE64 i; HasDosHdr := HasDosHdr i;
     HasRichHdr := HasRichHdr i; HasNTHdr := HasNTHdr i; HasDataDirs := HasDataDirs i;
     HasSections := b; HasExport := HasExport i; HasImport := HasImport i;
     HasResource := HasResource i; HasException := HasException i;
     HasSecurity := HasSecurity i; HasReloc := HasReloc i; HasDebug := HasDebug i;
     HasArchitect := HasArchitect i; HasGlobalPtr := HasGlobalPtr i;
     HasTLS := HasTLS i; HasLoadCFG := HasLoadCFG i; HasBoundImp := HasBoundImp i;
     HasIAT := HasIAT i; HasDelayImp := HasDelayImp i; HasCOMDescr := HasCOMDescr i |}.

Definition set_HasExport (b : bool) (i : PEFILEINFO) : PEFILEINFO :=
  {| IsPE32 := IsPE32 i; IsPE64 := IsPE64 i; HasDosHdr := HasDosHdr i;
     HasRichHdr := HasRichHdr i; HasNTHdr := HasNTHdr i; HasDataDirs := HasDataDirs i;
     HasSections := HasSections i; HasExport := b; HasImport := HasImport i;
     HasResource := HasResource i; HasException := HasException i;
     HasSecurity := HasSecurity i; HasReloc := HasReloc i; HasDebug := HasDebug i;
     HasArchitect := HasArchitect i; HasGlobalPtr := HasGlobalPtr i;
     HasTLS := HasTLS i; HasLoadCFG := HasLoadCFG i; HasBoundImp := HasBoundImp i;
     HasIAT := HasIAT i; HasDelayImp := HasDelayImp i; HasCOMDescr := HasCOMDescr i |}.

Definition set_HasImport (b : bool) (i : PEFILEINFO) : PEFILEINFO :=
  {| IsPE32 := IsPE32 i; IsPE64 := IsPE64 i; HasDosHdr := HasDosHdr i;
     HasRichHdr := HasRichHdr i; HasNTHdr := HasNTHdr i; HasDataDirs := HasDataDirs i;
     HasSections := HasSections i; HasExport := HasExport i; HasImport := b;
     HasResource := HasResource i; HasException := HasException i;
     HasSecurity := HasSecurity i; HasReloc := HasReloc i; HasDebug := HasDebug i;
     HasArchitect := HasArchitect i; HasGlobalPtr := HasGlobalPtr i;
     HasTLS := HasTLS i; HasLoadCFG := HasLoadCFG i; HasBoundImp := HasBoundImp i;
     HasIAT := HasIAT i; HasDelayImp := HasDelayImp i; HasCOMDescr := HasCOMDescr i |}.

Definition set_HasResource (b : bool) (i : PEFILEINFO) : PEFILEINFO :=
  {| IsPE32 := IsPE32 i; IsPE64 := IsPE64 i; HasDosHdr := HasDosHdr i;
     HasRichHdr := HasRichHdr i; HasNTHdr := HasNTHdr i; HasDataDirs := HasDataDirs i;
     HasSections := HasSections i; HasExport := HasExport i; HasImport := HasImport i;
     HasResource := b; HasException := HasException i; HasSecurity := HasSecurity i;
     HasReloc := HasReloc i; HasDebug := HasDebug i; HasArchitect := HasArchitect i;
     HasGlobalPtr := HasGlobalPtr i; HasTLS := HasTLS i; HasLoadCFG := HasLoadCFG i;
     HasBoundImp := HasBoundImp i; HasIAT := HasIAT i; HasDelayImp := HasDelayImp i;
     HasCOMDescr := HasCOMDescr i |}.

Definition set_HasException (b : bool) (i : PEFILEINFO) : PEFILEINFO :=
  {| IsPE32 := IsPE32 i; IsPE64 := IsPE64 i; HasDosHdr := HasDosHdr i;
     HasRichHdr := HasRichHdr i; HasNTHdr := HasNTHdr i; HasDataDirs := HasDataDirs i;
     HasSections := HasSections i; HasExport := HasExport i; HasImport := HasImport i;
     HasResource := HasResource i; HasException := b; HasSecurity := HasSecurity i;
     HasReloc := HasReloc i; HasDebug := HasDebug i; HasArchitect := HasArchitect i;
     HasGlobalPtr := HasGlobalPtr i; HasTLS := HasTLS i; HasLoadCFG := HasLoadCFG i;
     HasBoundImp := HasBoundImp i; HasIAT := HasIAT i; HasDelayImp := HasDelayImp i;
     HasCOMDescr := HasCOMDescr i |}.

Definition set_HasSecurity (b : bool) (i : PEFILEINFO) : PEFILEINFO :=
  {| IsPE32 := IsPE32 i; IsPE64 := IsPE64 i; HasDosHdr := HasDosHdr i;
     HasRichHdr := HasRichHdr i; HasNTHdr := HasNTHdr i; HasDataDirs := HasDataDirs i;
     HasSections := HasSections i; HasExport := HasExport i; HasImport := HasImport i;
     HasResource := HasResource i; HasException := HasException i; HasSecurity := b;
     HasReloc := HasReloc i; HasDebug := HasDebug i; HasArchitect := HasArchitect i;
     HasGlobalPtr := HasGlobalPtr i; HasTLS := HasTLS i; HasLoadCFG := HasLoadCFG i;
     HasBoundImp := HasBoundImp i; HasIAT := HasIAT i; HasDelayImp := HasDelayImp i;
     HasCOMDescr := HasCOMDescr i |}.

Definition set_HasReloc (b : bool) (i : PEFILEINFO) : PEFILEINFO :=
  {| IsPE32 := IsPE32 i; IsPE64 := IsPE64 i; HasDosHdr := HasDosHdr i;
     HasRichHdr := HasRichHdr i; HasNTHdr := HasNTHdr i; HasDataDirs := HasDataDirs i;
     HasSections := HasSections i; HasExport := HasExport i; HasImport := HasImport i;
     HasResource := HasResource i; HasException := HasException i;
     HasSecurity := HasSecurity i; HasReloc := b; HasDebug := HasDebug i;
     HasArchitect := HasArchitect i; HasGlobalPtr := HasGlobalPtr i;
     HasTLS := HasTLS i; HasLoadCFG := HasLoadCFG i; HasBoundImp := HasBoundImp i;
     HasIAT := HasIAT i; HasDelayImp := HasDelayImp i; HasCOMDescr := HasCOMDescr i |}.

Definition set_HasDebug (b : bool) (i : PEFILEINFO) : PEFILEINFO :=
  {| IsPE32 := IsPE32 i; IsPE64 := IsPE64 i; HasDosHdr := HasDosHdr i;
     HasRichHdr := HasRichHdr i; HasNTHdr := HasNTHdr i; HasDataDirs := HasDataDirs i;
     HasSections := HasSections i; HasExport := HasExport i; HasImport := HasImport i;
     HasResource := HasResource i; HasException := HasException i;
     HasSecurity := HasSecurity i; HasReloc := HasReloc i; HasDebug := b;
     HasArchitect := HasArchitect i; HasGlobalPtr := HasGlobalPtr i;
     HasTLS := HasTLS i; HasLoadCFG := HasLoadCFG i; HasBoundImp := HasBoundImp i;
     HasIAT := HasIAT i; HasDelayImp := HasDelayImp i; HasCOMDescr := HasCOMDescr i |}.



Definition set_HasTLS (b : bool) (i : PEFILEINFO) : PEFILEINFO :=
  {| IsPE32 := IsPE32 i; IsPE64 := IsPE64 i; HasDosHdr := HasDosHdr i;
     HasRichHdr := HasRichHdr i; HasNTHdr := HasNTHdr i; HasDataDirs := HasDataDirs i;
     HasSections := HasSections i; HasExport := HasExport i; HasImport := HasImport i;
     HasResource := HasResource i; HasException := HasException i;
     HasSecurity := HasSecurity i; HasReloc := HasReloc i; HasDebug := HasDebug i;
     HasArchitect := HasArchitect i; HasGlobalPtr := HasGlobalPtr i; HasTLS := b;
     HasLoadCFG := HasLoadCFG i; HasBoundImp := HasBoundImp i; HasIAT := HasIAT i;
     HasDelayImp := HasDelayImp i; HasCOMDescr := HasCOMDescr i |}.

Definition set_HasLoadCFG (b : bool) (i : PEFILEINFO) : PEFILEINFO :=
  {| IsPE32 := IsPE32 i; IsPE64 := IsPE64 i; HasDosHdr := HasDosHdr i;
     HasRichHdr := HasRichHdr i; HasNTHdr := HasNTHdr i; HasDataDirs := HasDataDirs i;
     HasSections := HasSections i; HasExport := HasExport i; HasImport := HasImport i;
     HasResource := HasResource i; HasException := HasException i;
     HasSecurity := HasSecurity i; HasReloc := HasReloc i; HasDebug := HasDebug i;
     HasArchitect := HasArchitect i; HasGlobalPtr := HasGlobalPtr i;
     HasTLS := HasTLS i; HasLoadCFG := b; HasBoundImp := HasBoundImp i;
     HasIAT := HasIAT i; HasDelayImp := HasDelayImp i; HasCOMDescr := HasCOMDescr i |}.

Definition set_HasBoundImp (b : bool) (i : PEFILEINFO) : PEFILEINFO :=
  {| IsPE32 := IsPE32 i; IsPE64 := IsPE64 i; HasDosHdr := HasDosHdr i;
     HasRichHdr := HasRichHdr i; HasNTHdr := HasNTHdr i; HasDataDirs := HasDataDirs i;
     HasSections := HasSections i; HasExport := HasExport i; HasImport := HasImport i;
     HasResource := HasResource i; HasException := HasException i;
     HasSecurity := HasSecurity i; HasReloc := HasReloc i; HasDebug := HasDebug i;
     HasArchitect := HasArchitect i; HasGlobalPtr := HasGlobalPtr i;
     HasTLS := HasTLS i; HasLoadCFG := HasLoadCFG i; HasBoundImp := b;
     HasIAT := HasIAT i; HasDelayImp := HasDelayImp i; HasCOMDescr := HasCOMDescr i |}.


Definition set_HasDelayImp (b : bool) (i : PEFILEINFO) : PEFILEINFO :=
  {| IsPE32 := IsPE32 i; IsPE64 := IsPE64 i; HasDosHdr := HasDosHdr i;
     HasRichHdr := HasRichHdr i; HasNTHdr := HasNTHdr i; HasDataDirs := HasDataDirs i;
     HasSections := HasSections i; HasExport := HasExport i; HasImport := HasImport i;
     HasResource := HasResource i; HasException := HasException i;
     HasSecurity := HasSecurity i; HasReloc := HasReloc i; HasDebug := HasDebug i;
     HasArchitect := HasArchitect i; HasGlobalPtr := HasGlobalPtr i;
     HasTLS := HasTLS i; HasLoadCFG := HasLoadCFG i; HasBoundImp := HasBoundImp i;
     HasIAT := HasIAT i; HasDelayImp := b; HasCOMDescr := HasCOMDescr i |}.

Definition set_HasCOMDescr (b : bool) (i : PEFILEINFO) : PEFILEINFO :=
  {| IsPE32 := IsPE32 i; IsPE64 := IsPE64 i; HasDosHdr := HasDosHdr i;
     HasRichHdr := HasRichHdr i; HasNTHdr := HasNTHdr i; HasDataDirs := HasDataDirs i;
     HasSections := HasSections i; HasExport := HasExport i; HasImport := HasImport i;
     HasResource := HasResource i; HasException := HasException i;
     HasSecurity := HasSecurity i; HasReloc := HasReloc i; HasDebug := HasDebug i;
     HasArchitect := HasArchitect i; HasGlobalPtr := HasGlobalPtr i;
     HasTLS := HasTLS i; HasLoadCFG := HasLoadCFG i; HasBoundImp := HasBoundImp i;
     HasIAT := HasIAT i; HasDelayImp := HasDelayImp i; HasCOMDescr := b |}.

Definition set_m_view (x : View) (m : Clibpe) : Clibpe :=
  {| m_view := x; m_fLoaded := m_fLoaded m; m_pNTHeader32 := m_pNTHeader32 m;
     m_pNTHeader64 := m_pNTHeader64 m; m_stFileInfo := m_stFileInfo m;
     m_stMSDOSHeader := m_stMSDOSHeader m; m_vecRichHeader := m_vecRichHeader m;
     m_stNTHeader := m_stNTHeader m; m_vecSecHeaders := m_vecSecHeaders m;
     m_stExport := m_stExport m; m_vecImport := m_vecImport m;
     m_stResource := m_stResource m; m_vecRelocs := m_vecRelocs m;
     m_stTLS := m_stTLS m; m_vecDelayImp := m_vecDelayImp m |}.

Definition set_m_fLoaded (x : bool) (m : Clibpe) : Clibpe :=
  {| m_view := m_view m; m_fLoaded := x; m_pNTHeader32 := m_pNTHeader32 m;
     m_pNTHeader64 := m_pNTHeader64 m; m_stFileInfo := m_stFileInfo m;
     m_stMSDOSHeader := m_stMSDOSHeader m; m_vecRichHeader := m_vecRichHeader m;
     m_stNTHeader := m_stNTHeader m; m_vecSecHeaders := m_vecSecHeaders m;
     m_stExport := m_stExport m; m_vecImport := m_vecImport m;
     m_stResource := m_stResource m; m_vecRelocs := m_vecRelocs m;
     m_stTLS := m_stTLS m; m_vecDelayImp := m_vecDelayImp m |}.

Definition set_m_pNTHeader32 (x : Z) (m : Clibpe) : Clibpe :=
  {| m_view := m_view m; m_fLoaded := m_fLoaded m; m_pNTHeader32 := x;
     m_pNTHeader64 := m_pNTHeader64 m; m_stFileInfo := m_stFileInfo m;
     m_stMSDOSHeader := m_stMSDOSHeader m; m_vecRichHeader := m_vecRichHeader m;
     m_stNTHeader := m_stNTHeader m; m_vecSecHeaders := m_vecSecHeaders m;
     m_stExport := m_stExport m; m_vecImport := m_vecImport m;
     m_stResource := m_stResource m; m_vecRelocs := m_vecRelocs m;
     m_stTLS := m_stTLS m; m_vecDelayImp := m_vecDelayImp m |}.

Definition set_m_pNTHeader64 (x : Z) (m : Clibpe) : Clibpe :=
  {| m_view := m_view m; m_fLoaded := m_fLoaded m; m_pNTHeader32 := m_pNTHeader32 m;
     m_pNTHeader64 := x; m_stFileInfo := m_stFileInfo m;
     m_stMSDOSHeader := m_stMSDOSHeader m; m_vecRichHeader := m_vecRichHeader m;
     m_stNTHeader := m_stNTHeader m; m_vecSecHeaders := m_vecSecHeaders m;
     m_stExport := m_stExport m; m_vecImport := m_vecImport m;
     m_stResource := m_stResource m; m_vecRelocs := m_vecRelocs m;
     m_stTLS := m_stTLS m; m_vecDelayImp := m_vecDelayImp m |}.

Definition set_m_stFileInfo (x : PEFILEINFO) (m : Clibpe) : Clibpe :=
  {| m_view := m_view m; m_fLoaded := m_fLoaded m; m_pNTHeader32 := m_pNTHeader32 m;
     m_pNTHeader64 := m_pNTHeader64 m; m_stFileInfo := x;
     m_stMSDOSHeader := m_stMSDOSHeader m; m_vecRichHeader := m_vecRichHeader m;
     m_stNTHeader := m_stNTHeader m; m_vecSecHeaders := m_vecSecHeaders m;
     m_stExport := m_stExport m; m_vecImport := m_vecImport m;
     m_stResource := m_stResource m; m_vecRelocs := m_vecRelocs m;
     m_stTLS := m_stTLS m; m_vecDelayImp := m_vecDelayImp m |}.

Definition set_m_stMSDOSHeader (x : list Z) (m : Clibpe) : Clibpe :=
  {| m_view := m_view m; m_fLoaded := m_fLoaded m; m_pNTHeader32 := m_pNTHeader32 m;
     m_pNTHeader64 := m_pNTHeader64 m; m_stFileInfo := m_stFileInfo m;
     m_stMSDOSHeader := x; m_vecRichHeader := m_vecRichHeader m;
     m_stNTHeader := m_stNTHeader m; m_vecSecHeaders := m_vecSecHeaders m;
     m_stExport := m_stExport m; m_vecImport := m_vecImport m;
     m_stResource := m_stResource m; m_vecRelocs := m_vecRelocs m;
     m_stTLS := m_stTLS m; m_vecDelayImp := m_vecDelayImp m |}.

Definition set_m_vecRichHeader (x : list PERICHHDR) (m : Clibpe) : Clibpe :=
  {| m_view := m_view m; m_fLoaded := m_fLoaded m; m_pNTHeader32 := m_pNTHeader32 m;
     m_pNTHeader64 := m_pNTHeader64 m; m_stFileInfo := m_stFileInfo m;
     m_stMSDOSHeader := m_stMSDOSHeader m; m_vecRichHeader := x;
     m_stNTHeader := m_stNTHeader m; m_vecSecHeaders := m_vecSecHeaders m;
     m_stExport := m_stExport m; m_vecImport := m_vecImport m;
     m_stResource := m_stResource m; m_vecRelocs := m_vecRelocs m;
     m_stTLS := m_stTLS m; m_vecDelayImp := m_vecDelayImp m |}.

Definition set_m_stNTHeader (x : PENtHeader) (m : Clibpe) : Clibpe :=
  {| m_view := m_view m; m_fLoaded := m_fLoaded m; m_pNTHeader32 := m_pNTHeader32 m;
     m_pNTHeader64 := m_pNTHeader64 m; m_stFileInfo := m_stFileInfo m;
     m_stMSDOSHeader := m_stMSDOSHeader m; m_vecRichHeader := m_vecRichHeader m;
     m_stNTHeader := x; m_vecSecHeaders := m_vecSecHeaders m;
     m_stExport := m_stExport m; m_vecImport := m_vecImport m;
     m_stResource := m_stResource m; m_vecRelocs := m_vecRelocs m;
     m_stTLS := m_stTLS m; m_vecDelayImp := m_vecDelayImp m |}.

Definition set_m_vecSecHeaders (x : list PESECHDR) (m : Clibpe) : Clibpe :=
  {| m_view := m_view m; m_fLoaded := m_fLoaded m; m_pNTHeader32 := m_pNTHeader32 m;
     m_pNTHeader64 := m_pNTHeader64 m; m_stFileInfo := m_stFileInfo m;
     m_stMSDOSHeader := m_stMSDOSHeader m; m_vecRichHeader := m_vecRichHeader m;
     m_stNTHeader := m_stNTHeader m; m_vecSecHeaders := x; m_stExport := m_stExport m;
     m_vecImport := m_vecImport m; m_stResource := m_stResource m;
     m_vecRelocs := m_vecRelocs m; m_stTLS := m_stTLS m;
     m_vecDelayImp := m_vecDelayImp m |}.

Definition set_m_stExport (x : PEExport) (m : Clibpe) : Clibpe :=
  {| m_view := m_view m; m_fLoaded := m_fLoaded m; m_pNTHeader32 := m_pNTHeader32 m;
     m_pNTHeader64 := m_pNTHeader64 m; m_stFileInfo := m_stFileInfo m;
     m_stMSDOSHeader := m_stMSDOSHeader m; m_vecRichHeader := m_vecRichHeader m;
     m_stNTHeader := m_stNTHeader m; m_vecSecHeaders := m_vecSecHeaders m;
     m_stExport := x; m_vecImport := m_vecImport m; m_stResource := m_stResource m;
     m_vecRelocs := m_vecRelocs m; m_stTLS := m_stTLS m;
     m_vecDelayImp := m_vecDelayImp m |}.

Definition set_m_vecImport (x : list PEImport) (m : Clibpe) : Clibpe :=
  {| m_view := m_view m; m_fLoaded := m_fLoaded m; m_pNTHeader32 := m_pNTHeader32 m;
     m_pNTHeader64 := m_pNTHeader64 m; m_stFileInfo := m_stFileInfo m;
     m_stMSDOSHeader := m_stMSDOSHeader m; m_vecRichHeader := m_vecRichHeader m;
     m_stNTHeader := m_stNTHeader m; m_vecSecHeaders := m_vecSecHeaders m;
     m_stExport := m_stExport m; m_vecImport := x; m_stResource := m_stResource m;
     m_vecRelocs := m_vecRelocs m; m_stTLS := m_stTLS m;
     m_vecDelayImp := m_vecDelayImp m |}.

Definition set_m_stResource (x : PEResRoot) (m : Clibpe) : Clibpe :=
  {| m_view := m_view m; m_fLoaded := m_fLoaded m; m_pNTHeader32 := m_pNTHeader32 m;
     m_pNTHeader64 := m_pNTHeader64 m; m_stFileInfo := m_stFileInfo m;
     m_stMSDOSHeader := m_stMSDOSHeader m; m_vecRichHeader := m_vecRichHeader m;
     m_stNTHeader := m_stNTHeader m; m_vecSecHeaders := m_vecSecHeaders m;
     m_stExport := m_stExport m; m_vecImport := m_vecImport m; m_stResource := x;
     m_vecRelocs := m_vecRelocs m; m_stTLS := m_stTLS m;
     m_vecDelayImp := m_vecDelayImp m |}.

Definition set_m_vecRelocs (x : list PEReloc) (m : Clibpe) : Clibpe :=
  {| m_view := m_view m; m_fLoaded := m_fLoaded m; m_pNTHeader32 := m_pNTHeader32 m;
     m_pNTHeader64 := m_pNTHeader64 m; m_stFileInfo := m_stFileInfo m;
     m_stMSDOSHeader := m_stMSDOSHeader m; m_vecRichHeader := m_vecRichHeader m;
     m_stNTHeader := m_stNTHeader m; m_vecSecHeaders := m_vecSecHeaders m;
     m_stExport := m_stExport m; m_vecImport := m_vecImport m;
     m_stResource := m_stResource m; m_vecRelocs := x; m_stTLS := m_stTLS m;
     m_vecDelayImp := m_vecDelayImp m |}.

Definition set_m_stTLS (x : PETLS) (m : Clibpe) : Clibpe :=
  {| m_view := m_view m; m_fLoaded := m_fLoaded m; m_pNTHeader32 := m_pNTHeader32 m;
     m_pNTHeader64 := m_pNTHeader64 m; m_stFileInfo := m_stFileInfo m;
     m_stMSDOSHeader := m_stMSDOSHeader m; m_vecRichHeader := m_vecRichHeader m;
     m_stNTHeader := m_stNTHeader m; m_vecSecHeaders := m_vecSecHeaders m;
     m_stExport := m_stExport m; m_vecImport := m_vecImport m;
     m_stResource := m_stResource m; m_vecRelocs := m_vecRelocs m; m_stTLS := x;
     m_vecDelayImp := m_vecDelayImp m |}.

Definition set_m_vecDelayImp (x : list PEDelayImport) (m : Clibpe) : Clibpe :=
  {| m_view := m_view m; m_fLoaded := m_fLoaded m; m_pNTHeader32 := m_pNTHeader32 m;
     m_pNTHeader64 := m_pNTHeader64 m; m_stFileInfo := m_stFileInfo m;
     m_stMSDOSHeader := m_stMSDOSHeader m; m_vecRichHeader := m_vecRichHeader m;
     m_stNTHeader := m_stNTHeader m; m_vecSecHeaders := m_vecSecHeaders m;
     m_stExport := m_stExport m; m_vecImport := m_vecImport m;
     m_stResource := m_stResource m; m_vecRelocs := m_vecRelocs m;
     m_stTLS := m_stTLS m; m_vecDelayImp := x |}.

(** [m_stFileInfo.Flag = true]. *)
Definition flag (f : bool -> PEFILEINFO -> PEFILEINFO) (m : Clibpe) : Clibpe :=
  set_m_stFileInfo (f true (m_stFileInfo m)) m.

(** ** Header parsers *)

Definition IMAGE_DOS_SIGNATURE : Z := 0x5A4D.
Definition IMAGE_NT_SIGNATURE : Z := 0x00004550.
Definition IMAGE_NT_OPTIONAL_HDR32_MAGIC : Z := 0x10b.
Definition IMAGE_NT_OPTIONAL_HDR64_MAGIC : Z := 0x20b.
(** [sizeof(IMAGE_DOS_HEADER)], [sizeof(IMAGE_NT_HEADERS32)],
    [sizeof(IMAGE_NT_HEADERS64)]. *)
Definition sizeof_IMAGE_DOS_HEADER : Z := 64.
Definition sizeof_IMAGE_NT_HEADERS32 : Z := 248.
Definition sizeof_IMAGE_NT_HEADERS64 : Z := 264.

Definition ParseMSDOSHeader (m : Clibpe) : bool * Clibpe :=
  let pDosHdr := GetDosPtr m in
  if negb (rd16 (m_view m) pDosHdr =? IMAGE_DOS_SIGNATURE) then (false, m)
  else
    (true,
     flag set_HasDosHdr
       (set_m_stMSDOSHeader
          (rd_bytes (m_view m) pDosHdr (Z.to_nat sizeof_IMAGE_DOS_HEADER)) m)).

(** "Rich" and "DanS" as DWORDs. *)
Definition RICH_SIGN : Z := 0x68636952.
Definition DANS_SIGN : Z := 0x536E6144.

(** The inner loop of [ParseRichHeader]: [n] double DWORDs from [pRichIter]. *)
Fixpoint rich_entries (m : Clibpe) (dwRichXORMask : Z) (n : nat) (pRichIter : Z)
    : list PERICHHDR :=
  match n with
  | O => []
  | S k =>
    {| rich_dwOffset := to_DWORD (PTR_sub pRichIter (GetBaseAddr m));
       rich_product_id := HIWORD (Z.lxor dwRichXORMask (rd32 (m_view m) pRichIter));
       rich_build_id := LOWORD (Z.lxor dwRichXORMask (rd32 (m_view m) pRichIter));
       rich_use_count := Z.lxor dwRichXORMask (rd32 (m_view m) (PTR_add pRichIter 4)) |}
    :: rich_entries m dwRichXORMask k (PTR_add pRichIter 8)
  end.

(** The test of the outer loop at [pRichIter]. *)
Definition rich_sign_here (m : Clibpe) (pRichIter : Z) : bool :=
  let pRichStartVA := PTR_add (GetBaseAddr m) 0x80 in
  (rd32 (m_view m) pRichIter =? RICH_SIGN)
  && (Z.lxor (rd32 (m_view m) pRichStartVA) (rd32 (m_view m) (PTR_add pRichIter 4))
      =? DANS_SIGN)
  && (PTR_add (GetBaseAddr m) 0x90 <=? pRichIter).

(** The outer loop: [n] DWORDs still to scan from [pRichIter]. *)
Fixpoint ParseRichHeader_loop (m : Clibpe) (n : nat) (pRichIter : Z) : bool * Clibpe :=
  match n with
  | O => (false, m)
  | S k =>
    if rich_sign_here m pRichIter then
      let dwRichSize :=
        to_DWORD (PTR_sub (PTR_sub pRichIter (GetBaseAddr m)) 0x90) / 8 in
      let dwRichXORMask := rd32 (m_view m) (PTR_add pRichIter 4) in
      (true,
       flag set_HasRichHdr
         (set_m_vecRichHeader
            (m_vecRichHeader m
             ++ rich_entries m dwRichXORMask (Z.to_nat dwRichSize)
                  (PTR_add (GetBaseAddr m) 0x90)) m))
    else ParseRichHeader_loop m k (PTR_add pRichIter 4)
  end.

Definition ParseRichHeader (m : Clibpe) : bool * Clibpe :=
  let ullBaseAddr := GetBaseAddr m in
  if (e_lfanew m <=? 0x80)
     || negb (IsPtrSafe m (PTR_add ullBaseAddr (e_lfanew m)) false)
  then (false, m)
  else ParseRichHeader_loop m (Z.to_nat ((e_lfanew m - 0x80) / 4))
         (PTR_add ullBaseAddr 0x80).

Definition ParseNTFileOptHeader (m : Clibpe) : bool * Clibpe :=
  let pNTHeader := PTR_add (GetBaseAddr m) (e_lfanew m) in
  if negb (IsPtrSafe m (PTR_add pNTHeader sizeof_IMAGE_NT_HEADERS32) false)
  then (false, m)
  else if negb (rd32 (m_view m) pNTHeader =? IMAGE_NT_SIGNATURE) then (false, m)
  else
    let Magic := rd16 (m_view m) (pNTHeader + 24) in
    if Magic =? IMAGE_NT_OPTIONAL_HDR32_MAGIC then
      (true,
       flag set_HasNTHdr
         (set_m_stNTHeader
            {| nt_dwOffset := PtrToOffset m pNTHeader;
               nt_bytes := rd_bytes (m_view m) pNTHeader
                             (Z.to_nat sizeof_IMAGE_NT_HEADERS32) |}
            (set_m_pNTHeader32 pNTHeader (flag set_IsPE32 m))))
    else if Magic =? IMAGE_NT_OPTIONAL_HDR64_MAGIC then
      (true,
       flag set_HasNTHdr
         (set_m_stNTHeader
            {| nt_dwOffset := PtrToOffset m pNTHeader;
               nt_bytes := rd_bytes (m_view m) pNTHeader
                             (Z.to_nat sizeof_IMAGE_NT_HEADERS64) |}
            (set_m_pNTHeader64 pNTHeader (flag set_IsPE64 m))))
    else (false, m).

(** Accessors: the record is handed out only when the object is loaded and
    the presence flag is set. *)
Definition GetRichHeader (m : Clibpe) : option (list PERICHHDR) :=
  if negb (m_fLoaded m) || negb (HasRichHdr (m_stFileInfo m)) then None
  else Some (m_vecRichHeader m).

(** ** Strings *)

Definition MAX_PATH : Z := 260.

(** The characters of the C string at [psz] when a NUL occurs among its first
    [n] characters, which is when [StringCchLengthA(psz, n, nullptr)]
    succeeds. *)
Fixpoint cstr_within (v : View) (psz : Z) (n : nat) : option (list Z) :=
  match n with
  | O => None
  | S k =>
    let c := rd8 v psz in
    if c =? 0 then Some []
    else match cstr_within v (PTR_add psz 1) k with
         | Some s => Some (c :: s)
         | None => None
         end
  end.

(** [if (psz && StringCchLengthA(psz, MAX_PATH, nullptr) !=
    STRSAFE_E_INVALID_PARAMETER) str = psz;] on an empty [str]. *)
Definition checked_string (m : Clibpe) (psz : Z) : list Z :=
  if psz =? 0 then []
  else match cstr_within (m_view m) psz (Z.to_nat MAX_PATH) with
       | Some s => s
       | None => []
       end.

(** [n] UTF-16 code units from [p]. *)
Fixpoint rd_wchars (v : View) (p : Z) (n : nat) : list Z :=
  match n with
  | O => []
  | S k => rd16 v p :: rd_wchars v (PTR_add p 2) k
  end.

(** ** Export directory *)

(** IMAGE_EXPORT_DIRECTORY, 40 bytes. *)
Definition sizeof_IMAGE_EXPORT_DIRECTORY : Z := 40.
Definition ped_Name (v : View) (p : Z) : Z := rd32 v (p + 12).
Definition ped_NumberOfFunctions (v : View) (p : Z) : Z := rd32 v (p + 20).
Definition ped_NumberOfNames (v : View) (p : Z) : Z := rd32 v (p + 24).
Definition ped_AddressOfFunctions (v : View) (p : Z) : Z := rd32 v (p + 28).
Definition ped_AddressOfNames (v : View) (p : Z) : Z := rd32 v (p + 32).
Definition ped_AddressOfNameOrdinals (v : View) (p : Z) : Z := rd32 v (p + 36).

(** "Cycling through ordinals table to get func name": the result is
    [(dwNameRVA, strFuncName)]. *)
Fixpoint export_name_loop (m : Clibpe) (pwOrdinals pdwNamesRVA iterFuncs : Z)
    (n : nat) (iterFuncNames : Z) : Z * list Z :=
  match n with
  | O => (0, [])
  | S k =>
    if negb (IsPtrSafe m (PTR_add pwOrdinals (2 * iterFuncNames)) false) then (0, [])
    else if rd16 (m_view m) (PTR_add pwOrdinals (2 * iterFuncNames)) =? iterFuncs then
      let dwNameRVA := rd32 (m_view m) (PTR_add pdwNamesRVA (4 * iterFuncNames)) in
      (dwNameRVA, checked_string m (RVAToPtr m dwNameRVA))
    else export_name_loop m pwOrdinals pdwNamesRVA iterFuncs k (iterFuncNames + 1)
  end.

(** The forwarder test of the source on a function RVA. *)
Definition export_is_forwarder (dwExportStartRVA dwExportEndRVA dwFuncRVA : Z) : bool :=
  (dwExportStartRVA <=? dwFuncRVA) && (dwFuncRVA <=? dwExportEndRVA).

(** One function with a non-zero RVA. *)
Definition export_function (m : Clibpe) (dwExportStartRVA dwExportEndRVA : Z)
    (pExportDir pdwFuncsRVA pwOrdinals pdwNamesRVA iterFuncs : Z) : PEExportFunction :=
  let dwFuncRVA := rd32 (m_view m) (PTR_add pdwFuncsRVA (4 * iterFuncs)) in
  let name :=
    if negb (pdwNamesRVA =? 0) && negb (pwOrdinals =? 0)
    then export_name_loop m pwOrdinals pdwNamesRVA iterFuncs
           (Z.to_nat (ped_NumberOfNames (m_view m) pExportDir)) 0
    else (0, []) in
  let strForwarderName :=
    if export_is_forwarder dwExportStartRVA dwExportEndRVA dwFuncRVA
    then checked_string m (RVAToPtr m dwFuncRVA)
    else [] in
  {| ef_FuncRVA := dwFuncRVA;
     ef_Ordinal := to_DWORD iterFuncs;
     ef_NameRVA := fst name;
     ef_FuncName := snd name;
     ef_ForwarderName := strForwarderName |}.

(** The loop over AddressOfFunctions; [n] counts the entries still to visit. *)
Fixpoint export_funcs_loop (m : Clibpe) (dwExportStartRVA dwExportEndRVA : Z)
    (pExportDir pdwFuncsRVA pwOrdinals pdwNamesRVA : Z)
    (n : nat) (iterFuncs : Z) (vecFuncs : list PEExportFunction)
    : list PEExportFunction :=
  match n with
  | O => vecFuncs
  | S k =>
    if negb (IsPtrSafe m (PTR_add pdwFuncsRVA (4 * iterFuncs)) false) then vecFuncs
    else
      let vecFuncs' :=
        if negb (rd32 (m_view m) (PTR_add pdwFuncsRVA (4 * iterFuncs)) =? 0)
        then vecFuncs ++ [export_function m dwExportStartRVA dwExportEndRVA
                            pExportDir pdwFuncsRVA pwOrdinals pdwNamesRVA iterFuncs]
        else vecFuncs in
      export_funcs_loop m dwExportStartRVA dwExportEndRVA
        pExportDir pdwFuncsRVA pwOrdinals pdwNamesRVA k (iterFuncs + 1) vecFuncs'
  end.

Definition ParseExport (m : Clibpe) : bool * Clibpe :=
  let dwExportStartRVA := GetDirEntryRVA m IMAGE_DIRECTORY_ENTRY_EXPORT in
  let dwExportEndRVA :=
    DWORD_add dwExportStartRVA (GetDirEntrySize m IMAGE_DIRECTORY_ENTRY_EXPORT) in
  let pExportDir := RVAToPtr m dwExportStartRVA in
  if pExportDir =? 0 then (false, m)
  else
    let pdwFuncsRVA := RVAToPtr m (ped_AddressOfFunctions (m_view m) pExportDir) in
    if pdwFuncsRVA =? 0 then (false, m)
    else
      let pwOrdinals := RVAToPtr m (ped_AddressOfNameOrdinals (m_view m) pExportDir) in
      let pdwNamesRVA := RVAToPtr m (ped_AddressOfNames (m_view m) pExportDir) in
      let vecFuncs :=
        export_funcs_loop m dwExportStartRVA dwExportEndRVA
          pExportDir pdwFuncsRVA pwOrdinals pdwNamesRVA
          (Z.to_nat (ped_NumberOfFunctions (m_view m) pExportDir)) 0 [] in
      let strModuleName := checked_string m (RVAToPtr m (ped_Name (m_view m) pExportDir)) in
      (true,
       flag set_HasExport
         (set_m_stExport
            {| exp_dwOffset := PtrToOffset m pExportDir;
               exp_ExportDesc := rd_bytes (m_view m) pExportDir
                                   (Z.to_nat sizeof_IMAGE_EXPORT_DIRECTORY);
               exp_ModuleName := strModuleName;
               exp_Funcs := vecFuncs |} m)).

(** ** Import directory *)

Definition IMAGE_ORDINAL_FLAG32 : Z := 0x80000000.
Definition IMAGE_ORDINAL_FLAG64 : Z := 0x8000000000000000.
Definition iMaxModules : Z := 1000.
Definition iMaxFuncs : Z := 5000.

(** IMAGE_IMPORT_DESCRIPTOR, 20 bytes. *)
Definition sizeof_IMAGE_IMPORT_DESCRIPTOR : Z := 20.
Definition pid_OriginalFirstThunk (v : View) (p : Z) : Z := rd32 v p.
Definition pid_Name (v : View) (p : Z) : Z := rd32 v (p + 12).
Definition pid_FirstThunk (v : View) (p : Z) : Z := rd32 v (p + 16).

(** Following AddressOfData to an IMAGE_IMPORT_BY_NAME: the pair
    [(stImpByName, strFuncName)], left empty when the pointer does not
    resolve or the name has no NUL within MAX_PATH characters. *)
Definition import_by_name (m : Clibpe) (ullAddressOfData : Z)
    : IMAGE_IMPORT_BY_NAME * list Z :=
  let pName := RVAToPtr m ullAddressOfData in
  if pName =? 0 then (no_import_by_name, [])
  else match cstr_within (m_view m) (PTR_add pName 2) (Z.to_nat MAX_PATH) with
       | Some s =>
         ({| ibn_Hint := rd16 (m_view m) pName;
             ibn_Name0 := rd8 (m_view m) (PTR_add pName 2) |}, s)
       | None => (no_import_by_name, [])
       end.

(** The body of the thunk loops up to [emplace_back]: the thunk value
    [thunk] and the mask it is tested against. *)
Definition import_function (m : Clibpe) (thunk ordinal_flag : Z) : PEImportFunction :=
  let by_name :=
    if Z.land thunk ordinal_flag =? 0 then import_by_name m thunk
    else (no_import_by_name, []) in
  {| if_Thunk := thunk; if_ImpByName := fst by_name; if_FuncName := snd by_name |}.

(** PE32: [if (!(pThunk32->u1.Ordinal & IMAGE_ORDINAL_FLAG32))]. *)
Definition import_function32 (m : Clibpe) (pThunk32 : Z) : PEImportFunction :=
  import_function m (rd32 (m_view m) pThunk32) IMAGE_ORDINAL_FLAG32.

(** PE32+: [if (!(pThunk64->u1.Ordinal & IMAGE_ORDINAL_FLAG32))]. *)
Definition import_function64 (m : Clibpe) (pThunk64 : Z) : PEImportFunction :=
  import_function m (rd64 (m_view m) pThunk64) IMAGE_ORDINAL_FLAG32.

(** The thunk loop of the PE32 branch. *)
Fixpoint import_thunks32 (m : Clibpe) (fuel : nat) (iFuncsCount pThunk32 : Z)
    (vecFunc : list PEImportFunction) : list PEImportFunction :=
  match fuel with
  | O => vecFunc
  | S k =>
    if rd32 (m_view m) pThunk32 =? 0 then vecFunc
    else
      let vecFunc' := vecFunc ++ [import_function32 m pThunk32] in
      let pThunk32' := PTR_add pThunk32 4 in
      if negb (IsPtrSafe m pThunk32' false) then vecFunc'
      else
        let iFuncsCount' := iFuncsCount + 1 in
        if iFuncsCount' =? iMaxFuncs then vecFunc'
        else import_thunks32 m k iFuncsCount' pThunk32' vecFunc'
  end.

(** The thunk loop of the PE32+ branch: the pointer is advanced unchecked and
    the counter is incremented and compared twice. *)
Fixpoint import_thunks64 (m : Clibpe) (fuel : nat) (iFuncsCount pThunk64 : Z)
    (vecFunc : list PEImportFunction) : list PEImportFunction :=
  match fuel with
  | O => vecFunc
  | S k =>
    if rd64 (m_view m) pThunk64 =? 0 then vecFunc
    else
      let vecFunc' := vecFunc ++ [import_function64 m pThunk64] in
      let pThunk64' := PTR_add pThunk64 8 in
      let iFuncsCount1 := iFuncsCount + 1 in
      if iFuncsCount1 =? iMaxFuncs then vecFunc'
      else
        let iFuncsCount2 := iFuncsCount1 + 1 in
        if iFuncsCount2 =? iMaxFuncs then vecFunc'
        else import_thunks64 m k iFuncsCount2 pThunk64' vecFunc'
  end.

(** How a descriptor loop was left: through the end of the loop or a
    [break], or through [return false]. *)
Inductive loop_exit := exit_break | exit_return_false.

(** One imported module, once its thunk array has been resolved. *)
Definition import_module (m : Clibpe) (pImpDesc : Z) (vecFunc : list PEImportFunction)
    : PEImport :=
  {| imp_dwOffset := PtrToOffset m pImpDesc;
     imp_ImportDesc := rd_bytes (m_view m) pImpDesc
                         (Z.to_nat sizeof_IMAGE_IMPORT_DESCRIPTOR);
     imp_ModuleName := checked_string m (RVAToPtr m (pid_Name (m_view m) pImpDesc));
     imp_Funcs := vecFunc |}.

(** [OriginalFirstThunk], or [FirstThunk] when the former is zero. *)
Definition import_thunk_rva (v : View) (pImpDesc : Z) : Z :=
  if pid_OriginalFirstThunk v pImpDesc =? 0 then pid_FirstThunk v pImpDesc
  else pid_OriginalFirstThunk v pImpDesc.

(** The descriptor loop; [pe64] selects the branch. *)
Fixpoint import_modules (m : Clibpe) (pe64 : bool) (fuel : nat)
    (iModulesCount pImpDesc : Z) (vecImport : list PEImport)
    : loop_exit * list PEImport :=
  match fuel with
  | O => (exit_break, vecImport)
  | S k =>
    if pid_Name (m_view m) pImpDesc =? 0 then (exit_break, vecImport)
    else
      let pImpDesc' := PTR_add pImpDesc sizeof_IMAGE_IMPORT_DESCRIPTOR in
      let next (vecImport' : list PEImport) :=
        if negb (IsPtrSafe m pImpDesc' false) then (exit_break, vecImport')
        else
          let iModulesCount' := iModulesCount + 1 in
          if iModulesCount' =? iMaxModules then (exit_break, vecImport')
          else import_modules m pe64 k iModulesCount' pImpDesc' vecImport' in
      if negb (import_thunk_rva (m_view m) pImpDesc =? 0) then
        let pThunk := RVAToPtr m (import_thunk_rva (m_view m) pImpDesc) in
        if pThunk =? 0
        then ((if pe64 then exit_return_false else exit_break), vecImport)
        else
          let vecFunc :=
            if pe64
            then import_thunks64 m (Z.to_nat iMaxFuncs) 0 pThunk []
            else import_thunks32 m (Z.to_nat iMaxFuncs) 0 pThunk [] in
          next (vecImport ++ [import_module m pImpDesc vecFunc])
      else next vecImport
  end.

Definition ParseImport (m : Clibpe) : bool * Clibpe :=
  let pImpDesc := RVAToPtr m (GetDirEntryRVA m IMAGE_DIRECTORY_ENTRY_IMPORT) in
  if pImpDesc =? 0 then (false, m)
  else if IsPE32 (m_stFileInfo m) then
    let r := import_modules m false (Z.to_nat iMaxModules) 0 pImpDesc (m_vecImport m) in
    (true, flag set_HasImport (set_m_vecImport (snd r) m))
  else if IsPE64 (m_stFileInfo m) then
    let r := import_modules m true (Z.to_nat iMaxModules) 0 pImpDesc (m_vecImport m) in
    match fst r with
    | exit_return_false => (false, set_m_vecImport (snd r) m)
    | exit_break => (true, flag set_HasImport (set_m_vecImport (snd r) m))
    end
  else (true, flag set_HasImport m).

Definition GetImport (m : Clibpe) : option (list PEImport) :=
  if negb (m_fLoaded m) || negb (HasImport (m_stFileInfo m)) then None
  else Some (m_vecImport m).

(** ** Resource directory *)

(** IMAGE_RESOURCE_DIRECTORY is 16 bytes, NumberOfNamedEntries and
    NumberOfIdEntries are its last two WORDs; an
    IMAGE_RESOURCE_DIRECTORY_ENTRY is 8 bytes. *)
Definition sizeof_IMAGE_RESOURCE_DIRECTORY : Z := 16.
Definition sizeof_IMAGE_RESOURCE_DIRECTORY_ENTRY : Z := 8.

Definition res_NumOfEntries (v : View) (pResDir : Z) : Z :=
  to_DWORD (rd16 v (pResDir + 12) + rd16 v (pResDir + 14)).

Definition rd_res_entry (v : View) (p : Z) : IMAGE_RESOURCE_DIRECTORY_ENTRY :=
  {| rde_Name := rd32 v p; rde_OffsetToData := rd32 v (p + 4) |}.

Definition rd_data_entry (v : View) (p : Z) : IMAGE_RESOURCE_DATA_ENTRY :=
  {| de_OffsetToData := rd32 v p; de_Size := rd32 v (p + 4);
     de_CodePage := rd32 v (p + 8); de_Reserved := rd32 v (p + 12) |}.

(** The name of an entry: [None] is the [break] on an overflowing NameOffset,
    otherwise the string (empty for an id, or when the pointer is unsafe),
    of at most MAX_PATH code units. *)
Definition res_name (m : Clibpe) (pResDirRoot : Z) (e : IMAGE_RESOURCE_DIRECTORY_ENTRY)
    : option (list Z) :=
  if NameIsString e then
    if IsSumOverflow pResDirRoot (NameOffset e) then None
    else
      let pResDirStr := PTR_add pResDirRoot (NameOffset e) in
      if IsPtrSafe m pResDirStr false then
        let Length := rd16 (m_view m) pResDirStr in
        Some (rd_wchars (m_view m) (PTR_add pResDirStr 2)
                (Z.to_nat (if Length <? MAX_PATH then Length else MAX_PATH)))
      else Some []
  else Some [].

(** A data leaf: the IMAGE_RESOURCE_DATA_ENTRY at root + OffsetToData (or a
    zeroed one when that pointer is unsafe) and the raw bytes, copied when
    the RVA resolves and the end of the data is within the file or at its
    end. *)
Definition res_leaf (m : Clibpe) (pResDirRoot : Z) (e : IMAGE_RESOURCE_DIRECTORY_ENTRY)
    : IMAGE_RESOURCE_DATA_ENTRY * list Z :=
  let pResDataEntry := PTR_add pResDirRoot (rde_OffsetToData e) in
  if IsPtrSafe m pResDataEntry false then
    let de := rd_data_entry (m_view m) pResDataEntry in
    let pRawDataBegin := RVAToPtr m (de_OffsetToData de) in
    (de,
     if negb (pRawDataBegin =? 0)
        && IsPtrSafe m (PTR_add pRawDataBegin (de_Size de)) true
     then rd_bytes (m_view m) pRawDataBegin (Z.to_nat (de_Size de))
     else [])
  else (no_data_entry, []).

(** A directory recorded without descending into it. *)
Definition res_dir_bytes (m : Clibpe) (pResDir : Z) : list Z :=
  rd_bytes (m_view m) pResDir (Z.to_nat sizeof_IMAGE_RESOURCE_DIRECTORY).

(** Level 3: every entry is a leaf. *)
Definition res_entry3 (m : Clibpe) (pResDirRoot pResDirEntryLvL3 : Z)
    : option PEResLevel3Data :=
  let e := rd_res_entry (m_view m) pResDirEntryLvL3 in
  match res_name m pResDirRoot e with
  | None => None
  | Some wstrResNameLvL3 =>
    let leaf := res_leaf m pResDirRoot e in
    Some {| r3_ResDirEntry := e; r3_ResName := wstrResNameLvL3;
            r3_ResDataEntry := fst leaf; r3_RawResData := snd leaf |}
  end.

Fixpoint res_loop3 (m : Clibpe) (pResDirRoot : Z) (n : nat) (pResDirEntryLvL3 : Z)
    (vecResDataLvL3 : list PEResLevel3Data) : list PEResLevel3Data :=
  match n with
  | O => vecResDataLvL3
  | S k =>
    match res_entry3 m pResDirRoot pResDirEntryLvL3 with
    | None => vecResDataLvL3
    | Some d =>
      let p' := PTR_add pResDirEntryLvL3 sizeof_IMAGE_RESOURCE_DIRECTORY_ENTRY in
      if negb (IsPtrSafe m p' false) then vecResDataLvL3 ++ [d]
      else res_loop3 m pResDirRoot k p' (vecResDataLvL3 ++ [d])
    end
  end.

(** The child directory of a level-2 entry: [None] is a [break] of the
    level-2 loop. *)
Definition res_level3 (m : Clibpe) (pResDirRoot pResDirLvL2 : Z)
    (e : IMAGE_RESOURCE_DIRECTORY_ENTRY) : option PEResLevel3 :=
  let pResDirLvL3 := PTR_add pResDirRoot (OffsetToDirectory e) in
  if negb (IsPtrSafe m pResDirLvL3 false) then None
  else if (pResDirLvL3 =? pResDirLvL2) || (pResDirLvL3 =? pResDirRoot) then
    Some {| l3_dwOffset := PtrToOffset m pResDirLvL3;
            l3_ResDir := res_dir_bytes m pResDirLvL3;
            l3_ResData := [] |}
  else
    let pResDirEntryLvL3 := PTR_add pResDirLvL3 sizeof_IMAGE_RESOURCE_DIRECTORY in
    let dwNumOfEntriesLvL3 := res_NumOfEntries (m_view m) pResDirLvL3 in
    if negb (IsPtrSafe m
               (PTR_add pResDirEntryLvL3
                  (sizeof_IMAGE_RESOURCE_DIRECTORY_ENTRY * dwNumOfEntriesLvL3)) false)
    then None
    else
      Some {| l3_dwOffset := PtrToOffset m pResDirLvL3;
              l3_ResDir := res_dir_bytes m pResDirLvL3;
              l3_ResData := res_loop3 m pResDirRoot (Z.to_nat dwNumOfEntriesLvL3)
                              pResDirEntryLvL3 [] |}.

Definition res_entry2 (m : Clibpe) (pResDirRoot pResDirLvL2 pResDirEntryLvL2 : Z)
    : option PEResLevel2Data :=
  let e := rd_res_entry (m_view m) pResDirEntryLvL2 in
  match res_name m pResDirRoot e with
  | None => None
  | Some wstrResNameLvL2 =>
    if DataIsDirectory e then
      match res_level3 m pResDirRoot pResDirLvL2 e with
      | None => None
      | Some stResLvL3 =>
        Some {| r2_ResDirEntry := e; r2_ResName := wstrResNameLvL2;
                r2_ResDataEntry := no_data_entry; r2_RawResData := [];
                r2_ResLvL3 := stResLvL3 |}
      end
    else
      let leaf := res_leaf m pResDirRoot e in
      Some {| r2_ResDirEntry := e; r2_ResName := wstrResNameLvL2;
              r2_ResDataEntry := fst leaf; r2_RawResData := snd leaf;
              r2_ResLvL3 := no_level3 |}
  end.

Fixpoint res_loop2 (m : Clibpe) (pResDirRoot pResDirLvL2 : Z) (n : nat)
    (pResDirEntryLvL2 : Z) (vecResDataLvL2 : list PEResLevel2Data)
    : list PEResLevel2Data :=
  match n with
  | O => vecResDataLvL2
  | S k =>
    match res_entry2 m pResDirRoot pResDirLvL2 pResDirEntryLvL2 with
    | None => vecResDataLvL2
    | Some d =>
      let p' := PTR_add pResDirEntryLvL2 sizeof_IMAGE_RESOURCE_DIRECTORY_ENTRY in
      if negb (IsPtrSafe m p' false) then vecResDataLvL2 ++ [d]
      else res_loop2 m pResDirRoot pResDirLvL2 k p' (vecResDataLvL2 ++ [d])
    end
  end.

(** The child directory of a root entry: [None] is a [break] of the root
    loop. *)
Definition res_level2 (m : Clibpe) (pResDirRoot : Z)
    (e : IMAGE_RESOURCE_DIRECTORY_ENTRY) : option PEResLevel2 :=
  let pResDirLvL2 := PTR_add pResDirRoot (OffsetToDirectory e) in
  if negb (IsPtrSafe m pResDirLvL2 false) then None
  else if pResDirLvL2 =? pResDirRoot then
    Some {| l2_dwOffset := PtrToOffset m pResDirLvL2;
            l2_ResDir := res_dir_bytes m pResDirLvL2;
            l2_ResData := [] |}
  else
    let pResDirEntryLvL2 := PTR_add pResDirLvL2 sizeof_IMAGE_RESOURCE_DIRECTORY in
    let dwNumOfEntriesLvL2 := res_NumOfEntries (m_view m) pResDirLvL2 in
    if negb (IsPtrSafe m
               (PTR_add pResDirEntryLvL2
                  (sizeof_IMAGE_RESOURCE_DIRECTORY_ENTRY * dwNumOfEntriesLvL2)) false)
    then None
    else
      Some {| l2_dwOffset := PtrToOffset m pResDirLvL2;
              l2_ResDir := res_dir_bytes m pResDirLvL2;
              l2_ResData := res_loop2 m pResDirRoot pResDirLvL2
                              (Z.to_nat dwNumOfEntriesLvL2) pResDirEntryLvL2 [] |}.

Definition res_entry1 (m : Clibpe) (pResDirRoot pResDirEntryRoot : Z)
    : option PEResRootData :=
  let e := rd_res_entry (m_view m) pResDirEntryRoot in
  match res_name m pResDirRoot e with
  | None => None
  | Some wstrResNameRoot =>
    if DataIsDirectory e then
      match res_level2 m pResDirRoot e with
      | None => None
      | Some stResLvL2 =>
        Some {| r1_ResDirEntry := e; r1_ResName := wstrResNameRoot;
                r1_ResDataEntry := no_data_entry; r1_RawResData := [];
                r1_ResLvL2 := stResLvL2 |}
      end
    else
      let leaf := res_leaf m pResDirRoot e in
      Some {| r1_ResDirEntry := e; r1_ResName := wstrResNameRoot;
              r1_ResDataEntry := fst leaf; r1_RawResData := snd leaf;
              r1_ResLvL2 := no_level2 |}
  end.

Fixpoint res_loop1 (m : Clibpe) (pResDirRoot : Z) (n : nat) (pResDirEntryRoot : Z)
    (vecResDataRoot : list PEResRootData) : list PEResRootData :=
  match n with
  | O => vecResDataRoot
  | S k =>
    match res_entry1 m pResDirRoot pResDirEntryRoot with
    | None => vecResDataRoot
    | Some d =>
      let p' := PTR_add pResDirEntryRoot sizeof_IMAGE_RESOURCE_DIRECTORY_ENTRY in
      if negb (IsPtrSafe m p' false) then vecResDataRoot ++ [d]
      else res_loop1 m pResDirRoot k p' (vecResDataRoot ++ [d])
    end
  end.

Definition ParseResources (m : Clibpe) : bool * Clibpe :=
  let pResDirRoot := RVAToPtr m (GetDirEntryRVA m IMAGE_DIRECTORY_ENTRY_RESOURCE) in
  if pResDirRoot =? 0 then (false, m)
  else
    let pResDirEntryRoot := PTR_add pResDirRoot sizeof_IMAGE_RESOURCE_DIRECTORY in
    if negb (IsPtrSafe m pResDirEntryRoot false) then (false, m)
    else
      let dwNumOfEntriesRoot := res_NumOfEntries (m_view m) pResDirRoot in
      if negb (IsPtrSafe m
                 (PTR_add pResDirEntryRoot
                    (sizeof_IMAGE_RESOURCE_DIRECTORY_ENTRY * dwNumOfEntriesRoot)) false)
      then (false, m)
      else
        (true,
         flag set_HasResource
           (set_m_stResource
              {| l1_dwOffset := PtrToOffset m pResDirRoot;
                 l1_ResDir := res_dir_bytes m pResDirRoot;
                 l1_ResData := res_loop1 m pResDirRoot (Z.to_nat dwNumOfEntriesRoot)
                                 pResDirEntryRoot [] |} m)).

Definition GetResources (m : Clibpe) : option PEResRoot :=
  if negb (m_fLoaded m) || negb (HasResource (m_stFileInfo m)) then None
  else Some (m_stResource m).

(** ** Base relocations *)

Definition sizeof_IMAGE_BASE_RELOCATION : Z := 8.
Definition IMAGE_REL_BASED_HIGHADJ : Z := 4.
Definition pbr_VirtualAddress (v : View) (p : Z) : Z := rd32 v p.
Definition pbr_SizeOfBlock (v : View) (p : Z) : Z := rd32 v (p + 4).

(** The entries of one block: [i] and [dwNumRelocEntries] are the loop
    variables of the source, [fuel] bounds the iterations. *)
Fixpoint reloc_entries (m : Clibpe) (fuel : nat) (i dwNumRelocEntries pwRelocEntry : Z)
    (vecRelocs : list PERelocData) : list PERelocData :=
  match fuel with
  | O => vecRelocs
  | S k =>
    if negb (i <? dwNumRelocEntries) then vecRelocs
    else if negb (IsPtrSafe m pwRelocEntry false) then vecRelocs
    else
      let w := rd16 (m_view m) pwRelocEntry in
      let wRelocType := Z.shiftr (Z.land w 0xF000) 12 in
      let vecRelocs1 :=
        vecRelocs ++ [{| rd_dwOffset := PtrToOffset m pwRelocEntry;
                         rd_RelocType := wRelocType;
                         rd_RelocOffset := Z.land w 0x0fff |}] in
      if wRelocType =? IMAGE_REL_BASED_HIGHADJ then
        let pwRelocEntry1 := PTR_add pwRelocEntry 2 in
        if negb (IsPtrSafe m pwRelocEntry1 false) then []
        else
          reloc_entries m k (i + 1) (DWORD_sub dwNumRelocEntries 1)
            (PTR_add pwRelocEntry1 2)
            (vecRelocs1 ++ [{| rd_dwOffset := PtrToOffset m pwRelocEntry1;
                               rd_RelocType := wRelocType;
                               rd_RelocOffset := rd16 (m_view m) pwRelocEntry1 |}])
      else reloc_entries m k (i + 1) dwNumRelocEntries (PTR_add pwRelocEntry 2) vecRelocs1
  end.

Definition reloc_block (m : Clibpe) (pBaseRelocDesc : Z) (data : list PERelocData)
    : PEReloc :=
  {| rel_dwOffset := PtrToOffset m pBaseRelocDesc;
     rel_BaseReloc := rd_bytes (m_view m) pBaseRelocDesc
                        (Z.to_nat sizeof_IMAGE_BASE_RELOCATION);
     rel_Data := data |}.

(** The block loop. *)
Fixpoint reloc_blocks (m : Clibpe) (fuel : nat) (pBaseRelocDesc : Z)
    (vecRelocs : list PEReloc) : list PEReloc :=
  match fuel with
  | O => vecRelocs
  | S k =>
    let SizeOfBlock := pbr_SizeOfBlock (m_view m) pBaseRelocDesc in
    if (SizeOfBlock =? 0) || (pbr_VirtualAddress (m_view m) pBaseRelocDesc =? 0)
    then vecRelocs
    else if SizeOfBlock <? sizeof_IMAGE_BASE_RELOCATION
    then vecRelocs ++ [reloc_block m pBaseRelocDesc []]
    else
      let dwNumRelocEntries := DWORD_sub SizeOfBlock sizeof_IMAGE_BASE_RELOCATION / 2 in
      let pwRelocEntry := PTR_add pBaseRelocDesc sizeof_IMAGE_BASE_RELOCATION in
      let vecRelocs' :=
        vecRelocs
        ++ [reloc_block m pBaseRelocDesc
              (reloc_entries m (Z.to_nat dwNumRelocEntries) 0 dwNumRelocEntries
                 pwRelocEntry [])] in
      if IsSumOverflow pBaseRelocDesc SizeOfBlock then vecRelocs'
      else
        let pBaseRelocDesc' := PTR_add pBaseRelocDesc SizeOfBlock in
        if negb (IsPtrSafe m pBaseRelocDesc' false) then vecRelocs'
        else reloc_blocks m k pBaseRelocDesc' vecRelocs'
  end.

(** Every pass of a loop that advances a checked pointer moves it forward
    inside the file, so the file size bounds the number of passes. *)
Definition walk_fuel (m : Clibpe) : nat := S (Z.to_nat (GetDataSize m)).

Definition ParseRelocations (m : Clibpe) : bool * Clibpe :=
  let pBaseRelocDesc := RVAToPtr m (GetDirEntryRVA m IMAGE_DIRECTORY_ENTRY_BASERELOC) in
  if pBaseRelocDesc =? 0 then (false, m)
  else
    let vecRelocs0 :=
      if (pbr_SizeOfBlock (m_view m) pBaseRelocDesc =? 0)
         || (pbr_VirtualAddress (m_view m) pBaseRelocDesc =? 0)
      then m_vecRelocs m ++ [reloc_block m pBaseRelocDesc []]
      else m_vecRelocs m in
    (true,
     flag set_HasReloc
       (set_m_vecRelocs (reloc_blocks m (walk_fuel m) pBaseRelocDesc vecRelocs0) m)).

(** ** Thread local storage *)

Definition sizeof_IMAGE_TLS_DIRECTORY32 : Z := 24.
Definition sizeof_IMAGE_TLS_DIRECTORY64 : Z := 40.

(** The callback loop: DWORDs up to a zero; leaving the file clears what was
    collected. *)
Fixpoint tls_callbacks (m : Clibpe) (fuel : nat) (pTLSCallbacks : Z)
    (vecTLSCallbacks : list Z) : list Z :=
  match fuel with
  | O => vecTLSCallbacks
  | S k =>
    if rd32 (m_view m) pTLSCallbacks =? 0 then vecTLSCallbacks
    else
      let vecTLSCallbacks' := vecTLSCallbacks ++ [rd32 (m_view m) pTLSCallbacks] in
      let pTLSCallbacks' := PTR_add pTLSCallbacks 4 in
      if negb (IsPtrSafe m pTLSCallbacks' false) then []
      else tls_callbacks m k pTLSCallbacks' vecTLSCallbacks'
  end.

(** The part of [ParseTLS] after the directory has been read: [pdwTLSPtr] is
    the directory, [dir] its copy. *)
Definition tls_record (m : Clibpe) (pdwTLSPtr : Z) (dir : list Z)
    (ullAddressOfCallBacks : Z) : PETLS :=
  let pTLSCallbacks := RVAToPtr m (PTR_sub ullAddressOfCallBacks (GetImageBase m)) in
  {| tls_dwOffset := PtrToOffset m pdwTLSPtr;
     tls_Dir := dir;
     tls_Callbacks :=
       if negb (pTLSCallbacks =? 0)
       then tls_callbacks m (walk_fuel m) pTLSCallbacks []
       else [] |}.

Definition ParseTLS (m : Clibpe) : bool * Clibpe :=
  let dwTLSDirRVA := GetDirEntryRVA m IMAGE_DIRECTORY_ENTRY_TLS in
  if dwTLSDirRVA =? 0 then (false, m)
  else if IsPE32 (m_stFileInfo m) then
    let pTLSDir32 := RVAToPtr m dwTLSDirRVA in
    if pTLSDir32 =? 0 then (false, m)
    else
      (true,
       flag set_HasTLS
         (set_m_stTLS
            (tls_record m pTLSDir32
               (rd_bytes (m_view m) pTLSDir32 (Z.to_nat sizeof_IMAGE_TLS_DIRECTORY32))
               (rd32 (m_view m) (pTLSDir32 + 12))) m))
  else if IsPE64 (m_stFileInfo m) then
    let pTLSDir64 := RVAToPtr m dwTLSDirRVA in
    if pTLSDir64 =? 0 then (false, m)
    else
      (true,
       flag set_HasTLS
         (set_m_stTLS
            (tls_record m pTLSDir64
               (rd_bytes (m_view m) pTLSDir64 (Z.to_nat sizeof_IMAGE_TLS_DIRECTORY64))
               (rd64 (m_view m) (pTLSDir64 + 24))) m))
  else (false, m).

(** ** Delay import *)

(** IMAGE_DELAYLOAD_DESCRIPTOR, 32 bytes. *)
Definition sizeof_IMAGE_DELAYLOAD_DESCRIPTOR : Z := 32.
Definition pdd_DllNameRVA (v : View) (p : Z) : Z := rd32 v (p + 4).
Definition pdd_ImportAddressTableRVA (v : View) (p : Z) : Z := rd32 v (p + 12).
Definition pdd_ImportNameTableRVA (v : View) (p : Z) : Z := rd32 v (p + 16).
Definition pdd_BoundImportAddressTableRVA (v : View) (p : Z) : Z := rd32 v (p + 20).
Definition pdd_UnloadInformationTableRVA (v : View) (p : Z) : Z := rd32 v (p + 24).

(** Thunk width and ordinal flag of the two branches. *)
Definition thunk_size (pe64 : bool) : Z := if pe64 then 8 else 4.
Definition rd_thunk (v : View) (pe64 : bool) (p : Z) : Z :=
  if pe64 then rd64 v p else rd32 v p.
Definition delay_ordinal_flag (pe64 : bool) : Z :=
  if pe64 then IMAGE_ORDINAL_FLAG64 else IMAGE_ORDINAL_FLAG32.

(** [p ? *p : IMAGE_THUNK_DATA{ }]. *)
Definition thunk_or_zero (v : View) (pe64 : bool) (p : Z) : Z :=
  if p =? 0 then 0 else rd_thunk v pe64 p.

(** The function recorded at the current position of the four arrays. *)
Definition delay_function (m : Clibpe) (pe64 : bool)
    (pThunkName pThunkIAT pThunkBoundIAT pThunkUnloadInfoTable : Z) : PEDelayImportFunc :=
  let thunk := rd_thunk (m_view m) pe64 pThunkName in
  let by_name :=
    if Z.land thunk (delay_ordinal_flag pe64) =? 0 then import_by_name m thunk
    else (no_import_by_name, []) in
  {| dif_Thunk :=
       {| ImportAddressTable := rd_thunk (m_view m) pe64 pThunkName;
          ImportNameTable := thunk_or_zero (m_view m) pe64 pThunkIAT;
          BoundImportAddressTable := thunk_or_zero (m_view m) pe64 pThunkBoundIAT;
          UnloadInformationTable :=
            thunk_or_zero (m_view m) pe64 pThunkUnloadInfoTable |};
     dif_ImpByName := fst by_name;
     dif_FuncName := snd by_name |}.

(** [if (p) if (!IsPtrSafe(++p)) break;]: [None] is the [break], otherwise
    the pointer after the step (a null pointer stays null). *)
Definition step_if_present (m : Clibpe) (pe64 : bool) (p : Z) : option Z :=
  if p =? 0 then Some 0
  else
    let p' := PTR_add p (thunk_size pe64) in
    if negb (IsPtrSafe m p' false) then None else Some p'.

Fixpoint delay_thunks (m : Clibpe) (pe64 : bool) (fuel : nat)
    (pThunkName pThunkIAT pThunkBoundIAT pThunkUnloadInfoTable : Z)
    (vecFunc : list PEDelayImportFunc) : list PEDelayImportFunc :=
  match fuel with
  | O => vecFunc
  | S k =>
    if rd_thunk (m_view m) pe64 pThunkName =? 0 then vecFunc
    else
      let vecFunc' :=
        vecFunc ++ [delay_function m pe64 pThunkName pThunkIAT pThunkBoundIAT
                      pThunkUnloadInfoTable] in
      let pThunkName' := PTR_add pThunkName (thunk_size pe64) in
      if negb (IsPtrSafe m pThunkName' false) then vecFunc'
      else
        match step_if_present m pe64 pThunkIAT with
        | None => vecFunc'
        | Some pThunkIAT' =>
          match step_if_present m pe64 pThunkBoundIAT with
          | None => vecFunc'
          | Some pThunkBoundIAT' =>
            match step_if_present m pe64 pThunkUnloadInfoTable with
            | None => vecFunc'
            | Some pThunkUnloadInfoTable' =>
              delay_thunks m pe64 k pThunkName' pThunkIAT' pThunkBoundIAT'
                pThunkUnloadInfoTable' vecFunc'
            end
          end
        end
  end.

Definition delay_module (m : Clibpe) (pDelayImpDescr : Z)
    (vecFunc : list PEDelayImportFunc) : PEDelayImport :=
  {| dimp_dwOffset := PtrToOffset m pDelayImpDescr;
     dimp_DelayImpDesc := rd_bytes (m_view m) pDelayImpDescr
                            (Z.to_nat sizeof_IMAGE_DELAYLOAD_DESCRIPTOR);
     dimp_ModuleName :=
       checked_string m (RVAToPtr m (pdd_DllNameRVA (m_view m) pDelayImpDescr));
     dimp_Funcs := vecFunc |}.

(** The thunks recorded for the descriptor at [pDelayImpDescr], once its
    ImportNameTable has resolved to [pThunkName]. *)
Definition delay_descriptor_funcs (m : Clibpe) (pe64 : bool)
    (pDelayImpDescr pThunkName : Z) : list PEDelayImportFunc :=
  delay_thunks m pe64 (walk_fuel m) pThunkName
    (RVAToPtr m (pdd_ImportAddressTableRVA (m_view m) pDelayImpDescr))
    (RVAToPtr m (pdd_BoundImportAddressTableRVA (m_view m) pDelayImpDescr))
    (RVAToPtr m (pdd_UnloadInformationTableRVA (m_view m) pDelayImpDescr)) [].

Fixpoint delay_modules (m : Clibpe) (pe64 : bool) (fuel : nat) (pDelayImpDescr : Z)
    (vecDelayImp : list PEDelayImport) : list PEDelayImport :=
  match fuel with
  | O => vecDelayImp
  | S k =>
    if pdd_DllNameRVA (m_view m) pDelayImpDescr =? 0 then vecDelayImp
    else
      let pDelayImpDescr' := PTR_add pDelayImpDescr sizeof_IMAGE_DELAYLOAD_DESCRIPTOR in
      if pdd_ImportNameTableRVA (m_view m) pDelayImpDescr =? 0 then
        if negb (IsPtrSafe m pDelayImpDescr' false) then vecDelayImp
        else delay_modules m pe64 k pDelayImpDescr' vecDelayImp
      else
        let pThunkName :=
          RVAToPtr m (pdd_ImportNameTableRVA (m_view m) pDelayImpDescr) in
        if pThunkName =? 0 then vecDelayImp
        else
          let vecDelayImp' :=
            vecDelayImp
            ++ [delay_module m pDelayImpDescr
                  (delay_descriptor_funcs m pe64 pDelayImpDescr pThunkName)] in
          if negb (IsPtrSafe m pDelayImpDescr' false) then vecDelayImp'
          else delay_modules m pe64 k pDelayImpDescr' vecDelayImp'
  end.

Definition ParseDelayImport (m : Clibpe) : bool * Clibpe :=
  let pDelayImpDescr :=
    RVAToPtr m (GetDirEntryRVA m IMAGE_DIRECTORY_ENTRY_DELAY_IMPORT) in
  if pDelayImpDescr =? 0 then (false, m)
  else if IsPE32 (m_stFileInfo m) then
    (true,
     flag set_HasDelayImp
       (set_m_vecDelayImp
          (delay_modules m false (walk_fuel m) pDelayImpDescr (m_vecDelayImp m)) m))
  else if IsPE64 (m_stFileInfo m) then
    (true,
     flag set_HasDelayImp
       (set_m_vecDelayImp
          (delay_modules m true (walk_fuel m) pDelayImpDescr (m_vecDelayImp m)) m))
  else (true, flag set_HasDelayImp m).

(** ** Presence-only directories *)




(** ** Loading *)



Section Loading.

(** The parsers whose records are not members of [Clibpe] here: in
    [LoadPe] each one is any function on the object state.  Those that are
    detailed further down carry their own list as an argument. *)
Variables ParseDataDirectories ParseSectionsHeaders ParseExceptions ParseSecurity
  ParseDebug ParseLCD ParseBoundImport ParseCOMDescriptor : Clibpe -> Clibpe.



End Loading.

(** ** Notions used to state the properties of loading *)



(** ** Notions used to state the properties of the Rich stub *)

(** A view mapped in the user-mode address space of the x64 build. *)
Definition USER_SPACE : Z := 2 ^ 47.
Definition view_mapped (v : View) : Prop :=
  0 < v_base v /\ 0 <= v_size v /\ v_base v + v_size v <= USER_SPACE.

(** The DWORD at file offset [o], and e_lfanew of the DOS header. *)
Definition file_dword (b : View) (o : Z) : Z := rd32 b (v_base b + o).
Definition dos_e_lfanew (b : View) : Z := to_LONG (file_dword b 60).

(** "a DWORD equal to 0x68636952 at offset >= 0x90 such that the DWORD at
    0x80 xored with the DWORD immediately after it equals 0x536E6144". *)
Definition rich_match (b : View) (o : Z) : bool :=
  (file_dword b o =? RICH_SIGN)
  && (0x90 <=? o)
  && (Z.lxor (file_dword b 0x80) (file_dword b (o + 4)) =? DANS_SIGN).

(** The DWORDs scanned "from file offset 0x80 up to e_lfanew". *)
Definition scanned (b : View) (o : Z) : Prop :=
  exists i, 0 <= i /\ o = 0x80 + 4 * i /\ o + 4 <= dos_e_lfanew b.

Definition rich_found (b : View) (o : Z) : Prop :=
  scanned b o /\ rich_match b o = true.

Definition first_rich_found (b : View) (o : Z) : Prop :=
  rich_found b o /\ forall o', rich_found b o' -> o <= o'.

(** Entry [k] of the stub as the source decodes it: the high word of the
    first DWORD goes to the second member, the low word to the third. *)
Definition rich_entry (b : View) (key : Z) (k : nat) : PERICHHDR :=
  {| rich_dwOffset := 0x90 + 8 * Z.of_nat k;
     rich_product_id := HIWORD (Z.lxor key (file_dword b (0x90 + 8 * Z.of_nat k)));
     rich_build_id := LOWORD (Z.lxor key (file_dword b (0x90 + 8 * Z.of_nat k)));
     rich_use_count := Z.lxor key (file_dword b (0x90 + 8 * Z.of_nat k + 4)) |}.

(** Entry [k] in the words of the specification: "first DWORD xor key ->
    high 16 bits = build-id, low 16 bits = product-id; second DWORD xor key
    -> use-count". *)
Definition rich_entry_spec (b : View) (key : Z) (k : nat) : PERICHHDR :=
  {| rich_dwOffset := 0x90 + 8 * Z.of_nat k;
     rich_product_id := LOWORD (Z.lxor key (file_dword b (0x90 + 8 * Z.of_nat k)));
     rich_build_id := HIWORD (Z.lxor key (file_dword b (0x90 + 8 * Z.of_nat k)));
     rich_use_count := Z.lxor key (file_dword b (0x90 + 8 * Z.of_nat k + 4)) |}.

(** The Rich stub in the words of the specification, for the object [m] on
    which [ParseRichHeader] is called. *)
Definition rich_stub_spec (m : Clibpe) : Prop :=
  let b := m_view m in
  let m' := snd (ParseRichHeader m) in
  (GetRichHeader m' <> None <-> exists o, rich_found b o)
  /\ (forall o, first_rich_found b o ->
        GetRichHeader m'
        = Some (map (rich_entry_spec b (file_dword b (o + 4)))
                    (seq 0 (Z.to_nat ((o - 0x90) / 8))))).

(** The object as [LoadPe] hands it to [ParseRichHeader]. *)
Definition after_dos_header (b : View) : Clibpe :=
  set_m_fLoaded true (snd (ParseMSDOSHeader (set_m_view b new_Clibpe))).

(** The first match among [n] DWORDs from file offset [o]. *)
Fixpoint rich_scan (b : View) (n : nat) (o : Z) : option Z :=
  match n with
  | O => None
  | S k => if rich_match b o then Some o else rich_scan b k (o + 4)
  end.

(** ** Notions used to state the properties of the resource tree *)

(** The resource tree handed to client code, as a tree of directories and
    data leaves. *)
#[warnings="-register-all"]
Inductive ResTree :=
| ResDir (children : list ResTree)
| ResLeaf.

Fixpoint res_tree_depth (t : ResTree) : nat :=
  match t with
  | ResLeaf => 0
  | ResDir children => S (list_max (map res_tree_depth children))
  end.

Definition tree_of_level3 (l : PEResLevel3) : ResTree :=
  ResDir (map (fun _ => ResLeaf) (l3_ResData l)).

Definition tree_of_entry2 (d : PEResLevel2Data) : ResTree :=
  if DataIsDirectory (r2_ResDirEntry d) then tree_of_level3 (r2_ResLvL3 d) else ResLeaf.

Definition tree_of_level2 (l : PEResLevel2) : ResTree :=
  ResDir (map tree_of_entry2 (l2_ResData l)).

Definition tree_of_entry1 (d : PEResRootData) : ResTree :=
  if DataIsDirectory (r1_ResDirEntry d) then tree_of_level2 (r1_ResLvL2 d) else ResLeaf.

Definition tree_of_root (r : PEResRoot) : ResTree :=
  ResDir (map tree_of_entry1 (l1_ResData r)).

(** The directory an entry points to: resource root + OffsetToDirectory. *)
Definition child_directory (pResDirRoot : Z) (e : IMAGE_RESOURCE_DIRECTORY_ENTRY) : Z :=
  PTR_add pResDirRoot (OffsetToDirectory e).

(** The largest NumberOfNamedEntries + NumberOfIdEntries. *)
Definition MAX_RES_ENTRIES : Z := 2 * 0xFFFF.



(** ** Notions used to state the properties of address translation *)

(** The address of section header [i] of the table that starts at [p]. *)
Definition section_header_at (p : Z) (i : nat) : Z := p + 40 * Z.of_nat i.

(** "Is RVA within this section?" on a header in the file. *)
Definition header_contains (v : View) (pSecHdr ullRVA : Z) : bool :=
  (psh_VirtualAddress v pSecHdr <=? ullRVA)
  && (ullRVA <? DWORD_add (psh_VirtualAddress v pSecHdr) (psh_VirtualSize v pSecHdr)).

(** The section table the object reads: its first header and its length. *)
Definition section_table (m : Clibpe) : Z * nat :=
  if IsPE32 (m_stFileInfo m) && HasNTHdr (m_stFileInfo m) then
    (IMAGE_FIRST_SECTION (m_view m) (m_pNTHeader32 m),
     Z.to_nat (NumberOfSections (m_view m) (m_pNTHeader32 m)))
  else if IsPE64 (m_stFileInfo m) && HasNTHdr (m_stFileInfo m) then
    (IMAGE_FIRST_SECTION (m_view m) (m_pNTHeader64 m),
     Z.to_nat (NumberOfSections (m_view m) (m_pNTHeader64 m)))
  else (0, O).

(** ** Notions used to state the properties of the TLS callbacks *)

(** [k] consecutive DWORDs from [p]. *)
Definition dwords (v : View) (p : Z) (k : nat) : list Z :=
  map (fun j => rd32 v (p + 4 * Z.of_nat j)) (seq 0 k).

(** The directory pointer and AddressOfCallBacks that [ParseTLS] reads. *)
Definition tls_directory (m : Clibpe) : Z :=
  RVAToPtr m (GetDirEntryRVA m IMAGE_DIRECTORY_ENTRY_TLS).
Definition tls_AddressOfCallBacks (m : Clibpe) : Z :=
  if IsPE32 (m_stFileInfo m) then rd32 (m_view m) (tls_directory m + 12)
  else rd64 (m_view m) (tls_directory m + 24).
(** The callback array: the VA less the image base, as an RVA. *)
Definition tls_callback_array (m : Clibpe) : Z :=
  RVAToPtr m (PTR_sub (tls_AddressOfCallBacks m) (GetImageBase m)).

(** ** Notions used to state the properties of the relocations *)

(** HIGHADJ entries come in adjacent pairs. *)
Inductive highadj_paired : list PERelocData -> Prop :=
| paired_nil : highadj_paired []
| paired_one e l :
    rd_RelocType e <> IMAGE_REL_BASED_HIGHADJ ->
    highadj_paired l -> highadj_paired (e :: l)
| paired_two e1 e2 l :
    rd_RelocType e1 = IMAGE_REL_BASED_HIGHADJ ->
    rd_RelocType e2 = IMAGE_REL_BASED_HIGHADJ ->
    highadj_paired l -> highadj_paired (e1 :: e2 :: l).

(** The number of 16-bit slots a block header at [p] declares. *)
Definition declared_reloc_entries (v : View) (p : Z) : Z :=
  DWORD_sub (pbr_SizeOfBlock v p) sizeof_IMAGE_BASE_RELOCATION / 2.

(** What holds of a recorded block: it was read at some [p], its HIGHADJ
    entries are paired, and it has at most one entry more than its header
    declares (none when the header declares none). *)
Definition reloc_block_ok (m : Clibpe) (b : PEReloc) : Prop :=
  highadj_paired (rel_Data b)
  /\ exists p, b = reloc_block m p (rel_Data b)
       /\ Z.of_nat (length (rel_Data b))
          <= if 0 <? declared_reloc_entries (m_view m) p
             then declared_reloc_entries (m_view m) p + 1 else 0.

(** ** Notions used to state the properties of the import table *)

(** The per-module bound the thunk loops reach: the PE32+ loop counts every
    thunk twice. *)
Definition import_funcs_bound (pe64 : bool) : Z :=
  if pe64 then iMaxFuncs / 2 else iMaxFuncs.

(** A recorded function comes from a non-zero thunk, and it has a name only
    when the thunk is below 0x80000000. *)
Definition import_function_ok (f : PEImportFunction) : Prop :=
  if_Thunk f <> 0
  /\ (if_FuncName f <> [] \/ if_ImpByName f <> no_import_by_name ->
      0 < if_Thunk f < 2 ^ 31).

(** What holds of a recorded module. *)
Definition import_module_ok (pe64 : bool) (i : PEImport) : Prop :=
  Z.of_nat (length (imp_Funcs i)) <= import_funcs_bound pe64
  /\ Forall import_function_ok (imp_Funcs i).

(** [k] pointers from [p], [step] bytes apart. *)
Definition pointers_from (p step : Z) (k : nat) : list Z :=
  map (fun j => p + step * Z.of_nat j) (seq 0 k).

(** ** Notions used to state the properties of the export table *)

(** The bounds of the export directory, the directory itself and its three
    arrays, as [ParseExport] resolves them. *)
Definition export_start (m : Clibpe) : Z := GetDirEntryRVA m IMAGE_DIRECTORY_ENTRY_EXPORT.
Definition export_end (m : Clibpe) : Z :=
  DWORD_add (export_start m) (GetDirEntrySize m IMAGE_DIRECTORY_ENTRY_EXPORT).
Definition export_dir (m : Clibpe) : Z := RVAToPtr m (export_start m).
Definition export_funcs_ptr (m : Clibpe) : Z :=
  RVAToPtr m (ped_AddressOfFunctions (m_view m) (export_dir m)).
Definition export_ordinals_ptr (m : Clibpe) : Z :=
  RVAToPtr m (ped_AddressOfNameOrdinals (m_view m) (export_dir m)).
Definition export_names_ptr (m : Clibpe) : Z :=
  RVAToPtr m (ped_AddressOfNames (m_view m) (export_dir m)).

(** Slot [i] of AddressOfFunctions, and the record made for it. *)
Definition export_slot (m : Clibpe) (i : Z) : Z :=
  rd32 (m_view m) (export_funcs_ptr m + 4 * i).
Definition export_entry (m : Clibpe) (i : Z) : PEExportFunction :=
  export_function m (export_start m) (export_end m) (export_dir m)
    (export_funcs_ptr m) (export_ordinals_ptr m) (export_names_ptr m) i.

(** The slots of AddressOfFunctions that start inside the file, and the
    indices of the non-zero slots among the first NumberOfFunctions of
    them. *)
Definition export_slots_in_file (m : Clibpe) : nat :=
  Z.to_nat ((GetBaseAddr m + GetDataSize m - export_funcs_ptr m + 3) / 4).
Definition export_indices (m : Clibpe) : list Z :=
  filter (fun i => negb (export_slot m i =? 0))
    (map Z.of_nat
       (seq 0 (Nat.min (Z.to_nat (ped_NumberOfFunctions (m_view m) (export_dir m)))
                       (export_slots_in_file m)))).

(** Entry [j] of the name tables names function [i]: it is the first entry
    of AddressOfNameOrdinals that holds [i]. *)
Definition export_named_by (m : Clibpe) (i j : Z) : Prop :=
  0 <= j < ped_NumberOfNames (m_view m) (export_dir m)
  /\ rd16 (m_view m) (export_ordinals_ptr m + 2 * j) = i
  /\ forall j', 0 <= j' < j -> rd16 (m_view m) (export_ordinals_ptr m + 2 * j') <> i.

(** What holds of every recorded function. *)
Definition export_function_ok (m : Clibpe) (f : PEExportFunction) : Prop :=
  ef_FuncRVA f <> 0
  /\ ef_FuncRVA f = export_slot m (ef_Ordinal f)
  /\ 0 <= ef_Ordinal f < ped_NumberOfFunctions (m_view m) (export_dir m)
  /\ (ef_ForwarderName f <> [] -> export_start m <= ef_FuncRVA f <= export_end m)
  /\ (ef_NameRVA f <> 0 \/ ef_FuncName f <> [] ->
      exists j, export_named_by m (ef_Ordinal f) j
                /\ ef_NameRVA f = rd32 (m_view m) (export_names_ptr m + 4 * j)
                /\ ef_FuncName f = checked_string m (RVAToPtr m (ef_NameRVA f)))
  /\ (WORD_MOD <= ef_Ordinal f -> ef_NameRVA f = 0 /\ ef_FuncName f = []).

(** ** Notions used to state the properties of the delay-import table *)

(** Thunk [k] of a table that starts at [p]; a table that did not resolve
    stays null. *)
Definition thunk_at (pe64 : bool) (p : Z) (k : nat) : Z :=
  if p =? 0 then 0 else p + thunk_size pe64 * Z.of_nat k.

(** The function recorded for position [k] of the four tables. *)
Definition delay_function_at (m : Clibpe) (pe64 : bool)
    (pThunkName pThunkIAT pThunkBoundIAT pThunkUnloadInfoTable : Z) (k : nat)
    : PEDelayImportFunc :=
  delay_function m pe64 (pThunkName + thunk_size pe64 * Z.of_nat k)
    (thunk_at pe64 pThunkIAT k) (thunk_at pe64 pThunkBoundIAT k)
    (thunk_at pe64 pThunkUnloadInfoTable k).

(** What holds of every recorded function: the member ImportAddressTable,
    which holds the thunk of the name table, is not zero, and a name or hint
    is only present when that thunk has the ordinal flag clear and is an RVA
    below 2^32. *)
Definition delay_function_ok (pe64 : bool) (f : PEDelayImportFunc) : Prop :=
  ImportAddressTable (dif_Thunk f) <> 0
  /\ (dif_FuncName f <> [] \/ dif_ImpByName f <> no_import_by_name ->
      Z.land (ImportAddressTable (dif_Thunk f)) (delay_ordinal_flag pe64) = 0
      /\ ImportAddressTable (dif_Thunk f) < DWORD_MOD).

(** What holds of every recorded module: it was read from a descriptor with
    a DLL name and a name table that resolves, and its functions are the
    thunks of the four tables taken in step. *)
Definition delay_module_ok (m : Clibpe) (pe64 : bool) (d : PEDelayImport) : Prop :=
  exists pDelayImpDescr,
    let v := m_view m in
    let pThunkName := RVAToPtr m (pdd_ImportNameTableRVA v pDelayImpDescr) in
    d = delay_module m pDelayImpDescr (dimp_Funcs d)
    /\ pdd_DllNameRVA v pDelayImpDescr <> 0
    /\ pThunkName <> 0
    /\ dimp_Funcs d
       = map (delay_function_at m pe64 pThunkName
                (RVAToPtr m (pdd_ImportAddressTableRVA v pDelayImpDescr))
                (RVAToPtr m (pdd_BoundImportAddressTableRVA v pDelayImpDescr))
                (RVAToPtr m (pdd_UnloadInformationTableRVA v pDelayImpDescr)))
             (seq 0 (length (dimp_Funcs d)))
    /\ Forall (delay_function_ok pe64) (dimp_Funcs d)
    /\ thunk_size pe64 * Z.of_nat (length (dimp_Funcs d))
       <= GetDataSize m + thunk_size pe64.

(** ** Flattening the resource tree *)

(** [PEResFlat], with the members that [FlatResources] assigns;
    [PEResFlat stRes{ }] starts with all of them empty or zero. *)
Record PEResFlat := {
  rf_Data : list Z;
  rf_TypeStr : list Z;
  rf_NameStr : list Z;
  rf_LangStr : list Z;
  rf_TypeID : Z;
  rf_NameID : Z;
  rf_LangID : Z
}.

Definition no_flat : PEResFlat :=
  {| rf_Data := []; rf_TypeStr := []; rf_NameStr := []; rf_LangStr := [];
     rf_TypeID := 0; rf_NameID := 0; rf_LangID := 0 |}.

Definition set_rf_Data (x : list Z) (s : PEResFlat) : PEResFlat :=
  {| rf_Data := x; rf_TypeStr := rf_TypeStr s; rf_NameStr := rf_NameStr s;
     rf_LangStr := rf_LangStr s; rf_TypeID := rf_TypeID s; rf_NameID := rf_NameID s;
     rf_LangID := rf_LangID s |}.
Definition set_rf_TypeStr (x : list Z) (s : PEResFlat) : PEResFlat :=
  {| rf_Data := rf_Data s; rf_TypeStr := x; rf_NameStr := rf_NameStr s;
     rf_LangStr := rf_LangStr s; rf_TypeID := rf_TypeID s; rf_NameID := rf_NameID s;
     rf_LangID := rf_LangID s |}.
Definition set_rf_NameStr (x : list Z) (s : PEResFlat) : PEResFlat :=
  {| rf_Data := rf_Data s; rf_TypeStr := rf_TypeStr s; rf_NameStr := x;
     rf_LangStr := rf_LangStr s; rf_TypeID := rf_TypeID s; rf_NameID := rf_NameID s;
     rf_LangID := rf_LangID s |}.
Definition set_rf_LangStr (x : list Z) (s : PEResFlat) : PEResFlat :=
  {| rf_Data := rf_Data s; rf_TypeStr := rf_TypeStr s; rf_NameStr := rf_NameStr s;
     rf_LangStr := x; rf_TypeID := rf_TypeID s; rf_NameID := rf_NameID s;
     rf_LangID := rf_LangID s |}.
Definition set_rf_TypeID (x : Z) (s : PEResFlat) : PEResFlat :=
  {| rf_Data := rf_Data s; rf_TypeStr := rf_TypeStr s; rf_NameStr := rf_NameStr s;
     rf_LangStr := rf_LangStr s; rf_TypeID := x; rf_NameID := rf_NameID s;
     rf_LangID := rf_LangID s |}.
Definition set_rf_NameID (x : Z) (s : PEResFlat) : PEResFlat :=
  {| rf_Data := rf_Data s; rf_TypeStr := rf_TypeStr s; rf_NameStr := rf_NameStr s;
     rf_LangStr := rf_LangStr s; rf_TypeID := rf_TypeID s; rf_NameID := x;
     rf_LangID := rf_LangID s |}.
Definition set_rf_LangID (x : Z) (s : PEResFlat) : PEResFlat :=
  {| rf_Data := rf_Data s; rf_TypeStr := rf_TypeStr s; rf_NameStr := rf_NameStr s;
     rf_LangStr := rf_LangStr s; rf_TypeID := rf_TypeID s; rf_NameID := rf_NameID s;
     rf_LangID := x |}.

(** The [Id] member of the name union: its low WORD. *)
Definition rde_Id (e : IMAGE_RESOURCE_DIRECTORY_ENTRY) : Z := to_WORD (rde_Name e).

(** The first pass: "count total amount of resources". *)
Fixpoint total_loop2 (l : list PEResLevel2Data) (sTotalRes : nat) : nat :=
  match l with
  | [] => sTotalRes
  | iterLvL2 :: rest =>
    total_loop2 rest
      (if DataIsDirectory (r2_ResDirEntry iterLvL2)
       then sTotalRes + length (l3_ResData (r2_ResLvL3 iterLvL2))
       else S sTotalRes)
  end.

Fixpoint total_loop1 (l : list PEResRootData) (sTotalRes : nat) : nat :=
  match l with
  | [] => sTotalRes
  | iterRoot :: rest =>
    total_loop1 rest
      (if DataIsDirectory (r1_ResDirEntry iterRoot)
       then total_loop2 (l2_ResData (r1_ResLvL2 iterRoot)) sTotalRes
       else S sTotalRes)
  end.

(** The number of rows reserved for the result. *)
Definition FlatResources_reserve (stResRoot : PEResRoot) : nat :=
  total_loop1 (l1_ResData stResRoot) 0.

(** The second pass; [stRes] is declared once per root entry and is carried
    through its level-2 and level-3 loops. *)
Fixpoint flat_loop3 (l : list PEResLevel3Data) (stRes : PEResFlat)
    (vecData : list PEResFlat) : PEResFlat * list PEResFlat :=
  match l with
  | [] => (stRes, vecData)
  | iterLvL3 :: rest =>
    let stRes :=
      if NameIsString (r3_ResDirEntry iterLvL3)
      then set_rf_LangStr (r3_ResName iterLvL3) stRes
      else set_rf_LangID (rde_Id (r3_ResDirEntry iterLvL3)) stRes in
    let stRes := set_rf_Data (r3_RawResData iterLvL3) stRes in
    flat_loop3 rest stRes (vecData ++ [stRes])
  end.

Fixpoint flat_loop2 (l : list PEResLevel2Data) (stRes : PEResFlat)
    (vecData : list PEResFlat) : PEResFlat * list PEResFlat :=
  match l with
  | [] => (stRes, vecData)
  | iterLvL2 :: rest =>
    let stRes :=
      if NameIsString (r2_ResDirEntry iterLvL2)
      then set_rf_NameStr (r2_ResName iterLvL2) stRes
      else set_rf_NameID (rde_Id (r2_ResDirEntry iterLvL2)) stRes in
    if DataIsDirectory (r2_ResDirEntry iterLvL2) then
      let r := flat_loop3 (l3_ResData (r2_ResLvL3 iterLvL2)) stRes vecData in
      flat_loop2 rest (fst r) (snd r)
    else
      let stRes := set_rf_Data (r2_RawResData iterLvL2) stRes in
      flat_loop2 rest stRes (vecData ++ [stRes])
  end.

Fixpoint flat_loop1 (l : list PEResRootData) (vecData : list PEResFlat)
    : list PEResFlat :=
  match l with
  | [] => vecData
  | iterRoot :: rest =>
    let stRes :=
      if NameIsString (r1_ResDirEntry iterRoot)
      then set_rf_TypeStr (r1_ResName iterRoot) no_flat
      else set_rf_TypeID (rde_Id (r1_ResDirEntry iterRoot)) no_flat in
    if DataIsDirectory (r1_ResDirEntry iterRoot) then
      flat_loop1 rest (snd (flat_loop2 (l2_ResData (r1_ResLvL2 iterRoot)) stRes vecData))
    else
      let stRes := set_rf_Data (r1_RawResData iterRoot) stRes in
      flat_loop1 rest (vecData ++ [stRes])
  end.

Definition FlatResources (stResRoot : PEResRoot) : list PEResFlat :=
  flat_loop1 (l1_ResData stResRoot) [].

(** *** Notions used to state the properties of flattening *)

(** A leaf of the stored tree with the entries that lead to it: a root entry
    that is no directory, a level-2 entry that is no directory, or any
    level-3 entry. *)
Record ResPath := {
  path_root : PEResRootData;
  path_lvl2 : option PEResLevel2Data;
  path_lvl3 : option PEResLevel3Data
}.

Definition leaves_level2 (d1 : PEResRootData) (d2 : PEResLevel2Data) : list ResPath :=
  if DataIsDirectory (r2_ResDirEntry d2)
  then map (fun d3 => {| path_root := d1; path_lvl2 := Some d2; path_lvl3 := Some d3 |})
           (l3_ResData (r2_ResLvL3 d2))
  else [{| path_root := d1; path_lvl2 := Some d2; path_lvl3 := None |}].

Definition leaves_root (d1 : PEResRootData) : list ResPath :=
  if DataIsDirectory (r1_ResDirEntry d1)
  then flat_map (leaves_level2 d1) (l2_ResData (r1_ResLvL2 d1))
  else [{| path_root := d1; path_lvl2 := None; path_lvl3 := None |}].

(** The leaves in tree order. *)
Definition res_leaves (r : PEResRoot) : list ResPath :=
  flat_map leaves_root (l1_ResData r).

Definition path_data (p : ResPath) : list Z :=
  match path_lvl3 p, path_lvl2 p with
  | Some d3, _ => r3_RawResData d3
  | None, Some d2 => r2_RawResData d2
  | None, None => r1_RawResData (path_root p)
  end.

(** The member that an entry selects holds the entry's name or id: the
    string member for a named entry, the id member otherwise. *)
Definition selected (e : IMAGE_RESOURCE_DIRECTORY_ENTRY) (name str : list Z) (id : Z)
    : Prop :=
  if NameIsString e then str = name else id = rde_Id e.

(** The row made for a leaf: its data; the type of its root entry in one
    member, the other one empty; the selected name and language members. *)
Definition row_of_leaf (p : ResPath) (row : PEResFlat) : Prop :=
  rf_Data row = path_data p
  /\ (if NameIsString (r1_ResDirEntry (path_root p))
      then rf_TypeStr row = r1_ResName (path_root p) /\ rf_TypeID row = 0
      else rf_TypeStr row = [] /\ rf_TypeID row = rde_Id (r1_ResDirEntry (path_root p)))
  /\ match path_lvl2 p with
     | Some d2 =>
       selected (r2_ResDirEntry d2) (r2_ResName d2) (rf_NameStr row) (rf_NameID row)
     | None =>
       rf_NameStr row = [] /\ rf_NameID row = 0
       /\ rf_LangStr row = [] /\ rf_LangID row = 0
     end
  /\ match path_lvl3 p with
     | Some d3 =>
       selected (r3_ResDirEntry d3) (r3_ResName d3) (rf_LangStr row) (rf_LangID row)
     | None => True
     end.

(** A root directory entry with two level-2 data entries, the first with a
    string name and the second with an id. *)
Definition named_then_id (r : PEResRoot) (d1 : PEResRootData) (a b : PEResLevel2Data)
    : Prop :=
  l1_ResData r = [d1]
  /\ DataIsDirectory (r1_ResDirEntry d1) = true
  /\ l2_ResData (r1_ResLvL2 d1) = [a; b]
  /\ DataIsDirectory (r2_ResDirEntry a) = false
  /\ DataIsDirectory (r2_ResDirEntry b) = false
  /\ NameIsString (r2_ResDirEntry a) = true
  /\ NameIsString (r2_ResDirEntry b) = false.

(** The members a loop leaves alone. *)
Definition same_type (s row : PEResFlat) : Prop :=
  rf_TypeStr row = rf_TypeStr s /\ rf_TypeID row = rf_TypeID s.
Definition same_name (s row : PEResFlat) : Prop :=
  rf_NameStr row = rf_NameStr s /\ rf_NameID row = rf_NameID s.

(** What the level-2 loop guarantees of the row of a leaf below a root
    entry, when the loop starts from the state [st]. *)
Definition row_below (st : PEResFlat) (p : ResPath) (row : PEResFlat) : Prop :=
  rf_Data row = path_data p
  /\ same_type st row
  /\ match path_lvl2 p with
     | Some d2 =>
       selected (r2_ResDirEntry d2) (r2_ResName d2) (rf_NameStr row) (rf_NameID row)
     | None => False
     end
  /\ match path_lvl3 p with
     | Some d3 =>
       selected (r3_ResDirEntry d3) (r3_ResName d3) (rf_LangStr row) (rf_LangID row)
     | None => True
     end.

(** ** Data directories *)

Definition IMAGE_DIRECTORY_ENTRY_EXCEPTION : Z := 3.
Definition IMAGE_DIRECTORY_ENTRY_SECURITY : Z := 4.
Definition IMAGE_DIRECTORY_ENTRY_BOUND_IMPORT : Z := 11.

(** An element of [m_vecDataDirs]: the IMAGE_DATA_DIRECTORY and the name of
    the section it points into. *)
Record PEDataDir := {
  dd_VirtualAddress : Z;
  dd_Size : Z;
  dd_Section : list Z
}.

(** "Filling DataDirectories vector": [n] counts the entries still to
    visit. *)
Fixpoint data_dirs_loop (m : Clibpe) (n : nat) (i pDataDir : Z)
    (vecDataDirs : list PEDataDir) : list PEDataDir :=
  match n with
  | O => vecDataDirs
  | S k =>
    let pSecHdr := GetSecHdrFromRVA m (rd32 (m_view m) pDataDir) in
    let strSecName :=
      if negb (pSecHdr =? 0) && negb (i =? IMAGE_DIRECTORY_ENTRY_SECURITY)
      then rd_bytes (m_view m) pSecHdr 8
      else [] in
    data_dirs_loop m k (i + 1) (PTR_add pDataDir 8)
      (vecDataDirs
       ++ [{| dd_VirtualAddress := rd32 (m_view m) pDataDir;
              dd_Size := rd32 (m_view m) (pDataDir + 4);
              dd_Section := strSecName |}])
  end.

(** [OptionalHeader.NumberOfRvaAndSizes] is the DWORD before the directory
    array. *)
Definition NumberOfRvaAndSizes (m : Clibpe) : Z :=
  if IsPE32 (m_stFileInfo m) && HasNTHdr (m_stFileInfo m)
  then rd32 (m_view m) (m_pNTHeader32 m + 116)
  else if IsPE64 (m_stFileInfo m) && HasNTHdr (m_stFileInfo m)
  then rd32 (m_view m) (m_pNTHeader64 m + 132)
  else 0.

(** [ParseDataDirectories], acting on the object and on [m_vecDataDirs]. *)
Definition ParseDataDirectories (m : Clibpe) (vecDataDirs : list PEDataDir)
    : bool * Clibpe * list PEDataDir :=
  let parse (pDataDir dwRVAAndSizes : Z) :=
    let vecDataDirs' :=
      data_dirs_loop m
        (Z.to_nat (if 15 <? dwRVAAndSizes then 15 else dwRVAAndSizes))
        0 pDataDir vecDataDirs in
    match vecDataDirs' with
    | [] => (false, m, vecDataDirs')
    | _ :: _ => (true, flag set_HasDataDirs m, vecDataDirs')
    end in
  if IsPE32 (m_stFileInfo m) && HasNTHdr (m_stFileInfo m) then
    parse (PTR_add (m_pNTHeader32 m) 120) (rd32 (m_view m) (m_pNTHeader32 m + 116))
  else if IsPE64 (m_stFileInfo m) && HasNTHdr (m_stFileInfo m) then
    parse (PTR_add (m_pNTHeader64 m) 136) (rd32 (m_view m) (m_pNTHeader64 m + 132))
  else (false, m, vecDataDirs).

(** Directory [i] as the accessors of the object see it: its RVA and size,
    and the eight name bytes of the first section header whose range
    contains the RVA; no name for the security directory, whose RVA is a
    file offset. *)
Definition data_dir_entry (m : Clibpe) (i : Z) : PEDataDir :=
  {| dd_VirtualAddress := GetDirEntryRVA m i;
     dd_Size := GetDirEntrySize m i;
     dd_Section :=
       if (GetSecHdrFromRVA m (GetDirEntryRVA m i) =? 0)
          || (i =? IMAGE_DIRECTORY_ENTRY_SECURITY)
       then []
       else rd_bytes (m_view m) (GetSecHdrFromRVA m (GetDirEntryRVA m i)) 8 |}.

(** ** Security directory *)

(** An element of [m_vecSecurity]: the file offset of a certificate and the
    copy of its WIN_CERTIFICATE (dwLength, wRevision, wCertificateType and
    the declared first byte of bCertificate: 12 bytes with padding). *)
Record PESecurity := {
  cert_dwOffset : Z;
  cert_WinCert : list Z
}.

Definition sizeof_WIN_CERTIFICATE : Z := 12.
(** [offsetof(WIN_CERTIFICATE, bCertificate)]. *)
Definition offsetof_bCertificate : Z := 8.

(** [dwLength += (8 - (dwLength & 7)) & 7]. *)
Definition next_aligned (dwLength : Z) : Z :=
  DWORD_add dwLength (Z.land (8 - Z.land dwLength 7) 7).

(** The certificate loop; it ends when it wants to: [None] is a walk that
    is still going on when [fuel] passes are done. *)
Fixpoint security_loop (m : Clibpe) (fuel : nat)
    (dwSecurityDirStartVA dwSecurityDirEndVA : Z) (vecSecurity : list PESecurity)
    : option (list PESecurity) :=
  match fuel with
  | O => None
  | S k =>
    if negb (dwSecurityDirStartVA <? dwSecurityDirEndVA) then Some vecSecurity
    else
      let pCertificate := dwSecurityDirStartVA in
      let dwCertSize :=
        DWORD_sub (rd32 (m_view m) pCertificate) offsetof_bCertificate in
      if negb (IsPtrSafe m (PTR_add dwSecurityDirStartVA dwCertSize) false)
      then Some vecSecurity
      else
        let vecSecurity' :=
          vecSecurity
          ++ [{| cert_dwOffset := PtrToOffset m pCertificate;
                 cert_WinCert := rd_bytes (m_view m) pCertificate
                                  (Z.to_nat sizeof_WIN_CERTIFICATE) |}] in
        let dwLength := next_aligned (rd32 (m_view m) pCertificate) in
        let dwSecurityDirStartVA' := PTR_add dwSecurityDirStartVA dwLength in
        if negb (IsPtrSafe m dwSecurityDirStartVA' false) then Some vecSecurity'
        else security_loop m k dwSecurityDirStartVA' dwSecurityDirEndVA vecSecurity'
  end.

(** [ParseSecurity], acting on the object and on [m_vecSecurity]. *)
Definition ParseSecurity (fuel : nat) (m : Clibpe) (vecSecurity : list PESecurity)
    : option (bool * Clibpe * list PESecurity) :=
  let dwSecurityDirOffset := GetDirEntryRVA m IMAGE_DIRECTORY_ENTRY_SECURITY in
  let dwSecurityDirSize := GetDirEntrySize m IMAGE_DIRECTORY_ENTRY_SECURITY in
  if (dwSecurityDirOffset =? 0) || (dwSecurityDirSize =? 0)
  then Some (false, m, vecSecurity)
  else if IsSumOverflow dwSecurityDirOffset (GetBaseAddr m)
  then Some (false, m, vecSecurity)
  else
    let dwSecurityDirStartVA := PTR_add (GetBaseAddr m) dwSecurityDirOffset in
    if IsSumOverflow dwSecurityDirStartVA dwSecurityDirSize
    then Some (false, m, vecSecurity)
    else
      let dwSecurityDirEndVA := PTR_add dwSecurityDirStartVA dwSecurityDirSize in
      if negb (IsPtrSafe m dwSecurityDirStartVA false)
         || negb (IsPtrSafe m dwSecurityDirEndVA true)
      then Some (false, m, vecSecurity)
      else
        match security_loop m fuel dwSecurityDirStartVA dwSecurityDirEndVA
                vecSecurity with
        | None => None
        | Some vecSecurity' => Some (true, flag set_HasSecurity m, vecSecurity')
        end.

(** *** Notions used to state the properties of the security directory *)

(** dwLength of the certificate at file offset [o]; the walk accepts it when
    it starts before the end of the directory, is at least 8 bytes long and
    its byte dwLength - 8 is inside the file. *)
Definition cert_dwLength (m : Clibpe) (o : Z) : Z :=
  rd32 (m_view m) (GetBaseAddr m + o).
Definition cert_ok (m : Clibpe) (o dirEnd : Z) : Prop :=
  o < dirEnd
  /\ 8 <= cert_dwLength m o
  /\ o + cert_dwLength m o - 8 < GetDataSize m.

(** The certificates from file offset [o] on: each one is accepted and
    recorded with its offset, the next one starts at the next multiple of 8
    after its end, and the list ends at the first offset that is not
    accepted. *)
Fixpoint cert_chain (m : Clibpe) (o dirEnd : Z) (l : list PESecurity) : Prop :=
  match l with
  | [] => ~ cert_ok m o dirEnd
  | c :: rest =>
    cert_ok m o dirEnd
    /\ cert_dwOffset c = o
    /\ cert_WinCert c = rd_bytes (m_view m) (GetBaseAddr m + o) 12
    /\ cert_chain m (o + 8 * ((cert_dwLength m o + 7) / 8)) dirEnd rest
  end.

(** The checks of [ParseSecurity] before its loop, on the offset and the
    size of the directory. *)
Definition security_dir_in_file (m : Clibpe) : Prop :=
  let off := GetDirEntryRVA m IMAGE_DIRECTORY_ENTRY_SECURITY in
  let size := GetDirEntrySize m IMAGE_DIRECTORY_ENTRY_SECURITY in
  0 < off < GetDataSize m /\ 0 < size /\ off + size <= GetDataSize m.

(** ** Exception directory *)

(** An element of [m_vecException]: the file offset of a runtime function
    entry and its copy; [sizeof(IMAGE_RUNTIME_FUNCTION_ENTRY)] is 12 in the
    x64 build. *)
Record PEException := {
  exc_dwOffset : Z;
  exc_Entry : list Z
}.

Definition sizeof_IMAGE_RUNTIME_FUNCTION_ENTRY : Z := 12.

Definition exception_entry (m : Clibpe) (pRuntimeFuncsEntry : Z) : PEException :=
  {| exc_dwOffset := PtrToOffset m pRuntimeFuncsEntry;
     exc_Entry := rd_bytes (m_view m) pRuntimeFuncsEntry
                    (Z.to_nat sizeof_IMAGE_RUNTIME_FUNCTION_ENTRY) |}.

Fixpoint exceptions_loop (m : Clibpe) (n : nat) (pRuntimeFuncsEntry : Z)
    (vecException : list PEException) : list PEException :=
  match n with
  | O => vecException
  | S k =>
    if negb (IsPtrSafe m pRuntimeFuncsEntry false) then vecException
    else exceptions_loop m k
           (PTR_add pRuntimeFuncsEntry sizeof_IMAGE_RUNTIME_FUNCTION_ENTRY)
           (vecException ++ [exception_entry m pRuntimeFuncsEntry])
  end.

(** [ParseExceptions], acting on the object and on [m_vecException]. *)
Definition ParseExceptions (m : Clibpe) (vecException : list PEException)
    : bool * Clibpe * list PEException :=
  let pRuntimeFuncsEntry :=
    RVAToPtr m (GetDirEntryRVA m IMAGE_DIRECTORY_ENTRY_EXCEPTION) in
  if pRuntimeFuncsEntry =? 0 then (false, m, vecException)
  else
    let dwEntries :=
      GetDirEntrySize m IMAGE_DIRECTORY_ENTRY_EXCEPTION
      / sizeof_IMAGE_RUNTIME_FUNCTION_ENTRY in
    if (dwEntries =? 0) || negb (IsPtrSafe m (PTR_add pRuntimeFuncsEntry dwEntries) false)
    then (false, m, vecException)
    else
      (true, flag set_HasException m,
       exceptions_loop m (Z.to_nat dwEntries) pRuntimeFuncsEntry vecException).

(** *** Notions used to state the properties of the exception directory *)

Definition exception_dir (m : Clibpe) : Z :=
  RVAToPtr m (GetDirEntryRVA m IMAGE_DIRECTORY_ENTRY_EXCEPTION).
Definition exception_entries (m : Clibpe) : Z :=
  GetDirEntrySize m IMAGE_DIRECTORY_ENTRY_EXCEPTION / 12.
(** The entries of the directory that start inside the file. *)
Definition exception_entries_in_file (m : Clibpe) : Z :=
  (GetBaseAddr m + GetDataSize m - exception_dir m + 11) / 12.

(** ** Bound import *)

(** IMAGE_BOUND_IMPORT_DESCRIPTOR and IMAGE_BOUND_FORWARDER_REF are 8 bytes
    each: TimeDateStamp, OffsetModuleName (a WORD at +4) and
    NumberOfModuleForwarderRefs, respectively Reserved (a WORD at +6). *)
Definition sizeof_IMAGE_BOUND_IMPORT_DESCRIPTOR : Z := 8.
Definition sizeof_IMAGE_BOUND_FORWARDER_REF : Z := 8.
Definition pbi_TimeDateStamp (v : View) (p : Z) : Z := rd32 v p.
Definition pbi_OffsetModuleName (v : View) (p : Z) : Z := rd16 v (p + 4).
Definition pbi_NumberOfModuleForwarderRefs (v : View) (p : Z) : Z := rd16 v (p + 6).

(** Elements of [m_vecBoundImp] and of their forwarder lists. *)
Record PEBoundForwarder := {
  bf_dwOffset : Z;
  bf_BoundForwardedRef : list Z;
  bf_ModuleName : list Z
}.

Record PEBoundImport := {
  bi_dwOffset : Z;
  bi_BoundImpDesc : list Z;
  bi_ModuleName : list Z;
  bi_Forwarders : list PEBoundForwarder
}.

(** The name at [pBoundImpDesc + OffsetModuleName], when that address is
    inside the file and the string ends within MAX_PATH characters. *)
Definition bound_name (m : Clibpe) (pBoundImpDesc OffsetModuleName : Z) : list Z :=
  let szName := PTR_add pBoundImpDesc OffsetModuleName in
  if IsPtrSafe m szName false then checked_string m szName else [].

Definition bound_forwarder (m : Clibpe) (pBoundImpDesc pBoundImpForwarder : Z)
    : PEBoundForwarder :=
  {| bf_dwOffset := PtrToOffset m pBoundImpForwarder;
     bf_BoundForwardedRef := rd_bytes (m_view m) pBoundImpForwarder
                               (Z.to_nat sizeof_IMAGE_BOUND_FORWARDER_REF);
     bf_ModuleName :=
       bound_name m pBoundImpDesc (pbi_OffsetModuleName (m_view m) pBoundImpForwarder) |}.

Definition bound_module (m : Clibpe) (pBoundImpDesc : Z)
    (vecBoundForwarders : list PEBoundForwarder) : PEBoundImport :=
  {| bi_dwOffset := PtrToOffset m pBoundImpDesc;
     bi_BoundImpDesc := rd_bytes (m_view m) pBoundImpDesc
                          (Z.to_nat sizeof_IMAGE_BOUND_IMPORT_DESCRIPTOR);
     bi_ModuleName :=
       bound_name m pBoundImpDesc (pbi_OffsetModuleName (m_view m) pBoundImpDesc);
     bi_Forwarders := vecBoundForwarders |}.

(** The forwarder loop.  It advances [pBoundImpDesc] together with
    [pBoundImpForwarder] and reads its bound from where [pBoundImpDesc]
    points in each pass; the result is the descriptor pointer after the loop
    and the forwarders. *)
Fixpoint bound_forwarders (m : Clibpe) (fuel : nat) (i pBoundImpDesc pBoundImpForwarder : Z)
    (vecBoundForwarders : list PEBoundForwarder) : Z * list PEBoundForwarder :=
  match fuel with
  | O => (pBoundImpDesc, vecBoundForwarders)
  | S k =>
    if negb (i <? pbi_NumberOfModuleForwarderRefs (m_view m) pBoundImpDesc)
    then (pBoundImpDesc, vecBoundForwarders)
    else
      let vecBoundForwarders' :=
        vecBoundForwarders ++ [bound_forwarder m pBoundImpDesc pBoundImpForwarder] in
      let pBoundImpForwarder' :=
        PTR_add pBoundImpForwarder sizeof_IMAGE_BOUND_FORWARDER_REF in
      if negb (IsPtrSafe m pBoundImpForwarder' false)
      then (pBoundImpDesc, vecBoundForwarders')
      else
        let pBoundImpDesc' :=
          PTR_add pBoundImpDesc sizeof_IMAGE_BOUND_FORWARDER_REF in
        if negb (IsPtrSafe m pBoundImpDesc' false)
        then (pBoundImpDesc', vecBoundForwarders')
        else bound_forwarders m k (i + 1) pBoundImpDesc' pBoundImpForwarder'
               vecBoundForwarders'
  end.

(** The bound of the forwarder loop is a WORD, so 65536 passes are enough. *)
Definition forwarder_fuel : nat := Z.to_nat 65536.

Fixpoint bound_modules (m : Clibpe) (fuel : nat) (pBoundImpDesc : Z)
    (vecBoundImp : list PEBoundImport) : list PEBoundImport :=
  match fuel with
  | O => vecBoundImp
  | S k =>
    if pbi_TimeDateStamp (m_view m) pBoundImpDesc =? 0 then vecBoundImp
    else
      let pBoundImpForwarder :=
        PTR_add pBoundImpDesc sizeof_IMAGE_BOUND_IMPORT_DESCRIPTOR in
      if negb (IsPtrSafe m pBoundImpForwarder false) then vecBoundImp
      else
        let r := bound_forwarders m forwarder_fuel 0 pBoundImpDesc pBoundImpForwarder [] in
        let pBoundImpDesc1 := fst r in
        let vecBoundImp' := vecBoundImp ++ [bound_module m pBoundImpDesc1 (snd r)] in
        let pBoundImpDesc2 :=
          PTR_add pBoundImpDesc1 sizeof_IMAGE_BOUND_IMPORT_DESCRIPTOR in
        if negb (IsPtrSafe m pBoundImpDesc2 false) then vecBoundImp'
        else bound_modules m k pBoundImpDesc2 vecBoundImp'
  end.

(** [ParseBoundImport], acting on the object and on [m_vecBoundImp]. *)
Definition ParseBoundImport (m : Clibpe) (vecBoundImp : list PEBoundImport)
    : bool * Clibpe * list PEBoundImport :=
  let pBoundImpDesc :=
    RVAToPtr m (GetDirEntryRVA m IMAGE_DIRECTORY_ENTRY_BOUND_IMPORT) in
  if pBoundImpDesc =? 0 then (false, m, vecBoundImp)
  else (true, flag set_HasBoundImp m,
        bound_modules m (walk_fuel m) pBoundImpDesc vecBoundImp).

(** ** Section headers *)

(** [*pSecHdr]: the IMAGE_SECTION_HEADER at [p], 40 bytes. *)
Definition rd_section_header (v : View) (p : Z) : IMAGE_SECTION_HEADER :=
  {| sh_Name := rd_bytes v p 8;
     sh_VirtualSize := rd32 v (p + 8);
     sh_VirtualAddress := rd32 v (p + 12);
     sh_SizeOfRawData := rd32 v (p + 16);
     sh_PointerToRawData := rd32 v (p + 20);
     sh_PointerToRelocations := rd32 v (p + 24);
     sh_PointerToLinenumbers := rd32 v (p + 28);
     sh_NumberOfRelocations := rd16 v (p + 32);
     sh_NumberOfLinenumbers := rd16 v (p + 34);
     sh_Characteristics := rd32 v (p + 36) |}.

(** *** [strtol] with base 10 in the "C" locale

    Leading white space, an optional sign, then decimal digits; the scans
    read memory until a character stops them, so they take [fuel], and
    [None] is a scan that is still going on when the fuel is used up.  The
    result is the value, the end pointer and whether [errno] is [ERANGE];
    [long] has 32 bits. *)
Definition is_space (c : Z) : bool := (c =? 32) || ((9 <=? c) && (c <=? 13)).
Definition is_digit (c : Z) : bool := (48 <=? c) && (c <=? 57).
Definition LONG_MAX : Z := 2 ^ 31 - 1.
Definition LONG_MIN : Z := - 2 ^ 31.

Fixpoint strtol_spaces (v : View) (fuel : nat) (p : Z) : option Z :=
  match fuel with
  | O => None
  | S k => if is_space (rd8 v p) then strtol_spaces v k (PTR_add p 1) else Some p
  end.

Fixpoint strtol_digits (v : View) (fuel : nat) (p acc : Z) (any : bool)
    : option (Z * Z * bool) :=
  match fuel with
  | O => None
  | S k =>
    let c := rd8 v p in
    if is_digit c then strtol_digits v k (PTR_add p 1) (10 * acc + (c - 48)) true
    else Some (acc, p, any)
  end.

Definition strtol (v : View) (fuel : nat) (nptr : Z) : option (Z * Z * bool) :=
  match strtol_spaces v fuel nptr with
  | None => None
  | Some p1 =>
    let c := rd8 v p1 in
    let p2 := if (c =? 45) || (c =? 43) then PTR_add p1 1 else p1 in
    match strtol_digits v fuel p2 0 false with
    | None => None
    | Some (acc, pEnd, any) =>
      if negb any then Some (0, nptr, false)
      else
        let value := if c =? 45 then - acc else acc in
        if value >? LONG_MAX then Some (LONG_MAX, pEnd, true)
        else if value <? LONG_MIN then Some (LONG_MIN, pEnd, true)
        else Some (value, pEnd, false)
    end
  end.

(** The name of a section whose Name does not start with a slash: the
    characters before the first NUL when Name[7] is NUL, all eight
    otherwise. *)
Definition short_section_name (v : View) (pSecHdr : Z) : list Z :=
  if rd8 v (pSecHdr + 7) =? 0 then
    match cstr_within v pSecHdr 8 with
    | Some s => s
    | None => []
    end
  else rd_bytes v pSecHdr 8.

Definition section_record (m : Clibpe) (pSecHdr : Z) (strSecRealName : list Z)
    : PESECHDR :=
  {| sec_dwOffset := PtrToOffset m pSecHdr;
     SecHdr := rd_section_header (m_view m) pSecHdr;
     SectionName := strSecRealName |}.

(** The loop over the section table; [None] when a scan of [strtol] or the
    copy of a long name has not ended within [fuel] characters. *)
Fixpoint sections_loop (m : Clibpe) (fuel : nat) (dwSymbolTable dwNumberOfSymbols : Z)
    (n : nat) (pSecHdr : Z) (vecSecHeaders : list PESECHDR)
    : option (list PESECHDR) :=
  match n with
  | O => Some vecSecHeaders
  | S k =>
    let next := PTR_add pSecHdr 40 in
    if negb (IsPtrSafe m next false) then Some vecSecHeaders
    else if rd8 (m_view m) pSecHdr =? 47 then
      let pStart := PTR_add pSecHdr 1 in
      match strtol (m_view m) fuel pStart with
      | None => None
      | Some (lOffset, pEnd, erange) =>
        if (pEnd =? pStart) || erange
        then sections_loop m fuel dwSymbolTable dwNumberOfSymbols k next vecSecHeaders
        else
          let lpszSecRealName :=
            PTR_add (PTR_add (PTR_add (GetBaseAddr m) dwSymbolTable)
                             (dwNumberOfSymbols * 18))
                    (to_PTR lOffset) in
          if IsPtrSafe m lpszSecRealName false then
            match cstr_within (m_view m) lpszSecRealName fuel with
            | None => None
            | Some strSecRealName =>
              sections_loop m fuel dwSymbolTable dwNumberOfSymbols k next
                (vecSecHeaders ++ [section_record m pSecHdr strSecRealName])
            end
          else
            sections_loop m fuel dwSymbolTable dwNumberOfSymbols k next
              (vecSecHeaders ++ [section_record m pSecHdr []])
      end
    else
      sections_loop m fuel dwSymbolTable dwNumberOfSymbols k next
        (vecSecHeaders
         ++ [section_record m pSecHdr (short_section_name (m_view m) pSecHdr)])
  end.

(** FileHeader.PointerToSymbolTable and FileHeader.NumberOfSymbols are the
    DWORDs at +12 and +16 of the NT headers. *)
Definition ParseSectionsHeaders (fuel : nat) (m : Clibpe) : option (bool * Clibpe) :=
  let parse (pNTHeader : Z) :=
    match sections_loop m fuel
            (rd32 (m_view m) (pNTHeader + 12)) (rd32 (m_view m) (pNTHeader + 16))
            (Z.to_nat (NumberOfSections (m_view m) pNTHeader))
            (IMAGE_FIRST_SECTION (m_view m) pNTHeader) (m_vecSecHeaders m) with
    | None => None
    | Some vecSecHeaders =>
      match vecSecHeaders with
      | [] => Some (false, set_m_vecSecHeaders vecSecHeaders m)
      | _ :: _ =>
        Some (true, flag set_HasSections (set_m_vecSecHeaders vecSecHeaders m))
      end
    end in
  if IsPE32 (m_stFileInfo m) && HasNTHdr (m_stFileInfo m) then parse (m_pNTHeader32 m)
  else if IsPE64 (m_stFileInfo m) && HasNTHdr (m_stFileInfo m) then parse (m_pNTHeader64 m)
  else Some (false, m).

(** *** Notions used to state the properties of the section list *)

(** The headers of a table that the loop reaches: those before the first
    one that does not end inside the file. *)
Fixpoint headers_in_file (m : Clibpe) (n : nat) (p : Z) : nat :=
  match n with
  | O => O
  | S k => if IsPtrSafe m (p + 40) false then S (headers_in_file m k (p + 40)) else O
  end.

(** The record made for a header whose name does not start with a slash. *)
Definition plain_section_record (m : Clibpe) (pSecHdr : Z) : PESECHDR :=
  section_record m pSecHdr (short_section_name (m_view m) pSecHdr).

(** The first [k] headers of the table of [m]. *)
Definition table_headers (m : Clibpe) (k : nat) : list Z :=
  map (section_header_at (fst (section_table m))) (seq 0 k).

(** No header among the first [k] has a name that starts with a slash. *)
Definition plain_names (m : Clibpe) (k : nat) : Prop :=
  forall i, (i < k)%nat ->
    rd8 (m_view m) (section_header_at (fst (section_table m)) i) <> 47.

(** A header of the table of [m] contains the RVA. *)
Definition table_contains (m : Clibpe) (rva : Z) (i : nat) : Prop :=
  header_contains (m_view m) (section_header_at (fst (section_table m)) i) rva = true.

(** ** Debug directory *)

Definition IMAGE_DIRECTORY_ENTRY_DEBUG : Z := 6.
Definition IMAGE_DEBUG_TYPE_CODEVIEW : Z := 2.
(** IMAGE_DEBUG_DIRECTORY, 28 bytes: Type is the DWORD at +12 and
    PointerToRawData the one at +24. *)
Definition sizeof_IMAGE_DEBUG_DIRECTORY : Z := 28.
Definition pdbg_Type (v : View) (p : Z) : Z := rd32 v (p + 12).
Definition pdbg_PointerToRawData (v : View) (p : Z) : Z := rd32 v (p + 24).

(** [GetTData<T>(ullOffset)] for [DWORD] and [BYTE]: the value at the file
    offset, or zero past [GetDataSize() - sizeof(T)], an unsigned 64-bit
    difference. *)
Definition GetTData_DWORD (m : Clibpe) (ullOffset : Z) : Z :=
  if ullOffset >? to_PTR (GetDataSize m - 4) then 0
  else rd32 (m_view m) (PTR_add (GetBaseAddr m) ullOffset).
Definition GetTData_BYTE (m : Clibpe) (ullOffset : Z) : Z :=
  if ullOffset >? to_PTR (GetDataSize m - 1) then 0
  else rd8 (m_view m) (PTR_add (GetBaseAddr m) ullOffset).

(** [strncmp(pSecHdr->Name, lpszName, n) == 0] for a literal [lpszName]
    without NUL characters: [lit] lists its characters. *)
Fixpoint strncmp_eq (v : View) (p : Z) (lit : list Z) (n : nat) : bool :=
  match n with
  | O => true
  | S k =>
    match lit with
    | [] => rd8 v p =? 0
    | c :: rest => (rd8 v p =? c) && strncmp_eq v (PTR_add p 1) rest k
    end
  end.

Fixpoint GetSecHdrFromName_loop (m : Clibpe) (lpszName : list Z) (n : nat) (pSecHdr : Z)
    : Z :=
  match n with
  | O => 0
  | S k =>
    if negb (IsPtrSafe m (PTR_add pSecHdr 40) false) then 0
    else if strncmp_eq (m_view m) pSecHdr lpszName 8 then pSecHdr
    else GetSecHdrFromName_loop m lpszName k (PTR_add pSecHdr 40)
  end.

Definition GetSecHdrFromName (m : Clibpe) (lpszName : list Z) : Z :=
  if IsPE32 (m_stFileInfo m) && HasNTHdr (m_stFileInfo m) then
    GetSecHdrFromName_loop m lpszName
      (Z.to_nat (NumberOfSections (m_view m) (m_pNTHeader32 m)))
      (IMAGE_FIRST_SECTION (m_view m) (m_pNTHeader32 m))
  else if IsPE64 (m_stFileInfo m) && HasNTHdr (m_stFileInfo m) then
    GetSecHdrFromName_loop m lpszName
      (Z.to_nat (NumberOfSections (m_view m) (m_pNTHeader64 m)))
      (IMAGE_FIRST_SECTION (m_view m) (m_pNTHeader64 m))
  else 0.

(** ".debug" as bytes; "RSDS" and "NB10" as DWORDs. *)
Definition str_debug : list Z := [46; 100; 101; 98; 117; 103].
Definition RSDS_SIGN : Z := 0x53445352.
Definition NB10_SIGN : Z := 0x3031424E.

(** An element of [m_vecDebug]: the file offset of the directory entry, its
    copy, the first DWORDs of the raw data and the PDB path. *)
Record PEDebug := {
  dbg_dwOffset : Z;
  dbg_DebugDir : list Z;
  dbg_Header : list Z;
  dbg_PDBName : list Z
}.

(** The characters of the PDB path: up to MAX_PATH bytes from the 32-bit
    offset PointerToRawData + dwOffset + iterStr, ended by a zero byte. *)
Fixpoint pdb_name (m : Clibpe) (PointerToRawData dwOffset : Z) (n : nat) (iterStr : Z)
    : list Z :=
  match n with
  | O => []
  | S k =>
    let byte := GetTData_BYTE m (to_DWORD (PointerToRawData + dwOffset + iterStr)) in
    if byte =? 0 then []
    else byte :: pdb_name m PointerToRawData dwOffset k (iterStr + 1)
  end.

Section Debug.

(** The number of DWORDs of [PEDebugHeader::Header], an array declared in
    libpe.h. *)
Variable header_dwords : nat.

Definition debug_header (m : Clibpe) (pDebugDir : Z) : list Z :=
  map (fun iterDbgHdr =>
         GetTData_DWORD m (pdbg_PointerToRawData (m_view m) pDebugDir
                           + 4 * Z.of_nat iterDbgHdr))
      (seq 0 header_dwords).

(** The offset of the PDB path behind the CodeView signature. *)
Definition codeview_offset (Header0 : Z) : Z :=
  if Header0 =? RSDS_SIGN then 24
  else if Header0 =? NB10_SIGN then 16
  else 0.

Definition debug_entry (m : Clibpe) (pDebugDir : Z) : PEDebug :=
  let stDbgHdr := debug_header m pDebugDir in
  {| dbg_dwOffset := PtrToOffset m pDebugDir;
     dbg_DebugDir := rd_bytes (m_view m) pDebugDir
                       (Z.to_nat sizeof_IMAGE_DEBUG_DIRECTORY);
     dbg_Header := stDbgHdr;
     dbg_PDBName :=
       if pdbg_Type (m_view m) pDebugDir =? IMAGE_DEBUG_TYPE_CODEVIEW then
         let dwOffset := codeview_offset (nth 0 stDbgHdr 0) in
         if 0 <? dwOffset
         then pdb_name m (pdbg_PointerToRawData (m_view m) pDebugDir) dwOffset
                (Z.to_nat MAX_PATH) 0
         else []
       else [] |}.

Fixpoint debug_loop (m : Clibpe) (n : nat) (pDebugDir : Z) (vecDebug : list PEDebug)
    : list PEDebug :=
  match n with
  | O => vecDebug
  | S k =>
    let vecDebug' := vecDebug ++ [debug_entry m pDebugDir] in
    let pDebugDir' := PTR_add pDebugDir sizeof_IMAGE_DEBUG_DIRECTORY in
    if negb (IsPtrSafe m pDebugDir' false) then vecDebug'
    else debug_loop m k pDebugDir' vecDebug'
  end.

(** Where the debug directory is and how long: through the section named
    ".debug" when its VirtualAddress is the directory RVA, through
    [RVAToPtr] otherwise; [None] is [return false]. *)
Definition debug_directory (m : Clibpe) : option (Z * Z) :=
  let dwDebugDirRVA := GetDirEntryRVA m IMAGE_DIRECTORY_ENTRY_DEBUG in
  let pDebugSecHdr := GetSecHdrFromName m str_debug in
  if negb (pDebugSecHdr =? 0)
     && (psh_VirtualAddress (m_view m) pDebugSecHdr =? dwDebugDirRVA)
  then Some (PTR_add (GetBaseAddr m) (psh_PointerToRawData (m_view m) pDebugSecHdr),
             to_DWORD (GetDirEntrySize m IMAGE_DIRECTORY_ENTRY_DEBUG
                       * sizeof_IMAGE_DEBUG_DIRECTORY))
  else if GetSecHdrFromRVA m dwDebugDirRVA =? 0 then None
  else if RVAToPtr m dwDebugDirRVA =? 0 then None
  else Some (RVAToPtr m dwDebugDirRVA, GetDirEntrySize m IMAGE_DIRECTORY_ENTRY_DEBUG).

(** [ParseDebug], acting on the object and on [m_vecDebug]. *)
Definition ParseDebug (m : Clibpe) (vecDebug : list PEDebug)
    : bool * Clibpe * list PEDebug :=
  if GetDirEntryRVA m IMAGE_DIRECTORY_ENTRY_DEBUG =? 0 then (false, m, vecDebug)
  else
    match debug_directory m with
    | None => (false, m, vecDebug)
    | Some (pDebugDir, dwDebugDirSize) =>
      let dwDebugEntries := dwDebugDirSize / sizeof_IMAGE_DEBUG_DIRECTORY in
      if (dwDebugEntries =? 0)
         || IsSumOverflow pDebugDir dwDebugDirSize
         || negb (IsPtrSafe m (PTR_add pDebugDir dwDebugDirSize) false)
      then (false, m, vecDebug)
      else (true, flag set_HasDebug m,
            debug_loop m (Z.to_nat dwDebugEntries) pDebugDir vecDebug)
    end.

End Debug.

(** *** Notions used to state the properties of the debug directory *)

(** A list of bytes is in the file from offset [o] on, the offsets counted
    modulo 2^32. *)
Definition bytes_in_file (m : Clibpe) (o : Z) (l : list Z) : Prop :=
  forall k, (k < length l)%nat ->
    to_DWORD (o + Z.of_nat k) < GetDataSize m
    /\ nth k l 0 = rd8 (m_view m) (GetBaseAddr m + to_DWORD (o + Z.of_nat k)).

(** What holds of every recorded entry: it was read at a directory entry
    that starts inside the file; its header DWORDs are zero or lie inside the
    file; its PDB path has at most MAX_PATH characters, none of them NUL, all
    of them bytes of the file. *)
Definition debug_entry_ok (header_dwords : nat) (m : Clibpe) (e : PEDebug) : Prop :=
  exists pDebugDir,
    e = debug_entry header_dwords m pDebugDir
    /\ GetBaseAddr m <= pDebugDir < GetBaseAddr m + GetDataSize m
    /\ length (dbg_Header e) = header_dwords
    /\ (forall j, (j < header_dwords)%nat ->
          let o := pdbg_PointerToRawData (m_view m) pDebugDir + 4 * Z.of_nat j in
          nth j (dbg_Header e) 0 = 0
          \/ (o + 4 <= GetDataSize m
              /\ nth j (dbg_Header e) 0 = rd32 (m_view m) (GetBaseAddr m + o)))
    /\ Z.of_nat (length (dbg_PDBName e)) <= MAX_PATH
    /\ Forall (fun c => c <> 0) (dbg_PDBName e)
    /\ bytes_in_file m
         (pdbg_PointerToRawData (m_view m) pDebugDir
          + codeview_offset (nth 0 (dbg_Header e) 0))
         (dbg_PDBName e).

(** The number that a run of decimal digits denotes. *)
Definition decimal_value (ds : list Z) : Z :=
  fold_left (fun acc c => 10 * acc + (c - 48)) ds 0.

(** The characters [ds] are in memory from [p] on. *)
Definition chars_at (v : View) (p : Z) (ds : list Z) : Prop :=
  forall i, (i < length ds)%nat -> rd8 v (p + Z.of_nat i) = nth i ds 0.

(** ** Objects and images used in the examples *)

(** A section header with the given virtual range and raw pointer. *)
Definition section (va vsize raw : Z) : PESECHDR :=
  {| sec_dwOffset := 0;
     SecHdr := {| sh_Name := []; sh_VirtualSize := vsize; sh_VirtualAddress := va;
                  sh_SizeOfRawData := vsize; sh_PointerToRawData := raw;
                  sh_PointerToRelocations := 0; sh_PointerToLinenumbers := 0;
                  sh_NumberOfRelocations := 0; sh_NumberOfLinenumbers := 0;
                  sh_Characteristics := 0 |};
     SectionName := [] |}.

(** A loaded object over a file of [size] bytes with the given sections. *)
Definition loaded_with (size : Z) (secs : list PESECHDR) : Clibpe :=
  {| m_view := {| v_base := 0x10000; v_size := size; v_byte := zero_memory |};
     m_fLoaded := true;
     m_pNTHeader32 := 0;
     m_pNTHeader64 := 0;
     m_stFileInfo := no_info;
     m_stMSDOSHeader := [];
     m_vecRichHeader := [];
     m_stNTHeader := {| nt_dwOffset := 0; nt_bytes := [] |};
     m_vecSecHeaders := secs;
     m_stExport := no_export;
     m_vecImport := [];
     m_stResource := no_resource;
     m_vecRelocs := [];
     m_stTLS := no_tls;
     m_vecDelayImp := [] |}.

(** One section at RVA 0x1000 whose PointerToRawData is 0xFFFFFFFF, in a file
    of 0x2000 bytes. *)
Definition bogus_raw_pointer : Clibpe :=
  loaded_with 0x2000 [section 0x1000 0x1000 0xFFFFFFFF].

(** Two sections whose virtual ranges overlap on [0x1800, 0x2000). *)
Definition overlapping_sections : Clibpe :=
  loaded_with 0x4000 [section 0x1000 0x1000 0x400; section 0x1800 0x1000 0x2000].


Definition sixty_four_zero_bytes : View := map_file 0x10000 (repeat 0 64) zero_memory.


(** An image with a Rich stub of one entry under the key 0x12345678: "DanS"
    at 0x80, the entry (0x00011234, 5) at 0x90, "Rich" at 0x98, the key at
    0x9C; [e] is e_lfanew and [size] the file size. *)
Definition rich_key : Z := 0x12345678.
Definition rich_image (e size : Z) : View :=
  {| v_base := 0x10000;
     v_size := size;
     v_byte :=
       poke16 0x10000 0x5A4D
         (poke32 0x1003C e
            (poke32 0x10080 (Z.lxor DANS_SIGN rich_key)
               (poke32 0x10090 (Z.lxor 0x00011234 rich_key)
                  (poke32 0x10094 (Z.lxor 5 rich_key)
                     (poke32 0x10098 RICH_SIGN
                        (poke32 0x1009C rich_key zero_memory)))))) |}.

(** A file of 0x100 bytes that ends where e_lfanew points. *)
Definition rich_then_end_of_file : Clibpe := after_dos_header (rich_image 0x100 0x100).
(** A file of 0x200 bytes with e_lfanew = 0xA0. *)
Definition rich_one_entry : Clibpe := after_dos_header (rich_image 0xA0 0x200).

(** *** A small PE image

    MZ header with e_lfanew = 0x80, NT headers at 0x80, one section that maps
    RVA 0x1000..0x4000 to file offset 0x400; [content] lays out the rest. *)
Definition image_base : Z := 0x10000.
(** The address of file offset [o], and of RVA [r] in the one section. *)
Definition at_offset (o : Z) : Z := image_base + o.
Definition at_rva (r : Z) : Z := image_base + r - 0x1000 + 0x400.
(** The address of data directory entry [k]. *)
Definition at_dir (pe64 : bool) (k : Z) : Z :=
  at_offset (0x80 + (if pe64 then 136 else 120) + 8 * k).

Definition pe_image (pe64 : bool) (size : Z) (content : (Z -> Z) -> Z -> Z) : View :=
  let sections := at_offset (0x80 + 24 + (if pe64 then 0xF0 else 0xE0)) in
  {| v_base := image_base;
     v_size := size;
     v_byte :=
       poke16 (at_offset 0) 0x5A4D
         (poke32 (at_offset 0x3C) 0x80
            (poke32 (at_offset 0x80) 0x4550
               (poke16 (at_offset 0x86) 1
                  (poke16 (at_offset 0x94) (if pe64 then 0xF0 else 0xE0)
                     (poke16 (at_offset 0x98) (if pe64 then 0x20b else 0x10b)
                        (poke32 (sections + 8) 0x3000
                           (poke32 (sections + 12) 0x1000
                              (poke32 (sections + 16) 0x3000
                                 (poke32 (sections + 20) 0x400
                                    (content zero_memory)))))))))) |}.

(** The object once the DOS, Rich and NT headers of [b] are parsed. *)
Definition headers_parsed (b : View) : Clibpe :=
  snd (ParseNTFileOptHeader (snd (ParseRichHeader (after_dos_header b)))).

(** A PE32+ image whose resource root (RVA 0x1000) has two entries: entry 1
    points to a level-2 directory at root + 0x20, whose single entry points
    back to the root; entry 2 points to the root itself. *)
Definition resource_loop_image : View :=
  pe_image true 0x4000 (fun f =>
    poke32 (at_dir true 2) 0x1000
      (poke16 (at_rva 0x1000 + 14) 2
         (poke32 (at_rva 0x1000 + 16) 1
            (poke32 (at_rva 0x1000 + 20) 0x80000020
               (poke32 (at_rva 0x1000 + 24) 2
                  (poke32 (at_rva 0x1000 + 28) 0x80000000
                     (poke16 (at_rva 0x1020 + 14) 1
                        (poke32 (at_rva 0x1020 + 16) 7
                           (poke32 (at_rva 0x1020 + 20) 0x80000000 f))))))))).

Definition resource_loop : Clibpe := headers_parsed resource_loop_image.

(** A PE32 image (image base 0x400000) whose TLS directory at RVA 0x1000 has
    AddressOfCallBacks = 0x401100; the array at RVA 0x1100 holds two
    callbacks and a zero. *)
Definition tls_image : View :=
  pe_image false 0x4000 (fun f =>
    poke32 (at_offset (0x80 + 52)) 0x400000
      (poke32 (at_dir false 9) 0x1000
         (poke32 (at_rva 0x1000 + 12) 0x401100
            (poke32 (at_rva 0x1100) 0x401500
               (poke32 (at_rva 0x1104) 0x401600 f))))).

Definition tls_two_callbacks : Clibpe := headers_parsed tls_image.

(** A PE32 image with one relocation block at RVA 0x1000 (page 0x1000, four
    slots: HIGHLOW, a HIGHADJ pair, ABSOLUTE) followed by a zero header. *)
Definition reloc_image : View :=
  pe_image false 0x4000 (fun f =>
    poke32 (at_dir false 5) 0x1000
      (poke32 (at_rva 0x1000) 0x1000
         (poke32 (at_rva 0x1000 + 4) 16
            (poke16 (at_rva 0x1000 + 8) 0x3004
               (poke16 (at_rva 0x1000 + 10) 0x4010
                  (poke16 (at_rva 0x1000 + 12) 0x1234
                     (poke16 (at_rva 0x1000 + 14) 0 f))))))).

Definition one_reloc_block : Clibpe := headers_parsed reloc_image.

(** Consecutive bytes from [a]. *)
Fixpoint poke_bytes (a : Z) (bs : list Z) (f : Z -> Z) : Z -> Z :=
  match bs with
  | [] => f
  | b :: rest => poke8 a b (poke_bytes (a + 1) rest f)
  end.

(** "kernel32" and "ExitProcess" as bytes. *)
Definition str_kernel32 : list Z := [107; 101; 114; 110; 101; 108; 51; 50].
Definition str_ExitProcess : list Z :=
  [69; 120; 105; 116; 80; 114; 111; 99; 101; 115; 115].

(** An image with one import descriptor at RVA 0x1000: OriginalFirstThunk is
    zero, FirstThunk points to the thunks at RVA 0x1100 (one import by name,
    "ExitProcess" with hint 7 at RVA 0x1200, and one by ordinal 5), the DLL
    name "kernel32" is at RVA 0x1300. *)
Definition import_image (pe64 : bool) : View :=
  pe_image pe64 0x4000 (fun f =>
    poke32 (at_dir pe64 1) 0x1000
      (poke32 (at_rva 0x1000 + 12) 0x1300
         (poke32 (at_rva 0x1000 + 16) 0x1100
            (poke32 (at_rva 0x1100) 0x1200
               ((if pe64
                 then poke64 (at_rva 0x1108) 0x8000000000000005
                 else poke32 (at_rva 0x1104) 0x80000005)
                  (poke16 (at_rva 0x1200) 7
                     (poke_bytes (at_rva 0x1202) str_ExitProcess
                        (poke_bytes (at_rva 0x1300) str_kernel32 f)))))))).

Definition imports32 : Clibpe := headers_parsed (import_image false).
Definition imports64 : Clibpe := headers_parsed (import_image true).

(** A file of 64 KiB in which every byte is 1. *)
Definition all_ones : Clibpe :=
  set_m_view {| v_base := 0x10000; v_size := 0x10000; v_byte := fun _ => 1 |} new_Clibpe.

(** "f" and "A.B" as bytes. *)
Definition str_f : list Z := [102].
Definition str_A_B : list Z := [65; 46; 66].

(** A PE32 image whose export directory is at RVA 0x1000 with size 0x100:
    three function slots at RVA 0x1500 (0x2000, 0, 0x1100), one name "f" for
    function 0, and the string "A.B" at RVA 0x1100, the first byte after the
    directory. *)
Definition export_image : View :=
  pe_image false 0x4000 (fun f =>
    poke32 (at_dir false 0) 0x1000
      (poke32 (at_dir false 0 + 4) 0x100
         (poke32 (at_rva 0x1000 + 20) 3
            (poke32 (at_rva 0x1000 + 24) 1
               (poke32 (at_rva 0x1000 + 28) 0x1500
                  (poke32 (at_rva 0x1000 + 32) 0x1200
                     (poke32 (at_rva 0x1000 + 36) 0x1300
                        (poke32 (at_rva 0x1500) 0x2000
                           (poke32 (at_rva 0x1508) 0x1100
                              (poke32 (at_rva 0x1200) 0x1210
                                 (poke_bytes (at_rva 0x1210) str_f
                                    (poke_bytes (at_rva 0x1100) str_A_B f)))))))))))).

Definition exports32 : Clibpe := headers_parsed export_image.

(** An image with one delay-load descriptor at RVA 0x1000: the DLL name
    "kernel32" at RVA 0x1300, the name table at RVA 0x1100 (one import by
    name, "ExitProcess" with hint 7 at RVA 0x1200, and one by ordinal 5), the
    address table at RVA 0x1400 (0x401000 and 0x401008); no bound or unload
    table. *)
Definition delay_image (pe64 : bool) : View :=
  pe_image pe64 0x4000 (fun f =>
    poke32 (at_dir pe64 13) 0x1000
      (poke32 (at_rva 0x1000 + 4) 0x1300
         (poke32 (at_rva 0x1000 + 12) 0x1400
            (poke32 (at_rva 0x1000 + 16) 0x1100
               (poke32 (at_rva 0x1100) 0x1200
                  ((if pe64
                    then poke64 (at_rva 0x1108) 0x8000000000000005
                    else poke32 (at_rva 0x1104) 0x80000005)
                     (poke32 (at_rva 0x1400) 0x401000
                        (poke32 (at_rva 0x1400 + (if pe64 then 8 else 4)) 0x401008
                           (poke16 (at_rva 0x1200) 7
                              (poke_bytes (at_rva 0x1202) str_ExitProcess
                                 (poke_bytes (at_rva 0x1300) str_kernel32 f))))))))))).

Definition delay32 : Clibpe := headers_parsed (delay_image false).
Definition delay64 : Clibpe := headers_parsed (delay_image true).

(** A stored tree with one root directory entry (type id 3) and two level-2
    data entries: the first named by the string "A", the second by id 2. *)
Definition leaf2 (name : Z) (str data : list Z) : PEResLevel2Data :=
  {| r2_ResDirEntry := {| rde_Name := name; rde_OffsetToData := 0 |};
     r2_ResName := str; r2_ResDataEntry := no_data_entry; r2_RawResData := data;
     r2_ResLvL3 := no_level3 |}.

Definition two_names_a : PEResLevel2Data := leaf2 0x80000100 [65] [1].
Definition two_names_b : PEResLevel2Data := leaf2 2 [] [2].
Definition two_names_root : PEResRootData :=
  {| r1_ResDirEntry := {| rde_Name := 3; rde_OffsetToData := 0x80000010 |};
     r1_ResName := []; r1_ResDataEntry := no_data_entry; r1_RawResData := [];
     r1_ResLvL2 := {| l2_dwOffset := 0; l2_ResDir := [];
                      l2_ResData := [two_names_a; two_names_b] |} |}.
Definition two_names : PEResRoot :=
  {| l1_dwOffset := 0; l1_ResDir := []; l1_ResData := [two_names_root] |}.

(** ".text" as bytes. *)
Definition str_text : list Z := [46; 116; 101; 120; 116].

(** An image with NumberOfRvaAndSizes = 16 and a section named ".text"; the
    security and the TLS directory both hold the RVA 0x1000. *)
Definition directories_image (pe64 : bool) : View :=
  pe_image pe64 0x4000 (fun f =>
    poke32 (at_offset (0x80 + (if pe64 then 132 else 116))) 16
      (poke32 (at_dir pe64 4) 0x1000
         (poke32 (at_dir pe64 9) 0x1000
            (poke_bytes (at_offset (0x80 + 24 + (if pe64 then 0xF0 else 0xE0)))
               str_text f)))).

Definition directories64 : Clibpe := headers_parsed (directories_image true).

(** A PE32+ image with a security directory at file offset 0x400, 0x30 bytes
    long, that holds two certificates: dwLength 0x1B at 0x400 and dwLength
    0x10 at 0x420. *)
Definition security_image (size : Z) (len1 : Z) : View :=
  pe_image true size (fun f =>
    poke32 (at_dir true 4) 0x400
      (poke32 (at_dir true 4 + 4) 0x30
         (poke32 (at_offset 0x400) len1
            (poke32 (at_offset 0x420) 0x10 f)))).

Definition two_certificates : Clibpe := headers_parsed (security_image 0x4000 0x1B).

(** The same directory in a file of 8 GiB, the first certificate with
    dwLength 0. *)
Definition zero_length_certificate : Clibpe :=
  headers_parsed (security_image (2 ^ 33) 0).

(** A PE32+ image of 0x414 bytes whose exception directory, at RVA 0x1000
    (file offset 0x400), declares three entries: two of them start inside
    the file, and the second one ends four bytes after the end of the
    file. *)
Definition exception_image : View :=
  pe_image true 0x414 (fun f =>
    poke32 (at_dir true 3) 0x1000
      (poke32 (at_dir true 3 + 4) 36
         (poke32 (at_rva 0x1000) 0x2000 f))).

Definition truncated_exceptions : Clibpe := headers_parsed exception_image.

(** "a" and "b" as bytes. *)
Definition str_a : list Z := [97].
Definition str_b : list Z := [98].

(** An image whose bound-import directory, at RVA 0x1000, holds one
    descriptor with one forwarder reference and then the closing zero
    descriptor: the descriptor has time stamp 0x11 and name offset 0x20
    ("a"), the forwarder reference has time stamp 0x22 and name offset 0x30
    ("b"); the bytes at 0x1000 + 8 + 0x30 are "c". *)
Definition bound_image : View :=
  pe_image false 0x4000 (fun f =>
    poke32 (at_dir false 11) 0x1000
      (poke32 (at_rva 0x1000) 0x11
         (poke16 (at_rva 0x1000 + 4) 0x20
            (poke16 (at_rva 0x1000 + 6) 1
               (poke32 (at_rva 0x1008) 0x22
                  (poke16 (at_rva 0x1008 + 4) 0x30
                     (poke_bytes (at_rva 0x1020) str_a
                        (poke_bytes (at_rva 0x1030) str_b
                           (poke_bytes (at_rva 0x1038) [99] f))))))))).

Definition bound32 : Clibpe := headers_parsed bound_image.

(** The object of [tls_image] (PE32, ImageBase 0x400000) with the section of
    the image in its section list. *)
Definition with_image_base : Clibpe :=
  set_m_vecSecHeaders [section 0x1000 0x3000 0x400] tls_two_callbacks.

(** The object of [directories_image]: one section named ".text". *)
Definition one_section : Clibpe := headers_parsed (directories_image false).

(** The same image with the section name "/4" and the string table at file
    offset 0x500 ("long" at 0x504). *)
Definition str_long : list Z := [108; 111; 110; 103].
Definition long_name_image : View :=
  pe_image false 0x4000 (fun f =>
    poke32 (at_offset (0x80 + 12)) 0x500
      (poke_bytes (at_offset (0x80 + 24 + 0xE0)) [47; 52]
         (poke_bytes (at_offset 0x504) str_long f))).
Definition long_section_name : Clibpe := headers_parsed long_name_image.

(** [one_section] after [ParseSectionsHeaders]. *)
Definition one_section_listed : Clibpe :=
  match ParseSectionsHeaders 0 one_section with
  | Some (_, m') => m'
  | None => one_section
  end.

(** "a.pdb" as bytes. *)
Definition str_a_pdb : list Z := [97; 46; 112; 100; 98].

(** An image with one debug directory entry at RVA 0x1000 of type CodeView
    whose raw data, at file offset 0x600, is an RSDS record with the path
    "a.pdb". *)
Definition debug_image : View :=
  pe_image false 0x4000 (fun f =>
    poke32 (at_dir false 6) 0x1000
      (poke32 (at_dir false 6 + 4) 28
         (poke32 (at_rva 0x1000 + 12) 2
            (poke32 (at_rva 0x1000 + 24) 0x600
               (poke32 (at_offset 0x600) RSDS_SIGN
                  (poke_bytes (at_offset 0x618) str_a_pdb f)))))).

Definition debug32 : Clibpe := headers_parsed debug_image.

(** * Properties *)

(** ** Machine integers and reads stay in range *)

Lemma to_DWORD_range z : 0 <= to_DWORD z < DWORD_MOD.
Proof. unfold to_DWORD, DWORD_MOD. apply Z.mod_pos_bound. lia. Qed.

Lemma to_PTR_range z : 0 <= to_PTR z < PTR_MOD.
Proof. unfold to_PTR, PTR_MOD. apply Z.mod_pos_bound. lia. Qed.

Lemma to_WORD_range z : 0 <= to_WORD z < WORD_MOD.
Proof. unfold to_WORD, WORD_MOD. apply Z.mod_pos_bound. lia. Qed.

Lemma to_DWORD_small z : 0 <= z < DWORD_MOD -> to_DWORD z = z.
Proof. intros H. unfold to_DWORD. apply Z.mod_small. exact H. Qed.

Lemma to_PTR_small z : 0 <= z < PTR_MOD -> to_PTR z = z.
Proof. intros H. unfold to_PTR. apply Z.mod_small. exact H. Qed.

Lemma rd8_range v a : 0 <= rd8 v a < 2 ^ 8.
Proof. unfold rd8. apply Z.mod_pos_bound. lia. Qed.

Lemma rd16_range v a : 0 <= rd16 v a < 2 ^ 16.
Proof.
  unfold rd16. pose proof (rd8_range v a). pose proof (rd8_range v (a + 1)). lia.
Qed.

Lemma rd32_range v a : 0 <= rd32 v a < 2 ^ 32.
Proof.
  unfold rd32. pose proof (rd16_range v a). pose proof (rd16_range v (a + 2)). lia.
Qed.

Lemma rd64_range v a : 0 <= rd64 v a < 2 ^ 64.
Proof.
  unfold rd64. pose proof (rd32_range v a). pose proof (rd32_range v (a + 4)). lia.
Qed.

(** ** RVA to file offset *)

Lemma RVAToOffset_loop_fold size r secs d :
  RVAToOffset_loop size r secs d =
  fold_left (fun _ e => checked_offset size (section_offset r (SecHdr e)))
            (filter (fun s => rva_in_section r (SecHdr s)) secs) d.
Proof.
  revert d. induction secs as [|s secs IH]; intros d; simpl.
  - reflexivity.
  - destruct (rva_in_section r (SecHdr s)); simpl; apply IH.
Qed.

Lemma RVAToOffset_no_section m r :
  filter (fun s => rva_in_section r (SecHdr s)) (m_vecSecHeaders m) = [] ->
  RVAToOffset m r = 0.
Proof.
  intros H. unfold RVAToOffset. rewrite RVAToOffset_loop_fold, H. reflexivity.
Qed.

Lemma RVAToOffset_last_section m r l e :
  filter (fun s => rva_in_section r (SecHdr s)) (m_vecSecHeaders m) = l ++ [e] ->
  RVAToOffset m r = checked_offset (GetDataSize m) (section_offset r (SecHdr e)).
Proof.
  intros H. unfold RVAToOffset.
  rewrite RVAToOffset_loop_fold, H, fold_left_app. reflexivity.
Qed.




(** The offset of the source is the offset of the specification modulo 2^32. *)
Lemma section_offset_mod r h :
  section_offset r h = to_DWORD (spec_offset r h).
Proof.
  unfold section_offset, spec_offset, DWORD_sub, to_DWORD.
  rewrite Zminus_mod_idemp_l, Zminus_mod_idemp_r. f_equal. lia.
Qed.

(** Without wrap-around the test of the source is the range of the
    specification. *)
Lemma rva_in_section_no_wrap r s :
  section_fields_ok s ->
  sh_VirtualAddress (SecHdr s) + sh_VirtualSize (SecHdr s) < DWORD_MOD ->
  rva_in_section r (SecHdr s) = in_virtual_range r (SecHdr s).
Proof.
  intros (Hva & Hvs & _) Hsum. unfold rva_in_section, in_virtual_range, DWORD_add.
  rewrite to_DWORD_small by lia. reflexivity.
Qed.

(** A wrapped range end only makes the range of the source smaller. *)
Lemma rva_in_section_sound r s :
  section_fields_ok s ->
  rva_in_section r (SecHdr s) = true -> in_virtual_range r (SecHdr s) = true.
Proof.
  intros (Hva & Hvs & _). unfold rva_in_section, in_virtual_range, DWORD_add, to_DWORD.
  rewrite !andb_true_iff, !Z.leb_le, !Z.ltb_lt. intros [H1 H2]. split; [exact H1|].
  assert (Hm : (sh_VirtualAddress (SecHdr s) + sh_VirtualSize (SecHdr s)) mod DWORD_MOD
               <= sh_VirtualAddress (SecHdr s) + sh_VirtualSize (SecHdr s)).
  { apply Z.mod_le; unfold DWORD_MOD; lia. }
  lia.
Qed.

Lemma filter_nil_sub {A} (P Q : A -> bool) (l : list A) :
  filter P l = [] ->
  (forall x, In x l -> Q x = true -> P x = true) ->
  filter Q l = [].
Proof.
  induction l as [|x l IH]; simpl; intros HP Hsub; [reflexivity|].
  destruct (P x) eqn:Px; [discriminate|].
  destruct (Q x) eqn:Qx.
  - rewrite (Hsub x) in Px; [discriminate|left; reflexivity|exact Qx].
  - apply IH; auto.
Qed.

Lemma filter_single_sub {A} (P Q : A -> bool) (l : list A) (e : A) :
  filter P l = [e] ->
  (forall x, In x l -> Q x = true -> P x = true) ->
  Q e = true ->
  filter Q l = [e].
Proof.
  induction l as [|x l IH]; simpl; intros HP Hsub HQ; [discriminate|].
  destruct (P x) eqn:Px.
  - injection HP as Hx Hrest. subst x. rewrite HQ. f_equal.
    apply (filter_nil_sub P Q); [exact Hrest|]. intros z Hz. apply Hsub. right. exact Hz.
  - destruct (Q x) eqn:Qx.
    + rewrite (Hsub x) in Px; [discriminate|left; reflexivity|exact Qx].
    + apply IH; auto.
Qed.

(** On [bogus_raw_pointer] the source computes 0x1002 - (0x1000 - 0xFFFFFFFF)
    in DWORDs, which is 1, and 1 passes the file-size check. *)
Lemma GetOffsetFromRVA_bogus_raw_pointer :
  GetOffsetFromRVA bogus_raw_pointer 0x1002 = 1.
Proof. vm_compute. reflexivity. Qed.

(** C2, as the specification words it, fails: RVA 0x1002 lies in the one
    section of [bogus_raw_pointer], the offset r - VirtualAddress +
    PointerToRawData is 0x100000001 and exceeds the file size 0x2000, yet the
    conversion does not fail: it yields offset 1. *)
Lemma offset_from_rva_spec_fails :
  ~ offset_from_rva_spec bogus_raw_pointer 0x1002.
Proof.
  intros [H _].
  destruct (H (section 0x1000 0x1000 0xFFFFFFFF) eq_refl) as [_ Hfail].
  assert (Hbig : GetDataSize bogus_raw_pointer
                 < spec_offset 0x1002 (SecHdr (section 0x1000 0x1000 0xFFFFFFFF)))
    by (vm_compute; reflexivity).
  specialize (Hfail Hbig). rewrite GetOffsetFromRVA_bogus_raw_pointer in Hfail.
  discriminate Hfail.
Qed.

(** C2 (amended): for a loaded model over a file smaller than 4 GiB and an
    RVA r that lies in exactly one section's virtual range [VirtualAddress,
    VirtualAddress + VirtualSize), the range end fitting in 32 bits,
    offset_from_rva(r) is r - VirtualAddress + PointerToRawData of that
    section provided this value does not exceed file_size; the result is the
    failure value 0 when that value exceeds file_size and fits in 32 bits,
    and when no section's virtual range contains r. *)
Theorem offset_from_rva_unique_section (m : Clibpe) (r : Z) :
  m_fLoaded m = true ->
  0 <= GetDataSize m < DWORD_MOD ->
  Forall section_fields_ok (m_vecSecHeaders m) ->
  (forall e,
      filter (fun s => in_virtual_range r (SecHdr s)) (m_vecSecHeaders m) = [e] ->
      sh_VirtualAddress (SecHdr e) + sh_VirtualSize (SecHdr e) < DWORD_MOD ->
      (spec_offset r (SecHdr e) <= GetDataSize m ->
       GetOffsetFromRVA m r = spec_offset r (SecHdr e))
      /\ (GetDataSize m < spec_offset r (SecHdr e) < DWORD_MOD ->
          GetOffsetFromRVA m r = 0))
  /\ (filter (fun s => in_virtual_range r (SecHdr s)) (m_vecSecHeaders m) = [] ->
      GetOffsetFromRVA m r = 0).
Proof.
  intros Hloaded Hsize Hok.
  assert (Hsound : forall x, In x (m_vecSecHeaders m) ->
            rva_in_section r (SecHdr x) = true -> in_virtual_range r (SecHdr x) = true).
  { intros x Hx. apply rva_in_section_sound.
    rewrite Forall_forall in Hok. apply Hok. exact Hx. }
  unfold GetOffsetFromRVA. rewrite Hloaded. simpl. split.
  - intros e Hone Hend.
    assert (He : In e (m_vecSecHeaders m) /\ in_virtual_range r (SecHdr e) = true).
    { apply (filter_In (fun s => in_virtual_range r (SecHdr s))).
      rewrite Hone. left. reflexivity. }
    destruct He as [Hin Hrange].
    assert (Hfields : section_fields_ok e).
    { rewrite Forall_forall in Hok. apply Hok. exact Hin. }
    assert (Hcode : filter (fun s => rva_in_section r (SecHdr s)) (m_vecSecHeaders m)
                    = [] ++ [e]).
    { simpl. apply (filter_single_sub (fun s => in_virtual_range r (SecHdr s))).
      - exact Hone.
      - exact Hsound.
      - rewrite rva_in_section_no_wrap; assumption. }
    rewrite (RVAToOffset_last_section m r [] e Hcode), section_offset_mod.
    destruct Hfields as (Hva & Hvs & Hraw).
    unfold in_virtual_range in Hrange.
    rewrite andb_true_iff, Z.leb_le, Z.ltb_lt in Hrange.
    assert (Hnonneg : 0 <= spec_offset r (SecHdr e)) by (unfold spec_offset; lia).
    unfold checked_offset. rewrite (to_DWORD_small (GetDataSize m)) by exact Hsize.
    split; intros Hv; rewrite to_DWORD_small by lia.
    + destruct (Z.gtb_spec (spec_offset r (SecHdr e)) (GetDataSize m)); [lia|reflexivity].
    + destruct (Z.gtb_spec (spec_offset r (SecHdr e)) (GetDataSize m)); [reflexivity|lia].
  - intros Hnone. apply RVAToOffset_no_section.
    apply (filter_nil_sub (fun s => in_virtual_range r (SecHdr s))); assumption.
Qed.

Lemma section_fields_ok_section va vsize raw :
  0 <= va < DWORD_MOD -> 0 <= vsize < DWORD_MOD -> 0 <= raw < DWORD_MOD ->
  section_fields_ok (section va vsize raw).
Proof. intros H1 H2 H3. repeat split; simpl; lia. Qed.

(** RVA 0x1010 lies in the first section of [overlapping_sections] only. *)
Lemma offset_from_rva_unique_section_witness :
  GetOffsetFromRVA overlapping_sections 0x1010 = 0x410.
Proof.
  assert (Hfields : Forall section_fields_ok (m_vecSecHeaders overlapping_sections)).
  { repeat constructor; simpl; unfold DWORD_MOD; lia. }
  assert (Hsize : 0 <= GetDataSize overlapping_sections < DWORD_MOD).
  { split; [apply Z.leb_le|apply Z.ltb_lt]; reflexivity. }
  destruct (offset_from_rva_unique_section overlapping_sections 0x1010
              eq_refl Hsize Hfields) as [H _].
  assert (Hend : sh_VirtualAddress (SecHdr (section 0x1000 0x1000 0x400))
                 + sh_VirtualSize (SecHdr (section 0x1000 0x1000 0x400)) < DWORD_MOD).
  { apply Z.ltb_lt. reflexivity. }
  destruct (H (section 0x1000 0x1000 0x400) eq_refl Hend) as [Hin _].
  apply Hin. apply Z.leb_le. reflexivity.
Defined.



(** ** Loading: result codes and the headers *)

(** From here on [simpl] leaves machine arithmetic and reads alone. *)
Arguments to_WORD : simpl never.
Arguments to_DWORD : simpl never.
Arguments to_PTR : simpl never.
Arguments to_LONG : simpl never.
Arguments DWORD_add : simpl never.
Arguments DWORD_sub : simpl never.
Arguments PTR_add : simpl never.
Arguments PTR_sub : simpl never.
Arguments rd8 : simpl never.
Arguments rd16 : simpl never.
Arguments rd32 : simpl never.
Arguments rd64 : simpl never.
Arguments rd_bytes : simpl never.
Arguments rd_wchars : simpl never.
Arguments cstr_within : simpl never.
Arguments IsPtrSafe : simpl never.
Arguments RVAToPtr : simpl never.
Arguments PtrToOffset : simpl never.
Arguments GetDirEntryRVA : simpl never.
Arguments GetDirEntrySize : simpl never.
Arguments Z.to_nat : simpl never.
Arguments Z.pow : simpl never.
Arguments Z.modulo : simpl never.
Arguments Z.div : simpl never.









Section LoadingProperties.

Variables ParseDataDirectories ParseSectionsHeaders ParseExceptions ParseSecurity
  ParseDebug ParseLCD ParseBoundImport ParseCOMDescriptor : Clibpe -> Clibpe.











End LoadingProperties.



(** ** The Rich stub *)

Lemma GetRichHeader_rich_then_end_of_file :
  GetRichHeader (snd (ParseRichHeader rich_then_end_of_file)) = None.
Proof. vm_compute. reflexivity. Qed.

Lemma GetRichHeader_rich_one_entry :
  GetRichHeader (snd (ParseRichHeader rich_one_entry))
  = Some [ {| rich_dwOffset := 0x90; rich_product_id := 0x0001;
              rich_build_id := 0x1234; rich_use_count := 5 |} ].
Proof. vm_compute. reflexivity. Qed.

(** *** Reads and pointers modulo 2^64 *)

Lemma to_PTR_succ x y k : to_PTR x = to_PTR y -> to_PTR (x + k) = to_PTR (y + k).
Proof.
  unfold to_PTR. intros H.
  rewrite <- (Zplus_mod_idemp_l x), <- (Zplus_mod_idemp_l y), H. reflexivity.
Qed.

Lemma rd8_congr v x y : to_PTR x = to_PTR y -> rd8 v x = rd8 v y.
Proof. unfold rd8. intros H. rewrite H. reflexivity. Qed.

Lemma rd16_congr v x y : to_PTR x = to_PTR y -> rd16 v x = rd16 v y.
Proof.
  intros H. unfold rd16.
  rewrite (rd8_congr v x y H), (rd8_congr v (x + 1) (y + 1) (to_PTR_succ x y 1 H)).
  reflexivity.
Qed.

Lemma rd32_congr v x y : to_PTR x = to_PTR y -> rd32 v x = rd32 v y.
Proof.
  intros H. unfold rd32.
  rewrite (rd16_congr v x y H), (rd16_congr v (x + 2) (y + 2) (to_PTR_succ x y 2 H)).
  reflexivity.
Qed.

Lemma to_PTR_idem x : to_PTR (to_PTR x) = to_PTR x.
Proof. unfold to_PTR. apply Z.mod_mod. unfold PTR_MOD. lia. Qed.

Lemma rd32_PTR_add v a k : rd32 v (PTR_add a k) = rd32 v (a + k).
Proof. apply rd32_congr. unfold PTR_add. apply to_PTR_idem. Qed.

Lemma rd16_PTR_add v a k : rd16 v (PTR_add a k) = rd16 v (a + k).
Proof. apply rd16_congr. unfold PTR_add. apply to_PTR_idem. Qed.

Lemma PTR_add_small a k : 0 <= a + k < PTR_MOD -> PTR_add a k = a + k.
Proof. intros H. unfold PTR_add. apply to_PTR_small. exact H. Qed.

Lemma USER_SPACE_lt : USER_SPACE + 2 ^ 63 < PTR_MOD.
Proof. unfold USER_SPACE, PTR_MOD. lia. Qed.

(** Inside a mapped view a pointer base + x is safe exactly when the offset
    x is inside the file (or at its end, when the boundary is allowed). *)
Lemma IsPtrSafe_offset m x bnd :
  view_mapped (m_view m) -> 0 <= x < 2 ^ 63 ->
  IsPtrSafe m (GetBaseAddr m + x) bnd
  = if bnd then x <=? GetDataSize m else x <? GetDataSize m.
Proof.
  intros (Hb & Hs & Hu) Hx. pose proof USER_SPACE_lt as HU.
  unfold IsPtrSafe, GetBaseAddr, GetDataSize in *.
  rewrite PTR_add_small by lia.
  destruct (Z.eqb_spec (v_base (m_view m) + x) 0) as [E|_]; [lia|].
  destruct bnd.
  - destruct (Z.leb_spec x (v_size (m_view m)));
      destruct (Z.leb_spec (v_base (m_view m) + x) (v_base (m_view m) + v_size (m_view m)));
      destruct (Z.leb_spec (v_base (m_view m)) (v_base (m_view m) + x)); cbn [andb]; lia.
  - destruct (Z.ltb_spec x (v_size (m_view m)));
      destruct (Z.ltb_spec (v_base (m_view m) + x) (v_base (m_view m) + v_size (m_view m)));
      destruct (Z.leb_spec (v_base (m_view m)) (v_base (m_view m) + x)); cbn [andb]; lia.
Qed.

Lemma to_LONG_range z : - 2 ^ 31 <= to_LONG z < 2 ^ 31.
Proof.
  unfold to_LONG. pose proof (to_DWORD_range z) as H. unfold DWORD_MOD in *.
  destruct (to_DWORD z <? 2 ^ 31) eqn:E.
  - apply Z.ltb_lt in E. lia.
  - apply Z.ltb_ge in E. lia.
Qed.

(** *** The scan *)

Lemma rich_scan_some b n o o' :
  rich_scan b n o = Some o' ->
  exists k, (k < n)%nat /\ o' = o + 4 * Z.of_nat k /\ rich_match b o' = true
            /\ forall j, (j < k)%nat -> rich_match b (o + 4 * Z.of_nat j) = false.
Proof.
  revert o. induction n as [|n IH]; intros o; cbn [rich_scan]; [discriminate|].
  destruct (rich_match b o) eqn:E.
  - intros H. injection H as <-. exists 0%nat. repeat split.
    + lia.
    + lia.
    + exact E.
    + intros j Hj. lia.
  - intros H. destruct (IH _ H) as (k & Hk & Ho & Hm & Hfirst).
    exists (S k). repeat split.
    + lia.
    + lia.
    + exact Hm.
    + intros [|j] Hj.
      * replace (o + 4 * Z.of_nat 0) with o by lia. exact E.
      * replace (o + 4 * Z.of_nat (S j)) with (o + 4 + 4 * Z.of_nat j) by lia.
        apply Hfirst. lia.
Qed.

Lemma rich_scan_none b n o :
  rich_scan b n o = None ->
  forall k, (k < n)%nat -> rich_match b (o + 4 * Z.of_nat k) = false.
Proof.
  revert o. induction n as [|n IH]; intros o; cbn [rich_scan]; [intros _ k Hk; lia|].
  destruct (rich_match b o) eqn:E; [discriminate|].
  intros H [|k] Hk.
  - replace (o + 4 * Z.of_nat 0) with o by lia. exact E.
  - replace (o + 4 * Z.of_nat (S k)) with (o + 4 + 4 * Z.of_nat k) by lia.
    apply (IH _ H). lia.
Qed.

(** The offsets scanned are 0x80 + 4k for k below (e_lfanew - 0x80) / 4. *)
Lemma scanned_iff b o :
  scanned b o <->
  exists k, (k < Z.to_nat ((dos_e_lfanew b - 0x80) / 4))%nat /\ o = 0x80 + 4 * Z.of_nat k.
Proof.
  unfold scanned. split.
  - intros (i & Hi & Ho & He). exists (Z.to_nat i). split; [|lia].
    assert (i + 1 <= (dos_e_lfanew b - 0x80) / 4).
    { apply Z.div_le_lower_bound; lia. }
    lia.
  - intros (k & Hk & Ho). exists (Z.of_nat k). split; [lia|]. split; [exact Ho|].
    assert (Hpos : 0 < (dos_e_lfanew b - 0x80) / 4) by lia.
    assert (4 * ((dos_e_lfanew b - 0x80) / 4) <= dos_e_lfanew b - 0x80).
    { apply Z.mul_div_le. lia. }
    lia.
Qed.

Lemma rich_sign_here_match m o :
  view_mapped (m_view m) -> 0 <= o < 2 ^ 32 ->
  rich_sign_here m (GetBaseAddr m + o) = rich_match (m_view m) o.
Proof.
  intros Hv Ho. pose proof USER_SPACE_lt as HU.
  destruct Hv as (Hb & Hs & Hu).
  unfold rich_sign_here, rich_match, file_dword, GetBaseAddr in *.
  rewrite !rd32_PTR_add.
  rewrite (PTR_add_small (v_base (m_view m)) 0x90) by lia.
  replace (v_base (m_view m) + o + 4) with (v_base (m_view m) + (o + 4)) by lia.
  replace (v_base (m_view m) + 0x90 <=? v_base (m_view m) + o) with (0x90 <=? o).
  - destruct (_ =? RICH_SIGN); destruct (0x90 <=? o); destruct (_ =? DANS_SIGN); reflexivity.
  - destruct (Z.leb_spec 0x90 o);
      destruct (Z.leb_spec (v_base (m_view m) + 0x90) (v_base (m_view m) + o)); lia.
Qed.

Lemma rich_entries_map m key n k0 :
  view_mapped (m_view m) ->
  0x90 + 8 * (Z.of_nat k0 + Z.of_nat n) < 2 ^ 32 ->
  rich_entries m key n (GetBaseAddr m + (0x90 + 8 * Z.of_nat k0))
  = map (rich_entry (m_view m) key) (seq k0 n).
Proof.
  intros Hv. pose proof USER_SPACE_lt as HU.
  destruct Hv as (Hb & Hs & Hu).
  revert k0. induction n as [|n IH]; intros k0 Hk; cbn [rich_entries map seq]; [reflexivity|].
  f_equal.
  - unfold rich_entry, file_dword, GetBaseAddr. f_equal.
    + unfold PTR_sub.
      replace (v_base (m_view m) + (0x90 + 8 * Z.of_nat k0) - v_base (m_view m))
        with (0x90 + 8 * Z.of_nat k0) by lia.
      rewrite to_PTR_small by (unfold PTR_MOD; lia).
      apply to_DWORD_small. unfold DWORD_MOD. lia.
    + rewrite rd32_PTR_add. do 2 f_equal. lia.
  - rewrite PTR_add_small by (unfold GetBaseAddr; lia).
    replace (GetBaseAddr m + (0x90 + 8 * Z.of_nat k0) + 8)
      with (GetBaseAddr m + (0x90 + 8 * Z.of_nat (S k0))) by lia.
    apply IH. lia.
Qed.

(** The scan of the source over a mapped view, in file offsets. *)
Lemma ParseRichHeader_loop_scan m n o :
  view_mapped (m_view m) ->
  0x80 <= o -> o + 4 * Z.of_nat n < 2 ^ 32 ->
  ParseRichHeader_loop m n (GetBaseAddr m + o)
  = match rich_scan (m_view m) n o with
    | None => (false, m)
    | Some o' =>
      (true,
       flag set_HasRichHdr
         (set_m_vecRichHeader
            (m_vecRichHeader m
             ++ map (rich_entry (m_view m) (file_dword (m_view m) (o' + 4)))
                    (seq 0 (Z.to_nat ((o' - 0x90) / 8)))) m))
    end.
Proof.
  intros Hv. pose proof USER_SPACE_lt as HU. pose proof Hv as (Hb & Hs & Hu).
  revert o. induction n as [|n IH]; intros o Ho Hn; cbn [ParseRichHeader_loop rich_scan]; [reflexivity|].
  rewrite rich_sign_here_match by (auto; lia).
  destruct (rich_match (m_view m) o) eqn:E.
  - unfold rich_match in E. rewrite !andb_true_iff, Z.leb_le in E.
    destruct E as [[_ Ho90] _].
    assert (Hsz : to_DWORD (PTR_sub (PTR_sub (GetBaseAddr m + o) (GetBaseAddr m)) 0x90)
                  = o - 0x90).
    { unfold PTR_sub. replace (GetBaseAddr m + o - GetBaseAddr m) with o by lia.
      rewrite (to_PTR_small o) by (unfold PTR_MOD; lia).
      rewrite to_PTR_small by (unfold PTR_MOD; lia).
      apply to_DWORD_small. unfold DWORD_MOD. lia. }
    rewrite Hsz. rewrite rd32_PTR_add.
    rewrite (PTR_add_small (GetBaseAddr m) 0x90) by (unfold GetBaseAddr; lia).
    assert (Hdiv : 8 * ((o - 0x90) / 8) <= o - 0x90) by (apply Z.mul_div_le; lia).
    assert (Hdiv0 : 0 <= (o - 0x90) / 8) by (apply Z.div_pos; lia).
    replace (GetBaseAddr m + 0x90) with (GetBaseAddr m + (0x90 + 8 * Z.of_nat 0)) by lia.
    rewrite rich_entries_map by (auto; lia).
    unfold file_dword, GetBaseAddr.
    replace (v_base (m_view m) + o + 4) with (v_base (m_view m) + (o + 4)) by lia.
    reflexivity.
  - rewrite PTR_add_small by (unfold GetBaseAddr; lia).
    replace (GetBaseAddr m + o + 4) with (GetBaseAddr m + (o + 4)) by lia.
    apply IH; lia.
Qed.

(** The guard of [ParseRichHeader] over a mapped view. *)
Lemma ParseRichHeader_guard m :
  view_mapped (m_view m) ->
  ((e_lfanew m <=? 0x80)
   || negb (IsPtrSafe m (PTR_add (GetBaseAddr m) (e_lfanew m)) false)) = false
  <-> 0x80 < e_lfanew m < GetDataSize m.
Proof.
  intros Hv. pose proof USER_SPACE_lt as HU. pose proof Hv as (Hb & Hs & Hu).
  pose proof (to_LONG_range (rd32 (m_view m) (GetDosPtr m + 60))) as He.
  fold (e_lfanew m) in He.
  destruct (Z.leb_spec (e_lfanew m) 0x80) as [Hle|Hgt]; cbn [orb].
  - split; [discriminate|lia].
  - rewrite PTR_add_small by (unfold GetBaseAddr; lia).
    rewrite IsPtrSafe_offset by (auto; lia).
    destruct (Z.ltb_spec (e_lfanew m) (GetDataSize m)); cbn [negb]; split;
      try discriminate; try reflexivity; lia.
Qed.

Lemma GetRichHeader_flagged m l :
  m_fLoaded m = true ->
  GetRichHeader (flag set_HasRichHdr (set_m_vecRichHeader l m)) = Some l.
Proof. intros H. unfold GetRichHeader. unfold flag; cbn. rewrite H. reflexivity. Qed.

Lemma GetRichHeader_unflagged m :
  HasRichHdr (m_stFileInfo m) = false -> GetRichHeader m = None.
Proof.
  intros H. unfold GetRichHeader. rewrite H. destruct (m_fLoaded m); reflexivity.
Qed.

(** X3: Rich-stub entries are recorded if and only if e_lfanew
    lies inside the file beyond 0x80 and the scan of the DWORDs from 0x80 up
    to e_lfanew finds "Rich" at an offset >= 0x90 with the DWORD at 0x80 xor
    the DWORD after "Rich" equal to "DanS"; for the first such match exactly
    (Rich-offset - 0x90) / 8 entries are recorded, from offset 0x90 on, each
    decoded with the key after "Rich": first DWORD xor key -> high 16 bits =
    product-id, low 16 bits = build-id; second DWORD xor key -> use-count. *)
Theorem ParseRichHeader_stub (m : Clibpe) :
  view_mapped (m_view m) ->
  m_fLoaded m = true ->
  HasRichHdr (m_stFileInfo m) = false ->
  m_vecRichHeader m = [] ->
  (GetRichHeader (snd (ParseRichHeader m)) <> None
   <-> 0x80 < dos_e_lfanew (m_view m) < v_size (m_view m)
       /\ exists o, rich_found (m_view m) o)
  /\ (0x80 < dos_e_lfanew (m_view m) < v_size (m_view m) ->
      forall o, first_rich_found (m_view m) o ->
        GetRichHeader (snd (ParseRichHeader m))
        = Some (map (rich_entry (m_view m) (file_dword (m_view m) (o + 4)))
                    (seq 0 (Z.to_nat ((o - 0x90) / 8))))).
Proof.
  intros Hv Hloaded Hflag Hvec.
  pose proof USER_SPACE_lt as HU. pose proof Hv as (Hb & Hs & Hu).
  pose proof (ParseRichHeader_guard m Hv) as Hguard.
  assert (He : e_lfanew m = dos_e_lfanew (m_view m)) by reflexivity.
  pose proof (to_LONG_range (rd32 (m_view m) (GetDosPtr m + 60))) as Hrange.
  fold (e_lfanew m) in Hrange.
  unfold ParseRichHeader.
  destruct ((e_lfanew m <=? 0x80)
            || negb (IsPtrSafe m (PTR_add (GetBaseAddr m) (e_lfanew m)) false)) eqn:G.
  - assert (Hno : ~ 0x80 < e_lfanew m < GetDataSize m).
    { intros H. apply Hguard in H. discriminate H. }
    cbn [snd]. rewrite GetRichHeader_unflagged by exact Hflag.
    rewrite <- He. unfold GetDataSize in Hno. split.
    + split; [intros H; exfalso; apply H; reflexivity|intros [H _]; contradiction].
    + intros H. contradiction.
  - clear G. assert (G := proj1 Hguard eq_refl). unfold GetDataSize in G.
    assert (Hn : 4 * ((e_lfanew m - 0x80) / 4) <= e_lfanew m - 0x80)
      by (apply Z.mul_div_le; lia).
    assert (Hn0 : 0 <= (e_lfanew m - 0x80) / 4) by (apply Z.div_pos; lia).
    rewrite (PTR_add_small (GetBaseAddr m) 0x80) by (unfold GetBaseAddr; lia).
    rewrite ParseRichHeader_loop_scan by (auto; lia).
    rewrite Hvec. cbn [app]. rewrite <- He.
    destruct (rich_scan (m_view m) (Z.to_nat ((e_lfanew m - 0x80) / 4)) 0x80) as [o'|] eqn:S.
    + cbn [snd]. rewrite GetRichHeader_flagged by exact Hloaded.
      destruct (rich_scan_some _ _ _ _ S) as (k & Hk & Ho' & Hm & Hfirst).
      assert (Hfound : rich_found (m_view m) o').
      { split; [|exact Hm]. apply scanned_iff. exists k. rewrite <- He. auto. }
      split.
      * split; [intros _; split; [exact G|exists o'; exact Hfound]|intros _; discriminate].
      * intros _ o [[Hsc Hmo] Hleast].
        apply scanned_iff in Hsc. rewrite <- He in Hsc. destruct Hsc as (j & Hj & Ho).
        assert (Hle : o <= o') by (apply Hleast; exact Hfound).
        assert (Hjk : ~ (j < k)%nat).
        { intros Hlt. rewrite Ho, (Hfirst j Hlt) in Hmo. discriminate Hmo. }
        assert (Heq : o = o') by lia. rewrite Heq. reflexivity.
    + cbn [snd]. rewrite GetRichHeader_unflagged by exact Hflag.
      assert (Hnone : forall o, rich_found (m_view m) o -> False).
      { intros o [Hsc Hmo]. apply scanned_iff in Hsc. rewrite <- He in Hsc.
        destruct Hsc as (j & Hj & Ho).
        rewrite Ho, (rich_scan_none _ _ _ S j Hj) in Hmo. discriminate Hmo. }
      split.
      * split; [intros H; exfalso; apply H; reflexivity|].
        intros [_ [o Ho]]. exfalso. exact (Hnone o Ho).
      * intros _ o [Ho _]. exfalso. exact (Hnone o Ho).
Qed.

Lemma rich_found_rich_then_end_of_file :
  rich_found (m_view rich_then_end_of_file) 0x98.
Proof.
  split.
  - exists 6. split; [lia|]. split; [reflexivity|]. vm_compute. discriminate.
  - vm_compute. reflexivity.
Qed.

Lemma rich_found_rich_one_entry : rich_found (m_view rich_one_entry) 0x98.
Proof.
  split.
  - exists 6. split; [lia|]. split; [reflexivity|]. vm_compute. discriminate.
  - vm_compute. reflexivity.
Qed.

Lemma first_rich_found_rich_one_entry :
  first_rich_found (m_view rich_one_entry) 0x98.
Proof.
  split; [exact rich_found_rich_one_entry|].
  intros o' [(i & Hi & Ho & He) Hm].
  assert (Hl : dos_e_lfanew (m_view rich_one_entry) = 0xA0) by (vm_compute; reflexivity).
  rewrite Hl in He.
  assert (Hcases : i = 0 \/ i = 1 \/ i = 2 \/ i = 3 \/ i = 4 \/ i = 5 \/ i = 6 \/ i = 7)
    by lia.
  destruct Hcases as [E|[E|[E|[E|[E|[E|[E|E]]]]]]]; subst i; subst o';
    try (vm_compute in Hm; discriminate Hm).
  lia.
Qed.

(** The Rich stub in the words of the specification fails twice.  In
    [rich_then_end_of_file] the scan up to e_lfanew = 0x100 finds "Rich" at
    0x98 with a matching key, but e_lfanew is the end of the file and nothing
    is recorded.  In [rich_one_entry] the entry 0x00011234 is recorded with
    its high word 0x0001 as product-id and its low word 0x1234 as build-id,
    not the other way round. *)
Lemma rich_stub_spec_fails :
  ~ rich_stub_spec rich_then_end_of_file /\ ~ rich_stub_spec rich_one_entry.
Proof.
  split.
  - intros [[_ H] _].
    apply H; [|exact GetRichHeader_rich_then_end_of_file].
    exists 0x98. exact rich_found_rich_then_end_of_file.
  - intros [_ H].
    specialize (H 0x98 first_rich_found_rich_one_entry).
    rewrite GetRichHeader_rich_one_entry in H. vm_compute in H. discriminate H.
Qed.

Lemma view_mapped_rich_one_entry : view_mapped (m_view rich_one_entry).
Proof.
  repeat split.
  - apply Z.leb_le. reflexivity.
  - apply Z.leb_le. reflexivity.
Qed.

(** The stub of [rich_one_entry]: one entry, product-id 1, build-id 0x1234,
    use-count 5. *)
Lemma ParseRichHeader_stub_witness :
  GetRichHeader (snd (ParseRichHeader rich_one_entry))
  = Some (map (rich_entry (m_view rich_one_entry)
                 (file_dword (m_view rich_one_entry) (0x98 + 4)))
              (seq 0 (Z.to_nat ((0x98 - 0x90) / 8)))).
Proof.
  destruct (ParseRichHeader_stub rich_one_entry view_mapped_rich_one_entry
              eq_refl eq_refl eq_refl) as [_ H].
  apply H.
  - split; apply Z.ltb_lt; reflexivity.
  - exact first_rich_found_rich_one_entry.
Defined.

(** ** Resources *)

Lemma resource_loop_parsed :
  fst (ParseResources resource_loop) = true
  /\ map (fun d => (rde_OffsetToData (r1_ResDirEntry d),
                    length (l2_ResData (r1_ResLvL2 d)),
                    map (fun d2 => (rde_OffsetToData (r2_ResDirEntry d2),
                                    length (l3_ResData (r2_ResLvL3 d2))))
                        (l2_ResData (r1_ResLvL2 d))))
         (l1_ResData (m_stResource (snd (ParseResources resource_loop))))
     = [ (0x80000020, 1%nat, [(0x80000000, 0%nat)]); (0x80000000, 0%nat, []) ].
Proof. vm_compute. split; reflexivity. Qed.

Lemma res_tree_depth_level3 l : (res_tree_depth (tree_of_level3 l) <= 1)%nat.
Proof.
  unfold tree_of_level3. simpl. apply le_n_S. apply list_max_le.
  rewrite map_map. apply Forall_forall. intros k Hk.
  apply in_map_iff in Hk. destruct Hk as (x & <- & _). simpl. lia.
Qed.

Lemma res_tree_depth_level2 l : (res_tree_depth (tree_of_level2 l) <= 2)%nat.
Proof.
  unfold tree_of_level2. simpl. apply le_n_S. apply list_max_le.
  rewrite map_map. apply Forall_forall. intros k Hk.
  apply in_map_iff in Hk. destruct Hk as (x & <- & _).
  unfold tree_of_entry2. destruct (DataIsDirectory (r2_ResDirEntry x)).
  - apply res_tree_depth_level3.
  - simpl. lia.
Qed.

Lemma res_tree_depth_root r : (res_tree_depth (tree_of_root r) <= 3)%nat.
Proof.
  unfold tree_of_root. simpl. apply le_n_S. apply list_max_le.
  rewrite map_map. apply Forall_forall. intros k Hk.
  apply in_map_iff in Hk. destruct Hk as (x & <- & _).
  unfold tree_of_entry1. destruct (DataIsDirectory (r1_ResDirEntry x)).
  - apply res_tree_depth_level2.
  - simpl. lia.
Qed.

(** Every entry a loop records comes from its accumulator or from one pass
    of its body. *)
Lemma res_loop1_In m root n p acc d :
  In d (res_loop1 m root n p acc) ->
  In d acc \/ exists q, res_entry1 m root q = Some d.
Proof.
  revert p acc. induction n as [|n IH]; intros p acc; simpl; [auto|].
  destruct (res_entry1 m root p) as [d'|] eqn:E; [|auto].
  destruct (negb _).
  - intros H. apply in_app_or in H. destruct H as [H|[H|[]]]; [auto|].
    subst d'. right. exists p. exact E.
  - intros H. destruct (IH _ _ H) as [H'|H']; [|auto].
    apply in_app_or in H'. destruct H' as [H'|[H'|[]]]; [auto|].
    subst d'. right. exists p. exact E.
Qed.

Lemma res_loop2_In m root dir2 n p acc d :
  In d (res_loop2 m root dir2 n p acc) ->
  In d acc \/ exists q, res_entry2 m root dir2 q = Some d.
Proof.
  revert p acc. induction n as [|n IH]; intros p acc; simpl; [auto|].
  destruct (res_entry2 m root dir2 p) as [d'|] eqn:E; [|auto].
  destruct (negb _).
  - intros H. apply in_app_or in H. destruct H as [H|[H|[]]]; [auto|].
    subst d'. right. exists p. exact E.
  - intros H. destruct (IH _ _ H) as [H'|H']; [|auto].
    apply in_app_or in H'. destruct H' as [H'|[H'|[]]]; [auto|].
    subst d'. right. exists p. exact E.
Qed.

(** A loop over [n] entries records at most [n] of them. *)
Lemma res_loop1_length m root n p acc :
  (length (res_loop1 m root n p acc) <= length acc + n)%nat.
Proof.
  revert p acc. induction n as [|n IH]; intros p acc; simpl; [lia|].
  destruct (res_entry1 m root p); [|lia].
  destruct (negb _).
  - rewrite length_app. simpl. lia.
  - specialize (IH (PTR_add p sizeof_IMAGE_RESOURCE_DIRECTORY_ENTRY) (acc ++ [p0])).
    rewrite length_app in IH. simpl in IH. lia.
Qed.

Lemma res_loop2_length m root dir2 n p acc :
  (length (res_loop2 m root dir2 n p acc) <= length acc + n)%nat.
Proof.
  revert p acc. induction n as [|n IH]; intros p acc; simpl; [lia|].
  destruct (res_entry2 m root dir2 p); [|lia].
  destruct (negb _).
  - rewrite length_app. simpl. lia.
  - specialize (IH (PTR_add p sizeof_IMAGE_RESOURCE_DIRECTORY_ENTRY) (acc ++ [p0])).
    rewrite length_app in IH. simpl in IH. lia.
Qed.

Lemma res_loop3_length m root n p acc :
  (length (res_loop3 m root n p acc) <= length acc + n)%nat.
Proof.
  revert p acc. induction n as [|n IH]; intros p acc; simpl; [lia|].
  destruct (res_entry3 m root p); [|lia].
  destruct (negb _).
  - rewrite length_app. simpl. lia.
  - specialize (IH (PTR_add p sizeof_IMAGE_RESOURCE_DIRECTORY_ENTRY) (acc ++ [p0])).
    rewrite length_app in IH. simpl in IH. lia.
Qed.

Lemma res_NumOfEntries_bound v p : 0 <= res_NumOfEntries v p <= MAX_RES_ENTRIES.
Proof.
  unfold res_NumOfEntries, MAX_RES_ENTRIES.
  pose proof (rd16_range v (p + 12)). pose proof (rd16_range v (p + 14)).
  rewrite to_DWORD_small by (unfold DWORD_MOD; lia). lia.
Qed.

Lemma res_level3_shape m root dir2 e l3 :
  res_level3 m root dir2 e = Some l3 ->
  Z.of_nat (length (l3_ResData l3)) <= MAX_RES_ENTRIES
  /\ (child_directory root e = dir2 \/ child_directory root e = root ->
      l3_ResData l3 = []).
Proof.
  unfold res_level3. fold (child_directory root e).
  destruct (negb (IsPtrSafe m (child_directory root e) false)); [discriminate|].
  destruct (Z.eqb_spec (child_directory root e) dir2) as [E2|N2]; simpl.
  - intros H. injection H as <-. simpl. unfold MAX_RES_ENTRIES. split; [lia|auto].
  - destruct (Z.eqb_spec (child_directory root e) root) as [E1|N1].
    + intros H. injection H as <-. simpl. unfold MAX_RES_ENTRIES. split; [lia|auto].
    + destruct (negb _); [discriminate|].
      intros H. injection H as <-. simpl. split.
      * pose proof (res_loop3_length m root
                      (Z.to_nat (res_NumOfEntries (m_view m) (child_directory root e)))
                      (PTR_add (child_directory root e) sizeof_IMAGE_RESOURCE_DIRECTORY)
                      []) as Hlen.
        pose proof (res_NumOfEntries_bound (m_view m) (child_directory root e)).
        simpl in Hlen. lia.
      * intros [H|H]; contradiction.
Qed.

Lemma res_entry2_shape m root dir2 q d2 :
  res_entry2 m root dir2 q = Some d2 ->
  Z.of_nat (length (l3_ResData (r2_ResLvL3 d2))) <= MAX_RES_ENTRIES
  /\ (DataIsDirectory (r2_ResDirEntry d2) = true ->
      child_directory root (r2_ResDirEntry d2) = dir2
      \/ child_directory root (r2_ResDirEntry d2) = root ->
      l3_ResData (r2_ResLvL3 d2) = []).
Proof.
  unfold res_entry2.
  destruct (res_name m root (rd_res_entry (m_view m) q)); [|discriminate].
  destruct (DataIsDirectory (rd_res_entry (m_view m) q)) eqn:D.
  - destruct (res_level3 m root dir2 (rd_res_entry (m_view m) q)) as [l3|] eqn:L;
      [|discriminate].
    intros H. injection H as <-. simpl.
    destruct (res_level3_shape _ _ _ _ _ L) as [Hlen Hguard]. split; [exact Hlen|].
    intros _. exact Hguard.
  - intros H. injection H as <-. simpl. unfold MAX_RES_ENTRIES. split; [lia|].
    intros _ _. reflexivity.
Qed.

Lemma res_level2_shape m root e l2 :
  res_level2 m root e = Some l2 ->
  Z.of_nat (length (l2_ResData l2)) <= MAX_RES_ENTRIES
  /\ (child_directory root e = root -> l2_ResData l2 = [])
  /\ (forall d2, In d2 (l2_ResData l2) ->
        exists q, res_entry2 m root (child_directory root e) q = Some d2).
Proof.
  unfold res_level2. fold (child_directory root e).
  destruct (negb (IsPtrSafe m (child_directory root e) false)); [discriminate|].
  destruct (Z.eqb_spec (child_directory root e) root) as [E1|N1].
  - intros H. injection H as <-. simpl. unfold MAX_RES_ENTRIES.
    split; [lia|]. split; [auto|]. intros d2 [].
  - destruct (negb _); [discriminate|].
    intros H. injection H as <-. simpl. split; [|split].
    + pose proof (res_loop2_length m root (child_directory root e)
                    (Z.to_nat (res_NumOfEntries (m_view m) (child_directory root e)))
                    (PTR_add (child_directory root e) sizeof_IMAGE_RESOURCE_DIRECTORY)
                    []) as Hlen.
      pose proof (res_NumOfEntries_bound (m_view m) (child_directory root e)).
      simpl in Hlen. lia.
    + intros H. contradiction.
    + intros d2 Hd2. apply res_loop2_In in Hd2. destruct Hd2 as [[]|Hq]. exact Hq.
Qed.

Lemma res_entry1_shape m root q d1 :
  res_entry1 m root q = Some d1 ->
  Z.of_nat (length (l2_ResData (r1_ResLvL2 d1))) <= MAX_RES_ENTRIES
  /\ (DataIsDirectory (r1_ResDirEntry d1) = true ->
      child_directory root (r1_ResDirEntry d1) = root ->
      l2_ResData (r1_ResLvL2 d1) = [])
  /\ (forall d2, In d2 (l2_ResData (r1_ResLvL2 d1)) ->
        exists q2, res_entry2 m root (child_directory root (r1_ResDirEntry d1)) q2
                   = Some d2).
Proof.
  unfold res_entry1.
  destruct (res_name m root (rd_res_entry (m_view m) q)); [|discriminate].
  destruct (DataIsDirectory (rd_res_entry (m_view m) q)) eqn:D.
  - destruct (res_level2 m root (rd_res_entry (m_view m) q)) as [l2|] eqn:L;
      [|discriminate].
    intros H. injection H as <-. simpl.
    destruct (res_level2_shape _ _ _ _ L) as (Hlen & Hguard & Hin).
    split; [exact Hlen|]. split; [intros _; exact Hguard|exact Hin].
  - intros H. injection H as <-. simpl. unfold MAX_RES_ENTRIES.
    split; [lia|]. split; [reflexivity|]. intros d2 [].
Qed.

(** X4: resource parsing is a total function whose loops record at most
    NumberOfNamedEntries + NumberOfIdEntries (<= 2 * 0xFFFF) entries per
    directory; the tree it hands out has depth at most 3; a recorded root
    entry whose child directory pointer equals the resource root has an
    empty level-2 entry list, and a recorded level-2 entry whose child
    directory pointer equals the resource root or its level-2 parent has an
    empty level-3 entry list. *)
Theorem ParseResources_depth_and_cycle_guard (m : Clibpe) :
  fst (ParseResources m) = true ->
  let pResDirRoot := RVAToPtr m (GetDirEntryRVA m IMAGE_DIRECTORY_ENTRY_RESOURCE) in
  let res := m_stResource (snd (ParseResources m)) in
  HasResource (m_stFileInfo (snd (ParseResources m))) = true
  /\ (res_tree_depth (tree_of_root res) <= 3)%nat
  /\ Z.of_nat (length (l1_ResData res)) <= MAX_RES_ENTRIES
  /\ forall d1, In d1 (l1_ResData res) ->
       Z.of_nat (length (l2_ResData (r1_ResLvL2 d1))) <= MAX_RES_ENTRIES
       /\ (DataIsDirectory (r1_ResDirEntry d1) = true ->
           child_directory pResDirRoot (r1_ResDirEntry d1) = pResDirRoot ->
           l2_ResData (r1_ResLvL2 d1) = [])
       /\ forall d2, In d2 (l2_ResData (r1_ResLvL2 d1)) ->
            Z.of_nat (length (l3_ResData (r2_ResLvL3 d2))) <= MAX_RES_ENTRIES
            /\ (DataIsDirectory (r2_ResDirEntry d2) = true ->
                child_directory pResDirRoot (r2_ResDirEntry d2) = pResDirRoot
                \/ child_directory pResDirRoot (r2_ResDirEntry d2)
                   = child_directory pResDirRoot (r1_ResDirEntry d1) ->
                l3_ResData (r2_ResLvL3 d2) = []).
Proof.
  unfold ParseResources.
  set (root := RVAToPtr m (GetDirEntryRVA m IMAGE_DIRECTORY_ENTRY_RESOURCE)).
  destruct (root =? 0); [discriminate|].
  destruct (negb (IsPtrSafe m (PTR_add root sizeof_IMAGE_RESOURCE_DIRECTORY) false));
    [discriminate|].
  destruct (negb _); [discriminate|].
  intros _. cbv zeta. unfold flag.
  cbn [snd m_stResource m_stFileInfo set_m_stFileInfo set_m_stResource HasResource
       set_HasResource l1_ResData].
  split; [reflexivity|]. split; [apply res_tree_depth_root|]. split.
  - pose proof (res_loop1_length m root
                  (Z.to_nat (res_NumOfEntries (m_view m) root))
                  (PTR_add root sizeof_IMAGE_RESOURCE_DIRECTORY) []) as Hlen.
    pose proof (res_NumOfEntries_bound (m_view m) root).
    simpl in Hlen. lia.
  - intros d1 Hd1. apply res_loop1_In in Hd1. destruct Hd1 as [[]|[q Hq]].
    destruct (res_entry1_shape _ _ _ _ Hq) as (Hlen & Hguard & Hin).
    split; [exact Hlen|]. split; [exact Hguard|].
    intros d2 Hd2. destruct (Hin d2 Hd2) as [q2 Hq2].
    destruct (res_entry2_shape _ _ _ _ _ Hq2) as [Hlen3 Hguard3].
    split; [exact Hlen3|]. intros Hdir [H|H]; apply Hguard3; auto.
Qed.

(** [resource_loop] parses: its second root entry points to the root and
    the entry of its level-2 directory points to the root as well. *)
Lemma ParseResources_depth_and_cycle_guard_witness :
  HasResource (m_stFileInfo (snd (ParseResources resource_loop))) = true
  /\ (res_tree_depth (tree_of_root (m_stResource (snd (ParseResources resource_loop))))
      <= 3)%nat.
Proof.
  destruct (ParseResources_depth_and_cycle_guard resource_loop
              (proj1 resource_loop_parsed)) as (H1 & H2 & _).
  split; [exact H1|exact H2].
Defined.

(** ** Pointers: bounds and translation *)

Lemma IsPtrSafe_iff m a bnd :
  view_mapped (m_view m) ->
  (IsPtrSafe m a bnd = true <->
   GetBaseAddr m <= a
   /\ if bnd then a <= GetBaseAddr m + GetDataSize m
      else a < GetBaseAddr m + GetDataSize m).
Proof.
  intros (Hb & Hs & Hu). pose proof USER_SPACE_lt as HU.
  unfold IsPtrSafe, GetBaseAddr, GetDataSize.
  rewrite PTR_add_small by lia.
  destruct (Z.eqb_spec a 0) as [E|N].
  - subst a. split; [discriminate|]. intros [H _]. lia.
  - destruct bnd; rewrite andb_true_iff, Z.leb_le.
    + rewrite Z.leb_le. tauto.
    + rewrite Z.ltb_lt. tauto.
Qed.

(** The header loop returns the first header of the table that contains the
    RVA, provided every header up to it ends inside the file. *)
Lemma GetSecHdrFromRVA_loop_first m rva n p :
  view_mapped (m_view m) ->
  0 <= p -> p + 40 * Z.of_nat n < PTR_MOD ->
  let q := GetSecHdrFromRVA_loop m rva n p in
  q = 0
  \/ exists i, (i < n)%nat /\ q = section_header_at p i
       /\ header_contains (m_view m) q rva = true
       /\ (forall j, (j < i)%nat ->
             header_contains (m_view m) (section_header_at p j) rva = false)
       /\ (forall j, (j <= i)%nat ->
             IsPtrSafe m (section_header_at p j + 40) false = true).
Proof.
  intros Hv. revert p. induction n as [|n IH]; intros p Hp Hn; cbn [GetSecHdrFromRVA_loop].
  - left. reflexivity.
  - rewrite PTR_add_small by lia.
    destruct (IsPtrSafe m (p + 40) false) eqn:Hsafe; cbn [negb]; [|left; reflexivity].
    fold (header_contains (m_view m) p rva).
    destruct (header_contains (m_view m) p rva) eqn:Hc.
    + right. exists 0%nat. unfold section_header_at.
      replace (p + 40 * Z.of_nat 0) with p by lia.
      split; [lia|]. split; [reflexivity|]. split; [exact Hc|]. split.
      * intros j Hj. lia.
      * intros j Hj. assert (j = 0%nat) by lia. subst j.
        replace (p + 40 * Z.of_nat 0) with p by lia. exact Hsafe.
    + destruct (IH (p + 40)) as [H0|(i & Hi & Hq & Hcq & Hfirst & Hall)]; [lia|lia| |].
      * left. exact H0.
      * right. exists (S i). unfold section_header_at in *.
        split; [lia|]. split; [rewrite Hq; lia|]. split; [exact Hcq|]. split.
        -- intros [|j] Hj.
           ++ replace (p + 40 * Z.of_nat 0) with p by lia. exact Hc.
           ++ replace (p + 40 * Z.of_nat (S j)) with (p + 40 + 40 * Z.of_nat j) by lia.
              apply Hfirst. lia.
        -- intros [|j] Hj.
           ++ replace (p + 40 * Z.of_nat 0) with p by lia. exact Hsafe.
           ++ replace (p + 40 * Z.of_nat (S j)) with (p + 40 + 40 * Z.of_nat j) by lia.
              apply Hall. lia.
Qed.

Lemma GetSecHdrFromRVA_table m rva :
  GetSecHdrFromRVA m rva
  = GetSecHdrFromRVA_loop m rva (snd (section_table m)) (fst (section_table m)).
Proof.
  unfold GetSecHdrFromRVA, section_table.
  destruct (IsPE32 (m_stFileInfo m) && HasNTHdr (m_stFileInfo m)); [reflexivity|].
  destruct (IsPE64 (m_stFileInfo m) && HasNTHdr (m_stFileInfo m)); reflexivity.
Qed.

Lemma header_contains_rva_range v p rva :
  header_contains v p rva = true -> 0 <= rva < DWORD_MOD.
Proof.
  unfold header_contains, psh_VirtualAddress, psh_VirtualSize, DWORD_add.
  rewrite andb_true_iff, Z.leb_le, Z.ltb_lt.
  pose proof (rd32_range v (p + 12)). pose proof (to_DWORD_range (rd32 v (p + 12) + rd32 v (p + 8))).
  lia.
Qed.

(** X5: over a mapped view [RVAToPtr] returns null or a pointer between the
    start of the file and its end, the end included; a non-null result
    belongs to an RVA below 2^32 and is base + RVA - (VirtualAddress -
    PointerToRawData) for the first header of the section table, in table
    order, whose virtual range contains the RVA, every header up to that one
    ending inside the file. *)
Theorem RVAToPtr_in_file (m : Clibpe) (rva : Z) :
  view_mapped (m_view m) ->
  0 <= fst (section_table m) ->
  fst (section_table m) + 40 * Z.of_nat (snd (section_table m)) < PTR_MOD ->
  RVAToPtr m rva = 0
  \/ (GetBaseAddr m <= RVAToPtr m rva <= GetBaseAddr m + GetDataSize m
      /\ 0 <= rva < DWORD_MOD
      /\ exists i, (i < snd (section_table m))%nat
           /\ let h := section_header_at (fst (section_table m)) i in
              header_contains (m_view m) h rva = true
              /\ (forall j, (j < i)%nat ->
                    header_contains (m_view m)
                      (section_header_at (fst (section_table m)) j) rva = false)
              /\ (forall j, (j <= i)%nat ->
                    IsPtrSafe m (section_header_at (fst (section_table m)) j + 40) false
                    = true)
              /\ RVAToPtr m rva
                 = PTR_sub (PTR_add (GetBaseAddr m) rva)
                     (DWORD_sub (psh_VirtualAddress (m_view m) h)
                                (psh_PointerToRawData (m_view m) h))).
Proof.
  intros Hv Hp Hn. unfold RVAToPtr. rewrite GetSecHdrFromRVA_table.
  destruct (GetSecHdrFromRVA_loop_first m rva _ _ Hv Hp Hn)
    as [H0|(i & Hi & Hq & Hc & Hfirst & Hall)].
  - rewrite H0. left. reflexivity.
  - set (q := GetSecHdrFromRVA_loop m rva (snd (section_table m)) (fst (section_table m))) in *.
    destruct (q =? 0); [left; reflexivity|].
    destruct (IsPtrSafe m _ true) eqn:Hsafe; [|left; reflexivity].
    right. apply (IsPtrSafe_iff m _ true Hv) in Hsafe. destruct Hsafe as [H1 H2].
    split; [lia|]. split; [exact (header_contains_rva_range _ _ _ Hc)|].
    exists i. split; [exact Hi|]. cbv zeta. rewrite <- Hq.
    split; [exact Hc|]. split; [exact Hfirst|]. split; [exact Hall|reflexivity].
Qed.

(** X6: over a mapped view of a file smaller than 4 GiB, the file offset
    recorded for a pointer that [IsPtrSafe] accepts is the distance of the
    pointer from the start of the file; it is below the file size, or at
    most the file size when the boundary was allowed. *)
Theorem PtrToOffset_of_safe (m : Clibpe) (p : Z) (bnd : bool) :
  view_mapped (m_view m) ->
  GetDataSize m < DWORD_MOD ->
  IsPtrSafe m p bnd = true ->
  PtrToOffset m p = p - GetBaseAddr m
  /\ 0 <= PtrToOffset m p
  /\ if bnd then PtrToOffset m p <= GetDataSize m
     else PtrToOffset m p < GetDataSize m.
Proof.
  intros Hv Hsz Hsafe. apply (IsPtrSafe_iff m p bnd Hv) in Hsafe.
  destruct Hv as (Hb & Hs & Hu). pose proof USER_SPACE_lt as HU.
  unfold GetBaseAddr, GetDataSize, DWORD_MOD in *.
  assert (Hoff : PtrToOffset m p = p - v_base (m_view m)).
  { unfold PtrToOffset, GetBaseAddr.
    destruct (Z.eqb_spec p 0) as [E|_]; [lia|].
    unfold PTR_sub. destruct bnd.
    - rewrite to_PTR_small by (unfold PTR_MOD; lia).
      apply to_DWORD_small. unfold DWORD_MOD. lia.
    - rewrite to_PTR_small by (unfold PTR_MOD; lia).
      apply to_DWORD_small. unfold DWORD_MOD. lia. }
  rewrite Hoff. split; [reflexivity|]. split; [lia|]. destruct bnd; lia.
Qed.

(** Closed comparisons on examples. *)
Ltac by_computation :=
  first [ reflexivity
        | vm_compute; first [ reflexivity | discriminate | intro; discriminate ] ].

Lemma view_mapped_resource_loop : view_mapped (m_view resource_loop).
Proof. repeat split; by_computation. Qed.

(** RVA 0x1000 of [resource_loop] resolves inside the file. *)
Lemma RVAToPtr_in_file_witness :
  GetBaseAddr resource_loop <= RVAToPtr resource_loop 0x1000
  <= GetBaseAddr resource_loop + GetDataSize resource_loop.
Proof.
  assert (H1 : 0 <= fst (section_table resource_loop)) by by_computation.
  assert (H2 : fst (section_table resource_loop)
               + 40 * Z.of_nat (snd (section_table resource_loop)) < PTR_MOD)
    by by_computation.
  destruct (RVAToPtr_in_file resource_loop 0x1000 view_mapped_resource_loop H1 H2)
    as [H|[H _]].
  - vm_compute in H. discriminate H.
  - exact H.
Defined.

(** The resource root of [resource_loop] is at file offset 0x400. *)
Lemma PtrToOffset_of_safe_witness :
  PtrToOffset resource_loop (RVAToPtr resource_loop 0x1000)
  = RVAToPtr resource_loop 0x1000 - GetBaseAddr resource_loop.
Proof.
  assert (H1 : GetDataSize resource_loop < DWORD_MOD) by by_computation.
  assert (H2 : IsPtrSafe resource_loop (RVAToPtr resource_loop 0x1000) true = true)
    by by_computation.
  exact (proj1 (PtrToOffset_of_safe resource_loop _ true
                  view_mapped_resource_loop H1 H2)).
Defined.

(** ** TLS callbacks *)

Lemma dwords_snoc v p k :
  dwords v p (S k) = dwords v p k ++ [rd32 v (p + 4 * Z.of_nat k)].
Proof. unfold dwords. rewrite seq_S, map_app. reflexivity. Qed.

Lemma dwords_cons v p k :
  dwords v p (S k) = rd32 v p :: dwords v (p + 4) k.
Proof.
  unfold dwords. cbn [seq map]. f_equal.
  - f_equal. lia.
  - rewrite <- seq_shift, map_map. apply map_ext. intros j. f_equal. lia.
Qed.

(** The walk up to a zero terminator inside the file. *)
Lemma tls_callbacks_terminated m k : forall fuel p acc,
  view_mapped (m_view m) -> 0 <= p ->
  (k < fuel)%nat ->
  (forall j, (j < k)%nat -> rd32 (m_view m) (p + 4 * Z.of_nat j) <> 0) ->
  rd32 (m_view m) (p + 4 * Z.of_nat k) = 0 ->
  (forall j, (1 <= j <= k)%nat -> IsPtrSafe m (p + 4 * Z.of_nat j) false = true) ->
  tls_callbacks m fuel p acc = acc ++ dwords (m_view m) p k.
Proof.
  induction k as [|k IH]; intros fuel p acc Hv Hp Hfuel Hnz Hz Hsafe.
  - destruct fuel as [|fuel]; [lia|]. cbn [tls_callbacks].
    replace (p + 4 * Z.of_nat 0) with p in Hz by lia. rewrite Hz. cbn [Z.eqb].
    unfold dwords. cbn [seq map]. rewrite app_nil_r. reflexivity.
  - destruct fuel as [|fuel]; [lia|]. cbn [tls_callbacks].
    assert (H0 : rd32 (m_view m) p <> 0).
    { replace p with (p + 4 * Z.of_nat 0) by lia. apply Hnz. lia. }
    apply Z.eqb_neq in H0. rewrite H0.
    assert (H1 : IsPtrSafe m (p + 4) false = true).
    { replace (p + 4) with (p + 4 * Z.of_nat 1) by lia. apply Hsafe. lia. }
    pose proof (proj1 (IsPtrSafe_iff m (p + 4) false Hv) H1) as [Hlo Hhi].
    destruct Hv as (Hb & Hs & Hu). pose proof USER_SPACE_lt as HU.
    unfold GetBaseAddr, GetDataSize in Hlo, Hhi.
    rewrite PTR_add_small by lia. rewrite H1. cbn [negb].
    rewrite IH.
    + rewrite dwords_cons, <- app_assoc. reflexivity.
    + repeat split; assumption.
    + lia.
    + lia.
    + intros j Hj. replace (p + 4 + 4 * Z.of_nat j) with (p + 4 * Z.of_nat (S j)) by lia.
      apply Hnz. lia.
    + replace (p + 4 + 4 * Z.of_nat k) with (p + 4 * Z.of_nat (S k)) by lia. exact Hz.
    + intros j Hj. replace (p + 4 + 4 * Z.of_nat j) with (p + 4 * Z.of_nat (S j)) by lia.
      apply Hsafe. lia.
Qed.

(** The walk that reaches the end of the file before a zero. *)
Lemma tls_callbacks_cleared m k : forall fuel p acc,
  view_mapped (m_view m) -> 0 <= p <= GetBaseAddr m + GetDataSize m ->
  (k < fuel)%nat ->
  (forall j, (j <= k)%nat -> rd32 (m_view m) (p + 4 * Z.of_nat j) <> 0) ->
  (forall j, (1 <= j <= k)%nat -> IsPtrSafe m (p + 4 * Z.of_nat j) false = true) ->
  IsPtrSafe m (p + 4 * Z.of_nat (S k)) false = false ->
  tls_callbacks m fuel p acc = [].
Proof.
  induction k as [|k IH]; intros fuel p acc Hv Hp Hfuel Hnz Hsafe Hout;
    pose proof Hv as (Hb & Hs & Hu); pose proof USER_SPACE_lt as HU;
    unfold GetBaseAddr, GetDataSize in Hp.
  - destruct fuel as [|fuel]; [lia|]. cbn [tls_callbacks].
    assert (H0 : rd32 (m_view m) p <> 0).
    { replace p with (p + 4 * Z.of_nat 0) by lia. apply Hnz. lia. }
    apply Z.eqb_neq in H0. rewrite H0.
    replace (p + 4 * Z.of_nat 1) with (p + 4) in Hout by lia.
    rewrite PTR_add_small by lia. rewrite Hout. reflexivity.
  - destruct fuel as [|fuel]; [lia|]. cbn [tls_callbacks].
    assert (H0 : rd32 (m_view m) p <> 0).
    { replace p with (p + 4 * Z.of_nat 0) by lia. apply Hnz. lia. }
    apply Z.eqb_neq in H0. rewrite H0.
    assert (H1 : IsPtrSafe m (p + 4) false = true).
    { replace (p + 4) with (p + 4 * Z.of_nat 1) by lia. apply Hsafe. lia. }
    pose proof (proj1 (IsPtrSafe_iff m (p + 4) false Hv) H1) as [Hlo Hhi].
    unfold GetBaseAddr, GetDataSize in Hlo, Hhi.
    rewrite PTR_add_small by lia. rewrite H1. cbn [negb].
    apply IH.
    + exact Hv.
    + unfold GetBaseAddr, GetDataSize. lia.
    + lia.
    + intros j Hj. replace (p + 4 + 4 * Z.of_nat j) with (p + 4 * Z.of_nat (S j)) by lia.
      apply Hnz. lia.
    + intros j Hj. replace (p + 4 + 4 * Z.of_nat j) with (p + 4 * Z.of_nat (S j)) by lia.
      apply Hsafe. lia.
    + replace (p + 4 + 4 * Z.of_nat (S k)) with (p + 4 * Z.of_nat (S (S k))) by lia.
      exact Hout.
Qed.

(** A walk from inside the file makes fewer passes than the file has bytes. *)
Lemma walk_fuel_enough m p k step :
  view_mapped (m_view m) -> 0 < step ->
  GetBaseAddr m <= p ->
  (k = 0%nat \/ IsPtrSafe m (p + step * Z.of_nat k) false = true) ->
  (k < walk_fuel m)%nat.
Proof.
  intros Hv Hstep Hp [H0|Hsafe]; unfold walk_fuel; [lia|].
  apply (IsPtrSafe_iff m _ false Hv) in Hsafe. destruct Hv as (Hb & Hs & Hu).
  unfold GetBaseAddr, GetDataSize in *. nia.
Qed.

(** A pointer that [RVAToPtr] hands out has passed [IsPtrSafe] with the
    boundary allowed. *)
Lemma RVAToPtr_safe m rva :
  RVAToPtr m rva <> 0 -> IsPtrSafe m (RVAToPtr m rva) true = true.
Proof.
  unfold RVAToPtr. destruct (GetSecHdrFromRVA m rva =? 0); [intros H; contradiction|].
  destruct (IsPtrSafe m _ true) eqn:E; [intros _; exact E|intros H; contradiction].
Qed.

Lemma ParseTLS_record m :
  fst (ParseTLS m) = true ->
  HasTLS (m_stFileInfo (snd (ParseTLS m))) = true
  /\ tls_directory m <> 0
  /\ tls_dwOffset (m_stTLS (snd (ParseTLS m))) = PtrToOffset m (tls_directory m)
  /\ tls_Callbacks (m_stTLS (snd (ParseTLS m)))
     = if negb (tls_callback_array m =? 0)
       then tls_callbacks m (walk_fuel m) (tls_callback_array m) []
       else [].
Proof.
  unfold ParseTLS, tls_callback_array, tls_AddressOfCallBacks, tls_directory.
  destruct (GetDirEntryRVA m IMAGE_DIRECTORY_ENTRY_TLS =? 0); [discriminate|].
  destruct (IsPE32 (m_stFileInfo m)).
  - destruct (Z.eqb_spec (RVAToPtr m (GetDirEntryRVA m IMAGE_DIRECTORY_ENTRY_TLS)) 0);
      [discriminate|].
    intros _. unfold flag, tls_record. cbn. repeat split; auto.
  - destruct (IsPE64 (m_stFileInfo m)); [|discriminate].
    destruct (Z.eqb_spec (RVAToPtr m (GetDirEntryRVA m IMAGE_DIRECTORY_ENTRY_TLS)) 0);
      [discriminate|].
    intros _. unfold flag, tls_record. cbn. repeat split; auto.
Qed.

(** X7: when [ParseTLS] succeeds the TLS flag is set and the callbacks are
    read as DWORDs from the array that AddressOfCallBacks less the image
    base resolves to: none when it does not resolve; the DWORDs before the
    first zero when that zero and everything before it lie inside the file;
    and none at all when the non-zero DWORDs run up to the end of the file,
    where what was collected is cleared. *)
Theorem ParseTLS_callbacks (m : Clibpe) :
  view_mapped (m_view m) ->
  fst (ParseTLS m) = true ->
  let p := tls_callback_array m in
  let callbacks := tls_Callbacks (m_stTLS (snd (ParseTLS m))) in
  HasTLS (m_stFileInfo (snd (ParseTLS m))) = true
  /\ (p = 0 -> callbacks = [])
  /\ (forall k,
        p <> 0 ->
        (forall j, (j < k)%nat -> rd32 (m_view m) (p + 4 * Z.of_nat j) <> 0) ->
        rd32 (m_view m) (p + 4 * Z.of_nat k) = 0 ->
        (forall j, (1 <= j <= k)%nat -> IsPtrSafe m (p + 4 * Z.of_nat j) false = true) ->
        callbacks = dwords (m_view m) p k)
  /\ (forall k,
        p <> 0 ->
        (forall j, (j <= k)%nat -> rd32 (m_view m) (p + 4 * Z.of_nat j) <> 0) ->
        (forall j, (1 <= j <= k)%nat -> IsPtrSafe m (p + 4 * Z.of_nat j) false = true) ->
        IsPtrSafe m (p + 4 * Z.of_nat (S k)) false = false ->
        callbacks = []).
Proof.
  intros Hv Hok. cbv zeta.
  destruct (ParseTLS_record m Hok) as (Hflag & _ & _ & Hcb).
  rewrite Hcb. clear Hcb.
  assert (Hin : tls_callback_array m <> 0 ->
                GetBaseAddr m <= tls_callback_array m
                <= GetBaseAddr m + GetDataSize m).
  { intros Hnz. apply (IsPtrSafe_iff m _ true Hv). apply RVAToPtr_safe. exact Hnz. }
  pose proof Hv as (Hb & Hs & Hu).
  split; [exact Hflag|]. split; [|split].
  - intros H0. rewrite H0. reflexivity.
  - intros k Hnz Hrun Hzero Hsafe.
    apply Z.eqb_neq in Hnz. rewrite Hnz. cbn [negb]. apply Z.eqb_neq in Hnz.
    specialize (Hin Hnz). unfold GetBaseAddr in Hin.
    rewrite (tls_callbacks_terminated m k); [reflexivity|exact Hv|lia| |exact Hrun|exact Hzero|exact Hsafe].
    apply (walk_fuel_enough m (tls_callback_array m) k 4 Hv); [lia|exact (proj1 Hin)|].
    destruct k as [|k]; [left; reflexivity|right]. apply Hsafe. lia.
  - intros k Hnz Hrun Hsafe Hout.
    apply Z.eqb_neq in Hnz. rewrite Hnz. cbn [negb]. apply Z.eqb_neq in Hnz.
    specialize (Hin Hnz).
    apply (tls_callbacks_cleared m k); [exact Hv|unfold GetBaseAddr in *; lia| |exact Hrun|exact Hsafe|exact Hout].
    apply (walk_fuel_enough m (tls_callback_array m) k 4 Hv); [lia|exact (proj1 Hin)|].
    destruct k as [|k]; [left; reflexivity|right]. apply Hsafe. lia.
Qed.

Lemma view_mapped_tls_two_callbacks : view_mapped (m_view tls_two_callbacks).
Proof. repeat split; by_computation. Qed.

(** [tls_two_callbacks] records its two callbacks. *)
Lemma ParseTLS_callbacks_witness :
  tls_Callbacks (m_stTLS (snd (ParseTLS tls_two_callbacks)))
  = dwords (m_view tls_two_callbacks) (tls_callback_array tls_two_callbacks) 2.
Proof.
  assert (Hok : fst (ParseTLS tls_two_callbacks) = true) by by_computation.
  destruct (ParseTLS_callbacks tls_two_callbacks view_mapped_tls_two_callbacks Hok)
    as (_ & _ & H & _).
  apply H.
  - by_computation.
  - intros [|[|j]] Hj; [by_computation|by_computation|exfalso; lia].
  - by_computation.
  - intros [|[|[|j]]] Hj; [exfalso; lia|by_computation|by_computation|exfalso; lia].
Defined.

(** ** Base relocations *)

Lemma highadj_paired_app l1 l2 :
  highadj_paired l1 -> highadj_paired l2 -> highadj_paired (l1 ++ l2).
Proof.
  intros H1 H2. induction H1; cbn [app].
  - exact H2.
  - apply paired_one; assumption.
  - apply paired_two; assumption.
Qed.

Lemma reloc_entries_paired m fuel : forall i n p acc,
  highadj_paired acc -> highadj_paired (reloc_entries m fuel i n p acc).
Proof.
  induction fuel as [|fuel IH]; intros i n p acc Hacc; cbn [reloc_entries]; [exact Hacc|].
  destruct (negb (i <? n)); [exact Hacc|].
  destruct (negb (IsPtrSafe m p false)); [exact Hacc|].
  destruct (Z.eqb_spec (Z.shiftr (Z.land (rd16 (m_view m) p) 0xF000) 12)
              IMAGE_REL_BASED_HIGHADJ) as [E|N].
  - destruct (negb (IsPtrSafe m (PTR_add p 2) false)); [constructor|].
    apply IH. rewrite <- app_assoc. apply highadj_paired_app; [exact Hacc|].
    cbn [app]. apply paired_two; [exact E|exact E|constructor].
  - apply IH. apply highadj_paired_app; [exact Hacc|].
    apply paired_one; [exact N|constructor].
Qed.

(** A block records one entry per slot that is left, and one more when its
    last slot is a HIGHADJ entry, whose second half is read from the slot
    after the block. *)
Lemma reloc_entries_length m fuel : forall i n p acc,
  0 <= i -> n < DWORD_MOD ->
  Z.of_nat (length (reloc_entries m fuel i n p acc))
  <= Z.of_nat (length acc) + (if i <? n then n - i + 1 else 0).
Proof.
  induction fuel as [|fuel IH]; intros i n p acc Hi Hn; cbn [reloc_entries].
  - destruct (i <? n) eqn:E; [apply Z.ltb_lt in E|]; lia.
  - destruct (Z.ltb_spec i n) as [Hlt|Hge]; cbn [negb]; [|lia].
    destruct (negb (IsPtrSafe m p false)); [lia|].
    destruct (_ =? IMAGE_REL_BASED_HIGHADJ).
    + destruct (negb (IsPtrSafe m (PTR_add p 2) false)); [cbn [length]; lia|].
      assert (Hsub : DWORD_sub n 1 = n - 1).
      { unfold DWORD_sub. apply to_DWORD_small. lia. }
      rewrite Hsub.
      match goal with |- context [reloc_entries m fuel ?i' ?n' ?p' ?acc'] =>
        pose proof (IH i' n' p' acc' ltac:(lia) ltac:(lia)) as H end.
      rewrite !length_app in H. cbn [length] in H.
      destruct (Z.ltb_spec (i + 1) (n - 1)); lia.
    + match goal with |- context [reloc_entries m fuel ?i' ?n' ?p' ?acc'] =>
        pose proof (IH i' n' p' acc' ltac:(lia) ltac:(lia)) as H end.
      rewrite length_app in H. cbn [length] in H.
      destruct (Z.ltb_spec (i + 1) n); lia.
Qed.

Lemma declared_reloc_entries_range v p :
  0 <= declared_reloc_entries v p < DWORD_MOD.
Proof.
  unfold declared_reloc_entries, DWORD_sub.
  pose proof (to_DWORD_range (pbr_SizeOfBlock v p - sizeof_IMAGE_BASE_RELOCATION)) as H.
  unfold DWORD_MOD in *. split.
  - apply Z.div_pos; lia.
  - apply Z.div_lt_upper_bound; lia.
Qed.

Lemma reloc_block_ok_empty m p : reloc_block_ok m (reloc_block m p []).
Proof.
  split; [constructor|]. exists p. split; [reflexivity|].
  cbn [rel_Data reloc_block length].
  destruct (0 <? declared_reloc_entries (m_view m) p) eqn:E; [apply Z.ltb_lt in E|]; lia.
Qed.

Lemma reloc_block_ok_entries m p :
  reloc_block_ok m
    (reloc_block m p
       (reloc_entries m (Z.to_nat (declared_reloc_entries (m_view m) p)) 0
          (declared_reloc_entries (m_view m) p)
          (PTR_add p sizeof_IMAGE_BASE_RELOCATION) [])).
Proof.
  pose proof (declared_reloc_entries_range (m_view m) p) as Hr.
  split; cbn [rel_Data reloc_block].
  - apply reloc_entries_paired. constructor.
  - eexists. split; [reflexivity|].
    pose proof (reloc_entries_length m (Z.to_nat (declared_reloc_entries (m_view m) p)) 0
                  (declared_reloc_entries (m_view m) p)
                  (PTR_add p sizeof_IMAGE_BASE_RELOCATION) []) as H.
    cbn [length] in H. replace (declared_reloc_entries (m_view m) p - 0)
      with (declared_reloc_entries (m_view m) p) in H by lia.
    exact (H ltac:(lia) ltac:(lia)).
Qed.

Lemma reloc_blocks_ok m fuel : forall p acc,
  Forall (reloc_block_ok m) acc ->
  Forall (reloc_block_ok m) (reloc_blocks m fuel p acc).
Proof.
  induction fuel as [|fuel IH]; intros p acc Hacc; cbn [reloc_blocks]; [exact Hacc|].
  destruct ((pbr_SizeOfBlock (m_view m) p =? 0) || (pbr_VirtualAddress (m_view m) p =? 0));
    [exact Hacc|].
  destruct (pbr_SizeOfBlock (m_view m) p <? sizeof_IMAGE_BASE_RELOCATION).
  - apply Forall_app. split; [exact Hacc|]. constructor; [|constructor].
    apply reloc_block_ok_empty.
  - fold (declared_reloc_entries (m_view m) p).
    assert (Hnew : Forall (reloc_block_ok m)
                     (acc ++ [reloc_block m p
                                (reloc_entries m
                                   (Z.to_nat (declared_reloc_entries (m_view m) p)) 0
                                   (declared_reloc_entries (m_view m) p)
                                   (PTR_add p sizeof_IMAGE_BASE_RELOCATION) [])])).
    { apply Forall_app. split; [exact Hacc|]. constructor; [|constructor].
      apply reloc_block_ok_entries. }
    destruct (IsSumOverflow p (pbr_SizeOfBlock (m_view m) p)); [exact Hnew|].
    destruct (negb (IsPtrSafe m _ false)); [exact Hnew|].
    apply IH. exact Hnew.
Qed.

(** The block walk moves forward inside the file: more fuel than the
    distance to the end of the file changes nothing. *)
Lemma reloc_blocks_fuel m : forall fuel1 fuel2 p acc,
  view_mapped (m_view m) ->
  0 <= p <= GetBaseAddr m + GetDataSize m ->
  (Z.to_nat (GetBaseAddr m + GetDataSize m - p) < fuel1)%nat ->
  (Z.to_nat (GetBaseAddr m + GetDataSize m - p) < fuel2)%nat ->
  reloc_blocks m fuel1 p acc = reloc_blocks m fuel2 p acc.
Proof.
  induction fuel1 as [|fuel1 IH]; intros fuel2 p acc Hv Hp H1 H2; [lia|].
  destruct fuel2 as [|fuel2]; [lia|]. cbn [reloc_blocks].
  destruct ((pbr_SizeOfBlock (m_view m) p =? 0) || (pbr_VirtualAddress (m_view m) p =? 0));
    [reflexivity|].
  destruct (Z.ltb_spec (pbr_SizeOfBlock (m_view m) p) sizeof_IMAGE_BASE_RELOCATION)
    as [Hsmall|Hbig]; [reflexivity|].
  destruct (IsSumOverflow p (pbr_SizeOfBlock (m_view m) p)); [reflexivity|].
  pose proof Hv as (Hb & Hs & Hu). pose proof USER_SPACE_lt as HU.
  pose proof (rd32_range (m_view m) (p + 4)) as Hr.
  unfold GetBaseAddr, GetDataSize, sizeof_IMAGE_BASE_RELOCATION, pbr_SizeOfBlock in *.
  rewrite PTR_add_small by (unfold USER_SPACE, PTR_MOD in *; lia).
  destruct (IsPtrSafe m (p + rd32 (m_view m) (p + 4)) false) eqn:Hsafe;
    cbn [negb]; [|reflexivity].
  pose proof (proj1 (IsPtrSafe_iff m _ false Hv) Hsafe) as [Hlo Hhi].
  unfold GetBaseAddr, GetDataSize in *.
  apply IH; try assumption; try lia.
Qed.

(** X8: when [ParseRelocations] succeeds on an object without relocation
    records, the flag is set and every recorded block has its HIGHADJ
    entries in adjacent pairs and at most one entry more than the (SizeOfBlock
    - 8) / 2 slots its header declares; the walk over the blocks ends: it
    moves forward inside the file, so that fuel beyond the file size changes
    nothing. *)
Theorem ParseRelocations_blocks (m : Clibpe) :
  view_mapped (m_view m) ->
  m_vecRelocs m = [] ->
  fst (ParseRelocations m) = true ->
  let p := RVAToPtr m (GetDirEntryRVA m IMAGE_DIRECTORY_ENTRY_BASERELOC) in
  HasReloc (m_stFileInfo (snd (ParseRelocations m))) = true
  /\ Forall (reloc_block_ok m) (m_vecRelocs (snd (ParseRelocations m)))
  /\ (pbr_SizeOfBlock (m_view m) p = 0 \/ pbr_VirtualAddress (m_view m) p = 0 ->
      m_vecRelocs (snd (ParseRelocations m)) = [reloc_block m p []])
  /\ forall fuel acc, (walk_fuel m <= fuel)%nat ->
        reloc_blocks m fuel p acc = reloc_blocks m (walk_fuel m) p acc.
Proof.
  intros Hv Hempty. unfold ParseRelocations.
  set (p := RVAToPtr m (GetDirEntryRVA m IMAGE_DIRECTORY_ENTRY_BASERELOC)).
  destruct (Z.eqb_spec p 0) as [E|N]; [discriminate|].
  intros _. cbv zeta. unfold flag.
  cbn [snd m_vecRelocs m_stFileInfo set_m_stFileInfo set_m_vecRelocs HasReloc set_HasReloc].
  rewrite Hempty. cbn [app].
  assert (Hin : GetBaseAddr m <= p <= GetBaseAddr m + GetDataSize m).
  { apply (IsPtrSafe_iff m p true Hv). apply RVAToPtr_safe. exact N. }
  pose proof Hv as (Hb & Hs & Hu).
  split; [reflexivity|]. split; [|split].
  - apply reloc_blocks_ok.
    destruct ((pbr_SizeOfBlock (m_view m) p =? 0) || (pbr_VirtualAddress (m_view m) p =? 0)).
    + constructor; [apply reloc_block_ok_empty|constructor].
    + constructor.
  - intros Hz.
    assert (Hor : (pbr_SizeOfBlock (m_view m) p =? 0)
                  || (pbr_VirtualAddress (m_view m) p =? 0) = true).
    { apply orb_true_iff. destruct Hz as [Hz|Hz]; [left|right]; apply Z.eqb_eq; exact Hz. }
    rewrite Hor. unfold walk_fuel. cbn [reloc_blocks]. rewrite Hor. reflexivity.
  - intros fuel acc Hfuel. unfold GetBaseAddr, GetDataSize in Hin.
    apply reloc_blocks_fuel; try exact Hv; unfold walk_fuel, GetBaseAddr, GetDataSize in *; lia.
Qed.

Lemma one_reloc_block_parsed :
  map (fun b => (rel_dwOffset b,
                 map (fun e => (rd_dwOffset e, rd_RelocType e, rd_RelocOffset e))
                     (rel_Data b)))
      (m_vecRelocs (snd (ParseRelocations one_reloc_block)))
  = [ (0x400, [ (0x408, 3, 4); (0x40A, 4, 0x10); (0x40C, 4, 0x1234); (0x40E, 0, 0) ]) ].
Proof. vm_compute. reflexivity. Qed.

Lemma view_mapped_one_reloc_block : view_mapped (m_view one_reloc_block).
Proof. repeat split; by_computation. Qed.

Lemma ParseRelocations_blocks_witness :
  HasReloc (m_stFileInfo (snd (ParseRelocations one_reloc_block))) = true
  /\ Forall (reloc_block_ok one_reloc_block)
            (m_vecRelocs (snd (ParseRelocations one_reloc_block))).
Proof.
  assert (Hok : fst (ParseRelocations one_reloc_block) = true) by by_computation.
  destruct (ParseRelocations_blocks one_reloc_block view_mapped_one_reloc_block
              eq_refl Hok) as (H1 & H2 & _).
  split; [exact H1|exact H2].
Defined.

(** ** Imports *)

(** No section contains an RVA of 2^32 or more: the range end is a DWORD. *)
Lemma GetSecHdrFromRVA_loop_high m rva n : forall p,
  DWORD_MOD <= rva -> GetSecHdrFromRVA_loop m rva n p = 0.
Proof.
  induction n as [|n IH]; intros p Hrva; cbn [GetSecHdrFromRVA_loop]; [reflexivity|].
  destruct (negb (IsPtrSafe m (PTR_add p 40) false)); [reflexivity|].
  pose proof (to_DWORD_range (psh_VirtualAddress (m_view m) p + psh_VirtualSize (m_view m) p)).
  unfold DWORD_add.
  destruct (Z.ltb_spec rva
              (to_DWORD (psh_VirtualAddress (m_view m) p + psh_VirtualSize (m_view m) p)));
    [lia|].
  rewrite andb_false_r. apply IH. exact Hrva.
Qed.

Lemma RVAToPtr_high m rva : DWORD_MOD <= rva -> RVAToPtr m rva = 0.
Proof.
  intros H. unfold RVAToPtr. rewrite GetSecHdrFromRVA_table.
  rewrite GetSecHdrFromRVA_loop_high by exact H. reflexivity.
Qed.

(** A value below 2^32 whose bit 31 is clear is below 2^31. *)
Lemma bit31_clear x :
  0 <= x < 2 ^ 32 -> Z.land x IMAGE_ORDINAL_FLAG32 = 0 -> x < 2 ^ 31.
Proof.
  intros Hx Hland.
  assert (Hbit : Z.testbit x 31 = false).
  { assert (H : Z.testbit (Z.land x IMAGE_ORDINAL_FLAG32) 31 = false)
      by (rewrite Hland; apply Z.bits_0).
    rewrite Z.land_spec in H. change IMAGE_ORDINAL_FLAG32 with (2 ^ 31) in H.
    rewrite Z.pow2_bits_true in H by lia. rewrite andb_true_r in H. exact H. }
  destruct (Z.lt_ge_cases x (2 ^ 31)) as [Hlt|Hge]; [exact Hlt|exfalso].
  assert (Hdiv : x / 2 ^ 31 = 1).
  { apply Z.le_antisymm.
    - assert (x / 2 ^ 31 < 2) by (apply Z.div_lt_upper_bound; lia). lia.
    - apply Z.div_le_lower_bound; lia. }
  assert (Htrue : Z.testbit x 31 = true).
  { apply Z.testbit_true; [lia|]. rewrite Hdiv. reflexivity. }
  rewrite Htrue in Hbit. discriminate Hbit.
Qed.

Lemma import_by_name_high m thunk :
  DWORD_MOD <= thunk -> import_by_name m thunk = (no_import_by_name, []).
Proof.
  intros H. unfold import_by_name. rewrite RVAToPtr_high by exact H. reflexivity.
Qed.

Lemma import_function_ok_any m thunk :
  0 <= thunk -> thunk <> 0 ->
  import_function_ok (import_function m thunk IMAGE_ORDINAL_FLAG32).
Proof.
  intros Hpos Hnz. unfold import_function_ok, import_function.
  cbn [if_Thunk if_FuncName if_ImpByName]. split; [exact Hnz|].
  destruct (Z.eqb_spec (Z.land thunk IMAGE_ORDINAL_FLAG32) 0) as [E|N].
  - destruct (Z.lt_ge_cases thunk DWORD_MOD) as [Hlow|Hhigh].
    + intros _. split; [lia|]. apply bit31_clear; [unfold DWORD_MOD in Hlow; lia|exact E].
    + rewrite import_by_name_high by exact Hhigh. cbn [fst snd].
      intros [H|H]; exfalso; apply H; reflexivity.
  - cbn [fst snd]. intros [H|H]; exfalso; apply H; reflexivity.
Qed.

Lemma import_thunks32_ok m fuel : forall c p acc,
  Forall import_function_ok acc ->
  Forall import_function_ok (import_thunks32 m fuel c p acc).
Proof.
  induction fuel as [|fuel IH]; intros c p acc Hacc; cbn [import_thunks32]; [exact Hacc|].
  destruct (Z.eqb_spec (rd32 (m_view m) p) 0) as [E|N]; [exact Hacc|].
  assert (Hnew : Forall import_function_ok (acc ++ [import_function32 m p])).
  { apply Forall_app. split; [exact Hacc|]. constructor; [|constructor].
    apply import_function_ok_any; [apply rd32_range|exact N]. }
  destruct (negb (IsPtrSafe m (PTR_add p 4) false)); [exact Hnew|].
  destruct (c + 1 =? iMaxFuncs); [exact Hnew|]. apply IH. exact Hnew.
Qed.

Lemma import_thunks64_ok m fuel : forall c p acc,
  Forall import_function_ok acc ->
  Forall import_function_ok (import_thunks64 m fuel c p acc).
Proof.
  induction fuel as [|fuel IH]; intros c p acc Hacc; cbn [import_thunks64]; [exact Hacc|].
  destruct (Z.eqb_spec (rd64 (m_view m) p) 0) as [E|N]; [exact Hacc|].
  assert (Hnew : Forall import_function_ok (acc ++ [import_function64 m p])).
  { apply Forall_app. split; [exact Hacc|]. constructor; [|constructor].
    apply import_function_ok_any; [apply rd64_range|exact N]. }
  destruct (c + 1 =? iMaxFuncs); [exact Hnew|].
  destruct (c + 1 + 1 =? iMaxFuncs); [exact Hnew|]. apply IH. exact Hnew.
Qed.

(** The PE32 loop adds at most one function per count left. *)
Lemma import_thunks32_length m fuel : forall c p acc,
  c < iMaxFuncs ->
  Z.of_nat (length (import_thunks32 m fuel c p acc))
  <= Z.of_nat (length acc) + (iMaxFuncs - c).
Proof.
  induction fuel as [|fuel IH]; intros c p acc Hc; cbn [import_thunks32]; [lia|].
  destruct (rd32 (m_view m) p =? 0); [lia|].
  destruct (negb (IsPtrSafe m (PTR_add p 4) false)); [rewrite length_app; cbn [length]; lia|].
  destruct (Z.eqb_spec (c + 1) iMaxFuncs); [rewrite length_app; cbn [length]; lia|].
  match goal with |- context [import_thunks32 m fuel ?c' ?p' ?acc'] =>
    pose proof (IH c' p' acc' ltac:(lia)) as H end.
  rewrite length_app in H. cbn [length] in H. lia.
Qed.

(** The PE32+ loop adds at most one function per two counts left. *)
Lemma import_thunks64_length m fuel : forall c p acc,
  c < iMaxFuncs ->
  2 * Z.of_nat (length (import_thunks64 m fuel c p acc))
  <= 2 * Z.of_nat (length acc) + (iMaxFuncs - c) + 1.
Proof.
  induction fuel as [|fuel IH]; intros c p acc Hc; cbn [import_thunks64]; [lia|].
  destruct (rd64 (m_view m) p =? 0); [lia|].
  destruct (Z.eqb_spec (c + 1) iMaxFuncs); [rewrite length_app; cbn [length]; lia|].
  destruct (Z.eqb_spec (c + 1 + 1) iMaxFuncs); [rewrite length_app; cbn [length]; lia|].
  match goal with |- context [import_thunks64 m fuel ?c' ?p' ?acc'] =>
    pose proof (IH c' p' acc' ltac:(lia)) as H end.
  rewrite length_app in H. cbn [length] in H. lia.
Qed.

Lemma import_modules_ok m pe64 fuel : forall c p acc,
  Forall (import_module_ok pe64) acc ->
  Forall (import_module_ok pe64) (snd (import_modules m pe64 fuel c p acc)).
Proof.
  induction fuel as [|fuel IH]; intros c p acc Hacc; cbn [import_modules]; [exact Hacc|].
  destruct (pid_Name (m_view m) p =? 0); [exact Hacc|].
  assert (Hnext : forall acc', Forall (import_module_ok pe64) acc' ->
            Forall (import_module_ok pe64)
              (snd (if negb (IsPtrSafe m (PTR_add p sizeof_IMAGE_IMPORT_DESCRIPTOR) false)
                    then (exit_break, acc')
                    else if c + 1 =? iMaxModules then (exit_break, acc')
                    else import_modules m pe64 fuel (c + 1)
                           (PTR_add p sizeof_IMAGE_IMPORT_DESCRIPTOR) acc'))).
  { intros acc' Hacc'. destruct (negb _); [exact Hacc'|].
    destruct (c + 1 =? iMaxModules); [exact Hacc'|]. apply IH. exact Hacc'. }
  destruct (negb (import_thunk_rva (m_view m) p =? 0)); [|apply Hnext; exact Hacc].
  destruct (RVAToPtr m (import_thunk_rva (m_view m) p) =? 0); [exact Hacc|].
  apply Hnext. apply Forall_app. split; [exact Hacc|]. constructor; [|constructor].
  unfold import_module_ok, import_module, import_funcs_bound. cbn [imp_Funcs].
  destruct pe64.
  - split.
    + pose proof (import_thunks64_length m (Z.to_nat iMaxFuncs) 0
                    (RVAToPtr m (import_thunk_rva (m_view m) p)) []) as H.
      cbn [length] in H. unfold iMaxFuncs in *.
      assert (H' := H ltac:(lia)). change (5000 / 2) with 2500. lia.
    + apply import_thunks64_ok. constructor.
  - split.
    + pose proof (import_thunks32_length m (Z.to_nat iMaxFuncs) 0
                    (RVAToPtr m (import_thunk_rva (m_view m) p)) []) as H.
      cbn [length] in H. unfold iMaxFuncs in *. assert (H' := H ltac:(lia)). lia.
    + apply import_thunks32_ok. constructor.
Qed.

(** The descriptor loop adds at most one module per count left. *)
Lemma import_modules_length m pe64 fuel : forall c p acc,
  c < iMaxModules ->
  Z.of_nat (length (snd (import_modules m pe64 fuel c p acc)))
  <= Z.of_nat (length acc) + (iMaxModules - c).
Proof.
  induction fuel as [|fuel IH]; intros c p acc Hc; cbn [import_modules]; [cbn [snd]; lia|].
  destruct (pid_Name (m_view m) p =? 0); [cbn [snd]; lia|].
  assert (Hnext : forall acc',
            Z.of_nat (length acc') <= Z.of_nat (length acc) + 1 ->
            Z.of_nat (length
              (snd (if negb (IsPtrSafe m (PTR_add p sizeof_IMAGE_IMPORT_DESCRIPTOR) false)
                    then (exit_break, acc')
                    else if c + 1 =? iMaxModules then (exit_break, acc')
                    else import_modules m pe64 fuel (c + 1)
                           (PTR_add p sizeof_IMAGE_IMPORT_DESCRIPTOR) acc')))
            <= Z.of_nat (length acc) + (iMaxModules - c)).
  { intros acc' Hacc'. destruct (negb _); [cbn [snd]; lia|].
    destruct (Z.eqb_spec (c + 1) iMaxModules); [cbn [snd]; lia|].
    pose proof (IH (c + 1) (PTR_add p sizeof_IMAGE_IMPORT_DESCRIPTOR) acc' ltac:(lia)).
    lia. }
  destruct (negb (import_thunk_rva (m_view m) p =? 0)); [|apply Hnext; lia].
  destruct (RVAToPtr m (import_thunk_rva (m_view m) p) =? 0); [cbn [snd]; lia|].
  apply Hnext. rewrite length_app. cbn [length]. lia.
Qed.

(** The counters stop the loops before the fuel does. *)
Lemma import_thunks32_fuel m : forall f1 f2 c p acc,
  0 <= c < iMaxFuncs ->
  (Z.to_nat (iMaxFuncs - c) <= f1)%nat -> (Z.to_nat (iMaxFuncs - c) <= f2)%nat ->
  import_thunks32 m f1 c p acc = import_thunks32 m f2 c p acc.
Proof.
  induction f1 as [|f1 IH]; intros f2 c p acc Hc H1 H2; [lia|].
  destruct f2 as [|f2]; [lia|]. cbn [import_thunks32].
  destruct (rd32 (m_view m) p =? 0); [reflexivity|].
  destruct (negb (IsPtrSafe m (PTR_add p 4) false)); [reflexivity|].
  destruct (Z.eqb_spec (c + 1) iMaxFuncs); [reflexivity|].
  apply IH; lia.
Qed.

Lemma import_thunks64_fuel m : forall f1 f2 c p acc,
  0 <= c < iMaxFuncs ->
  (Z.to_nat (iMaxFuncs - c) <= f1)%nat -> (Z.to_nat (iMaxFuncs - c) <= f2)%nat ->
  import_thunks64 m f1 c p acc = import_thunks64 m f2 c p acc.
Proof.
  induction f1 as [|f1 IH]; intros f2 c p acc Hc H1 H2; [lia|].
  destruct f2 as [|f2]; [lia|]. cbn [import_thunks64].
  destruct (rd64 (m_view m) p =? 0); [reflexivity|].
  destruct (Z.eqb_spec (c + 1) iMaxFuncs); [reflexivity|].
  destruct (Z.eqb_spec (c + 1 + 1) iMaxFuncs); [reflexivity|].
  apply IH; lia.
Qed.

Lemma import_modules_fuel m pe64 : forall f1 f2 c p acc,
  0 <= c < iMaxModules ->
  (Z.to_nat (iMaxModules - c) <= f1)%nat -> (Z.to_nat (iMaxModules - c) <= f2)%nat ->
  import_modules m pe64 f1 c p acc = import_modules m pe64 f2 c p acc.
Proof.
  induction f1 as [|f1 IH]; intros f2 c p acc Hc H1 H2; [lia|].
  destruct f2 as [|f2]; [lia|]. cbn [import_modules].
  destruct (pid_Name (m_view m) p =? 0); [reflexivity|].
  assert (Hnext : forall acc',
    (if negb (IsPtrSafe m (PTR_add p sizeof_IMAGE_IMPORT_DESCRIPTOR) false)
     then (exit_break, acc')
     else if c + 1 =? iMaxModules then (exit_break, acc')
     else import_modules m pe64 f1 (c + 1) (PTR_add p sizeof_IMAGE_IMPORT_DESCRIPTOR) acc')
    = (if negb (IsPtrSafe m (PTR_add p sizeof_IMAGE_IMPORT_DESCRIPTOR) false)
       then (exit_break, acc')
       else if c + 1 =? iMaxModules then (exit_break, acc')
       else import_modules m pe64 f2 (c + 1) (PTR_add p sizeof_IMAGE_IMPORT_DESCRIPTOR) acc')).
  { intros acc'. destruct (negb _); [reflexivity|].
    destruct (Z.eqb_spec (c + 1) iMaxModules); [reflexivity|]. apply IH; lia. }
  destruct (negb (import_thunk_rva (m_view m) p =? 0)); [|apply Hnext].
  destruct (RVAToPtr m (import_thunk_rva (m_view m) p) =? 0); [reflexivity|].
  apply Hnext.
Qed.

(** X9: on an object without import records [ParseImport] records at most
    1000 modules, each with at most 5000 functions in a PE32 image and 2500
    in a PE32+ image (where every thunk is counted twice); every recorded
    function has a non-zero thunk and carries a hint/name only when its thunk
    is below 0x80000000, in PE32+ as in PE32; a call that returns true has
    set the import flag; and the counters end the loops: more fuel than the
    caps changes nothing. *)
Theorem ParseImport_bounds (m : Clibpe) :
  m_vecImport m = [] ->
  let pe64 := negb (IsPE32 (m_stFileInfo m)) in
  Z.of_nat (length (m_vecImport (snd (ParseImport m)))) <= iMaxModules
  /\ Forall (import_module_ok pe64) (m_vecImport (snd (ParseImport m)))
  /\ (fst (ParseImport m) = true ->
      HasImport (m_stFileInfo (snd (ParseImport m))) = true)
  /\ (IsPE32 (m_stFileInfo m) = true ->
      RVAToPtr m (GetDirEntryRVA m IMAGE_DIRECTORY_ENTRY_IMPORT) <> 0 ->
      fst (ParseImport m) = true)
  /\ (forall fuel p acc, (Z.to_nat iMaxModules <= fuel)%nat ->
        import_modules m pe64 fuel 0 p acc
        = import_modules m pe64 (Z.to_nat iMaxModules) 0 p acc)
  /\ (forall fuel p acc, (Z.to_nat iMaxFuncs <= fuel)%nat ->
        import_thunks32 m fuel 0 p acc = import_thunks32 m (Z.to_nat iMaxFuncs) 0 p acc
        /\ import_thunks64 m fuel 0 p acc
           = import_thunks64 m (Z.to_nat iMaxFuncs) 0 p acc).
Proof.
  intros Hempty. cbv zeta.
  split; [|split; [|split; [|split; [|split]]]].
  - unfold ParseImport.
    destruct (RVAToPtr m (GetDirEntryRVA m IMAGE_DIRECTORY_ENTRY_IMPORT) =? 0).
    { cbn [snd]. rewrite Hempty. cbn [length]. unfold iMaxModules. lia. }
    match goal with |- context [import_modules m false ?f ?c ?p ?acc] =>
      pose proof (import_modules_length m false f c p acc) as H32 end.
    match goal with |- context [import_modules m true ?f ?c ?p ?acc] =>
      pose proof (import_modules_length m true f c p acc) as H64 end.
    rewrite Hempty in *. cbn [length] in *. unfold iMaxModules in *.
    destruct (IsPE32 (m_stFileInfo m)).
    + unfold flag. cbn [snd m_vecImport set_m_stFileInfo set_m_vecImport].
      assert (H := H32 ltac:(lia)). lia.
    + destruct (IsPE64 (m_stFileInfo m)).
      * destruct (fst (import_modules m true _ 0 _ [])); unfold flag;
          cbn [snd m_vecImport set_m_stFileInfo set_m_vecImport];
          assert (H := H64 ltac:(lia)); lia.
      * unfold flag. cbn [snd m_vecImport set_m_stFileInfo]. rewrite Hempty.
        cbn [length]. lia.
  - unfold ParseImport.
    destruct (RVAToPtr m (GetDirEntryRVA m IMAGE_DIRECTORY_ENTRY_IMPORT) =? 0).
    { cbn [snd]. rewrite Hempty. constructor. }
    destruct (IsPE32 (m_stFileInfo m)); cbn [negb].
    + unfold flag. cbn [snd m_vecImport set_m_stFileInfo set_m_vecImport].
      apply import_modules_ok. rewrite Hempty. constructor.
    + destruct (IsPE64 (m_stFileInfo m)).
      * destruct (fst (import_modules m true _ 0 _ (m_vecImport m))); unfold flag;
          cbn [snd m_vecImport set_m_stFileInfo set_m_vecImport];
          apply import_modules_ok; rewrite Hempty; constructor.
      * unfold flag. cbn [snd m_vecImport set_m_stFileInfo]. rewrite Hempty. constructor.
  - unfold ParseImport.
    destruct (RVAToPtr m (GetDirEntryRVA m IMAGE_DIRECTORY_ENTRY_IMPORT) =? 0);
      [discriminate|].
    destruct (IsPE32 (m_stFileInfo m)); [intros _; reflexivity|].
    destruct (IsPE64 (m_stFileInfo m)); [|intros _; reflexivity].
    destruct (fst (import_modules m true _ 0 _ (m_vecImport m)));
      [intros _; reflexivity|discriminate].
  - intros H32 Hp. unfold ParseImport. apply Z.eqb_neq in Hp. rewrite Hp, H32. reflexivity.
  - intros fuel p acc Hfuel. apply import_modules_fuel; unfold iMaxModules in *; lia.
  - intros fuel p acc Hfuel. split.
    + apply import_thunks32_fuel; unfold iMaxFuncs in *; lia.
    + apply import_thunks64_fuel; unfold iMaxFuncs in *; lia.
Qed.

Lemma pointers_from_cons p step k :
  pointers_from p step (S k) = p :: pointers_from (p + step) step k.
Proof.
  unfold pointers_from. cbn [seq map]. f_equal.
  - lia.
  - rewrite <- seq_shift, map_map. apply map_ext. intros j. lia.
Qed.

(** The PE32 loop on a run of non-zero thunks that lasts until the counter
    reaches the cap. *)
Lemma import_thunks32_cap m : forall k fuel c p acc,
  view_mapped (m_view m) -> 0 <= p ->
  (S k <= fuel)%nat ->
  c + Z.of_nat (S k) = iMaxFuncs ->
  (forall j, (j <= k)%nat -> rd32 (m_view m) (p + 4 * Z.of_nat j) <> 0) ->
  (forall j, (1 <= j <= k)%nat -> IsPtrSafe m (p + 4 * Z.of_nat j) false = true) ->
  import_thunks32 m fuel c p acc
  = acc ++ map (import_function32 m) (pointers_from p 4 (S k)).
Proof.
  induction k as [|k IH]; intros fuel c p acc Hv Hp Hfuel Hc Hnz Hsafe;
    (destruct fuel as [|fuel]; [lia|]); cbn [import_thunks32];
    pose proof (Hnz 0%nat ltac:(lia)) as H0;
    replace (p + 4 * Z.of_nat 0) with p in H0 by lia;
    apply Z.eqb_neq in H0; rewrite H0.
  - assert (Hcap : (c + 1 =? iMaxFuncs) = true) by (apply Z.eqb_eq; lia).
    rewrite Hcap. destruct (negb _); unfold pointers_from; cbn [seq map];
      replace (p + 4 * Z.of_nat 0) with p by lia; reflexivity.
  - assert (H1 : IsPtrSafe m (p + 4) false = true).
    { replace (p + 4) with (p + 4 * Z.of_nat 1) by lia. apply Hsafe. lia. }
    pose proof (proj1 (IsPtrSafe_iff m (p + 4) false Hv) H1) as [Hlo Hhi].
    pose proof Hv as (Hb & Hs & Hu). pose proof USER_SPACE_lt as HU.
    unfold GetBaseAddr, GetDataSize in Hlo, Hhi.
    rewrite PTR_add_small by lia. rewrite H1. cbn [negb].
    assert (Hcap : (c + 1 =? iMaxFuncs) = false) by (apply Z.eqb_neq; lia).
    rewrite Hcap. rewrite (IH fuel (c + 1) (p + 4)); try assumption; try lia.
    + rewrite (pointers_from_cons p 4 (S k)). cbn [map]. rewrite <- app_assoc. reflexivity.
    + intros j Hj. replace (p + 4 + 4 * Z.of_nat j) with (p + 4 * Z.of_nat (S j)) by lia.
      apply Hnz. lia.
    + intros j Hj. replace (p + 4 + 4 * Z.of_nat j) with (p + 4 * Z.of_nat (S j)) by lia.
      apply Hsafe. lia.
Qed.

(** The PE32+ loop on a run of non-zero thunks: the counter reaches the cap
    after half as many thunks. *)
Lemma import_thunks64_cap m : forall k fuel c p acc,
  0 <= p -> p + 8 * Z.of_nat (S k) < PTR_MOD ->
  (S k <= fuel)%nat ->
  c + 2 * Z.of_nat (S k) = iMaxFuncs ->
  (forall j, (j <= k)%nat -> rd64 (m_view m) (p + 8 * Z.of_nat j) <> 0) ->
  import_thunks64 m fuel c p acc
  = acc ++ map (import_function64 m) (pointers_from p 8 (S k)).
Proof.
  induction k as [|k IH]; intros fuel c p acc Hp Hend Hfuel Hc Hnz;
    (destruct fuel as [|fuel]; [lia|]); cbn [import_thunks64];
    pose proof (Hnz 0%nat ltac:(lia)) as H0;
    replace (p + 8 * Z.of_nat 0) with p in H0 by lia;
    apply Z.eqb_neq in H0; rewrite H0.
  - assert (Hc1 : (c + 1 =? iMaxFuncs) = false) by (apply Z.eqb_neq; lia).
    assert (Hc2 : (c + 1 + 1 =? iMaxFuncs) = true) by (apply Z.eqb_eq; lia).
    rewrite Hc1, Hc2. unfold pointers_from. cbn [seq map].
    replace (p + 8 * Z.of_nat 0) with p by lia. reflexivity.
  - assert (Hc1 : (c + 1 =? iMaxFuncs) = false) by (apply Z.eqb_neq; lia).
    assert (Hc2 : (c + 1 + 1 =? iMaxFuncs) = false) by (apply Z.eqb_neq; lia).
    rewrite Hc1, Hc2. rewrite PTR_add_small by lia.
    rewrite (IH fuel (c + 1 + 1) (p + 8)); try lia.
    + rewrite (pointers_from_cons p 8 (S k)). cbn [map]. rewrite <- app_assoc. reflexivity.
    + intros j Hj. replace (p + 8 + 8 * Z.of_nat j) with (p + 8 * Z.of_nat (S j)) by lia.
      apply Hnz. lia.
Qed.

(** X10: the caps of the import thunk loops are reached as follows.  In a
    PE32 image a thunk array whose first 5000 thunks are non-zero and inside
    the file yields exactly these 5000 functions, whatever follows; in a
    PE32+ image a thunk array whose first 2500 thunks are non-zero yields
    exactly these 2500 functions, although the cap constant is 5000. *)
Theorem import_thunk_caps_reached (m : Clibpe) (p : Z) :
  (view_mapped (m_view m) -> 0 <= p ->
   (forall j, (1 <= j < 5000)%nat -> IsPtrSafe m (p + 4 * Z.of_nat j) false = true) ->
   (forall j, (j < 5000)%nat -> rd32 (m_view m) (p + 4 * Z.of_nat j) <> 0) ->
   import_thunks32 m (Z.to_nat iMaxFuncs) 0 p []
   = map (import_function32 m) (pointers_from p 4 5000))
  /\ (0 <= p -> p + 8 * 2500 < PTR_MOD ->
      (forall j, (j < 2500)%nat -> rd64 (m_view m) (p + 8 * Z.of_nat j) <> 0) ->
      import_thunks64 m (Z.to_nat iMaxFuncs) 0 p []
      = map (import_function64 m) (pointers_from p 8 2500)).
Proof.
  split.
  - intros Hv Hp Hsafe Hnz.
    rewrite (import_thunks32_cap m 4999);
      [ reflexivity | exact Hv | exact Hp
      | apply Nat.leb_le; vm_compute; reflexivity
      | reflexivity
      | intros j Hj; apply Hnz; lia
      | intros j Hj; apply Hsafe; lia ].
  - intros Hp Hend Hnz.
    rewrite (import_thunks64_cap m 2499);
      [ reflexivity | exact Hp
      | replace (Z.of_nat 2500) with 2500 by reflexivity; exact Hend
      | apply Nat.leb_le; vm_compute; reflexivity
      | reflexivity
      | intros j Hj; apply Hnz; lia ].
Qed.

Lemma imports32_parsed :
  map (fun i => (imp_ModuleName i,
                 map (fun f => (if_Thunk f, ibn_Hint (if_ImpByName f), if_FuncName f))
                     (imp_Funcs i)))
      (m_vecImport (snd (ParseImport imports32)))
  = [ (str_kernel32, [ (0x1200, 7, str_ExitProcess); (0x80000005, 0, []) ]) ].
Proof. vm_compute. reflexivity. Qed.

Lemma imports64_parsed :
  map (fun i => (imp_ModuleName i,
                 map (fun f => (if_Thunk f, ibn_Hint (if_ImpByName f), if_FuncName f))
                     (imp_Funcs i)))
      (m_vecImport (snd (ParseImport imports64)))
  = [ (str_kernel32, [ (0x1200, 7, str_ExitProcess); (0x8000000000000005, 0, []) ]) ].
Proof. vm_compute. reflexivity. Qed.

Lemma ParseImport_bounds_witness :
  Z.of_nat (length (m_vecImport (snd (ParseImport imports64)))) <= iMaxModules
  /\ Forall (import_module_ok (negb (IsPE32 (m_stFileInfo imports64))))
            (m_vecImport (snd (ParseImport imports64))).
Proof.
  assert (Hempty : m_vecImport imports64 = []) by by_computation.
  destruct (ParseImport_bounds imports64 Hempty) as (H1 & H2 & _).
  split; [exact H1|exact H2].
Defined.

Lemma rd32_all_ones a : rd32 (m_view all_ones) a = 0x01010101.
Proof. reflexivity. Qed.

Lemma rd64_all_ones a : rd64 (m_view all_ones) a = 0x0101010101010101.
Proof. reflexivity. Qed.

Lemma view_mapped_all_ones : view_mapped (m_view all_ones).
Proof. repeat split; by_computation. Qed.

(** In [all_ones] a thunk array at the start of the file stops at 5000
    functions in a PE32 walk and at 2500 in a PE32+ walk. *)
Lemma import_thunk_caps_reached_witness :
  import_thunks32 all_ones (Z.to_nat iMaxFuncs) 0 0x10000 []
  = map (import_function32 all_ones) (pointers_from 0x10000 4 5000)
  /\ import_thunks64 all_ones (Z.to_nat iMaxFuncs) 0 0x10000 []
     = map (import_function64 all_ones) (pointers_from 0x10000 8 2500).
Proof.
  destruct (import_thunk_caps_reached all_ones 0x10000) as [H32 H64]. split.
  - apply H32.
    + exact view_mapped_all_ones.
    + lia.
    + intros j Hj. apply (IsPtrSafe_iff all_ones _ false view_mapped_all_ones).
      change (GetBaseAddr all_ones) with 0x10000.
      change (GetDataSize all_ones) with 0x10000. lia.
    + intros j Hj. rewrite rd32_all_ones. discriminate.
  - apply H64.
    + lia.
    + unfold PTR_MOD. lia.
    + intros j Hj. rewrite rd64_all_ones. discriminate.
Defined.

(** *** The export table *)

Lemma export_name_loop_found m po pn i n : forall j0 r s,
  export_name_loop m po pn i n j0 = (r, s) ->
  r <> 0 \/ s <> [] ->
  exists j, j0 <= j < j0 + Z.of_nat n
    /\ rd16 (m_view m) (po + 2 * j) = i
    /\ (forall j', j0 <= j' < j -> rd16 (m_view m) (po + 2 * j') <> i)
    /\ r = rd32 (m_view m) (pn + 4 * j)
    /\ s = checked_string m (RVAToPtr m r).
Proof.
  induction n as [|n IH]; intros j0 r s; cbn [export_name_loop].
  - intros [= <- <-] [H|H]; contradiction.
  - rewrite rd16_PTR_add, rd32_PTR_add.
    destruct (IsPtrSafe m _ false); cbn [negb].
    2:{ intros [= <- <-] [H|H]; contradiction. }
    destruct (Z.eqb_spec (rd16 (m_view m) (po + 2 * j0)) i) as [E|N].
    + intros [= <- <-] _. exists j0. repeat split; try lia; auto.
    + intros Hr Hne. destruct (IH _ _ _ Hr Hne) as (j & Hj & Hi & Hfirst & Hrd & Hs).
      exists j. repeat split; try lia; auto.
      intros j' Hj'. destruct (Z.eq_dec j' j0) as [->|]; [exact N|]. apply Hfirst. lia.
Qed.

Lemma export_name_loop_high m po pn i n : forall j0,
  WORD_MOD <= i -> export_name_loop m po pn i n j0 = (0, []).
Proof.
  induction n as [|n IH]; intros j0 Hi; cbn [export_name_loop]; [reflexivity|].
  destruct (IsPtrSafe m _ false); cbn [negb]; [|reflexivity].
  pose proof (rd16_range (m_view m) (PTR_add po (2 * j0))) as Hr.
  change (2 ^ 16) with WORD_MOD in Hr.
  destruct (Z.eqb_spec (rd16 (m_view m) (PTR_add po (2 * j0))) i); [lia|].
  apply IH. exact Hi.
Qed.

Lemma export_slots_in_file_iff m i :
  view_mapped (m_view m) ->
  GetBaseAddr m <= export_funcs_ptr m <= GetBaseAddr m + GetDataSize m ->
  (i < export_slots_in_file m)%nat
  <-> export_funcs_ptr m + 4 * Z.of_nat i < GetBaseAddr m + GetDataSize m.
Proof.
  intros Hv Hp. unfold export_slots_in_file.
  set (E := GetBaseAddr m + GetDataSize m - export_funcs_ptr m).
  assert (HE : 0 <= E) by (unfold E; lia).
  pose proof (Z.div_mod (E + 3) 4 ltac:(lia)) as Hdm.
  pose proof (Z.mod_pos_bound (E + 3) 4 ltac:(lia)) as Hmod.
  assert (Hq : 0 <= (E + 3) / 4) by (apply Z.div_pos; lia).
  split; intros H.
  - assert (Z.of_nat i < (E + 3) / 4) by lia. unfold E in *. lia.
  - assert (Z.of_nat i < (E + 3) / 4) by (unfold E in *; lia). lia.
Qed.

Lemma export_funcs_loop_indices m n : forall (i : nat) acc,
  view_mapped (m_view m) ->
  GetBaseAddr m <= export_funcs_ptr m <= GetBaseAddr m + GetDataSize m ->
  Z.of_nat i + Z.of_nat n <= DWORD_MOD ->
  export_funcs_loop m (export_start m) (export_end m) (export_dir m)
    (export_funcs_ptr m) (export_ordinals_ptr m) (export_names_ptr m)
    n (Z.of_nat i) acc
  = acc ++ map (export_entry m)
             (filter (fun i => negb (export_slot m i =? 0))
                (map Z.of_nat (seq i (Nat.min n (export_slots_in_file m - i))))).
Proof.
  induction n as [|n IH]; intros i acc Hv Hp Hi; cbn [export_funcs_loop].
  - cbn. rewrite app_nil_r. reflexivity.
  - pose proof Hv as (Hb & Hs & Hu). pose proof USER_SPACE_lt as HU.
    assert (Hi' := Hi). unfold DWORD_MOD in Hi'.
    assert (Hp' := Hp). unfold GetBaseAddr, GetDataSize in Hp'.
    rewrite rd32_PTR_add. rewrite PTR_add_small by lia.
    destruct (IsPtrSafe m (export_funcs_ptr m + 4 * Z.of_nat i) false) eqn:Hsafe; cbn [negb].
    + apply (IsPtrSafe_iff m _ false Hv) in Hsafe. destruct Hsafe as [_ Hlt].
      apply (export_slots_in_file_iff m i Hv) in Hlt; [|exact Hp].
      replace (export_slots_in_file m - i)%nat
        with (S (export_slots_in_file m - S i)) by lia.
      rewrite <- Nat.succ_min_distr. cbn [seq map filter].
      replace (Z.of_nat i + 1) with (Z.of_nat (S i)) by lia.
      rewrite (IH (S i) _ Hv Hp) by lia.
      fold (export_slot m (Z.of_nat i)).
      destruct (export_slot m (Z.of_nat i) =? 0); cbn [negb map].
      * reflexivity.
      * rewrite <- app_assoc. reflexivity.
    + assert (Hge : ~ (i < export_slots_in_file m)%nat).
      { intros Hlt. apply (export_slots_in_file_iff m i Hv) in Hlt; [|exact Hp].
        assert (IsPtrSafe m (export_funcs_ptr m + 4 * Z.of_nat i) false = true)
          by (apply (IsPtrSafe_iff m _ false Hv); unfold GetBaseAddr, GetDataSize in *; lia).
        congruence. }
      replace (export_slots_in_file m - i)%nat with 0%nat by lia.
      rewrite Nat.min_0_r. cbn. rewrite app_nil_r. reflexivity.
Qed.

Lemma export_entry_ok m i :
  0 <= i < ped_NumberOfFunctions (m_view m) (export_dir m) ->
  export_slot m i <> 0 ->
  ef_Ordinal (export_entry m i) = i /\ export_function_ok m (export_entry m i).
Proof.
  intros Hi Hnz.
  pose proof (rd32_range (m_view m) (export_dir m + 20)) as HN.
  fold (ped_NumberOfFunctions (m_view m) (export_dir m)) in HN.
  assert (Hord : ef_Ordinal (export_entry m i) = i).
  { unfold export_entry, export_function. cbn [ef_Ordinal].
    apply to_DWORD_small. unfold DWORD_MOD. lia. }
  split; [exact Hord|].
  unfold export_function_ok. rewrite Hord.
  assert (Hrva : ef_FuncRVA (export_entry m i) = export_slot m i).
  { unfold export_entry, export_function. cbn [ef_FuncRVA].
    rewrite rd32_PTR_add. reflexivity. }
  rewrite Hrva.
  split; [exact Hnz|]. split; [reflexivity|]. split; [lia|]. split; [|split].
  - unfold export_entry, export_function. cbn [ef_ForwarderName].
    rewrite rd32_PTR_add. fold (export_slot m i).
    unfold export_is_forwarder.
    destruct (Z.leb_spec (export_start m) (export_slot m i)); cbn [andb];
      [|intros Hne; contradiction].
    destruct (Z.leb_spec (export_slot m i) (export_end m));
      [lia|intros Hne; contradiction].
  - unfold export_entry, export_function. cbn [ef_NameRVA ef_FuncName].
    destruct (negb (export_names_ptr m =? 0) && negb (export_ordinals_ptr m =? 0)).
    2:{ cbn [fst snd]. intros [H|H]; contradiction. }
    destruct (export_name_loop m (export_ordinals_ptr m) (export_names_ptr m) i
                (Z.to_nat (ped_NumberOfNames (m_view m) (export_dir m))) 0)
      as [r s] eqn:Hloop.
    cbn [fst snd]. intros Hne.
    destruct (export_name_loop_found _ _ _ _ _ _ _ _ Hloop Hne)
      as (j & Hj & Hrd & Hfirst & Hr & Hs).
    pose proof (rd32_range (m_view m) (export_dir m + 24)) as HNn.
    fold (ped_NumberOfNames (m_view m) (export_dir m)) in HNn.
    exists j. split; [|split; assumption].
    split; [lia|]. split; [exact Hrd|]. intros j' Hj'. apply Hfirst. lia.
  - intros Hhigh. unfold export_entry, export_function. cbn [ef_NameRVA ef_FuncName].
    destruct (negb (export_names_ptr m =? 0) && negb (export_ordinals_ptr m =? 0));
      [|split; reflexivity].
    rewrite export_name_loop_high by assumption. split; reflexivity.
Qed.

Lemma export_indices_range m i :
  In i (export_indices m) ->
  0 <= i < ped_NumberOfFunctions (m_view m) (export_dir m) /\ export_slot m i <> 0.
Proof.
  unfold export_indices. rewrite filter_In, in_map_iff.
  intros [(k & <- & Hk) Hnz]. apply in_seq in Hk.
  pose proof (rd32_range (m_view m) (export_dir m + 20)) as HN.
  fold (ped_NumberOfFunctions (m_view m) (export_dir m)) in HN.
  split; [lia|]. destruct (Z.eqb_spec (export_slot m (Z.of_nat k)) 0); [discriminate|auto].
Qed.

Lemma ParseExport_record m :
  fst (ParseExport m) = true ->
  export_dir m <> 0
  /\ export_funcs_ptr m <> 0
  /\ HasExport (m_stFileInfo (snd (ParseExport m))) = true
  /\ exp_dwOffset (m_stExport (snd (ParseExport m))) = PtrToOffset m (export_dir m)
  /\ exp_ModuleName (m_stExport (snd (ParseExport m)))
     = checked_string m (RVAToPtr m (ped_Name (m_view m) (export_dir m)))
  /\ exp_Funcs (m_stExport (snd (ParseExport m)))
     = export_funcs_loop m (export_start m) (export_end m) (export_dir m)
         (export_funcs_ptr m) (export_ordinals_ptr m) (export_names_ptr m)
         (Z.to_nat (ped_NumberOfFunctions (m_view m) (export_dir m))) 0 [].
Proof.
  unfold ParseExport. fold (export_start m). fold (export_end m). fold (export_dir m).
  destruct (Z.eqb_spec (export_dir m) 0); [discriminate|].
  fold (export_funcs_ptr m).
  destruct (Z.eqb_spec (export_funcs_ptr m) 0); [discriminate|].
  intros _. unfold flag. cbn. repeat split; auto.
Qed.

(** X11: when [ParseExport] succeeds the export flag is set and the function
    list is exactly this: of the first NumberOfFunctions slots of
    AddressOfFunctions that start inside the file, the non-zero ones, in
    order, each with its slot index as ordinal.  A forwarder name is only
    recorded for an RVA from export start to export start + size, both ends
    included; a name comes from the first entry of AddressOfNameOrdinals
    that holds the index, and a function with index 65536 or more has
    none. *)
Theorem ParseExport_functions (m : Clibpe) :
  view_mapped (m_view m) ->
  fst (ParseExport m) = true ->
  let funcs := exp_Funcs (m_stExport (snd (ParseExport m))) in
  HasExport (m_stFileInfo (snd (ParseExport m))) = true
  /\ funcs = map (export_entry m) (export_indices m)
  /\ map ef_Ordinal funcs = export_indices m
  /\ Forall (export_function_ok m) funcs.
Proof.
  intros Hv Hok funcs.
  destruct (ParseExport_record m Hok) as (Hdir & Hptr & Hflag & _ & _ & Hfuncs).
  assert (Hp : GetBaseAddr m <= export_funcs_ptr m <= GetBaseAddr m + GetDataSize m).
  { apply (IsPtrSafe_iff m _ true Hv). apply RVAToPtr_safe. exact Hptr. }
  pose proof (rd32_range (m_view m) (export_dir m + 20)) as HN.
  fold (ped_NumberOfFunctions (m_view m) (export_dir m)) in HN.
  assert (Hlist : funcs = map (export_entry m) (export_indices m)).
  { unfold funcs. rewrite Hfuncs.
    rewrite (export_funcs_loop_indices m _ 0%nat [] Hv Hp)
      by (unfold DWORD_MOD; lia).
    cbn [app]. unfold export_indices. rewrite Nat.sub_0_r. reflexivity. }
  split; [exact Hflag|]. split; [exact Hlist|]. rewrite Hlist. split.
  - rewrite map_map. rewrite <- (map_id (export_indices m)) at 2.
    apply map_ext_in. intros i Hi. apply export_indices_range in Hi.
    apply export_entry_ok; tauto.
  - apply Forall_forall. intros f Hf. apply in_map_iff in Hf.
    destruct Hf as (i & <- & Hi). apply export_indices_range in Hi.
    apply export_entry_ok; tauto.
Qed.

Lemma exports32_parsed :
  map (fun f => (ef_FuncRVA f, ef_Ordinal f, ef_NameRVA f, ef_FuncName f,
                 ef_ForwarderName f))
      (exp_Funcs (m_stExport (snd (ParseExport exports32))))
  = [ (0x2000, 0, 0x1210, str_f, []); (0x1100, 2, 0, [], str_A_B) ].
Proof. vm_compute. reflexivity. Qed.

Lemma view_mapped_exports32 : view_mapped (m_view exports32).
Proof. repeat split; by_computation. Qed.

Lemma ParseExport_functions_witness :
  HasExport (m_stFileInfo (snd (ParseExport exports32))) = true
  /\ map ef_Ordinal (exp_Funcs (m_stExport (snd (ParseExport exports32))))
     = export_indices exports32
  /\ Forall (export_function_ok exports32)
       (exp_Funcs (m_stExport (snd (ParseExport exports32)))).
Proof.
  assert (Hok : fst (ParseExport exports32) = true) by by_computation.
  destruct (ParseExport_functions exports32 view_mapped_exports32 Hok)
    as (H1 & _ & H3 & H4).
  split; [exact H1|]. split; [exact H3|exact H4].
Defined.

(** *** The delay-import table *)

Lemma thunk_size_pos pe64 : 0 < thunk_size pe64 <= 8.
Proof. destruct pe64; cbn; lia. Qed.

Lemma thunk_at_0 pe64 p : thunk_at pe64 p 0 = p.
Proof.
  unfold thunk_at. destruct (Z.eqb_spec p 0); [auto|].
  change (Z.of_nat 0) with 0. lia.
Qed.

Lemma step_if_present_some m pe64 p p' :
  view_mapped (m_view m) ->
  0 <= p <= GetBaseAddr m + GetDataSize m ->
  step_if_present m pe64 p = Some p' ->
  0 <= p' <= GetBaseAddr m + GetDataSize m
  /\ forall k, thunk_at pe64 p' k = thunk_at pe64 p (S k).
Proof.
  intros Hv Hp. pose proof Hv as (Hb & Hs & Hu). pose proof USER_SPACE_lt as HU.
  pose proof (thunk_size_pos pe64) as Hw.
  unfold GetBaseAddr, GetDataSize in Hp.
  unfold step_if_present, thunk_at.
  destruct (Z.eqb_spec p 0) as [->|Hnz].
  - intros [= <-]. split; [assumption|]. intros k. reflexivity.
  - rewrite PTR_add_small by lia.
    destruct (IsPtrSafe m (p + thunk_size pe64) false) eqn:Hsafe; cbn [negb];
      [|discriminate].
    intros [= <-].
    apply (IsPtrSafe_iff m _ false Hv) in Hsafe. split; [lia|].
    intros k. destruct (Z.eqb_spec (p + thunk_size pe64) 0); [lia|].
    rewrite Nat2Z.inj_succ. lia.
Qed.

Lemma delay_thunks_lockstep m pe64 : forall fuel pN pI pB pU acc,
  view_mapped (m_view m) ->
  0 <= pN <= GetBaseAddr m + GetDataSize m ->
  0 <= pI <= GetBaseAddr m + GetDataSize m ->
  0 <= pB <= GetBaseAddr m + GetDataSize m ->
  0 <= pU <= GetBaseAddr m + GetDataSize m ->
  exists n,
    delay_thunks m pe64 fuel pN pI pB pU acc
    = acc ++ map (delay_function_at m pe64 pN pI pB pU) (seq 0 n)
    /\ (forall k, (k < n)%nat ->
          rd_thunk (m_view m) pe64 (pN + thunk_size pe64 * Z.of_nat k) <> 0)
    /\ (forall k, (1 <= k < n)%nat ->
          pN + thunk_size pe64 * Z.of_nat k < GetBaseAddr m + GetDataSize m).
Proof.
  induction fuel as [|fuel IH]; intros pN pI pB pU acc Hv HpN HpI HpB HpU;
    cbn [delay_thunks].
  { exists 0%nat. cbn. rewrite app_nil_r. repeat split; intros; lia. }
  pose proof Hv as (Hb & Hs & Hu). pose proof USER_SPACE_lt as HU.
  pose proof (thunk_size_pos pe64) as Hw.
  assert (HpN' := HpN). unfold GetBaseAddr, GetDataSize in HpN'.
  destruct (Z.eqb_spec (rd_thunk (m_view m) pe64 pN) 0) as [Hz|Hnz].
  { exists 0%nat. cbn. rewrite app_nil_r. repeat split; intros; lia. }
  assert (Hone : exists n,
    acc ++ [delay_function m pe64 pN pI pB pU]
    = acc ++ map (delay_function_at m pe64 pN pI pB pU) (seq 0 n)
    /\ (forall k, (k < n)%nat ->
          rd_thunk (m_view m) pe64 (pN + thunk_size pe64 * Z.of_nat k) <> 0)
    /\ (forall k, (1 <= k < n)%nat ->
          pN + thunk_size pe64 * Z.of_nat k < GetBaseAddr m + GetDataSize m)).
  { exists 1%nat. cbn [seq map]. unfold delay_function_at.
    rewrite !thunk_at_0. change (Z.of_nat 0) with 0.
    replace (pN + thunk_size pe64 * 0) with pN by lia.
    split; [reflexivity|]. split; [|intros; lia].
    intros k Hk. replace k with 0%nat by lia. change (Z.of_nat 0) with 0.
    replace (pN + thunk_size pe64 * 0) with pN by lia. exact Hnz. }
  rewrite PTR_add_small by lia.
  destruct (IsPtrSafe m (pN + thunk_size pe64) false) eqn:Hsafe; cbn [negb];
    [|exact Hone].
  destruct (step_if_present m pe64 pI) as [pI'|] eqn:EI; [|exact Hone].
  destruct (step_if_present m pe64 pB) as [pB'|] eqn:EB; [|exact Hone].
  destruct (step_if_present m pe64 pU) as [pU'|] eqn:EU; [|exact Hone].
  destruct (step_if_present_some m pe64 pI pI' Hv HpI EI) as [HI' HIk].
  destruct (step_if_present_some m pe64 pB pB' Hv HpB EB) as [HB' HBk].
  destruct (step_if_present_some m pe64 pU pU' Hv HpU EU) as [HU' HUk].
  apply (IsPtrSafe_iff m _ false Hv) in Hsafe.
  destruct (IH (pN + thunk_size pe64) pI' pB' pU'
              (acc ++ [delay_function m pe64 pN pI pB pU]) Hv ltac:(lia) HI' HB' HU')
    as (n & Heq & Hnzs & Hin).
  exists (S n). split; [|split].
  - assert (H0 : delay_function_at m pe64 pN pI pB pU 0
                 = delay_function m pe64 pN pI pB pU).
    { unfold delay_function_at. rewrite !thunk_at_0. change (Z.of_nat 0) with 0.
      replace (pN + thunk_size pe64 * 0) with pN by lia. reflexivity. }
    assert (Hrest : map (delay_function_at m pe64 pN pI pB pU) (seq 1 n)
                    = map (delay_function_at m pe64 (pN + thunk_size pe64) pI' pB' pU')
                        (seq 0 n)).
    { rewrite <- seq_shift, map_map. apply map_ext. intros k.
      unfold delay_function_at. rewrite HIk, HBk, HUk.
      replace (pN + thunk_size pe64 + thunk_size pe64 * Z.of_nat k)
        with (pN + thunk_size pe64 * Z.of_nat (S k)) by (rewrite Nat2Z.inj_succ; lia).
      reflexivity. }
    rewrite Heq. rewrite <- app_assoc. cbn [seq map app].
    rewrite H0, Hrest. reflexivity.
  - intros k Hk. destruct k as [|k].
    + change (Z.of_nat 0) with 0.
      replace (pN + thunk_size pe64 * 0) with pN by lia. exact Hnz.
    + replace (pN + thunk_size pe64 * Z.of_nat (S k))
        with (pN + thunk_size pe64 + thunk_size pe64 * Z.of_nat k)
        by (rewrite Nat2Z.inj_succ; lia).
      apply Hnzs. lia.
  - intros k Hk. destruct k as [|k]; [lia|].
    replace (pN + thunk_size pe64 * Z.of_nat (S k))
      with (pN + thunk_size pe64 + thunk_size pe64 * Z.of_nat k)
      by (rewrite Nat2Z.inj_succ; lia).
    destruct k as [|k].
    + change (Z.of_nat 0) with 0.
      replace (pN + thunk_size pe64 + thunk_size pe64 * 0)
        with (pN + thunk_size pe64) by lia.
      tauto.
    + apply Hin. lia.
Qed.

Lemma delay_thunks_fuel m pe64 : forall fuel1 fuel2 pN pI pB pU acc,
  view_mapped (m_view m) ->
  0 <= pN <= GetBaseAddr m + GetDataSize m ->
  (Z.to_nat (GetBaseAddr m + GetDataSize m - pN) < fuel1)%nat ->
  (Z.to_nat (GetBaseAddr m + GetDataSize m - pN) < fuel2)%nat ->
  delay_thunks m pe64 fuel1 pN pI pB pU acc = delay_thunks m pe64 fuel2 pN pI pB pU acc.
Proof.
  induction fuel1 as [|fuel1 IH]; intros fuel2 pN pI pB pU acc Hv Hp H1 H2; [lia|].
  destruct fuel2 as [|fuel2]; [lia|]. cbn [delay_thunks].
  destruct (rd_thunk (m_view m) pe64 pN =? 0); [reflexivity|].
  pose proof Hv as (Hb & Hs & Hu). pose proof USER_SPACE_lt as HU.
  pose proof (thunk_size_pos pe64) as Hw.
  assert (Hp' := Hp). unfold GetBaseAddr, GetDataSize in Hp'.
  rewrite PTR_add_small by lia.
  destruct (IsPtrSafe m (pN + thunk_size pe64) false) eqn:Hsafe; cbn [negb];
    [|reflexivity].
  apply (IsPtrSafe_iff m _ false Hv) in Hsafe.
  destruct (step_if_present m pe64 pI); [|reflexivity].
  destruct (step_if_present m pe64 pB); [|reflexivity].
  destruct (step_if_present m pe64 pU); [|reflexivity].
  apply IH; try assumption; lia.
Qed.

Lemma delay_function_at_ok m pe64 pN pI pB pU k :
  rd_thunk (m_view m) pe64 (pN + thunk_size pe64 * Z.of_nat k) <> 0 ->
  delay_function_ok pe64 (delay_function_at m pe64 pN pI pB pU k).
Proof.
  intros Hnz. unfold delay_function_ok, delay_function_at, delay_function.
  cbn [dif_Thunk dif_FuncName dif_ImpByName ImportAddressTable].
  set (thunk := rd_thunk (m_view m) pe64 (pN + thunk_size pe64 * Z.of_nat k)) in *.
  split; [exact Hnz|].
  destruct (Z.eqb_spec (Z.land thunk (delay_ordinal_flag pe64)) 0) as [E|N].
  - destruct (Z.lt_ge_cases thunk DWORD_MOD) as [Hlow|Hhigh].
    + intros _. split; assumption.
    + rewrite import_by_name_high by exact Hhigh. cbn [fst snd].
      intros [H|H]; exfalso; apply H; reflexivity.
  - cbn [fst snd]. intros [H|H]; exfalso; apply H; reflexivity.
Qed.

Lemma RVAToPtr_bounds m rva :
  view_mapped (m_view m) ->
  0 <= RVAToPtr m rva <= GetBaseAddr m + GetDataSize m.
Proof.
  intros Hv. pose proof Hv as (Hb & Hs & Hu). unfold GetBaseAddr, GetDataSize.
  destruct (Z.eq_dec (RVAToPtr m rva) 0) as [E|N]; [rewrite E; lia|].
  pose proof (proj1 (IsPtrSafe_iff m _ true Hv) (RVAToPtr_safe m rva N)) as H.
  unfold GetBaseAddr, GetDataSize in H. lia.
Qed.

Lemma delay_module_recorded m pe64 p :
  view_mapped (m_view m) ->
  pdd_DllNameRVA (m_view m) p <> 0 ->
  RVAToPtr m (pdd_ImportNameTableRVA (m_view m) p) <> 0 ->
  delay_module_ok m pe64
    (delay_module m p
       (delay_descriptor_funcs m pe64 p
          (RVAToPtr m (pdd_ImportNameTableRVA (m_view m) p)))).
Proof.
  intros Hv Hname HpN. exists p. cbn zeta. cbn [dimp_Funcs delay_module].
  set (pN := RVAToPtr m (pdd_ImportNameTableRVA (m_view m) p)) in *.
  assert (HpN' : GetBaseAddr m <= pN <= GetBaseAddr m + GetDataSize m).
  { apply (IsPtrSafe_iff m _ true Hv). apply RVAToPtr_safe. exact HpN. }
  pose proof Hv as (Hb & Hs & Hu).
  unfold delay_descriptor_funcs.
  destruct (delay_thunks_lockstep m pe64 (walk_fuel m) pN
              (RVAToPtr m (pdd_ImportAddressTableRVA (m_view m) p))
              (RVAToPtr m (pdd_BoundImportAddressTableRVA (m_view m) p))
              (RVAToPtr m (pdd_UnloadInformationTableRVA (m_view m) p)) [] Hv
              ltac:(unfold GetBaseAddr in *; lia)
              (RVAToPtr_bounds m _ Hv) (RVAToPtr_bounds m _ Hv) (RVAToPtr_bounds m _ Hv))
    as (n & Heq & Hnz & Hin).
  rewrite Heq. cbn [app]. rewrite length_map, length_seq.
  split; [reflexivity|]. split; [exact Hname|]. split; [exact HpN|].
  split; [reflexivity|]. split.
  - apply Forall_forall. intros f Hf. apply in_map_iff in Hf.
    destruct Hf as (k & <- & Hk). apply in_seq in Hk.
    apply delay_function_at_ok. apply Hnz. lia.
  - destruct n as [|[|n]].
    + pose proof (thunk_size_pos pe64). unfold GetDataSize. lia.
    + pose proof (thunk_size_pos pe64). unfold GetDataSize. lia.
    + pose proof (Hin (S n) ltac:(lia)) as Hlast.
      rewrite !Nat2Z.inj_succ in *. unfold GetBaseAddr, GetDataSize in *.
      destruct pe64; cbn [thunk_size] in *; lia.
Qed.

Lemma delay_modules_ok m pe64 : forall fuel p acc,
  view_mapped (m_view m) ->
  0 <= p <= GetBaseAddr m + GetDataSize m ->
  Forall (delay_module_ok m pe64) acc ->
  Forall (delay_module_ok m pe64) (delay_modules m pe64 fuel p acc)
  /\ 32 * Z.of_nat (length (delay_modules m pe64 fuel p acc))
     <= 32 * Z.of_nat (length acc) + (GetBaseAddr m + GetDataSize m - p) + 32.
Proof.
  induction fuel as [|fuel IH]; intros p acc Hv Hp Hacc; cbn [delay_modules].
  { split; [exact Hacc|lia]. }
  pose proof Hv as (Hb & Hs & Hu). pose proof USER_SPACE_lt as HU.
  assert (Hp' := Hp). unfold GetBaseAddr, GetDataSize in Hp'.
  unfold sizeof_IMAGE_DELAYLOAD_DESCRIPTOR.
  destruct (Z.eqb_spec (pdd_DllNameRVA (m_view m) p) 0) as [Hz|Hname];
    [split; [exact Hacc|lia]|].
  rewrite PTR_add_small by lia.
  destruct (pdd_ImportNameTableRVA (m_view m) p =? 0).
  - destruct (IsPtrSafe m (p + 32) false) eqn:Hsafe; cbn [negb];
      [|split; [exact Hacc|lia]].
    apply (IsPtrSafe_iff m _ false Hv) in Hsafe.
    destruct (IH (p + 32) acc Hv ltac:(lia) Hacc) as [H1 H2]. split; [exact H1|lia].
  - destruct (Z.eqb_spec (RVAToPtr m (pdd_ImportNameTableRVA (m_view m) p)) 0)
      as [Hnull|HpN]; [split; [exact Hacc|lia]|].
    assert (Hacc' : Forall (delay_module_ok m pe64)
              (acc ++ [delay_module m p
                         (delay_descriptor_funcs m pe64 p
                            (RVAToPtr m (pdd_ImportNameTableRVA (m_view m) p)))])).
    { apply Forall_app. split; [exact Hacc|]. constructor; [|constructor].
      apply delay_module_recorded; assumption. }
    destruct (IsPtrSafe m (p + 32) false) eqn:Hsafe; cbn [negb].
    + apply (IsPtrSafe_iff m _ false Hv) in Hsafe.
      destruct (IH (p + 32) _ Hv ltac:(lia) Hacc') as [H1 H2]. split; [exact H1|].
      rewrite length_app in H2. cbn [length] in H2. lia.
    + split; [exact Hacc'|]. rewrite length_app. cbn [length]. lia.
Qed.

Lemma delay_modules_fuel m pe64 : forall fuel1 fuel2 p acc,
  view_mapped (m_view m) ->
  0 <= p <= GetBaseAddr m + GetDataSize m ->
  (Z.to_nat (GetBaseAddr m + GetDataSize m - p) < fuel1)%nat ->
  (Z.to_nat (GetBaseAddr m + GetDataSize m - p) < fuel2)%nat ->
  delay_modules m pe64 fuel1 p acc = delay_modules m pe64 fuel2 p acc.
Proof.
  induction fuel1 as [|fuel1 IH]; intros fuel2 p acc Hv Hp H1 H2; [lia|].
  destruct fuel2 as [|fuel2]; [lia|]. cbn [delay_modules].
  destruct (pdd_DllNameRVA (m_view m) p =? 0); [reflexivity|].
  pose proof Hv as (Hb & Hs & Hu). pose proof USER_SPACE_lt as HU.
  assert (Hp' := Hp). unfold GetBaseAddr, GetDataSize in Hp'.
  unfold sizeof_IMAGE_DELAYLOAD_DESCRIPTOR.
  rewrite PTR_add_small by lia.
  destruct (pdd_ImportNameTableRVA (m_view m) p =? 0).
  - destruct (IsPtrSafe m (p + 32) false) eqn:Hsafe; cbn [negb]; [|reflexivity].
    apply (IsPtrSafe_iff m _ false Hv) in Hsafe.
    apply IH; try assumption; lia.
  - destruct (RVAToPtr m (pdd_ImportNameTableRVA (m_view m) p) =? 0); [reflexivity|].
    destruct (IsPtrSafe m (p + 32) false) eqn:Hsafe; cbn [negb]; [|reflexivity].
    apply (IsPtrSafe_iff m _ false Hv) in Hsafe.
    apply IH; try assumption; lia.
Qed.

(** X12: when [ParseDelayImport] succeeds on an object without delay-import
    records the flag is set and every recorded module comes from a
    descriptor with a DLL name whose name table resolves; its functions are
    the thunks of the name, address, bound and unload tables taken in step
    (a table that does not resolve gives zeros), up to the first zero name
    thunk or the end of the file.  The member ImportAddressTable of a
    function holds the thunk of the name table and the member
    ImportNameTable the thunk of the address table.  The lists are bounded
    by the file size alone and both walks end. *)
Theorem ParseDelayImport_tables (m : Clibpe) :
  view_mapped (m_view m) ->
  m_vecDelayImp m = [] ->
  fst (ParseDelayImport m) = true ->
  let v := m_view m in
  let pe64 := negb (IsPE32 (m_stFileInfo m)) in
  let modules := m_vecDelayImp (snd (ParseDelayImport m)) in
  HasDelayImp (m_stFileInfo (snd (ParseDelayImport m))) = true
  /\ Forall (delay_module_ok m pe64) modules
  /\ 32 * Z.of_nat (length modules) <= GetDataSize m + 32
  /\ (forall pN pI pB pU k,
        let f := delay_function_at m pe64 pN pI pB pU k in
        ImportAddressTable (dif_Thunk f)
        = rd_thunk v pe64 (pN + thunk_size pe64 * Z.of_nat k)
        /\ ImportNameTable (dif_Thunk f) = thunk_or_zero v pe64 (thunk_at pe64 pI k))
  /\ (forall fuel acc, (walk_fuel m <= fuel)%nat ->
        let p := RVAToPtr m (GetDirEntryRVA m IMAGE_DIRECTORY_ENTRY_DELAY_IMPORT) in
        delay_modules m pe64 fuel p acc = delay_modules m pe64 (walk_fuel m) p acc)
  /\ (forall fuel rva pI pB pU acc, (walk_fuel m <= fuel)%nat ->
        RVAToPtr m rva <> 0 ->
        delay_thunks m pe64 fuel (RVAToPtr m rva) pI pB pU acc
        = delay_thunks m pe64 (walk_fuel m) (RVAToPtr m rva) pI pB pU acc).
Proof.
  intros Hv Hempty Hok v pe64 modules.
  pose proof Hv as (Hb & Hs & Hu).
  assert (Hdir : RVAToPtr m (GetDirEntryRVA m IMAGE_DIRECTORY_ENTRY_DELAY_IMPORT) <> 0).
  { intros E. unfold ParseDelayImport in Hok. rewrite E in Hok. discriminate. }
  assert (Hp : GetBaseAddr m
               <= RVAToPtr m (GetDirEntryRVA m IMAGE_DIRECTORY_ENTRY_DELAY_IMPORT)
               <= GetBaseAddr m + GetDataSize m).
  { apply (IsPtrSafe_iff m _ true Hv). apply RVAToPtr_safe. exact Hdir. }
  assert (Hstate :
    HasDelayImp (m_stFileInfo (snd (ParseDelayImport m))) = true
    /\ (modules = []
        \/ modules = delay_modules m pe64 (walk_fuel m)
                       (RVAToPtr m (GetDirEntryRVA m IMAGE_DIRECTORY_ENTRY_DELAY_IMPORT))
                       [])).
  { unfold modules, pe64, ParseDelayImport.
    destruct (Z.eqb_spec
                (RVAToPtr m (GetDirEntryRVA m IMAGE_DIRECTORY_ENTRY_DELAY_IMPORT)) 0);
      [contradiction|].
    rewrite Hempty.
    destruct (IsPE32 (m_stFileInfo m)); cbn [negb].
    - unfold flag. cbn. split; [reflexivity|right; reflexivity].
    - destruct (IsPE64 (m_stFileInfo m)); unfold flag; cbn.
      + split; [reflexivity|right; reflexivity].
      + split; [reflexivity|left; exact Hempty]. }
  destruct Hstate as [Hflag Hmods].
  split; [exact Hflag|].
  assert (Hlist : Forall (delay_module_ok m pe64) modules
                  /\ 32 * Z.of_nat (length modules) <= GetDataSize m + 32).
  { destruct Hmods as [E|E]; rewrite E.
    - split; [constructor|cbn [length]; unfold GetDataSize; lia].
    - destruct (delay_modules_ok m pe64 (walk_fuel m)
                  (RVAToPtr m (GetDirEntryRVA m IMAGE_DIRECTORY_ENTRY_DELAY_IMPORT)) []
                  Hv ltac:(unfold GetBaseAddr in *; lia) ltac:(constructor))
        as [H1 H2].
      split; [exact H1|]. cbn [length] in H2. lia. }
  destruct Hlist as [Hall Hlen].
  split; [exact Hall|]. split; [exact Hlen|]. split; [|split].
  - intros pN pI pB pU k. cbn zeta. split; reflexivity.
  - intros fuel acc Hfuel. cbn zeta.
    apply delay_modules_fuel; try assumption.
    + unfold GetBaseAddr in *. lia.
    + unfold walk_fuel in *. lia.
    + unfold walk_fuel. lia.
  - intros fuel rva pI pB pU acc Hfuel Hnz.
    assert (HpN : GetBaseAddr m <= RVAToPtr m rva <= GetBaseAddr m + GetDataSize m).
    { apply (IsPtrSafe_iff m _ true Hv). apply RVAToPtr_safe. exact Hnz. }
    apply delay_thunks_fuel; try assumption.
    + unfold GetBaseAddr in *. lia.
    + unfold walk_fuel in *. lia.
    + unfold walk_fuel. lia.
Qed.

Lemma delay32_parsed :
  map (fun d => (dimp_ModuleName d,
                 map (fun f => (ImportAddressTable (dif_Thunk f),
                                ImportNameTable (dif_Thunk f),
                                BoundImportAddressTable (dif_Thunk f),
                                dif_FuncName f))
                     (dimp_Funcs d)))
      (m_vecDelayImp (snd (ParseDelayImport delay32)))
  = [ (str_kernel32, [ (0x1200, 0x401000, 0, str_ExitProcess);
                       (0x80000005, 0x401008, 0, []) ]) ].
Proof. vm_compute. reflexivity. Qed.

Lemma delay64_parsed :
  map (fun d => (dimp_ModuleName d,
                 map (fun f => (ImportAddressTable (dif_Thunk f),
                                ImportNameTable (dif_Thunk f),
                                BoundImportAddressTable (dif_Thunk f),
                                dif_FuncName f))
                     (dimp_Funcs d)))
      (m_vecDelayImp (snd (ParseDelayImport delay64)))
  = [ (str_kernel32, [ (0x1200, 0x401000, 0, str_ExitProcess);
                       (0x8000000000000005, 0x401008, 0, []) ]) ].
Proof. vm_compute. reflexivity. Qed.

Lemma view_mapped_delay64 : view_mapped (m_view delay64).
Proof. repeat split; by_computation. Qed.

Lemma ParseDelayImport_tables_witness :
  HasDelayImp (m_stFileInfo (snd (ParseDelayImport delay64))) = true
  /\ Forall (delay_module_ok delay64 (negb (IsPE32 (m_stFileInfo delay64))))
       (m_vecDelayImp (snd (ParseDelayImport delay64)))
  /\ 32 * Z.of_nat (length (m_vecDelayImp (snd (ParseDelayImport delay64))))
     <= GetDataSize delay64 + 32.
Proof.
  assert (Hempty : m_vecDelayImp delay64 = []) by by_computation.
  assert (Hok : fst (ParseDelayImport delay64) = true) by by_computation.
  destruct (ParseDelayImport_tables delay64 view_mapped_delay64 Hempty Hok)
    as (H1 & H2 & H3 & _).
  split; [exact H1|]. split; [exact H2|exact H3].
Defined.

(** *** Flattening the resource tree *)

Lemma total_loop2_add l : forall s, total_loop2 l s = (s + total_loop2 l 0)%nat.
Proof.
  induction l as [|d l IH]; intros s; cbn [total_loop2]; [lia|].
  rewrite IH. rewrite (IH (if DataIsDirectory (r2_ResDirEntry d) then _ else _)).
  destruct (DataIsDirectory (r2_ResDirEntry d)); lia.
Qed.

Lemma total_loop1_add l : forall s, total_loop1 l s = (s + total_loop1 l 0)%nat.
Proof.
  induction l as [|d l IH]; intros s; cbn [total_loop1]; [lia|].
  rewrite IH. rewrite (IH (if DataIsDirectory (r1_ResDirEntry d) then _ else _)).
  destruct (DataIsDirectory (r1_ResDirEntry d)); [|lia].
  rewrite total_loop2_add. lia.
Qed.

Lemma flat_loop3_rows l : forall st vec,
  exists rows,
    snd (flat_loop3 l st vec) = vec ++ rows
    /\ length rows = length l
    /\ same_type st (fst (flat_loop3 l st vec))
    /\ same_name st (fst (flat_loop3 l st vec))
    /\ Forall2 (fun d3 row =>
                  rf_Data row = r3_RawResData d3
                  /\ same_type st row /\ same_name st row
                  /\ selected (r3_ResDirEntry d3) (r3_ResName d3)
                       (rf_LangStr row) (rf_LangID row)) l rows.
Proof.
  induction l as [|d l IH]; intros st vec; cbn [flat_loop3].
  { exists []. rewrite app_nil_r. unfold same_type, same_name. cbn.
    repeat split; constructor. }
  set (st1 := if NameIsString (r3_ResDirEntry d)
              then set_rf_LangStr (r3_ResName d) st
              else set_rf_LangID (rde_Id (r3_ResDirEntry d)) st).
  set (st2 := set_rf_Data (r3_RawResData d) st1).
  assert (H2 : rf_Data st2 = r3_RawResData d /\ same_type st st2 /\ same_name st st2
               /\ selected (r3_ResDirEntry d) (r3_ResName d) (rf_LangStr st2) (rf_LangID st2)).
  { unfold st2, st1, same_type, same_name, selected.
    destruct (NameIsString (r3_ResDirEntry d)); cbn; repeat split; reflexivity. }
  destruct (IH st2 (vec ++ [st2])) as (rows & Hsnd & Hlen & Hty & Hnm & Hall).
  exists (st2 :: rows). rewrite Hsnd, <- app_assoc. cbn [app length].
  destruct H2 as (Hd & Hty2 & Hnm2 & Hsel).
  unfold same_type, same_name in *.
  split; [reflexivity|]. split; [lia|].
  split; [split; [rewrite (proj1 Hty); tauto|rewrite (proj2 Hty); tauto]|].
  split; [split; [rewrite (proj1 Hnm); tauto|rewrite (proj2 Hnm); tauto]|].
  constructor; [tauto|].
  eapply Forall2_impl; [|exact Hall]. cbn beta.
  intros d3 row (Ha & Hb & Hc & Hd3).
  split; [exact Ha|]. split; [|split; [|exact Hd3]].
  - split; [rewrite (proj1 Hb); tauto|rewrite (proj2 Hb); tauto].
  - split; [rewrite (proj1 Hc); tauto|rewrite (proj2 Hc); tauto].
Qed.

Lemma row_below_same_type st st' p row :
  same_type st st' -> row_below st' p row -> row_below st p row.
Proof.
  unfold row_below, same_type. intros [H1 H2] (Ha & [Hb1 Hb2] & Hc & Hd).
  repeat split; try assumption; congruence.
Qed.

Lemma flat_loop2_rows d1 l : forall st vec,
  exists rows,
    snd (flat_loop2 l st vec) = vec ++ rows
    /\ length rows = total_loop2 l 0
    /\ Forall2 (row_below st) (flat_map (leaves_level2 d1) l) rows.
Proof.
  induction l as [|d l IH]; intros st vec; cbn [flat_loop2 total_loop2 flat_map].
  { exists []. rewrite app_nil_r. repeat split; constructor. }
  set (st1 := if NameIsString (r2_ResDirEntry d)
              then set_rf_NameStr (r2_ResName d) st
              else set_rf_NameID (rde_Id (r2_ResDirEntry d)) st).
  assert (H1 : same_type st st1
               /\ selected (r2_ResDirEntry d) (r2_ResName d) (rf_NameStr st1) (rf_NameID st1)).
  { unfold st1, same_type, selected.
    destruct (NameIsString (r2_ResDirEntry d)); cbn; repeat split; reflexivity. }
  destruct H1 as [Hty1 Hsel1].
  rewrite total_loop2_add. unfold leaves_level2 at 1.
  destruct (DataIsDirectory (r2_ResDirEntry d)) eqn:Hdir.
  - destruct (flat_loop3_rows (l3_ResData (r2_ResLvL3 d)) st1 vec)
      as (rows3 & Hsnd3 & Hlen3 & Hty3 & Hnm3 & Hall3).
    destruct (IH (fst (flat_loop3 (l3_ResData (r2_ResLvL3 d)) st1 vec))
                 (snd (flat_loop3 (l3_ResData (r2_ResLvL3 d)) st1 vec)))
      as (rows & Hsnd & Hlen & Hall).
    exists (rows3 ++ rows). rewrite Hsnd, Hsnd3, <- app_assoc.
    split; [reflexivity|]. split; [rewrite length_app; lia|].
    apply Forall2_app.
    + clear - Hall3 Hty1 Hsel1. induction Hall3 as [|d3 row l3 rows3 H _ IH3];
        cbn [map]; constructor; [|exact IH3].
      destruct H as (Hd & Hty & Hnm & Hsel).
      unfold row_below, path_data, same_type, same_name, selected in *.
      cbn [path_lvl2 path_lvl3].
      split; [exact Hd|]. split; [split; [rewrite (proj1 Hty); tauto|rewrite (proj2 Hty); tauto]|].
      split; [|exact Hsel].
      destruct (NameIsString (r2_ResDirEntry d)).
      * rewrite (proj1 Hnm). exact Hsel1.
      * rewrite (proj2 Hnm). exact Hsel1.
    + eapply Forall2_impl; [|exact Hall]. cbn beta. intros p row Hrow.
      apply (row_below_same_type st st1); [exact Hty1|].
      apply (row_below_same_type st1 _ p row Hty3 Hrow).
  - set (st2 := set_rf_Data (r2_RawResData d) st1).
    destruct (IH st2 (vec ++ [st2])) as (rows & Hsnd & Hlen & Hall).
    exists (st2 :: rows). rewrite Hsnd, <- app_assoc. cbn [app length].
    split; [reflexivity|]. split; [lia|].
    constructor.
    + unfold row_below, path_data, same_type, selected in *.
      cbn [path_lvl2 path_lvl3]. unfold st2. cbn.
      repeat split; tauto.
    + eapply Forall2_impl; [|exact Hall]. cbn beta. intros p row Hrow.
      apply (row_below_same_type st st1); [exact Hty1|].
      apply (row_below_same_type st1 st2 p row); [|exact Hrow].
      unfold st2, same_type. cbn. split; reflexivity.
Qed.

Lemma row_below_root d1 p row :
  In p (flat_map (leaves_level2 d1) (l2_ResData (r1_ResLvL2 d1))) ->
  row_below (if NameIsString (r1_ResDirEntry d1)
             then set_rf_TypeStr (r1_ResName d1) no_flat
             else set_rf_TypeID (rde_Id (r1_ResDirEntry d1)) no_flat) p row ->
  row_of_leaf p row.
Proof.
  intros Hin (Hd & [Ht1 Ht2] & Hn & Hl).
  assert (Hroot : path_root p = d1 /\ path_lvl2 p <> None).
  { apply in_flat_map in Hin. destruct Hin as (d2 & _ & Hp). unfold leaves_level2 in Hp.
    destruct (DataIsDirectory (r2_ResDirEntry d2)).
    - apply in_map_iff in Hp. destruct Hp as (d3 & <- & _). cbn. split; [auto|discriminate].
    - destruct Hp as [<-|[]]. cbn. split; [auto|discriminate]. }
  destruct Hroot as [Hr Hl2]. unfold row_of_leaf. rewrite Hr.
  split; [exact Hd|]. split.
  - destruct (NameIsString (r1_ResDirEntry d1)); cbn in Ht1, Ht2; split; assumption.
  - split; [|exact Hl]. destruct (path_lvl2 p); [exact Hn|contradiction].
Qed.

Lemma Forall2_impl_In {A B} (P Q : A -> B -> Prop) l1 l2 :
  (forall a b, In a l1 -> P a b -> Q a b) -> Forall2 P l1 l2 -> Forall2 Q l1 l2.
Proof.
  intros H HF. induction HF as [|a b l1 l2 Hab _ IH]; constructor.
  - apply H; [left; reflexivity|exact Hab].
  - apply IH. intros a' b' Hin. apply H. right. exact Hin.
Qed.

Lemma flat_loop1_rows l : forall vec,
  exists rows,
    flat_loop1 l vec = vec ++ rows
    /\ length rows = total_loop1 l 0
    /\ Forall2 row_of_leaf (flat_map leaves_root l) rows.
Proof.
  induction l as [|d l IH]; intros vec; cbn [flat_loop1 total_loop1 flat_map].
  { exists []. rewrite app_nil_r. repeat split; constructor. }
  set (st := if NameIsString (r1_ResDirEntry d)
             then set_rf_TypeStr (r1_ResName d) no_flat
             else set_rf_TypeID (rde_Id (r1_ResDirEntry d)) no_flat).
  rewrite total_loop1_add. unfold leaves_root at 1.
  destruct (DataIsDirectory (r1_ResDirEntry d)) eqn:Hdir.
  - destruct (flat_loop2_rows d (l2_ResData (r1_ResLvL2 d)) st vec)
      as (rows2 & Hsnd2 & Hlen2 & Hall2).
    destruct (IH (snd (flat_loop2 (l2_ResData (r1_ResLvL2 d)) st vec)))
      as (rows & Heq & Hlen & Hall).
    exists (rows2 ++ rows). rewrite Heq, Hsnd2, <- app_assoc.
    split; [reflexivity|]. split; [rewrite length_app; lia|].
    apply Forall2_app; [|exact Hall].
    eapply Forall2_impl_In; [|exact Hall2]. intros p row Hin Hrow.
    apply (row_below_root d); assumption.
  - set (st2 := set_rf_Data (r1_RawResData d) st).
    destruct (IH (vec ++ [st2])) as (rows & Heq & Hlen & Hall).
    exists (st2 :: rows). rewrite Heq, <- app_assoc. cbn [app length].
    split; [reflexivity|]. split; [lia|].
    constructor; [|exact Hall].
    unfold row_of_leaf, path_data, st2, st. cbn [path_root path_lvl2 path_lvl3].
    destruct (NameIsString (r1_ResDirEntry d)); cbn; repeat split; reflexivity.
Qed.

(** X13: [FlatResources] makes exactly the rows it reserved, one per leaf
    of the stored tree and in tree order.  A row holds the data of its leaf,
    the type of its root entry (name or id, the other member empty), and in
    the member that the level-2 and the level-3 entry select the name and
    the language; the row of a root leaf has no name and no language.  The
    members that an entry does not select keep what an earlier entry of the
    same root entry left there: after a level-2 entry with a string name,
    the row of a level-2 entry with an id still carries that string. *)
Theorem FlatResources_rows (r : PEResRoot) :
  length (FlatResources r) = FlatResources_reserve r
  /\ Forall2 row_of_leaf (res_leaves r) (FlatResources r)
  /\ (forall d1 a b, named_then_id r d1 a b ->
      exists row_a row_b,
        FlatResources r = [row_a; row_b]
        /\ rf_NameStr row_b = r2_ResName a
        /\ rf_NameID row_b = rde_Id (r2_ResDirEntry b)).
Proof.
  destruct (flat_loop1_rows (l1_ResData r) []) as (rows & Heq & Hlen & Hall).
  cbn [app] in Heq.
  split; [|split].
  - unfold FlatResources, FlatResources_reserve. rewrite Heq. exact Hlen.
  - unfold FlatResources, res_leaves. rewrite Heq. exact Hall.
  - intros d1 a b (Hl1 & Hd1 & Hl2 & Ha & Hb & Hna & Hnb).
    unfold FlatResources. rewrite Hl1. cbn [flat_loop1]. rewrite Hd1, Hl2.
    cbn [flat_loop2]. rewrite Ha, Hb, Hna, Hnb. cbn [app snd].
    eexists. eexists. split; [reflexivity|]. cbn. split; reflexivity.
Qed.

Lemma named_then_id_two_names :
  named_then_id two_names two_names_root two_names_a two_names_b.
Proof. repeat split. Qed.

Lemma FlatResources_rows_witness :
  length (FlatResources two_names) = FlatResources_reserve two_names
  /\ exists row_a row_b,
       FlatResources two_names = [row_a; row_b]
       /\ rf_NameStr row_b = r2_ResName two_names_a
       /\ rf_NameID row_b = rde_Id (r2_ResDirEntry two_names_b).
Proof.
  destruct (FlatResources_rows two_names) as (H1 & _ & H3).
  split; [exact H1|].
  exact (H3 two_names_root two_names_a two_names_b named_then_id_two_names).
Defined.

Lemma FlatResources_two_names :
  map (fun row => (rf_TypeID row, rf_NameStr row, rf_NameID row, rf_Data row))
      (FlatResources two_names)
  = [ (3, [65], 0, [1]); (3, [65], 2, [2]) ].
Proof. vm_compute. reflexivity. Qed.

(** *** The NT headers *)

Lemma to_DWORD_to_PTR x : to_DWORD (to_PTR x) = to_DWORD x.
Proof.
  unfold to_DWORD, to_PTR, DWORD_MOD, PTR_MOD.
  apply Z.mod_mod_divide. exists (2 ^ 32). reflexivity.
Qed.

Lemma to_PTR_sub_l x y : to_PTR (to_PTR x - y) = to_PTR (x - y).
Proof. unfold to_PTR. apply Zminus_mod_idemp_l. Qed.

Lemma to_PTR_add_l x y : to_PTR (to_PTR x + y) = to_PTR (x + y).
Proof. unfold to_PTR. apply Zplus_mod_idemp_l. Qed.

(** The end of IMAGE_NT_HEADERS32 lies inside the file exactly when e_lfanew
    is between -248 and file size - 248. *)
Lemma nt_headers_safe_iff m :
  view_mapped (m_view m) ->
  IsPtrSafe m (PTR_add (PTR_add (GetBaseAddr m) (e_lfanew m)) sizeof_IMAGE_NT_HEADERS32)
    false = true
  <-> - 248 <= e_lfanew m < GetDataSize m - 248.
Proof.
  intros Hv. pose proof Hv as (Hb & Hs & Hu). pose proof USER_SPACE_lt as HU.
  pose proof (to_LONG_range (rd32 (m_view m) (GetDosPtr m + 60))) as Hl.
  fold (e_lfanew m) in Hl. unfold sizeof_IMAGE_NT_HEADERS32.
  unfold PTR_add. rewrite to_PTR_add_l.
  rewrite (IsPtrSafe_iff m _ false Hv). unfold GetBaseAddr, GetDataSize.
  set (off := e_lfanew m) in *. set (base := v_base (m_view m)) in *.
  set (size := v_size (m_view m)) in *.
  assert (H31 : 2 ^ 31 = 2147483648) by reflexivity.
  assert (H47 : USER_SPACE = 140737488355328) by reflexivity.
  assert (H64 : PTR_MOD = 18446744073709551616) by reflexivity.
  destruct (Z.lt_ge_cases (base + off + 248) 0) as [Hneg|Hpos].
  - assert (E : to_PTR (base + off + 248) = base + off + 248 + PTR_MOD).
    { unfold to_PTR. symmetry. apply (Z.mod_unique _ _ (-1)); lia. }
    rewrite E. lia.
  - rewrite to_PTR_small by lia. lia.
Qed.

(** X14: over a mapped view and with the bitness flags clear,
    [ParseNTFileOptHeader] accepts a file exactly when e_lfanew, read as a
    signed LONG, is between -248 and file size - 248, the DWORD it points to
    is "PE\0\0" and the optional-header magic is 0x10b or 0x20b; a rejected
    file leaves the object as it was.  On acceptance exactly one of IsPE32
    and IsPE64 is set, by the magic; the header pointer is base + e_lfanew;
    the recorded offset is e_lfanew as a DWORD; 248 header bytes are copied
    for PE32 and 264 for PE32+, although only the first 248 were checked to
    end inside the file; and the data directories are read at 120 (PE32) or
    136 (PE32+) bytes into the header. *)
Theorem ParseNTFileOptHeader_accepts (m : Clibpe) :
  view_mapped (m_view m) ->
  IsPE32 (m_stFileInfo m) = false ->
  IsPE64 (m_stFileInfo m) = false ->
  let v := m_view m in
  let pNT := GetBaseAddr m + e_lfanew m in
  let Magic := rd16 v (pNT + 24) in
  let m' := snd (ParseNTFileOptHeader m) in
  (fst (ParseNTFileOptHeader m) = true
   <-> - 248 <= e_lfanew m < GetDataSize m - 248
       /\ rd32 v pNT = IMAGE_NT_SIGNATURE
       /\ (Magic = IMAGE_NT_OPTIONAL_HDR32_MAGIC \/ Magic = IMAGE_NT_OPTIONAL_HDR64_MAGIC))
  /\ (fst (ParseNTFileOptHeader m) = false -> m' = m)
  /\ (fst (ParseNTFileOptHeader m) = true ->
      HasNTHdr (m_stFileInfo m') = true
      /\ IsPE32 (m_stFileInfo m') = (Magic =? IMAGE_NT_OPTIONAL_HDR32_MAGIC)
      /\ IsPE64 (m_stFileInfo m') = (Magic =? IMAGE_NT_OPTIONAL_HDR64_MAGIC)
      /\ IsPE32 (m_stFileInfo m') = negb (IsPE64 (m_stFileInfo m'))
      /\ (if IsPE32 (m_stFileInfo m') then m_pNTHeader32 m' else m_pNTHeader64 m')
         = to_PTR pNT
      /\ (e_lfanew m <> - GetBaseAddr m ->
          nt_dwOffset (m_stNTHeader m') = to_DWORD (e_lfanew m))
      /\ Z.of_nat (length (nt_bytes (m_stNTHeader m')))
         = (if IsPE32 (m_stFileInfo m') then 248 else 264)
      /\ (forall k, GetDirEntryRVA m' k
                    = rd32 v (pNT + (if IsPE32 (m_stFileInfo m') then 120 else 136)
                              + 8 * k))).
Proof.
  intros Hv H32 H64 v pNT Magic m'.
  assert (Hsig : rd32 v (PTR_add (GetBaseAddr m) (e_lfanew m)) = rd32 v pNT)
    by apply rd32_PTR_add.
  assert (Hmag : rd16 v (PTR_add (GetBaseAddr m) (e_lfanew m) + 24) = Magic).
  { apply rd16_congr. unfold PTR_add. apply to_PTR_add_l. }
  assert (Hoff : e_lfanew m <> - GetBaseAddr m ->
                 PtrToOffset m (PTR_add (GetBaseAddr m) (e_lfanew m))
                 = to_DWORD (e_lfanew m)).
  { intros Hne. unfold PtrToOffset.
    pose proof Hv as (Hb & Hs & Hu). pose proof USER_SPACE_lt as HU.
    pose proof (to_LONG_range (rd32 (m_view m) (GetDosPtr m + 60))) as Hl.
    fold (e_lfanew m) in Hl. unfold GetBaseAddr in *.
    assert (H31 : 2 ^ 31 = 2147483648) by reflexivity.
    assert (H47 : USER_SPACE = 140737488355328) by reflexivity.
    assert (H64' : PTR_MOD = 18446744073709551616) by reflexivity.
    destruct (Z.eqb_spec (PTR_add (v_base (m_view m)) (e_lfanew m)) 0) as [E|N].
    - exfalso. unfold PTR_add, to_PTR in E.
      destruct (Z.lt_ge_cases (v_base (m_view m) + e_lfanew m) 0) as [Hneg|Hpos].
      + rewrite <- (Z.mod_unique _ _ (-1) (v_base (m_view m) + e_lfanew m + PTR_MOD))
          in E by lia. lia.
      + rewrite Z.mod_small in E by lia. lia.
    - unfold PTR_sub, PTR_add. rewrite to_PTR_sub_l, to_DWORD_to_PTR.
      f_equal. lia. }
  unfold m', ParseNTFileOptHeader.
  destruct (IsPtrSafe m _ false) eqn:Esafe; cbn [negb].
  2:{ cbn [fst snd]. split; [|split; [reflexivity|discriminate]].
      split; [discriminate|]. intros (Hr & _).
      apply (nt_headers_safe_iff m Hv) in Hr. congruence. }
  apply (nt_headers_safe_iff m Hv) in Esafe. fold v. rewrite Hsig, Hmag.
  destruct (Z.eqb_spec (rd32 v pNT) IMAGE_NT_SIGNATURE) as [Es|Ns]; cbn [negb].
  2:{ cbn [fst snd]. split; [|split; [reflexivity|discriminate]].
      split; [discriminate|]. intros (_ & Hr & _). contradiction. }
  destruct (Z.eqb_spec Magic IMAGE_NT_OPTIONAL_HDR32_MAGIC) as [E32|N32].
  - cbn [fst snd]. split; [split; [intros _; auto|reflexivity]|].
    split; [discriminate|]. intros _.
    assert (M64 : (Magic =? IMAGE_NT_OPTIONAL_HDR64_MAGIC) = false)
      by (rewrite E32; reflexivity).
    rewrite M64. unfold flag, GetDirEntryRVA. cbn. rewrite H64.
    split; [reflexivity|]. split; [reflexivity|]. split; [reflexivity|].
    split; [reflexivity|]. split; [reflexivity|]. split; [exact Hoff|].
    split; [reflexivity|].
    intros k. apply rd32_congr. unfold PTR_add.
    rewrite <- !Z.add_assoc. apply to_PTR_add_l.
  - destruct (Z.eqb_spec Magic IMAGE_NT_OPTIONAL_HDR64_MAGIC) as [E64|N64].
    + cbn [fst snd]. split; [split; [intros _; auto|reflexivity]|].
      split; [discriminate|]. intros _.
      unfold flag, GetDirEntryRVA. cbn. rewrite H32.
      split; [reflexivity|]. split; [reflexivity|]. split; [reflexivity|].
      split; [reflexivity|]. split; [reflexivity|]. split; [exact Hoff|].
      split; [reflexivity|].
      intros k. apply rd32_congr. unfold PTR_add.
      rewrite <- !Z.add_assoc. apply to_PTR_add_l.
    + cbn [fst snd]. split; [|split; [reflexivity|discriminate]].
      split; [discriminate|]. intros (_ & _ & [H|H]); contradiction.
Qed.

Lemma ParseNTFileOptHeader_accepts_witness :
  HasNTHdr (m_stFileInfo (snd (ParseNTFileOptHeader (after_dos_header tls_image)))) = true
  /\ IsPE32 (m_stFileInfo (snd (ParseNTFileOptHeader (after_dos_header tls_image))))
     = true
  /\ IsPE64 (m_stFileInfo (snd (ParseNTFileOptHeader (after_dos_header tls_image))))
     = false.
Proof.
  assert (Hv : view_mapped (m_view (after_dos_header tls_image)))
    by (repeat split; by_computation).
  assert (H32 : IsPE32 (m_stFileInfo (after_dos_header tls_image)) = false)
    by by_computation.
  assert (H64 : IsPE64 (m_stFileInfo (after_dos_header tls_image)) = false)
    by by_computation.
  assert (Hok : fst (ParseNTFileOptHeader (after_dos_header tls_image)) = true)
    by by_computation.
  destruct (ParseNTFileOptHeader_accepts (after_dos_header tls_image) Hv H32 H64)
    as (_ & _ & Hacc).
  destruct (Hacc Hok) as (H1 & H2 & H3 & _).
  split; [exact H1|]. split; [rewrite H2|rewrite H3]; by_computation.
Defined.

(** *** The data directories *)

Lemma data_dirs_loop_entries m base (n : nat) : forall (i : nat) acc,
  (forall k, GetDirEntryRVA m k = rd32 (m_view m) (base + 8 * k)) ->
  (forall k, GetDirEntrySize m k = rd32 (m_view m) (base + 8 * k + 4)) ->
  data_dirs_loop m n (Z.of_nat i) (to_PTR (base + 8 * Z.of_nat i)) acc
  = acc ++ map (data_dir_entry m) (map Z.of_nat (seq i n)).
Proof.
  induction n as [|n IH]; intros i acc Hrva Hsize; cbn [data_dirs_loop seq map].
  { rewrite app_nil_r. reflexivity. }
  assert (E1 : rd32 (m_view m) (to_PTR (base + 8 * Z.of_nat i))
               = GetDirEntryRVA m (Z.of_nat i)).
  { rewrite Hrva. apply rd32_congr. apply to_PTR_idem. }
  assert (E2 : rd32 (m_view m) (to_PTR (base + 8 * Z.of_nat i) + 4)
               = GetDirEntrySize m (Z.of_nat i)).
  { rewrite Hsize. apply rd32_congr. apply to_PTR_add_l. }
  rewrite E1, E2.
  replace (PTR_add (to_PTR (base + 8 * Z.of_nat i)) 8)
    with (to_PTR (base + 8 * Z.of_nat (S i))).
  2:{ unfold PTR_add. rewrite to_PTR_add_l. f_equal. lia. }
  replace (Z.of_nat i + 1) with (Z.of_nat (S i)) by lia.
  rewrite IH by assumption. rewrite <- app_assoc. cbn [app].
  f_equal. f_equal. unfold data_dir_entry. f_equal.
  destruct (GetSecHdrFromRVA m (GetDirEntryRVA m (Z.of_nat i)) =? 0);
    destruct (Z.of_nat i =? IMAGE_DIRECTORY_ENTRY_SECURITY); reflexivity.
Qed.

(** X15: on an object whose NT headers are parsed and whose directory list
    is empty, [ParseDataDirectories] records the first min(NumberOfRvaAndSizes,
    15) directories, never the sixteenth; entry i holds the RVA and the size
    that [GetDirEntryRVA] and [GetDirEntrySize] return for i, and the eight
    name bytes of the first section header whose range contains the RVA,
    except for the security directory, which gets no name; the result is
    true, and the flag is set, exactly when NumberOfRvaAndSizes is not 0. *)
Theorem ParseDataDirectories_entries (m : Clibpe) :
  HasNTHdr (m_stFileInfo m) = true ->
  IsPE32 (m_stFileInfo m) = true \/ IsPE64 (m_stFileInfo m) = true ->
  let r := ParseDataDirectories m [] in
  snd r = map (data_dir_entry m)
            (map Z.of_nat (seq 0 (Z.to_nat (Z.min (NumberOfRvaAndSizes m) 15))))
  /\ Z.of_nat (length (snd r)) = Z.min (NumberOfRvaAndSizes m) 15
  /\ fst (fst r) = negb (NumberOfRvaAndSizes m =? 0)
  /\ (fst (fst r) = true -> HasDataDirs (m_stFileInfo (snd (fst r))) = true)
  /\ (fst (fst r) = false -> snd (fst r) = m).
Proof.
  intros Hnt Hpe r.
  set (base := if IsPE32 (m_stFileInfo m) then m_pNTHeader32 m + 120
               else m_pNTHeader64 m + 136).
  set (n := NumberOfRvaAndSizes m).
  assert (Hn : 0 <= n < 2 ^ 32).
  { unfold n, NumberOfRvaAndSizes. rewrite Hnt, !andb_true_r.
    destruct (IsPE32 (m_stFileInfo m)); [apply rd32_range|].
    destruct (IsPE64 (m_stFileInfo m)); [apply rd32_range|lia]. }
  assert (Hrva : forall k, GetDirEntryRVA m k = rd32 (m_view m) (base + 8 * k)).
  { intros k. unfold GetDirEntryRVA, base. rewrite Hnt. cbn [negb].
    destruct (IsPE32 (m_stFileInfo m)); [reflexivity|].
    destruct Hpe as [H|H]; [discriminate|]. rewrite H. reflexivity. }
  assert (Hsize : forall k, GetDirEntrySize m k = rd32 (m_view m) (base + 8 * k + 4)).
  { intros k. unfold GetDirEntrySize, base. rewrite Hnt. cbn [negb].
    destruct (IsPE32 (m_stFileInfo m)); [reflexivity|].
    destruct Hpe as [H|H]; [discriminate|]. rewrite H. reflexivity. }
  assert (Hr : r = let dirs := map (data_dir_entry m)
                                 (map Z.of_nat (seq 0 (Z.to_nat (Z.min n 15)))) in
                   match dirs with
                   | [] => (false, m, dirs)
                   | _ :: _ => (true, flag set_HasDataDirs m, dirs)
                   end).
  { unfold r, ParseDataDirectories. cbn zeta.
    assert (Hcount : forall x, x = n ->
              Z.to_nat (if 15 <? x then 15 else x) = Z.to_nat (Z.min n 15)).
    { intros x ->. destruct (Z.ltb_spec 15 n); f_equal; lia. }
    assert (Hloop : forall p x, to_PTR p = to_PTR base -> x = n ->
              data_dirs_loop m (Z.to_nat (if 15 <? x then 15 else x)) 0 (to_PTR p) []
              = map (data_dir_entry m) (map Z.of_nat (seq 0 (Z.to_nat (Z.min n 15))))).
    { intros p x Hp Hx. rewrite (Hcount x Hx), Hp.
      replace (to_PTR base) with (to_PTR (base + 8 * Z.of_nat 0)) by (f_equal; lia).
      rewrite (data_dirs_loop_entries m base _ 0%nat [] Hrva Hsize). reflexivity. }
    unfold n, NumberOfRvaAndSizes, base in *. rewrite Hnt, !andb_true_r in *.
    destruct (IsPE32 (m_stFileInfo m)).
    - unfold PTR_add. rewrite (Hloop _ _ eq_refl eq_refl). reflexivity.
    - destruct Hpe as [H|H]; [discriminate|]. rewrite H in *.
      unfold PTR_add. rewrite (Hloop _ _ eq_refl eq_refl). reflexivity. }
  rewrite Hr. cbn zeta.
  assert (Hlen : length (map (data_dir_entry m)
                           (map Z.of_nat (seq 0 (Z.to_nat (Z.min n 15)))))
                 = Z.to_nat (Z.min n 15))
    by (rewrite !length_map, length_seq; reflexivity).
  destruct (map (data_dir_entry m) (map Z.of_nat (seq 0 (Z.to_nat (Z.min n 15)))))
    as [|d dirs] eqn:Edirs; cbn [fst snd].
  - cbn [length] in Hlen.
    assert (n = 0) by lia.
    split; [reflexivity|]. split; [cbn [length]; lia|].
    split; [subst n; rewrite H; reflexivity|]. split; [discriminate|reflexivity].
  - cbn [length] in Hlen.
    assert (n <> 0) by lia.
    split; [reflexivity|]. split; [cbn [length]; lia|].
    split; [destruct (Z.eqb_spec n 0); [contradiction|reflexivity]|].
    split; [intros _; unfold flag; cbn; reflexivity|discriminate].
Qed.

Lemma directories64_parsed :
  map (fun d => (dd_VirtualAddress d, dd_Section d))
      (snd (ParseDataDirectories directories64 []))
  = [ (0, []); (0, []); (0, []); (0, []); (0x1000, []); (0, []); (0, []); (0, []);
      (0, []); (0x1000, str_text ++ [0; 0; 0]); (0, []); (0, []); (0, []); (0, []);
      (0, []) ].
Proof. vm_compute. reflexivity. Qed.

Lemma ParseDataDirectories_entries_witness :
  Z.of_nat (length (snd (ParseDataDirectories directories64 []))) = 15
  /\ fst (fst (ParseDataDirectories directories64 [])) = true.
Proof.
  assert (Hnt : HasNTHdr (m_stFileInfo directories64) = true) by by_computation.
  assert (Hpe : IsPE32 (m_stFileInfo directories64) = true
                \/ IsPE64 (m_stFileInfo directories64) = true)
    by (right; by_computation).
  destruct (ParseDataDirectories_entries directories64 Hnt Hpe) as (_ & H2 & H3 & _).
  split; [rewrite H2|rewrite H3]; by_computation.
Defined.

(** *** The security directory *)

Lemma next_aligned_spec d :
  0 <= d -> d + 7 < DWORD_MOD -> next_aligned d = 8 * ((d + 7) / 8).
Proof.
  intros Hd Hlt. unfold next_aligned, DWORD_add.
  change 7 with (Z.ones 3) at 1 2. rewrite !Z.land_ones by lia.
  change (2 ^ 3) with 8.
  pose proof (Z.div_mod d 8 ltac:(lia)) as Hdm.
  pose proof (Z.mod_pos_bound d 8 ltac:(lia)) as Hr.
  pose proof (Z.div_mod (8 - d mod 8) 8 ltac:(lia)) as Hdm2.
  pose proof (Z.mod_pos_bound (8 - d mod 8) 8 ltac:(lia)) as Hr2.
  pose proof (Z.div_mod (d + 7) 8 ltac:(lia)) as Hdm3.
  pose proof (Z.mod_pos_bound (d + 7) 8 ltac:(lia)) as Hr3.
  rewrite to_DWORD_small by (unfold DWORD_MOD in *; lia).
  lia.
Qed.

Lemma security_loop_chain m dirEnd : forall fuel start acc,
  view_mapped (m_view m) ->
  GetDataSize m + 16 <= DWORD_MOD ->
  GetBaseAddr m <= start < GetBaseAddr m + GetDataSize m ->
  dirEnd <= GetBaseAddr m + GetDataSize m ->
  (Z.to_nat (GetBaseAddr m + GetDataSize m - start) < fuel)%nat ->
  exists l,
    security_loop m fuel start dirEnd acc = Some (acc ++ l)
    /\ cert_chain m (start - GetBaseAddr m) (dirEnd - GetBaseAddr m) l.
Proof.
  induction fuel as [|fuel IH]; intros start acc Hv Hsz Hstart Hend Hfuel; [lia|].
  cbn [security_loop].
  pose proof Hv as (Hb & Hs & Hu). pose proof USER_SPACE_lt as HU.
  assert (H32 : DWORD_MOD = 4294967296) by reflexivity.
  assert (H47 : USER_SPACE = 140737488355328) by reflexivity.
  assert (H64 : PTR_MOD = 18446744073709551616) by reflexivity.
  pose proof (rd32_range (m_view m) start) as Hlen.
  change (2 ^ 32) with 4294967296 in Hlen.
  assert (Hcl : cert_dwLength m (start - GetBaseAddr m) = rd32 (m_view m) start).
  { unfold cert_dwLength. f_equal. lia. }
  unfold GetBaseAddr, GetDataSize in *.
  set (len := rd32 (m_view m) start) in *.
  destruct (Z.ltb_spec start dirEnd) as [Hlt|Hge]; cbn [negb].
  2:{ exists []. rewrite app_nil_r. split; [reflexivity|].
      cbn [cert_chain]. unfold cert_ok. lia. }
  unfold offsetof_bCertificate, DWORD_sub.
  destruct (Z.lt_ge_cases len 8) as [Hshort|Hlong].
  { assert (E : to_DWORD (len - 8) = len - 8 + DWORD_MOD).
    { unfold to_DWORD. symmetry. apply (Z.mod_unique _ _ (-1)); lia. }
    rewrite E. rewrite PTR_add_small by lia.
    assert (Hns : IsPtrSafe m (start + (len - 8 + DWORD_MOD)) false = false).
    { destruct (IsPtrSafe m _ false) eqn:Es; [|reflexivity].
      apply (IsPtrSafe_iff m _ false Hv) in Es.
      unfold GetBaseAddr, GetDataSize in Es. lia. }
    rewrite Hns. cbn [negb]. exists []. rewrite app_nil_r. split; [reflexivity|].
    cbn [cert_chain]. unfold cert_ok. rewrite Hcl. lia. }
  rewrite to_DWORD_small by lia. rewrite PTR_add_small by lia.
  destruct (IsPtrSafe m (start + (len - 8)) false) eqn:Es; cbn [negb].
  2:{ exists []. rewrite app_nil_r. split; [reflexivity|].
      cbn [cert_chain]. unfold cert_ok, GetDataSize. rewrite Hcl. intros (_ & _ & Hin).
      assert (IsPtrSafe m (start + (len - 8)) false = true)
        by (apply (IsPtrSafe_iff m _ false Hv); unfold GetBaseAddr, GetDataSize; lia).
      congruence. }
  apply (IsPtrSafe_iff m _ false Hv) in Es. unfold GetBaseAddr, GetDataSize in Es.
  rewrite next_aligned_spec by lia.
  pose proof (Z.div_mod (len + 7) 8 ltac:(lia)) as Hdm.
  pose proof (Z.mod_pos_bound (len + 7) 8 ltac:(lia)) as Hr.
  set (step := 8 * ((len + 7) / 8)) in *.
  rewrite PTR_add_small by lia.
  assert (Hoff : PtrToOffset m start = start - v_base (m_view m)).
  { unfold PtrToOffset, PTR_sub, GetBaseAddr.
    destruct (Z.eqb_spec start 0); [lia|].
    rewrite to_PTR_small by lia. apply to_DWORD_small. lia. }
  assert (Hok : cert_ok m (start - v_base (m_view m)) (dirEnd - v_base (m_view m))).
  { unfold cert_ok, GetDataSize. rewrite Hcl. lia. }
  destruct (IsPtrSafe m (start + step) false) eqn:En; cbn [negb].
  - apply (IsPtrSafe_iff m _ false Hv) in En. unfold GetBaseAddr, GetDataSize in En.
    destruct (IH (start + step)
                (acc ++ [{| cert_dwOffset := PtrToOffset m start;
                            cert_WinCert := rd_bytes (m_view m) start
                                             (Z.to_nat sizeof_WIN_CERTIFICATE) |}])
                Hv Hsz ltac:(lia) Hend ltac:(lia)) as (l & Heq & Hchain).
    eexists (_ :: l). rewrite Heq, <- app_assoc. split; [reflexivity|].
    cbn [cert_chain cert_dwOffset cert_WinCert]. rewrite Hcl. fold step.
    split; [exact Hok|]. split; [exact Hoff|]. split.
    + change (Z.to_nat sizeof_WIN_CERTIFICATE) with 12%nat. unfold GetBaseAddr.
      f_equal. lia.
    + replace (start - v_base (m_view m) + step)
        with (start + step - v_base (m_view m)) by lia. exact Hchain.
  - eexists [_]. split; [reflexivity|].
    cbn [cert_chain cert_dwOffset cert_WinCert]. rewrite Hcl. fold step.
    split; [exact Hok|]. split; [exact Hoff|]. split.
    + change (Z.to_nat sizeof_WIN_CERTIFICATE) with 12%nat. unfold GetBaseAddr.
      f_equal. lia.
    + unfold cert_ok. intros (Hin & _).
      assert (IsPtrSafe m (start + step) false = true)
        by (apply (IsPtrSafe_iff m _ false Hv); unfold GetBaseAddr, GetDataSize; lia).
      congruence.
Qed.

Lemma security_loop_fuel m dirEnd : forall fuel1 fuel2 start acc r,
  (fuel1 <= fuel2)%nat ->
  security_loop m fuel1 start dirEnd acc = Some r ->
  security_loop m fuel2 start dirEnd acc = Some r.
Proof.
  induction fuel1 as [|fuel1 IH]; intros fuel2 start acc r Hle; [discriminate|].
  destruct fuel2 as [|fuel2]; [lia|]. cbn [security_loop].
  destruct (negb (start <? dirEnd)); [auto|].
  destruct (negb (IsPtrSafe m _ false)); [auto|].
  destruct (negb (IsPtrSafe m _ false)); [auto|].
  apply IH. lia.
Qed.

(** X16: over a mapped view of a file of at most 4 GiB - 16 bytes
    [ParseSecurity] returns.  When it returns true the flag is set, the
    directory RVA is a file offset inside the file and the directory ends
    inside the file or at its end, and the recorded certificates are the
    chain that starts at that offset: every certificate starts before the
    end of the directory, has dwLength >= 8 and its byte dwLength - 8 inside
    the file, the next one starts at the next multiple of 8 after its end,
    and the chain stops at the first position where this fails.  More fuel
    gives the same result. *)
Theorem ParseSecurity_certificates (m : Clibpe) :
  view_mapped (m_view m) ->
  GetDataSize m + 16 <= DWORD_MOD ->
  exists ok m' certs,
    ParseSecurity (walk_fuel m) m [] = Some (ok, m', certs)
    /\ (ok = false -> m' = m /\ certs = [])
    /\ (ok = true ->
        HasSecurity (m_stFileInfo m') = true
        /\ security_dir_in_file m
        /\ let off := GetDirEntryRVA m IMAGE_DIRECTORY_ENTRY_SECURITY in
           let size := GetDirEntrySize m IMAGE_DIRECTORY_ENTRY_SECURITY in
           cert_chain m off (off + size) certs)
    /\ (forall fuel, (walk_fuel m <= fuel)%nat ->
        ParseSecurity fuel m [] = Some (ok, m', certs)).
Proof.
  intros Hv Hsz. pose proof Hv as (Hb & Hs & Hu). pose proof USER_SPACE_lt as HU.
  assert (H32 : DWORD_MOD = 4294967296) by reflexivity.
  assert (H47 : USER_SPACE = 140737488355328) by reflexivity.
  assert (H64 : PTR_MOD = 18446744073709551616) by reflexivity.
  unfold ParseSecurity, security_dir_in_file.
  set (off := GetDirEntryRVA m IMAGE_DIRECTORY_ENTRY_SECURITY).
  set (size := GetDirEntrySize m IMAGE_DIRECTORY_ENTRY_SECURITY).
  assert (Hoff : 0 <= off < 4294967296).
  { unfold off, GetDirEntryRVA.
    destruct (negb _); [lia|]. destruct (IsPE32 _); [apply rd32_range|].
    destruct (IsPE64 _); [apply rd32_range|lia]. }
  assert (Hsize : 0 <= size < 4294967296).
  { unfold size, GetDirEntrySize.
    destruct (negb _); [lia|]. destruct (IsPE32 _); [apply rd32_range|].
    destruct (IsPE64 _); [apply rd32_range|lia]. }
  destruct ((off =? 0) || (size =? 0)) eqn:Ez.
  { exists false, m, []. repeat split; auto; discriminate. }
  apply orb_false_iff in Ez. destruct Ez as [Ho Hz].
  apply Z.eqb_neq in Ho. apply Z.eqb_neq in Hz.
  destruct (IsSumOverflow off (GetBaseAddr m)).
  { exists false, m, []. repeat split; auto; discriminate. }
  unfold GetBaseAddr, GetDataSize in *.
  rewrite (PTR_add_small (v_base (m_view m)) off) by lia.
  destruct (IsSumOverflow (v_base (m_view m) + off) size).
  { exists false, m, []. repeat split; auto; discriminate. }
  rewrite PTR_add_small by lia.
  destruct (IsPtrSafe m (v_base (m_view m) + off) false) eqn:Es; cbn [negb orb].
  2:{ exists false, m, []. repeat split; auto; discriminate. }
  destruct (IsPtrSafe m (v_base (m_view m) + off + size) true) eqn:Ee; cbn [negb].
  2:{ exists false, m, []. repeat split; auto; discriminate. }
  apply (IsPtrSafe_iff m _ false Hv) in Es. apply (IsPtrSafe_iff m _ true Hv) in Ee.
  unfold GetBaseAddr, GetDataSize in Es, Ee.
  destruct (security_loop_chain m (v_base (m_view m) + off + size) (walk_fuel m)
              (v_base (m_view m) + off) [] Hv Hsz
              ltac:(unfold GetBaseAddr, GetDataSize; lia)
              ltac:(unfold GetBaseAddr, GetDataSize; lia)
              ltac:(unfold walk_fuel, GetBaseAddr, GetDataSize; lia))
    as (l & Heq & Hchain).
  cbn [app] in Heq. rewrite Heq.
  exists true, (flag set_HasSecurity m), l.
  split; [reflexivity|]. split; [discriminate|]. split.
  - intros _. split; [unfold flag; cbn; reflexivity|]. split; [lia|].
    cbn zeta. unfold GetBaseAddr in Hchain.
    replace (v_base (m_view m) + off - v_base (m_view m)) with off in Hchain by lia.
    replace (v_base (m_view m) + off + size - v_base (m_view m)) with (off + size)
      in Hchain by lia.
    exact Hchain.
  - intros fuel Hfuel.
    rewrite (security_loop_fuel m _ _ fuel _ _ _ Hfuel Heq). reflexivity.
Qed.

Lemma two_certificates_parsed :
  option_map (fun r => (fst (fst r), map cert_dwOffset (snd r)))
    (ParseSecurity (walk_fuel two_certificates) two_certificates [])
  = Some (true, [0x400; 0x420]).
Proof. vm_compute. reflexivity. Qed.

Lemma view_mapped_two_certificates : view_mapped (m_view two_certificates).
Proof. repeat split; by_computation. Qed.

Lemma ParseSecurity_certificates_witness :
  exists ok m' certs,
    ParseSecurity (walk_fuel two_certificates) two_certificates [] = Some (ok, m', certs)
    /\ (ok = true ->
        HasSecurity (m_stFileInfo m') = true
        /\ security_dir_in_file two_certificates
        /\ cert_chain two_certificates 0x400 0x430 certs).
Proof.
  assert (Hsz : GetDataSize two_certificates + 16 <= DWORD_MOD) by by_computation.
  destruct (ParseSecurity_certificates two_certificates view_mapped_two_certificates Hsz)
    as (ok & m' & certs & H1 & _ & H3 & _).
  exists ok, m', certs. split; [exact H1|exact H3].
Defined.

Lemma security_loop_stuck m dirEnd start : forall fuel acc,
  view_mapped (m_view m) ->
  GetBaseAddr m <= start < dirEnd ->
  rd32 (m_view m) start = 0 ->
  start + (DWORD_MOD - 8) < GetBaseAddr m + GetDataSize m ->
  security_loop m fuel start dirEnd acc = None.
Proof.
  induction fuel as [|fuel IH]; intros acc Hv Hstart Hzero Hbig; [reflexivity|].
  cbn [security_loop]. rewrite Hzero.
  pose proof Hv as (Hb & Hs & Hu). pose proof USER_SPACE_lt as HU.
  assert (H32 : DWORD_MOD = 4294967296) by reflexivity.
  assert (H47 : USER_SPACE = 140737488355328) by reflexivity.
  assert (H64 : PTR_MOD = 18446744073709551616) by reflexivity.
  destruct (Z.ltb_spec start dirEnd) as [_|]; [cbn [negb]|lia].
  change (DWORD_sub 0 offsetof_bCertificate) with (DWORD_MOD - 8).
  change (next_aligned 0) with 0.
  unfold GetBaseAddr, GetDataSize in *.
  rewrite !PTR_add_small by lia.
  assert (E1 : IsPtrSafe m (start + (DWORD_MOD - 8)) false = true)
    by (apply (IsPtrSafe_iff m _ false Hv); unfold GetBaseAddr, GetDataSize; lia).
  assert (E2 : IsPtrSafe m (start + 0) false = true)
    by (apply (IsPtrSafe_iff m _ false Hv); unfold GetBaseAddr, GetDataSize; lia).
  rewrite E1, E2. cbn [negb]. replace (start + 0) with start by lia.
  apply IH; auto.
Qed.

(** X17: when the first certificate of the security directory has dwLength
    0 and the file extends at least 4 GiB - 8 bytes beyond it, the
    certificate loop stays on that certificate: whatever the number of
    passes allowed, [ParseSecurity] has not returned. *)
Theorem ParseSecurity_zero_length_loop (m : Clibpe) (fuel : nat)
    (vecSecurity : list PESecurity) :
  view_mapped (m_view m) ->
  security_dir_in_file m ->
  cert_dwLength m (GetDirEntryRVA m IMAGE_DIRECTORY_ENTRY_SECURITY) = 0 ->
  GetDirEntryRVA m IMAGE_DIRECTORY_ENTRY_SECURITY + (DWORD_MOD - 8) < GetDataSize m ->
  ParseSecurity fuel m vecSecurity = None.
Proof.
  intros Hv (Hoff & Hsize & Hend) Hzero Hbig.
  pose proof Hv as (Hb & Hs & Hu). pose proof USER_SPACE_lt as HU.
  assert (H32 : DWORD_MOD = 4294967296) by reflexivity.
  assert (H47 : USER_SPACE = 140737488355328) by reflexivity.
  assert (H64 : PTR_MOD = 18446744073709551616) by reflexivity.
  unfold ParseSecurity, cert_dwLength in *.
  set (off := GetDirEntryRVA m IMAGE_DIRECTORY_ENTRY_SECURITY) in *.
  set (size := GetDirEntrySize m IMAGE_DIRECTORY_ENTRY_SECURITY) in *.
  unfold GetBaseAddr, GetDataSize in *.
  destruct (Z.eqb_spec off 0); [lia|]. destruct (Z.eqb_spec size 0); [lia|].
  cbn [orb].
  unfold IsSumOverflow.
  rewrite (PTR_add_small off) by lia.
  destruct (Z.ltb_spec (off + v_base (m_view m)) off); [lia|].
  rewrite (PTR_add_small (v_base (m_view m)) off) by lia.
  rewrite PTR_add_small by lia.
  destruct (Z.ltb_spec (v_base (m_view m) + off + size) (v_base (m_view m) + off));
    [lia|].
  assert (E1 : IsPtrSafe m (v_base (m_view m) + off) false = true)
    by (apply (IsPtrSafe_iff m _ false Hv); unfold GetBaseAddr, GetDataSize; lia).
  assert (E2 : IsPtrSafe m (v_base (m_view m) + off + size) true = true)
    by (apply (IsPtrSafe_iff m _ true Hv); unfold GetBaseAddr, GetDataSize; lia).
  rewrite E1, E2. cbn [negb orb].
  rewrite security_loop_stuck; auto; unfold GetBaseAddr, GetDataSize; lia.
Qed.

Lemma view_mapped_zero_length_certificate :
  view_mapped (m_view zero_length_certificate).
Proof. repeat split; by_computation. Qed.

Lemma ParseSecurity_zero_length_loop_witness :
  ParseSecurity 1000 zero_length_certificate [] = None.
Proof.
  apply ParseSecurity_zero_length_loop.
  - exact view_mapped_zero_length_certificate.
  - repeat split; by_computation.
  - by_computation.
  - by_computation.
Defined.

(** *** The exception directory *)

Lemma GetDirEntrySize_range m k : 0 <= GetDirEntrySize m k < 2 ^ 32.
Proof.
  unfold GetDirEntrySize.
  destruct (negb (HasNTHdr (m_stFileInfo m))); [lia|].
  destruct (IsPE32 (m_stFileInfo m)); [apply rd32_range|].
  destruct (IsPE64 (m_stFileInfo m)); [apply rd32_range|lia].
Qed.

Lemma exceptions_loop_entries m p0 (n : nat) : forall (i : nat) acc,
  view_mapped (m_view m) ->
  GetBaseAddr m <= p0 <= GetBaseAddr m + GetDataSize m ->
  Z.of_nat i + Z.of_nat n <= DWORD_MOD ->
  exceptions_loop m n (p0 + 12 * Z.of_nat i) acc
  = acc ++ map (fun k => exception_entry m (p0 + 12 * Z.of_nat k))
             (seq i (Nat.min n (Z.to_nat ((GetBaseAddr m + GetDataSize m - p0 + 11) / 12) - i))).
Proof.
  induction n as [|n IH]; intros i acc Hv Hp Hi; cbn [exceptions_loop].
  { cbn. rewrite app_nil_r. reflexivity. }
  pose proof Hv as (Hb & Hs & Hu). pose proof USER_SPACE_lt as HU.
  assert (H32 : DWORD_MOD = 4294967296) by reflexivity.
  assert (H47 : USER_SPACE = 140737488355328) by reflexivity.
  assert (H64 : PTR_MOD = 18446744073709551616) by reflexivity.
  unfold GetBaseAddr, GetDataSize in *.
  set (E := v_base (m_view m) + v_size (m_view m) - p0) in *.
  assert (HE : 0 <= E) by (unfold E; lia).
  pose proof (Z.div_mod (E + 11) 12 ltac:(lia)) as Hdm.
  pose proof (Z.mod_pos_bound (E + 11) 12 ltac:(lia)) as Hmod.
  assert (Hq : 0 <= (E + 11) / 12) by (apply Z.div_pos; lia).
  set (S_ := Z.to_nat ((E + 11) / 12)) in *.
  assert (Hin : (i < S_)%nat <-> p0 + 12 * Z.of_nat i < v_base (m_view m) + v_size (m_view m)).
  { unfold S_, E in *. split; intros H.
    - assert (Z.of_nat i < (v_base (m_view m) + v_size (m_view m) - p0 + 11) / 12) by lia.
      lia.
    - assert (Z.of_nat i < (v_base (m_view m) + v_size (m_view m) - p0 + 11) / 12) by lia.
      lia. }
  unfold sizeof_IMAGE_RUNTIME_FUNCTION_ENTRY.
  destruct (IsPtrSafe m (p0 + 12 * Z.of_nat i) false) eqn:Es; cbn [negb].
  - apply (IsPtrSafe_iff m _ false Hv) in Es. unfold GetBaseAddr, GetDataSize in Es.
    assert (Hlt : (i < S_)%nat) by (apply Hin; lia).
    replace (S_ - i)%nat with (S (S_ - S i)) by lia.
    rewrite <- Nat.succ_min_distr. cbn [seq map].
    rewrite PTR_add_small by lia.
    replace (p0 + 12 * Z.of_nat i + 12) with (p0 + 12 * Z.of_nat (S i)) by lia.
    rewrite (IH (S i) _ Hv) by lia.
    rewrite <- app_assoc. reflexivity.
  - assert (Hge : ~ (i < S_)%nat).
    { intros Hlt. apply Hin in Hlt.
      assert (IsPtrSafe m (p0 + 12 * Z.of_nat i) false = true)
        by (apply (IsPtrSafe_iff m _ false Hv); unfold GetBaseAddr, GetDataSize; lia).
      congruence. }
    replace (S_ - i)%nat with 0%nat by lia.
    rewrite Nat.min_0_r. cbn. rewrite app_nil_r. reflexivity.
Qed.

(** X18: when [ParseExceptions] succeeds over a mapped view on an object
    without exception records, the flag is set and the list holds at least
    one entry: the first min(n, k) entries of the directory, where n is the
    directory size divided by 12 and k the number of 12-byte entries that
    start inside the file; entry i is recorded with the file offset of the
    directory plus 12 i.  The directory is only checked to reach n bytes,
    not 12 n bytes, into the file. *)
Theorem ParseExceptions_entries (m : Clibpe) :
  view_mapped (m_view m) ->
  fst (fst (ParseExceptions m [])) = true ->
  let p := exception_dir m in
  let count := Z.min (exception_entries m) (exception_entries_in_file m) in
  let entries := snd (ParseExceptions m []) in
  HasException (m_stFileInfo (snd (fst (ParseExceptions m [])))) = true
  /\ GetBaseAddr m <= p
  /\ p + exception_entries m < GetBaseAddr m + GetDataSize m
  /\ 1 <= count
  /\ entries = map (fun i => exception_entry m (p + 12 * Z.of_nat i))
                 (seq 0 (Z.to_nat count))
  /\ (GetDataSize m < DWORD_MOD ->
      map exc_dwOffset entries
      = map (fun i => p - GetBaseAddr m + 12 * Z.of_nat i) (seq 0 (Z.to_nat count))).
Proof.
  intros Hv Hok p count entries.
  pose proof Hv as (Hb & Hs & Hu). pose proof USER_SPACE_lt as HU.
  assert (H32 : DWORD_MOD = 4294967296) by reflexivity.
  assert (H47 : USER_SPACE = 140737488355328) by reflexivity.
  assert (H64 : PTR_MOD = 18446744073709551616) by reflexivity.
  unfold entries, count, exception_entries, exception_entries_in_file.
  unfold ParseExceptions in *. fold (exception_dir m) in *. fold p in Hok |- *.
  unfold sizeof_IMAGE_RUNTIME_FUNCTION_ENTRY in *.
  set (n := GetDirEntrySize m IMAGE_DIRECTORY_ENTRY_EXCEPTION / 12) in *.
  pose proof (GetDirEntrySize_range m IMAGE_DIRECTORY_ENTRY_EXCEPTION) as Hsize.
  change (2 ^ 32) with 4294967296 in Hsize.
  assert (Hn : 0 <= n < 4294967296).
  { unfold n. split; [apply Z.div_pos; lia|].
    apply Z.div_lt_upper_bound; lia. }
  destruct (Z.eqb_spec p 0) as [E0|Hp0]; [discriminate|].
  assert (Hp : GetBaseAddr m <= p <= GetBaseAddr m + GetDataSize m).
  { apply (IsPtrSafe_iff m _ true Hv). apply RVAToPtr_safe. exact Hp0. }
  destruct (Z.eqb_spec n 0) as [En|Hn0]; [discriminate|]. cbn [orb] in *.
  assert (Hp' := Hp). unfold GetBaseAddr, GetDataSize in Hp'.
  rewrite PTR_add_small in * by lia.
  destruct (IsPtrSafe m (p + n) false) eqn:Es; [|discriminate]. cbn [negb fst snd].
  apply (IsPtrSafe_iff m _ false Hv) in Es.
  assert (Hk : 1 <= (GetBaseAddr m + GetDataSize m - p + 11) / 12).
  { apply Z.div_le_lower_bound; unfold GetBaseAddr, GetDataSize in *; lia. }
  assert (Hlist :
    exceptions_loop m (Z.to_nat n) p []
    = map (fun i => exception_entry m (p + 12 * Z.of_nat i))
        (seq 0 (Z.to_nat (Z.min n ((GetBaseAddr m + GetDataSize m - p + 11) / 12))))).
  { replace p with (p + 12 * Z.of_nat 0) at 1 by lia.
    rewrite (exceptions_loop_entries m p _ 0%nat [] Hv Hp) by lia.
    cbn [app]. rewrite Nat.sub_0_r, Z2Nat.inj_min. reflexivity. }
  split; [unfold flag; cbn; reflexivity|].
  split; [lia|]. split; [lia|]. split; [lia|]. split; [exact Hlist|].
  intros Hsmall. rewrite Hlist, map_map. apply map_ext_in.
  intros i Hi. apply in_seq in Hi. cbn [exception_entry exc_dwOffset].
  assert (Hi' : Z.of_nat i < (GetBaseAddr m + GetDataSize m - p + 11) / 12) by lia.
  assert (p + 12 * Z.of_nat i < GetBaseAddr m + GetDataSize m).
  { pose proof (Z.div_mod (GetBaseAddr m + GetDataSize m - p + 11) 12 ltac:(lia)).
    pose proof (Z.mod_pos_bound (GetBaseAddr m + GetDataSize m - p + 11) 12 ltac:(lia)).
    lia. }
  unfold PtrToOffset, PTR_sub. unfold GetBaseAddr, GetDataSize in *.
  destruct (Z.eqb_spec (p + 12 * Z.of_nat i) 0); [lia|].
  rewrite to_PTR_small by lia. rewrite to_DWORD_small by lia. lia.
Qed.

Lemma truncated_exceptions_parsed :
  map exc_dwOffset (snd (ParseExceptions truncated_exceptions [])) = [0x400; 0x40C].
Proof. vm_compute. reflexivity. Qed.

Lemma ParseExceptions_entries_witness :
  HasException
    (m_stFileInfo (snd (fst (ParseExceptions truncated_exceptions [])))) = true
  /\ snd (ParseExceptions truncated_exceptions [])
     = map (fun i => exception_entry truncated_exceptions
                       (exception_dir truncated_exceptions + 12 * Z.of_nat i))
         (seq 0 2).
Proof.
  assert (Hv : view_mapped (m_view truncated_exceptions))
    by (repeat split; by_computation).
  assert (Hok : fst (fst (ParseExceptions truncated_exceptions [])) = true)
    by by_computation.
  destruct (ParseExceptions_entries truncated_exceptions Hv Hok)
    as (H1 & _ & _ & _ & H5 & _).
  split; [exact H1|]. rewrite H5. reflexivity.
Defined.

(** *** The bound-import table *)

Lemma bound_forwarders_range m : forall fuel i d acc,
  view_mapped (m_view m) ->
  GetBaseAddr m <= d ->
  d + 8 < GetBaseAddr m + GetDataSize m ->
  d <= fst (bound_forwarders m fuel i d (d + 8) acc)
  /\ fst (bound_forwarders m fuel i d (d + 8) acc) + 8 < GetBaseAddr m + GetDataSize m.
Proof.
  induction fuel as [|fuel IH]; intros i d acc Hv Hlo Hhi; cbn [bound_forwarders fst];
    [lia|].
  pose proof Hv as (Hb & Hs & Hu). pose proof USER_SPACE_lt as HU.
  assert (H47 : USER_SPACE = 140737488355328) by reflexivity.
  assert (H64 : PTR_MOD = 18446744073709551616) by reflexivity.
  unfold sizeof_IMAGE_BOUND_FORWARDER_REF.
  assert (Hlo' := Hlo). assert (Hhi' := Hhi). unfold GetBaseAddr, GetDataSize in Hlo', Hhi'.
  destruct (negb (i <? _)); cbn [fst]; [lia|].
  rewrite !PTR_add_small by lia.
  destruct (IsPtrSafe m (d + 8 + 8) false) eqn:Es; cbn [negb fst]; [|lia].
  apply (IsPtrSafe_iff m _ false Hv) in Es.
  assert (Ed : IsPtrSafe m (d + 8) false = true) by (apply (IsPtrSafe_iff m _ false Hv); lia).
  rewrite Ed. cbn [negb].
  destruct (IH (i + 1) (d + 8) (acc ++ [bound_forwarder m d (d + 8)]) Hv
              ltac:(lia) ltac:(lia)) as [H1 H2].
  lia.
Qed.

Lemma bound_modules_fuel m : forall fuel1 fuel2 d acc,
  view_mapped (m_view m) ->
  GetBaseAddr m <= d <= GetBaseAddr m + GetDataSize m ->
  (Z.to_nat (GetBaseAddr m + GetDataSize m - d) < fuel1)%nat ->
  (Z.to_nat (GetBaseAddr m + GetDataSize m - d) < fuel2)%nat ->
  bound_modules m fuel1 d acc = bound_modules m fuel2 d acc.
Proof.
  induction fuel1 as [|fuel1 IH]; intros fuel2 d acc Hv Hd H1 H2; [lia|].
  destruct fuel2 as [|fuel2]; [lia|]. cbn [bound_modules].
  destruct (pbi_TimeDateStamp (m_view m) d =? 0); [reflexivity|].
  pose proof Hv as (Hb & Hs & Hu). pose proof USER_SPACE_lt as HU.
  assert (H47 : USER_SPACE = 140737488355328) by reflexivity.
  assert (H64 : PTR_MOD = 18446744073709551616) by reflexivity.
  unfold sizeof_IMAGE_BOUND_IMPORT_DESCRIPTOR.
  assert (Hd' := Hd). unfold GetBaseAddr, GetDataSize in Hd'.
  rewrite (PTR_add_small d 8) by lia.
  destruct (IsPtrSafe m (d + 8) false) eqn:Es; cbn [negb]; [|reflexivity].
  apply (IsPtrSafe_iff m _ false Hv) in Es.
  destruct (bound_forwarders_range m forwarder_fuel 0 d [] Hv ltac:(lia) ltac:(lia))
    as [Hr1 Hr2].
  set (r := bound_forwarders m forwarder_fuel 0 d (d + 8) []) in *.
  unfold GetBaseAddr, GetDataSize in *.
  rewrite PTR_add_small by lia.
  destruct (IsPtrSafe m (fst r + 8) false); cbn [negb]; [|reflexivity].
  apply IH; try assumption; unfold GetBaseAddr, GetDataSize; lia.
Qed.

(** X19: how [ParseBoundImport] walks the table, over a mapped view.  A
    descriptor without forwarder references is recorded as it stands, its
    name read at its own address plus OffsetModuleName, and the walk goes on
    8 bytes later.  A descriptor with forwarder references whose first
    reference has at most 1 in its Reserved word gives one forwarder, and the
    module record is made from that reference instead of the descriptor: its
    offset, its 8 bytes and the name at the reference plus the reference's
    OffsetModuleName; the walk goes on at the second reference.  The result
    is true, with the flag set, exactly when the directory resolves, and the
    walk over the table ends. *)
Theorem ParseBoundImport_forwarders (m : Clibpe) :
  view_mapped (m_view m) ->
  let v := m_view m in
  let p := RVAToPtr m (GetDirEntryRVA m IMAGE_DIRECTORY_ENTRY_BOUND_IMPORT) in
  (forall fuel d acc,
     GetBaseAddr m <= d -> d + 8 < GetBaseAddr m + GetDataSize m ->
     pbi_TimeDateStamp v d <> 0 ->
     pbi_NumberOfModuleForwarderRefs v d = 0 ->
     bound_modules m (S fuel) d acc
     = bound_modules m fuel (d + 8) (acc ++ [bound_module m d []]))
  /\ (forall fuel d acc,
        GetBaseAddr m <= d -> d + 16 < GetBaseAddr m + GetDataSize m ->
        pbi_TimeDateStamp v d <> 0 ->
        pbi_NumberOfModuleForwarderRefs v d <> 0 ->
        pbi_NumberOfModuleForwarderRefs v (d + 8) <= 1 ->
        bound_modules m (S fuel) d acc
        = bound_modules m fuel (d + 16)
            (acc ++ [bound_module m (d + 8) [bound_forwarder m d (d + 8)]]))
  /\ (fst (fst (ParseBoundImport m [])) = negb (p =? 0))
  /\ (p <> 0 ->
      HasBoundImp (m_stFileInfo (snd (fst (ParseBoundImport m [])))) = true
      /\ forall fuel, (walk_fuel m <= fuel)%nat ->
           snd (ParseBoundImport m []) = bound_modules m fuel p []).
Proof.
  intros Hv v p.
  pose proof Hv as (Hb & Hs & Hu). pose proof USER_SPACE_lt as HU.
  assert (H47 : USER_SPACE = 140737488355328) by reflexivity.
  assert (H64 : PTR_MOD = 18446744073709551616) by reflexivity.
  assert (Hfuel : forwarder_fuel = S (S (Z.to_nat 65534))) by (unfold forwarder_fuel; lia).
  split; [|split; [|split]].
  - intros fuel d acc Hlo Hhi Hts Hn. cbn [bound_modules]. fold v.
    apply Z.eqb_neq in Hts. rewrite Hts.
    unfold sizeof_IMAGE_BOUND_IMPORT_DESCRIPTOR.
    unfold GetBaseAddr, GetDataSize in *.
    rewrite (PTR_add_small d 8) by lia.
    assert (Ed : IsPtrSafe m (d + 8) false = true)
      by (apply (IsPtrSafe_iff m _ false Hv); unfold GetBaseAddr, GetDataSize; lia).
    rewrite Ed. cbn [negb]. rewrite Hfuel. cbn [bound_forwarders]. fold v.
    rewrite Hn. cbn [Z.ltb Z.compare negb fst snd].
    rewrite (PTR_add_small d 8) by lia. rewrite Ed. reflexivity.
  - intros fuel d acc Hlo Hhi Hts Hn Hres. cbn [bound_modules]. fold v.
    apply Z.eqb_neq in Hts. rewrite Hts.
    unfold sizeof_IMAGE_BOUND_IMPORT_DESCRIPTOR.
    unfold GetBaseAddr, GetDataSize in *.
    rewrite (PTR_add_small d 8) by lia.
    assert (Ed : IsPtrSafe m (d + 8) false = true)
      by (apply (IsPtrSafe_iff m _ false Hv); unfold GetBaseAddr, GetDataSize; lia).
    assert (Ed2 : IsPtrSafe m (d + 8 + 8) false = true)
      by (apply (IsPtrSafe_iff m _ false Hv); unfold GetBaseAddr, GetDataSize; lia).
    rewrite Ed. cbn [negb]. rewrite Hfuel. cbn [bound_forwarders]. fold v.
    pose proof (rd16_range v (d + 6)) as Hr.
    fold (pbi_NumberOfModuleForwarderRefs v d) in Hr.
    destruct (Z.ltb_spec 0 (pbi_NumberOfModuleForwarderRefs v d)) as [_|]; [|lia].
    cbn [negb]. unfold sizeof_IMAGE_BOUND_FORWARDER_REF.
    rewrite (PTR_add_small (d + 8) 8) by lia. rewrite (PTR_add_small d 8) by lia.
    rewrite Ed2, Ed. cbn [negb].
    destruct (Z.ltb_spec (0 + 1) (pbi_NumberOfModuleForwarderRefs v (d + 8))) as [|_];
      [lia|].
    cbn [negb fst snd app].
    rewrite (PTR_add_small (d + 8) 8) by lia. rewrite Ed2. cbn [negb].
    replace (d + 8 + 8) with (d + 16) by lia. reflexivity.
  - unfold ParseBoundImport. fold p. destruct (p =? 0); reflexivity.
  - intros Hp. unfold ParseBoundImport. fold p.
    destruct (Z.eqb_spec p 0); [contradiction|]. cbn [fst snd].
    split; [unfold flag; cbn; reflexivity|].
    intros fuel Hle.
    assert (Hin : GetBaseAddr m <= p <= GetBaseAddr m + GetDataSize m).
    { apply (IsPtrSafe_iff m _ true Hv). apply RVAToPtr_safe. exact Hp. }
    apply bound_modules_fuel; try assumption.
    + unfold walk_fuel, GetBaseAddr, GetDataSize in *. lia.
    + unfold walk_fuel, GetBaseAddr, GetDataSize in *. lia.
Qed.

Lemma bound32_parsed :
  map (fun b => (bi_dwOffset b, bi_ModuleName b,
                 map (fun f => (bf_dwOffset f, bf_ModuleName f)) (bi_Forwarders b)))
      (snd (ParseBoundImport bound32 []))
  = [ (0x408, [99], [ (0x408, str_b) ]) ].
Proof. vm_compute. reflexivity. Qed.

Lemma view_mapped_bound32 : view_mapped (m_view bound32).
Proof. repeat split; by_computation. Qed.

Lemma ParseBoundImport_forwarders_witness :
  bound_modules bound32 (S (walk_fuel bound32)) (at_rva 0x1000) []
  = bound_modules bound32 (walk_fuel bound32) (at_rva 0x1000 + 16)
      ([] ++ [bound_module bound32 (at_rva 0x1000 + 8)
                [bound_forwarder bound32 (at_rva 0x1000) (at_rva 0x1000 + 8)]])
  /\ HasBoundImp (m_stFileInfo (snd (fst (ParseBoundImport bound32 [])))) = true.
Proof.
  destruct (ParseBoundImport_forwarders bound32 view_mapped_bound32)
    as (_ & Hfwd & _ & Hflag).
  split.
  - apply Hfwd; by_computation.
  - apply Hflag. by_computation.
Defined.

(** *** Virtual addresses *)

Lemma RVAToOffset_loop_high size r secs : forall d,
  DWORD_MOD <= r -> RVAToOffset_loop size r secs d = d.
Proof.
  induction secs as [|s secs IH]; intros d Hr; cbn [RVAToOffset_loop]; [reflexivity|].
  unfold rva_in_section.
  pose proof (to_DWORD_range (sh_VirtualAddress (SecHdr s) + sh_VirtualSize (SecHdr s)))
    as Hsum.
  fold (DWORD_add (sh_VirtualAddress (SecHdr s)) (sh_VirtualSize (SecHdr s))) in Hsum.
  destruct (Z.ltb_spec r (DWORD_add (sh_VirtualAddress (SecHdr s))
                                    (sh_VirtualSize (SecHdr s)))); [lia|].
  rewrite andb_false_r. apply IH. exact Hr.
Qed.

Lemma GetImageBase_range m : 0 <= GetImageBase m < PTR_MOD.
Proof.
  unfold GetImageBase.
  destruct (IsPE32 (m_stFileInfo m)).
  - pose proof (rd32_range (m_view m) (m_pNTHeader32 m + 52)).
    unfold PTR_MOD. lia.
  - destruct (IsPE64 (m_stFileInfo m)); [apply rd64_range|unfold PTR_MOD; lia].
Qed.

(** X20: [GetOffsetFromVA] of image base + RVA is [GetOffsetFromRVA] of the
    RVA; a virtual address that is 4 GiB or more above the image base, or
    below it (by no more than 2^64 - 2^32), gives offset 0, as does every
    RVA of 2^32 or more. *)
Theorem GetOffsetFromVA_image_base (m : Clibpe) :
  (forall rva, 0 <= rva -> GetImageBase m + rva < PTR_MOD ->
     GetOffsetFromVA m (GetImageBase m + rva) = GetOffsetFromRVA m rva)
  /\ (forall rva, DWORD_MOD <= rva -> GetOffsetFromRVA m rva = 0)
  /\ (forall va, 0 <= va < PTR_MOD ->
        GetImageBase m + DWORD_MOD <= va
        \/ (va < GetImageBase m /\ GetImageBase m <= va + (PTR_MOD - DWORD_MOD)) ->
        GetOffsetFromVA m va = 0).
Proof.
  pose proof (GetImageBase_range m) as Hib.
  assert (H32 : DWORD_MOD = 4294967296) by reflexivity.
  assert (H64 : PTR_MOD = 18446744073709551616) by reflexivity.
  split; [|split].
  - intros rva Hrva Hlt. unfold GetOffsetFromVA, GetOffsetFromRVA.
    destruct (negb (m_fLoaded m)); [reflexivity|].
    unfold PTR_sub. rewrite to_PTR_small by lia. f_equal. lia.
  - intros rva Hrva. unfold GetOffsetFromRVA, RVAToOffset.
    destruct (negb (m_fLoaded m)); [reflexivity|].
    apply RVAToOffset_loop_high. exact Hrva.
  - intros va Hva Hcase. unfold GetOffsetFromVA, RVAToOffset.
    destruct (negb (m_fLoaded m)); [reflexivity|].
    apply RVAToOffset_loop_high. unfold PTR_sub.
    destruct Hcase as [Habove|[Hbelow Hnear]].
    + rewrite to_PTR_small by lia. lia.
    + assert (E : to_PTR (va - GetImageBase m) = va - GetImageBase m + PTR_MOD).
      { unfold to_PTR. symmetry. apply (Z.mod_unique _ _ (-1)); lia. }
      rewrite E. lia.
Qed.

Lemma with_image_base_offsets :
  GetImageBase with_image_base = 0x400000
  /\ GetOffsetFromRVA with_image_base 0x1100 = 0x500
  /\ GetOffsetFromVA with_image_base 0x401100 = 0x500
  /\ GetOffsetFromVA with_image_base 0x3FFFFF = 0.
Proof. repeat split; by_computation. Qed.

Lemma GetOffsetFromVA_image_base_witness :
  GetOffsetFromVA with_image_base (GetImageBase with_image_base + 0x1100)
  = GetOffsetFromRVA with_image_base 0x1100
  /\ GetOffsetFromVA with_image_base 0x3FFFFF = 0.
Proof.
  destruct (GetOffsetFromVA_image_base with_image_base) as (H1 & _ & H3).
  split.
  - apply H1; by_computation.
  - apply H3; [split; by_computation|].
    right. split; by_computation.
Defined.

(** *** The file offset behind [RVAToPtr] *)

Lemma GetSecHdrFromRVA_loop_contains m rva n : forall p,
  GetSecHdrFromRVA_loop m rva n p <> 0 ->
  header_contains (m_view m) (GetSecHdrFromRVA_loop m rva n p) rva = true.
Proof.
  induction n as [|n IH]; intros p; cbn [GetSecHdrFromRVA_loop].
  - intros H; contradiction.
  - destruct (negb (IsPtrSafe m (PTR_add p 40) false)); [intros H; contradiction|].
    fold (header_contains (m_view m) p rva).
    destruct (header_contains (m_view m) p rva) eqn:E; [intros _; exact E|apply IH].
Qed.

Lemma GetSecHdrFromRVA_contains m rva :
  GetSecHdrFromRVA m rva <> 0 ->
  header_contains (m_view m) (GetSecHdrFromRVA m rva) rva = true.
Proof. rewrite GetSecHdrFromRVA_table. apply GetSecHdrFromRVA_loop_contains. Qed.



(** *** The section list *)

Lemma sections_loop_plain m fuel st ns p0 (n : nat) : forall (i : nat) acc,
  view_mapped (m_view m) ->
  0 <= p0 -> p0 + 40 * (Z.of_nat i + Z.of_nat n) < PTR_MOD ->
  (forall j, (i <= j < i + headers_in_file m n (p0 + 40 * Z.of_nat i))%nat ->
     rd8 (m_view m) (section_header_at p0 j) <> 47) ->
  sections_loop m fuel st ns n (p0 + 40 * Z.of_nat i) acc
  = Some (acc ++ map (plain_section_record m)
                   (map (section_header_at p0)
                      (seq i (headers_in_file m n (p0 + 40 * Z.of_nat i))))).
Proof.
  induction n as [|n IH]; intros i acc Hv Hp Hwrap Hplain;
    cbn [sections_loop headers_in_file].
  { cbn. rewrite app_nil_r. reflexivity. }
  rewrite PTR_add_small by lia.
  destruct (IsPtrSafe m (p0 + 40 * Z.of_nat i + 40) false) eqn:Es; cbn [negb].
  2:{ cbn. rewrite app_nil_r. reflexivity. }
  cbn [headers_in_file] in Hplain. rewrite Es in Hplain.
  assert (H0 : rd8 (m_view m) (p0 + 40 * Z.of_nat i) <> 47).
  { apply (Hplain i). lia. }
  apply Z.eqb_neq in H0. rewrite H0.
  replace (p0 + 40 * Z.of_nat i + 40) with (p0 + 40 * Z.of_nat (S i)) in * by lia.
  rewrite IH; try assumption; try lia.
  - cbn [seq map]. rewrite <- app_assoc. reflexivity.
  - intros j Hj. apply Hplain. lia.
Qed.

Lemma section_table_pos m : 0 <= fst (section_table m).
Proof.
  unfold section_table, IMAGE_FIRST_SECTION.
  destruct (IsPE32 (m_stFileInfo m) && HasNTHdr (m_stFileInfo m));
    [apply to_PTR_range|].
  destruct (IsPE64 (m_stFileInfo m) && HasNTHdr (m_stFileInfo m));
    [apply to_PTR_range|cbn; lia].
Qed.

Lemma ParseSectionsHeaders_plain_result (m : Clibpe) (fuel : nat) :
  view_mapped (m_view m) ->
  m_vecSecHeaders m = [] ->
  fst (section_table m) + 40 * Z.of_nat (snd (section_table m)) < PTR_MOD ->
  let k := headers_in_file m (snd (section_table m)) (fst (section_table m)) in
  plain_names m k ->
  exists m',
    ParseSectionsHeaders fuel m = Some (negb (Nat.eqb k 0), m')
    /\ m_vecSecHeaders m' = map (plain_section_record m) (table_headers m k)
    /\ HasSections (m_stFileInfo m') = HasSections (m_stFileInfo m) || negb (Nat.eqb k 0)
    /\ m_view m' = m_view m.
Proof.
  intros Hv Hempty Hwrap k Hplain.
  pose proof (section_table_pos m) as Hpos.
  assert (Hloop : forall st ns,
    sections_loop m fuel st ns (snd (section_table m)) (fst (section_table m)) []
    = Some (map (plain_section_record m) (table_headers m k))).
  { intros st ns.
    replace (fst (section_table m)) with (fst (section_table m) + 40 * Z.of_nat 0) at 1
      by lia.
    rewrite (sections_loop_plain m fuel st ns (fst (section_table m)) _ 0%nat [] Hv Hpos).
    - cbn [app]. unfold table_headers, k.
      replace (fst (section_table m) + 40 * Z.of_nat 0) with (fst (section_table m))
        by lia.
      reflexivity.
    - lia.
    - intros j Hj. apply Hplain. unfold k.
      replace (fst (section_table m) + 40 * Z.of_nat 0) with (fst (section_table m))
        in Hj by lia.
      lia. }
  set (recorded := map (plain_section_record m) (table_headers m k)) in *.
  assert (Hk : Nat.eqb k 0 = match recorded with [] => true | _ :: _ => false end).
  { unfold recorded, table_headers. destruct k; reflexivity. }
  exists (if Nat.eqb k 0 then set_m_vecSecHeaders [] m
          else flag set_HasSections (set_m_vecSecHeaders recorded m)).
  split.
  - unfold ParseSectionsHeaders. cbn zeta. rewrite Hempty.
    unfold section_table in Hloop, k.
    destruct (IsPE32 (m_stFileInfo m) && HasNTHdr (m_stFileInfo m)) eqn:E32.
    + cbn [fst snd] in Hloop. rewrite Hloop, Hk.
      destruct recorded; reflexivity.
    + destruct (IsPE64 (m_stFileInfo m) && HasNTHdr (m_stFileInfo m)) eqn:E64.
      * cbn [fst snd] in Hloop. rewrite Hloop, Hk.
        destruct recorded; reflexivity.
      * cbn [fst snd headers_in_file Nat.eqb negb]. cbn [snd headers_in_file] in k.
        subst k. cbn [Nat.eqb]. rewrite <- Hempty. destruct m; reflexivity.
  - destruct (Nat.eqb k 0) eqn:Ek.
    + rewrite Hk in Ek. destruct recorded; [|discriminate]. cbn.
      rewrite orb_false_r. repeat split; reflexivity.
    + unfold flag. cbn. rewrite orb_true_r. repeat split; reflexivity.
Qed.

(** X22: over a mapped view and on an object with an empty section list,
    when no header that the loop reaches has a name that starts with a
    slash, [ParseSectionsHeaders] returns whatever the fuel, and the section
    list is made of these headers in table order: the headers before the
    first one that does not end inside the file, each with its file offset,
    its 40 bytes, and as name the characters before the first NUL or all
    eight.  The result is true, with the flag set, exactly when the list is
    not empty. *)
Theorem ParseSectionsHeaders_plain (m : Clibpe) (fuel : nat) :
  view_mapped (m_view m) ->
  m_vecSecHeaders m = [] ->
  fst (section_table m) + 40 * Z.of_nat (snd (section_table m)) < PTR_MOD ->
  let k := headers_in_file m (snd (section_table m)) (fst (section_table m)) in
  plain_names m k ->
  exists m',
    ParseSectionsHeaders fuel m = Some (negb (Nat.eqb k 0), m')
    /\ m_vecSecHeaders m' = map (plain_section_record m) (table_headers m k)
    /\ HasSections (m_stFileInfo m') = HasSections (m_stFileInfo m) || negb (Nat.eqb k 0)
    /\ m_view m' = m_view m.
Proof. apply ParseSectionsHeaders_plain_result. Qed.

Lemma one_section_parsed :
  option_map (fun r => (fst r, map (fun s => (sec_dwOffset s, SectionName s,
                                              sh_VirtualAddress (SecHdr s)))
                                 (m_vecSecHeaders (snd r))))
    (ParseSectionsHeaders 0 one_section)
  = Some (true, [ (0x178, str_text, 0x1000) ]).
Proof. vm_compute. reflexivity. Qed.

Lemma long_section_name_parsed :
  option_map (fun r => map SectionName (m_vecSecHeaders (snd r)))
    (ParseSectionsHeaders 16 long_section_name)
  = Some [ str_long ]
  /\ ParseSectionsHeaders 2 long_section_name = None.
Proof. split; vm_compute; reflexivity. Qed.

Lemma view_mapped_one_section : view_mapped (m_view one_section).
Proof. repeat split; by_computation. Qed.

Lemma plain_names_one_section : plain_names one_section 1.
Proof.
  intros i Hi. replace i with 0%nat by lia. by_computation.
Qed.

Lemma ParseSectionsHeaders_plain_witness :
  exists m',
    ParseSectionsHeaders 0 one_section = Some (true, m')
    /\ m_vecSecHeaders m' = map (plain_section_record one_section)
                              (table_headers one_section 1).
Proof.
  assert (Hempty : m_vecSecHeaders one_section = []) by by_computation.
  assert (Hwrap : fst (section_table one_section)
                  + 40 * Z.of_nat (snd (section_table one_section)) < PTR_MOD)
    by by_computation.
  assert (Hk : headers_in_file one_section (snd (section_table one_section))
                 (fst (section_table one_section)) = 1%nat) by by_computation.
  destruct (ParseSectionsHeaders_plain one_section 0 view_mapped_one_section
              Hempty Hwrap) as (m' & H1 & H2 & _).
  - rewrite Hk. exact plain_names_one_section.
  - rewrite Hk in H1, H2. exists m'. split; [exact H1|exact H2].
Defined.

(** *** The two address translations *)

Lemma rva_in_section_record m p s rva :
  rva_in_section rva (SecHdr (section_record m p s)) = header_contains (m_view m) p rva.
Proof. reflexivity. Qed.

Lemma filter_map_swap {A B} (f : B -> bool) (g : A -> B) (l : list A) :
  filter f (map g l) = map g (filter (fun x => f (g x)) l).
Proof.
  induction l as [|x l IH]; cbn [map filter]; [reflexivity|].
  destruct (f (g x)); cbn [map]; rewrite IH; reflexivity.
Qed.

Lemma filter_seq_none (f : nat -> bool) n : forall a,
  (forall j, (a <= j < a + n)%nat -> f j = false) -> filter f (seq a n) = [].
Proof.
  induction n as [|n IH]; intros a H; cbn [seq filter]; [reflexivity|].
  rewrite (H a) by lia. apply IH. intros j Hj. apply H. lia.
Qed.

Lemma filter_seq_unique (f : nat -> bool) n : forall a i,
  (a <= i < a + n)%nat -> f i = true ->
  (forall j, (a <= j < a + n)%nat -> f j = true -> j = i) ->
  filter f (seq a n) = [i].
Proof.
  induction n as [|n IH]; intros a i Hi Hfi Huniq; [lia|]. cbn [seq filter].
  destruct (Nat.eq_dec a i) as [->|Hne].
  - rewrite Hfi. f_equal. apply filter_seq_none.
    intros j Hj. destruct (f j) eqn:E; [|reflexivity].
    assert (j = i) by (apply Huniq; [lia|exact E]). lia.
  - destruct (f a) eqn:E.
    + assert (a = i) by (apply Huniq; [lia|exact E]). contradiction.
    + apply IH; [lia|exact Hfi|]. intros j Hj. apply Huniq. lia.
Qed.

Lemma headers_in_file_all m n : forall p i,
  headers_in_file m n p = n -> (i < n)%nat ->
  IsPtrSafe m (p + 40 * Z.of_nat i + 40) false = true.
Proof.
  induction n as [|n IH]; intros p i Hall Hi; [lia|].
  cbn [headers_in_file] in Hall.
  destruct (IsPtrSafe m (p + 40) false) eqn:Es; [|discriminate].
  destruct i as [|i].
  - replace (p + 40 * Z.of_nat 0 + 40) with (p + 40) by lia. exact Es.
  - replace (p + 40 * Z.of_nat (S i) + 40) with (p + 40 + 40 * Z.of_nat i + 40) by lia.
    apply IH; [congruence|lia].
Qed.

Lemma GetSecHdrFromRVA_loop_none m rva n : forall p,
  0 < p -> p + 40 * Z.of_nat n < PTR_MOD ->
  headers_in_file m n p = n ->
  GetSecHdrFromRVA_loop m rva n p = 0 ->
  forall i, (i < n)%nat -> header_contains (m_view m) (section_header_at p i) rva = false.
Proof.
  induction n as [|n IH]; intros p Hp Hwrap Hall Hnone i Hi; [lia|].
  cbn [GetSecHdrFromRVA_loop headers_in_file] in *.
  rewrite PTR_add_small in Hnone by lia.
  destruct (IsPtrSafe m (p + 40) false) eqn:Es; [|discriminate]. cbn [negb] in Hnone.
  fold (header_contains (m_view m) p rva) in Hnone.
  destruct (header_contains (m_view m) p rva) eqn:Ec.
  - lia.
  - destruct i as [|i].
    + unfold section_header_at. replace (p + 40 * Z.of_nat 0) with p by lia. exact Ec.
    + unfold section_header_at.
      replace (p + 40 * Z.of_nat (S i)) with (p + 40 + 40 * Z.of_nat i) by lia.
      apply (IH (p + 40)); try lia; congruence.
Qed.

Lemma RVAToPtr_at_header m rva :
  view_mapped (m_view m) ->
  GetSecHdrFromRVA m rva <> 0 ->
  let h := GetSecHdrFromRVA m rva in
  let offset := rva - psh_VirtualAddress (m_view m) h
                + psh_PointerToRawData (m_view m) h in
  psh_PointerToRawData (m_view m) h <= psh_VirtualAddress (m_view m) h ->
  0 <= offset < DWORD_MOD
  /\ RVAToPtr m rva = if offset <=? GetDataSize m then GetBaseAddr m + offset else 0.
Proof.
  intros Hv Hh h offset Hle.
  pose proof Hv as (Hb & Hs & Hu). pose proof USER_SPACE_lt as HU.
  assert (H32 : DWORD_MOD = 4294967296) by reflexivity.
  assert (H47 : USER_SPACE = 140737488355328) by reflexivity.
  assert (H64 : PTR_MOD = 18446744073709551616) by reflexivity.
  pose proof (GetSecHdrFromRVA_contains m rva Hh) as Hc. fold h in Hc.
  pose proof (header_contains_rva_range _ _ _ Hc) as Hrva.
  unfold header_contains in Hc. apply andb_true_iff in Hc. destruct Hc as [Hlo _].
  apply Z.leb_le in Hlo.
  pose proof (rd32_range (m_view m) (h + 12)) as Hva.
  pose proof (rd32_range (m_view m) (h + 20)) as Hraw.
  fold (psh_VirtualAddress (m_view m) h) in Hva.
  fold (psh_PointerToRawData (m_view m) h) in Hraw.
  change (2 ^ 32) with 4294967296 in *.
  unfold RVAToPtr. fold h. apply Z.eqb_neq in Hh. fold h in Hh. rewrite Hh.
  unfold offset, GetBaseAddr, GetDataSize, DWORD_sub, PTR_sub in *.
  set (va := psh_VirtualAddress (m_view m) h) in *.
  set (raw := psh_PointerToRawData (m_view m) h) in *.
  split; [lia|].
  rewrite (PTR_add_small (v_base (m_view m)) rva) by lia.
  rewrite to_DWORD_small by lia. rewrite to_PTR_small by lia.
  replace (v_base (m_view m) + rva - (va - raw))
    with (v_base (m_view m) + (rva - va + raw)) by lia.
  destruct (Z.leb_spec (rva - va + raw) (v_size (m_view m))) as [Hin|Hout].
  - assert (E : IsPtrSafe m (v_base (m_view m) + (rva - va + raw)) true = true)
      by (apply (IsPtrSafe_iff m _ true Hv); unfold GetBaseAddr, GetDataSize; lia).
    rewrite E. reflexivity.
  - destruct (IsPtrSafe m _ true) eqn:E; [|reflexivity].
    apply (IsPtrSafe_iff m _ true Hv) in E. unfold GetBaseAddr, GetDataSize in E. lia.
Qed.

Lemma RVAToPtr_same_headers m m' rva :
  m_view m' = m_view m ->
  IsPE32 (m_stFileInfo m') = IsPE32 (m_stFileInfo m) ->
  IsPE64 (m_stFileInfo m') = IsPE64 (m_stFileInfo m) ->
  HasNTHdr (m_stFileInfo m') = HasNTHdr (m_stFileInfo m) ->
  m_pNTHeader32 m' = m_pNTHeader32 m ->
  m_pNTHeader64 m' = m_pNTHeader64 m ->
  RVAToPtr m' rva = RVAToPtr m rva /\ GetSecHdrFromRVA m' rva = GetSecHdrFromRVA m rva.
Proof.
  intros Hv H32 H64 Hnt Hp32 Hp64.
  assert (Hsafe : forall a b, IsPtrSafe m' a b = IsPtrSafe m a b).
  { intros a b. unfold IsPtrSafe, GetBaseAddr, GetDataSize. rewrite Hv. reflexivity. }
  assert (Hloop : forall n p, GetSecHdrFromRVA_loop m' rva n p
                              = GetSecHdrFromRVA_loop m rva n p).
  { induction n as [|n IH]; intros p; cbn [GetSecHdrFromRVA_loop]; [reflexivity|].
    rewrite Hsafe, Hv, IH. reflexivity. }
  assert (Hh : GetSecHdrFromRVA m' rva = GetSecHdrFromRVA m rva).
  { unfold GetSecHdrFromRVA. rewrite H32, H64, Hnt, Hp32, Hp64, Hv, !Hloop. reflexivity. }
  split; [|exact Hh].
  unfold RVAToPtr. rewrite Hh, Hsafe, Hv. unfold GetBaseAddr. rewrite Hv. reflexivity.
Qed.

(** X23: the two translations agree on what [ParseSectionsHeaders] has
    recorded.  Over a mapped view of a file below 4 GiB, let the section
    list be filled from a table whose headers all end inside the file and
    have names that do not start with a slash.  For an RVA that at most one
    header contains, that header having PointerToRawData <= VirtualAddress,
    [RVAToOffset] is the file offset of the pointer that [RVAToPtr] returns:
    RVA - VirtualAddress + PointerToRawData when this is at most the file
    size, and 0 when it is larger or when no header contains the RVA. *)
Theorem RVAToOffset_agrees_with_RVAToPtr (m m' : Clibpe) (fuel : nat) (ok : bool)
    (rva : Z) :
  view_mapped (m_view m) ->
  GetDataSize m < DWORD_MOD ->
  m_vecSecHeaders m = [] ->
  0 < fst (section_table m) ->
  fst (section_table m) + 40 * Z.of_nat (snd (section_table m)) < PTR_MOD ->
  let n := snd (section_table m) in
  headers_in_file m n (fst (section_table m)) = n ->
  plain_names m n ->
  ParseSectionsHeaders fuel m = Some (ok, m') ->
  (forall i j, (i < n)%nat -> (j < n)%nat ->
     table_contains m rva i -> table_contains m rva j -> i = j) ->
  (forall i, (i < n)%nat -> table_contains m rva i ->
     let h := section_header_at (fst (section_table m)) i in
     psh_PointerToRawData (m_view m) h <= psh_VirtualAddress (m_view m) h) ->
  RVAToOffset m' rva = PtrToOffset m' (RVAToPtr m' rva)
  /\ (forall i, (i < n)%nat -> table_contains m rva i ->
      let h := section_header_at (fst (section_table m)) i in
      let offset := rva - psh_VirtualAddress (m_view m) h
                    + psh_PointerToRawData (m_view m) h in
      RVAToOffset m' rva = if offset <=? GetDataSize m then offset else 0)
  /\ ((forall i, (i < n)%nat -> ~ table_contains m rva i) -> RVAToOffset m' rva = 0).
Proof.
  intros Hv Hsize Hempty Hpos Hwrap n Hall Hplain Hparse Huniq Hraw.
  pose proof Hv as (Hb & Hs & Hu). pose proof USER_SPACE_lt as HU.
  assert (H32 : DWORD_MOD = 4294967296) by reflexivity.
  assert (H47 : USER_SPACE = 140737488355328) by reflexivity.
  assert (H64 : PTR_MOD = 18446744073709551616) by reflexivity.
  set (p0 := fst (section_table m)) in *.
  (* what the parser has recorded *)
  destruct (ParseSectionsHeaders_plain_result m fuel Hv Hempty Hwrap)
    as (m1 & Hres & Hlist & _ & Hview).
  { fold p0. fold n. rewrite Hall. exact Hplain. }
  fold p0 in Hres, Hlist. fold n in Hres, Hlist. rewrite Hall in Hres, Hlist.
  assert (Hparse' := Hparse). rewrite Hres in Hparse'. injection Hparse' as _ ->.
  assert (Hsame : RVAToPtr m' rva = RVAToPtr m rva
                  /\ GetSecHdrFromRVA m' rva = GetSecHdrFromRVA m rva).
  { clear Hlist Hview.
    unfold ParseSectionsHeaders in Hparse. cbn zeta in Hparse.
    destruct (IsPE32 (m_stFileInfo m) && HasNTHdr (m_stFileInfo m)).
    - destruct (sections_loop m fuel _ _ _ _ _) as [[|s l]|]; [| |discriminate];
        injection Hparse as _ <-; apply RVAToPtr_same_headers; reflexivity.
    - destruct (IsPE64 (m_stFileInfo m) && HasNTHdr (m_stFileInfo m)).
      + destruct (sections_loop m fuel _ _ _ _ _) as [[|s l]|]; [| |discriminate];
          injection Hparse as _ <-; apply RVAToPtr_same_headers; reflexivity.
      + injection Hparse as _ <-. split; reflexivity. }
  destruct Hsame as [Hptr Hhdr].
  assert (Hoff : forall q, PtrToOffset m' q = PtrToOffset m q).
  { intros q. unfold PtrToOffset, GetBaseAddr. rewrite Hview. reflexivity. }
  assert (Hro : RVAToOffset m' rva
                = RVAToOffset_loop (GetDataSize m) rva
                    (map (plain_section_record m) (table_headers m n)) 0).
  { unfold RVAToOffset, GetDataSize. rewrite Hlist, Hview. reflexivity. }
  (* the records that contain the RVA *)
  assert (Hfilter : filter (fun s => rva_in_section rva (SecHdr s))
                      (map (plain_section_record m) (table_headers m n))
                    = map (plain_section_record m)
                        (map (section_header_at p0)
                           (filter (fun i => header_contains (m_view m)
                                               (section_header_at p0 i) rva)
                              (seq 0 n)))).
  { unfold table_headers. fold p0. rewrite filter_map_swap.
    f_equal. rewrite filter_map_swap. reflexivity. }
  assert (Hnone : (forall i, (i < n)%nat -> ~ table_contains m rva i) ->
                  RVAToOffset m' rva = 0 /\ RVAToPtr m rva = 0).
  { intros Hno. split.
    - rewrite Hro, RVAToOffset_loop_fold, Hfilter.
      rewrite filter_seq_none; [reflexivity|].
      intros j Hj. specialize (Hno j ltac:(lia)). unfold table_contains in Hno.
      fold p0 in Hno. destruct (header_contains _ _ rva); [contradiction Hno|]; reflexivity.
    - unfold RVAToPtr.
      destruct (Z.eqb_spec (GetSecHdrFromRVA m rva) 0) as [E|N]; [reflexivity|].
      exfalso. rewrite GetSecHdrFromRVA_table in N. fold p0 in N. fold n in N.
      destruct (GetSecHdrFromRVA_loop_first m rva n p0 Hv ltac:(lia) Hwrap)
        as [E|(i & Hi & _ & Hc & _)]; [contradiction|].
      pose proof (GetSecHdrFromRVA_loop_contains m rva n p0 N) as Hc'.
      destruct (GetSecHdrFromRVA_loop_first m rva n p0 Hv ltac:(lia) Hwrap)
        as [E|(i' & Hi' & Hq & _)]; [contradiction|].
      apply (Hno i' Hi'). unfold table_contains. fold p0. rewrite <- Hq. exact Hc'. }
  assert (Hone : forall i, (i < n)%nat -> table_contains m rva i ->
    let h := section_header_at p0 i in
    let offset := rva - psh_VirtualAddress (m_view m) h
                  + psh_PointerToRawData (m_view m) h in
    RVAToOffset m' rva = (if offset <=? GetDataSize m then offset else 0)
    /\ PtrToOffset m (RVAToPtr m rva) = (if offset <=? GetDataSize m then offset else 0)).
  { intros i Hi Hc h offset.
    assert (Hfirst : GetSecHdrFromRVA m rva = h).
    { rewrite GetSecHdrFromRVA_table. fold p0. fold n.
      destruct (GetSecHdrFromRVA_loop_first m rva n p0 Hv ltac:(lia) Hwrap)
        as [E|(i' & Hi' & Hq & Hc' & _)].
      - exfalso.
        pose proof (GetSecHdrFromRVA_loop_none m rva n p0 Hpos Hwrap Hall E i Hi) as Hf.
        unfold table_contains in Hc. fold p0 in Hc. congruence.
      - rewrite Hq. unfold h. f_equal. apply Huniq; try assumption.
        unfold table_contains. fold p0. rewrite <- Hq. exact Hc'. }
    assert (Hh : GetSecHdrFromRVA m rva <> 0).
    { rewrite Hfirst. unfold h, section_header_at. lia. }
    pose proof (Hraw i Hi Hc) as Hle. cbn zeta in Hle. fold p0 in Hle. fold h in Hle.
    destruct (RVAToPtr_at_header m rva Hv Hh) as [Hrange Hp].
    { rewrite Hfirst. exact Hle. }
    rewrite Hfirst in Hrange, Hp. fold offset in Hrange, Hp.
    split.
    - rewrite Hro, RVAToOffset_loop_fold, Hfilter.
      rewrite (filter_seq_unique _ n 0%nat i); try lia.
      + cbn [map fold_left]. unfold checked_offset, section_offset, plain_section_record.
        cbn [SecHdr section_record rd_section_header sh_VirtualAddress sh_PointerToRawData].
        change (rd32 (m_view m) (section_header_at p0 i + 12))
          with (psh_VirtualAddress (m_view m) h).
        change (rd32 (m_view m) (section_header_at p0 i + 20))
          with (psh_PointerToRawData (m_view m) h).
        pose proof (rd32_range (m_view m) (h + 12)) as Hva.
        pose proof (rd32_range (m_view m) (h + 20)) as Hrw.
        fold (psh_VirtualAddress (m_view m) h) in Hva.
        fold (psh_PointerToRawData (m_view m) h) in Hrw.
        change (2 ^ 32) with 4294967296 in *.
        pose proof (header_contains_rva_range _ _ _ Hc) as Hrva.
        unfold offset in *. unfold DWORD_sub.
        rewrite (to_DWORD_small rva) by lia.
        rewrite (to_DWORD_small (psh_VirtualAddress (m_view m) h
                                 - psh_PointerToRawData (m_view m) h)) by lia.
        rewrite (to_DWORD_small (rva - _)) by lia.
        rewrite (to_DWORD_small (GetDataSize m)) by (unfold GetDataSize in *; lia).
        replace (rva - (psh_VirtualAddress (m_view m) h - psh_PointerToRawData (m_view m) h))
          with (rva - psh_VirtualAddress (m_view m) h + psh_PointerToRawData (m_view m) h)
          by lia.
        destruct (Z.leb_spec (rva - psh_VirtualAddress (m_view m) h
                              + psh_PointerToRawData (m_view m) h) (GetDataSize m));
          destruct (Z.gtb_spec (rva - psh_VirtualAddress (m_view m) h
                                + psh_PointerToRawData (m_view m) h) (GetDataSize m));
          try reflexivity; lia.
      + exact Hc.
      + intros j Hj Hcj. apply Huniq; try lia; assumption.
    - rewrite Hp.
      destruct (Z.leb_spec offset (GetDataSize m)) as [Hin|Hout]; [|reflexivity].
      unfold PtrToOffset, PTR_sub, GetBaseAddr, GetDataSize in *.
      destruct (Z.eqb_spec (v_base (m_view m) + offset) 0); [lia|].
      replace (v_base (m_view m) + offset - v_base (m_view m)) with offset by lia.
      rewrite to_PTR_small by lia. apply to_DWORD_small. lia. }
  split; [|split].
  - rewrite Hoff, Hptr.
    destruct (filter (fun i => header_contains (m_view m) (section_header_at p0 i) rva)
                (seq 0 n)) as [|i l] eqn:Ef.
    + assert (Hno : forall i, (i < n)%nat -> ~ table_contains m rva i).
      { intros i Hi Hc.
        assert (In i (filter (fun i => header_contains (m_view m)
                                         (section_header_at p0 i) rva) (seq 0 n))).
        { apply filter_In. split; [apply in_seq; lia|exact Hc]. }
        rewrite Ef in H. contradiction. }
      destruct (Hnone Hno) as [-> ->]. reflexivity.
    + assert (Hin : In i (filter (fun i => header_contains (m_view m)
                                             (section_header_at p0 i) rva) (seq 0 n)))
        by (rewrite Ef; left; reflexivity).
      apply filter_In in Hin. destruct Hin as [Hi Hc]. apply in_seq in Hi.
      destruct (Hone i ltac:(lia) Hc) as [-> ->]. reflexivity.
  - intros i Hi Hc. exact (proj1 (Hone i Hi Hc)).
  - intros Hno. exact (proj1 (Hnone Hno)).
Qed.

Lemma one_section_listed_offsets :
  RVAToOffset one_section_listed 0x1100 = 0x500
  /\ RVAToPtr one_section_listed 0x1100 = at_offset 0x500.
Proof. split; by_computation. Qed.

Lemma RVAToOffset_agrees_with_RVAToPtr_witness :
  RVAToOffset one_section_listed 0x1100
  = PtrToOffset one_section_listed (RVAToPtr one_section_listed 0x1100).
Proof.
  assert (Hsize : GetDataSize one_section < DWORD_MOD) by by_computation.
  assert (Hempty : m_vecSecHeaders one_section = []) by by_computation.
  assert (Hpos : 0 < fst (section_table one_section)) by by_computation.
  assert (Hwrap : fst (section_table one_section)
                  + 40 * Z.of_nat (snd (section_table one_section)) < PTR_MOD)
    by by_computation.
  assert (Hn : snd (section_table one_section) = 1%nat) by by_computation.
  assert (Hall : headers_in_file one_section (snd (section_table one_section))
                   (fst (section_table one_section))
                 = snd (section_table one_section)) by by_computation.
  assert (Hparse : ParseSectionsHeaders 0 one_section = Some (true, one_section_listed))
    by by_computation.
  refine (proj1 (RVAToOffset_agrees_with_RVAToPtr one_section one_section_listed 0 true
                   0x1100 view_mapped_one_section Hsize Hempty Hpos Hwrap Hall _
                   Hparse _ _)).
  - rewrite Hn. exact plain_names_one_section.
  - intros i j Hi Hj _ _. rewrite Hn in Hi, Hj. lia.
  - intros i Hi _. rewrite Hn in Hi. replace i with 0%nat by lia. by_computation.
Defined.

(** *** The debug directory *)

Lemma GetTData_BYTE_in_file m o :
  view_mapped (m_view m) -> 1 <= GetDataSize m -> 0 <= o ->
  GetTData_BYTE m o <> 0 ->
  o < GetDataSize m /\ GetTData_BYTE m o = rd8 (m_view m) (GetBaseAddr m + o).
Proof.
  intros Hv Hsz Ho. pose proof Hv as (Hb & Hs & Hu). pose proof USER_SPACE_lt as HU.
  assert (H47 : USER_SPACE = 140737488355328) by reflexivity.
  assert (H64 : PTR_MOD = 18446744073709551616) by reflexivity.
  unfold GetTData_BYTE, GetDataSize, GetBaseAddr in *.
  rewrite to_PTR_small by lia.
  destruct (Z.gtb_spec o (v_size (m_view m) - 1));
    [intros Hc; exfalso; apply Hc; reflexivity|].
  intros _. rewrite PTR_add_small by lia. split; [lia|reflexivity].
Qed.

Lemma GetTData_DWORD_in_file m o :
  view_mapped (m_view m) -> 4 <= GetDataSize m -> 0 <= o ->
  GetTData_DWORD m o = 0
  \/ (o + 4 <= GetDataSize m
      /\ GetTData_DWORD m o = rd32 (m_view m) (GetBaseAddr m + o)).
Proof.
  intros Hv Hsz Ho. pose proof Hv as (Hb & Hs & Hu). pose proof USER_SPACE_lt as HU.
  assert (H47 : USER_SPACE = 140737488355328) by reflexivity.
  assert (H64 : PTR_MOD = 18446744073709551616) by reflexivity.
  unfold GetTData_DWORD, GetDataSize, GetBaseAddr in *.
  rewrite to_PTR_small by lia.
  destruct (Z.gtb_spec o (v_size (m_view m) - 4)); [left; reflexivity|].
  right. rewrite PTR_add_small by lia. split; [lia|reflexivity].
Qed.

Lemma pdb_name_in_file m raw off n : forall i,
  view_mapped (m_view m) -> 1 <= GetDataSize m -> 0 <= i ->
  (length (pdb_name m raw off n i) <= n)%nat
  /\ Forall (fun c => c <> 0) (pdb_name m raw off n i)
  /\ forall k, (k < length (pdb_name m raw off n i))%nat ->
       to_DWORD (raw + off + i + Z.of_nat k) < GetDataSize m
       /\ nth k (pdb_name m raw off n i) 0
          = rd8 (m_view m) (GetBaseAddr m + to_DWORD (raw + off + i + Z.of_nat k)).
Proof.
  induction n as [|n IH]; intros i Hv Hsz Hi; cbn [pdb_name].
  { cbn. split; [lia|]. split; [constructor|]. intros k Hk. lia. }
  destruct (Z.eqb_spec (GetTData_BYTE m (to_DWORD (raw + off + i))) 0) as [E|N].
  { cbn. split; [lia|]. split; [constructor|]. intros k Hk. lia. }
  destruct (IH (i + 1) Hv Hsz ltac:(lia)) as (Hlen & Hnz & Hin).
  pose proof (to_DWORD_range (raw + off + i)) as Hr.
  destruct (GetTData_BYTE_in_file m _ Hv Hsz (proj1 Hr) N) as [Hlt Heq].
  cbn [length]. split; [lia|]. split; [constructor; assumption|].
  intros k Hk. destruct k as [|k].
  - cbn [nth]. replace (raw + off + i + Z.of_nat 0) with (raw + off + i) by lia.
    split; [exact Hlt|exact Heq].
  - cbn [nth]. replace (raw + off + i + Z.of_nat (S k))
      with (raw + off + (i + 1) + Z.of_nat k) by lia.
    apply Hin. lia.
Qed.

Lemma debug_entry_recorded N m p :
  view_mapped (m_view m) -> 4 <= GetDataSize m ->
  GetBaseAddr m <= p < GetBaseAddr m + GetDataSize m ->
  debug_entry_ok N m (debug_entry N m p).
Proof.
  intros Hv Hsz Hp. exists p. split; [reflexivity|]. split; [exact Hp|].
  pose proof (rd32_range (m_view m) (p + 24)) as Hraw.
  fold (pdbg_PointerToRawData (m_view m) p) in Hraw.
  cbn [debug_entry dbg_Header dbg_PDBName].
  split; [unfold debug_header; rewrite length_map, length_seq; reflexivity|].
  split.
  { intros j Hj. cbn zeta. unfold debug_header.
    rewrite (nth_indep _ 0 (GetTData_DWORD m (pdbg_PointerToRawData (m_view m) p
                                                + 4 * Z.of_nat 0)))
      by (rewrite length_map, length_seq; exact Hj).
    rewrite (map_nth (fun i => GetTData_DWORD m (pdbg_PointerToRawData (m_view m) p
                                                  + 4 * Z.of_nat i)) (seq 0 N) 0%nat j).
    rewrite seq_nth by exact Hj. cbn [Nat.add].
    apply GetTData_DWORD_in_file; try assumption; lia. }
  set (off := codeview_offset (nth 0 (debug_header N m p) 0)).
  assert (Hoff : 0 <= off).
  { unfold off, codeview_offset.
    destruct (_ =? RSDS_SIGN); [lia|]. destruct (_ =? NB10_SIGN); lia. }
  destruct (pdb_name_in_file m (pdbg_PointerToRawData (m_view m) p) off
              (Z.to_nat MAX_PATH) 0 Hv ltac:(lia) ltac:(lia)) as (Hlen & Hnz & Hin).
  destruct (pdbg_Type (m_view m) p =? IMAGE_DEBUG_TYPE_CODEVIEW).
  - destruct (0 <? off).
    + split; [unfold MAX_PATH in *; lia|]. split; [exact Hnz|].
      intros k Hk. specialize (Hin k Hk).
      replace (pdbg_PointerToRawData (m_view m) p + off + 0 + Z.of_nat k)
        with (pdbg_PointerToRawData (m_view m) p + off + Z.of_nat k) in Hin by lia.
      exact Hin.
    + cbn [length]. split; [unfold MAX_PATH; lia|]. split; [constructor|].
      intros k Hk. cbn in Hk. lia.
  - cbn [length]. split; [unfold MAX_PATH; lia|]. split; [constructor|].
    intros k Hk. cbn in Hk. lia.
Qed.

Lemma debug_loop_ok N m n : forall p acc,
  view_mapped (m_view m) -> 4 <= GetDataSize m ->
  GetBaseAddr m <= p < GetBaseAddr m + GetDataSize m ->
  Forall (debug_entry_ok N m) acc ->
  Forall (debug_entry_ok N m) (debug_loop N m n p acc)
  /\ (length (debug_loop N m n p acc) <= length acc + n)%nat
  /\ (0 < n -> length acc < length (debug_loop N m n p acc))%nat.
Proof.
  induction n as [|n IH]; intros p acc Hv Hsz Hp Hacc; cbn [debug_loop].
  { split; [exact Hacc|]. split; lia. }
  pose proof Hv as (Hb & Hs & Hu). pose proof USER_SPACE_lt as HU.
  assert (H47 : USER_SPACE = 140737488355328) by reflexivity.
  assert (H64 : PTR_MOD = 18446744073709551616) by reflexivity.
  assert (Hacc' : Forall (debug_entry_ok N m) (acc ++ [debug_entry N m p])).
  { apply Forall_app. split; [exact Hacc|]. constructor; [|constructor].
    apply debug_entry_recorded; assumption. }
  assert (Hp' := Hp). unfold GetBaseAddr, GetDataSize in Hp'.
  unfold sizeof_IMAGE_DEBUG_DIRECTORY. rewrite PTR_add_small by lia.
  destruct (IsPtrSafe m (p + 28) false) eqn:Es; cbn [negb].
  - apply (IsPtrSafe_iff m _ false Hv) in Es.
    destruct (IH (p + 28) _ Hv Hsz Es Hacc') as (H1 & H2 & H3).
    rewrite length_app in H2. cbn [length] in H2.
    split; [exact H1|]. split; [lia|]. intros _.
    destruct n as [|n'].
    + cbn [debug_loop]. rewrite length_app. cbn [length]. lia.
    + specialize (H3 ltac:(lia)). rewrite length_app in H3. cbn [length] in H3. lia.
  - split; [exact Hacc'|]. rewrite length_app. cbn [length]. split; lia.
Qed.

(** X24: when [ParseDebug] succeeds over a mapped view of a file of at least
    4 bytes, on an object without debug records, the flag is set and between
    one and (directory size / 28) entries are recorded.  Every entry was
    read at a directory entry that starts inside the file; each of its header
    DWORDs is zero or read inside the file; its PDB path has at most 260
    characters, contains no NUL, and consists of bytes of the file, read from
    the 32-bit offset PointerToRawData + 24 ("RSDS") or + 16 ("NB10") on:
    nothing outside the file gets into the record.  This holds whatever the
    length of the header array. *)
Theorem ParseDebug_entries (header_dwords : nat) (m : Clibpe) :
  view_mapped (m_view m) ->
  4 <= GetDataSize m ->
  fst (fst (ParseDebug header_dwords m [])) = true ->
  let entries := snd (ParseDebug header_dwords m []) in
  HasDebug (m_stFileInfo (snd (fst (ParseDebug header_dwords m [])))) = true
  /\ (exists pDebugDir dwDebugDirSize,
        debug_directory m = Some (pDebugDir, dwDebugDirSize)
        /\ 1 <= Z.of_nat (length entries) <= dwDebugDirSize / 28)
  /\ Forall (debug_entry_ok header_dwords m) entries.
Proof.
  intros Hv Hsz Hok entries. unfold entries. unfold ParseDebug in *.
  pose proof Hv as (Hb & Hs & Hu). pose proof USER_SPACE_lt as HU.
  assert (H32 : DWORD_MOD = 4294967296) by reflexivity.
  assert (H47 : USER_SPACE = 140737488355328) by reflexivity.
  assert (H64 : PTR_MOD = 18446744073709551616) by reflexivity.
  destruct (GetDirEntryRVA m IMAGE_DIRECTORY_ENTRY_DEBUG =? 0); [discriminate|].
  assert (Hdir : forall p s, debug_directory m = Some (p, s) ->
                   0 <= p < PTR_MOD /\ 0 <= s < DWORD_MOD).
  { intros p s. unfold debug_directory.
    destruct (negb _ && _).
    - intros [= <- <-]. split; [apply to_PTR_range|apply to_DWORD_range].
    - destruct (GetSecHdrFromRVA m _ =? 0); [discriminate|].
      destruct (Z.eqb_spec (RVAToPtr m (GetDirEntryRVA m IMAGE_DIRECTORY_ENTRY_DEBUG)) 0);
        [discriminate|].
      intros [= <- <-]. split.
      + pose proof (RVAToPtr_bounds m (GetDirEntryRVA m IMAGE_DIRECTORY_ENTRY_DEBUG) Hv).
        unfold GetBaseAddr, GetDataSize in *. lia.
      + pose proof (GetDirEntrySize_range m IMAGE_DIRECTORY_ENTRY_DEBUG) as Hr.
        change (2 ^ 32) with 4294967296 in Hr. lia. }
  destruct (debug_directory m) as [[p s]|] eqn:Ed; [|discriminate].
  destruct (Hdir p s eq_refl) as [Hp Hs'].
  unfold sizeof_IMAGE_DEBUG_DIRECTORY in *.
  destruct (Z.eqb_spec (s / 28) 0) as [|Hne]; [discriminate|]. cbn [orb] in *.
  unfold IsSumOverflow in *.
  destruct (Z.ltb_spec (PTR_add p s) p) as [|Hno]; [discriminate|]. cbn [orb] in *.
  destruct (IsPtrSafe m (PTR_add p s) false) eqn:Es; [|discriminate].
  cbn [negb fst snd].
  assert (Hentries : 1 <= s / 28).
  { assert (0 <= s / 28) by (apply Z.div_pos; lia). lia. }
  assert (Hs28 : 28 <= s).
  { destruct (Z.lt_ge_cases s 28) as [Hlt|]; [|assumption].
    rewrite Z.div_small in Hentries by lia. lia. }
  assert (Hadd : PTR_add p s = p + s).
  { unfold PTR_add, to_PTR in *.
    destruct (Z.lt_ge_cases (p + s) PTR_MOD) as [Hlt|Hge].
    - apply Z.mod_small. lia.
    - exfalso. rewrite <- (Z.mod_unique _ _ 1 (p + s - PTR_MOD)) in Hno by lia. lia. }
  rewrite Hadd in Es. apply (IsPtrSafe_iff m _ false Hv) in Es.
  assert (Hin : GetBaseAddr m <= p < GetBaseAddr m + GetDataSize m).
  { split; [|lia].
    revert Ed. unfold debug_directory.
    destruct (negb _ && _).
    - intros [= <- _]. unfold GetBaseAddr in *.
      pose proof (rd32_range (m_view m) (GetSecHdrFromName m str_debug + 20)) as Hr.
      fold (psh_PointerToRawData (m_view m) (GetSecHdrFromName m str_debug)) in Hr.
      change (2 ^ 32) with 4294967296 in Hr.
      rewrite PTR_add_small by lia. lia.
    - destruct (GetSecHdrFromRVA m _ =? 0); [discriminate|].
      destruct (Z.eqb_spec (RVAToPtr m (GetDirEntryRVA m IMAGE_DIRECTORY_ENTRY_DEBUG)) 0)
        as [|Hnz]; [discriminate|].
      intros [= <- _].
      apply (IsPtrSafe_iff m _ true Hv). apply RVAToPtr_safe. exact Hnz. }
  destruct (debug_loop_ok header_dwords m (Z.to_nat (s / 28)) p [] Hv Hsz Hin
              ltac:(constructor)) as (H1 & H2 & H3).
  cbn [length] in H2, H3.
  split; [unfold flag; cbn; reflexivity|]. split; [|exact H1].
  exists p, s. split; [reflexivity|]. specialize (H3 ltac:(lia)). lia.
Qed.

Lemma debug32_parsed :
  map (fun e => (dbg_dwOffset e, nth 0 (dbg_Header e) 0, dbg_PDBName e))
      (snd (ParseDebug 6 debug32 []))
  = [ (0x400, RSDS_SIGN, str_a_pdb) ].
Proof. vm_compute. reflexivity. Qed.

Lemma view_mapped_debug32 : view_mapped (m_view debug32).
Proof. repeat split; by_computation. Qed.

Lemma ParseDebug_entries_witness :
  HasDebug (m_stFileInfo (snd (fst (ParseDebug 6 debug32 [])))) = true
  /\ Forall (debug_entry_ok 6 debug32) (snd (ParseDebug 6 debug32 [])).
Proof.
  assert (Hsz : 4 <= GetDataSize debug32) by by_computation.
  assert (Hok : fst (fst (ParseDebug 6 debug32 [])) = true) by by_computation.
  destruct (ParseDebug_entries 6 debug32 view_mapped_debug32 Hsz Hok) as (H1 & _ & H3).
  split; [exact H1|exact H3].
Defined.

(** *** Section names that start with a slash *)

Lemma strtol_digits_run v : forall ds fuel p acc any,
  0 <= p -> p + Z.of_nat (length ds) < PTR_MOD ->
  Forall (fun c => is_digit c = true) ds ->
  chars_at v p ds ->
  is_digit (rd8 v (p + Z.of_nat (length ds))) = false ->
  (length ds < fuel)%nat ->
  strtol_digits v fuel p acc any
  = Some (fold_left (fun a c => 10 * a + (c - 48)) ds acc,
          p + Z.of_nat (length ds),
          any || negb (Nat.eqb (length ds) 0)).
Proof.
  induction ds as [|d ds IH]; intros fuel p acc any Hp Hwrap Hdig Hat Hend Hfuel;
    (destruct fuel as [|fuel]; [cbn [length] in Hfuel; lia|]); cbn [strtol_digits].
  - cbn [length] in Hend. replace (p + Z.of_nat 0) with p in * by lia.
    rewrite Hend. cbn [fold_left length Nat.eqb negb]. rewrite orb_false_r.
    replace (p + Z.of_nat 0) with p by lia. reflexivity.
  - assert (H0 : rd8 v p = d).
    { specialize (Hat 0%nat ltac:(cbn; lia)). cbn in Hat.
      replace (p + 0) with p in Hat by lia. exact Hat. }
    inversion Hdig as [|? ? Hd Hds]; subst. rewrite Hd.
    cbn [length] in *. rewrite PTR_add_small by lia.
    rewrite IH; try assumption; try lia.
    + cbn [fold_left Nat.eqb negb orb]. rewrite orb_true_r.
      replace (p + 1 + Z.of_nat (length ds)) with (p + Z.of_nat (S (length ds))) by lia.
      reflexivity.
    + intros i Hi. specialize (Hat (S i) ltac:(cbn; lia)). cbn [nth] in Hat.
      replace (p + 1 + Z.of_nat i) with (p + Z.of_nat (S i)) by lia. exact Hat.
    + replace (p + 1 + Z.of_nat (length ds)) with (p + Z.of_nat (S (length ds))) by lia.
      exact Hend.
Qed.

Lemma decimal_nonneg ds : forall acc,
  0 <= acc -> Forall (fun c => is_digit c = true) ds ->
  0 <= fold_left (fun a c => 10 * a + (c - 48)) ds acc.
Proof.
  induction ds as [|d ds IH]; intros acc Hacc Hdig; cbn [fold_left]; [exact Hacc|].
  inversion Hdig as [|? ? Hd Hds]; subst. apply IH; [|exact Hds].
  unfold is_digit in Hd. apply andb_true_iff in Hd. destruct Hd as [H1 H2].
  apply Z.leb_le in H1. lia.
Qed.

(** X25: a section header that ends inside the file and whose name starts
    with a slash.  When the character after the slash is no white space, no
    sign and no digit, the header is not recorded at all.  When the slash is
    followed by a run of digits that denotes a number up to LONG_MAX, the
    header is recorded with the string found at file offset
    PointerToSymbolTable + 18 * NumberOfSymbols + number as its name if that
    address is inside the file (the copy ends at the first NUL, however far
    that is), and with an empty name otherwise. *)
Theorem sections_loop_slash_name (m : Clibpe) (fuel : nat) (st ns : Z) (n : nat)
    (p : Z) (acc : list PESECHDR) :
  view_mapped (m_view m) ->
  0 <= p ->
  IsPtrSafe m (p + 40) false = true ->
  rd8 (m_view m) p = 47 ->
  let v := m_view m in
  let c := rd8 v (p + 1) in
  let next := sections_loop m fuel st ns n (p + 40) in
  (is_space c = false -> c <> 43 -> c <> 45 -> is_digit c = false -> (1 <= fuel)%nat ->
   sections_loop m fuel st ns (S n) p acc = next acc)
  /\ (forall ds,
        ds <> [] -> Forall (fun c => is_digit c = true) ds ->
        chars_at v (p + 1) ds ->
        is_digit (rd8 v (p + 1 + Z.of_nat (length ds))) = false ->
        p + 1 + Z.of_nat (length ds) < PTR_MOD ->
        decimal_value ds <= LONG_MAX ->
        (length ds < fuel)%nat ->
        let lpszSecRealName :=
          PTR_add (PTR_add (PTR_add (GetBaseAddr m) st) (ns * 18)) (decimal_value ds) in
        sections_loop m fuel st ns (S n) p acc
        = if IsPtrSafe m lpszSecRealName false then
            match cstr_within v lpszSecRealName fuel with
            | None => None
            | Some s => next (acc ++ [section_record m p s])
            end
          else next (acc ++ [section_record m p []])).
Proof.
  intros Hv Hp Hsafe Hslash v c next. subst v next.
  set (c1 := rd8 (m_view m) (p + 1)) in *. subst c.
  pose proof Hv as (Hb & Hs & Hu). pose proof USER_SPACE_lt as HU.
  assert (H47 : USER_SPACE = 140737488355328) by reflexivity.
  assert (H64 : PTR_MOD = 18446744073709551616) by reflexivity.
  assert (Hsafe' := Hsafe). apply (IsPtrSafe_iff m _ false Hv) in Hsafe'.
  unfold GetBaseAddr, GetDataSize in Hsafe'.
  assert (Hstep : PTR_add p 40 = p + 40) by (apply PTR_add_small; lia).
  assert (Hstart : PTR_add p 1 = p + 1) by (apply PTR_add_small; lia).
  split.
  - intros Hsp Hplus Hminus Hdig Hfuel.
    cbn [sections_loop]. rewrite Hstep, Hsafe. cbn [negb].
    rewrite Hslash. cbn [Z.eqb Pos.eqb]. rewrite Hstart.
    destruct fuel as [|fuel]; [lia|].
    unfold strtol. cbn [strtol_spaces]. fold c1. rewrite Hsp. cbv beta iota.
    apply Z.eqb_neq in Hplus. apply Z.eqb_neq in Hminus.
    fold c1. rewrite Hplus, Hminus. cbn [orb].
    cbn [strtol_digits]. fold c1. rewrite Hdig. cbn [negb].
    rewrite Z.eqb_refl. cbn [orb]. reflexivity.
  - intros ds Hne Hdig Hat Hend Hwrap Hmax Hfuel lpsz.
    cbn [sections_loop]. rewrite Hstep, Hsafe. cbn [negb].
    rewrite Hslash. cbn [Z.eqb Pos.eqb]. rewrite Hstart.
    destruct ds as [|d ds]; [contradiction|].
    assert (Hc : c1 = d).
    { specialize (Hat 0%nat ltac:(cbn; lia)). cbn in Hat.
      replace (p + 1 + 0) with (p + 1) in Hat by lia. exact Hat. }
    assert (Hd : is_digit c1 = true) by (rewrite Hc; inversion Hdig; assumption).
    assert (Hcr : 48 <= c1 <= 57).
    { unfold is_digit in Hd. apply andb_true_iff in Hd. destruct Hd as [H1 H2].
      apply Z.leb_le in H1. apply Z.leb_le in H2. lia. }
    destruct fuel as [|fuel]; [lia|].
    unfold strtol. cbn [strtol_spaces]. fold c1.
    assert (Hsp : is_space c1 = false).
    { unfold is_space.
      destruct (Z.eqb_spec c1 32); [lia|]. destruct (Z.leb_spec 9 c1); cbn [andb orb];
        [|reflexivity]. destruct (Z.leb_spec c1 13); [lia|reflexivity]. }
    rewrite Hsp. cbv beta iota. fold c1.
    destruct (Z.eqb_spec c1 45); [lia|]. destruct (Z.eqb_spec c1 43); [lia|]. cbn [orb].
    rewrite (strtol_digits_run (m_view m) (d :: ds) (S fuel) (p + 1) 0 false); try assumption;
      try lia.
    cbn [length Nat.eqb orb negb].
    fold (decimal_value (d :: ds)).
    pose proof (decimal_nonneg (d :: ds) 0 ltac:(lia) Hdig) as Hpos.
    fold (decimal_value (d :: ds)) in Hpos.
    destruct (Z.gtb_spec (decimal_value (d :: ds)) LONG_MAX); [lia|].
    destruct (Z.ltb_spec (decimal_value (d :: ds)) LONG_MIN) as [Hlt|_];
      [unfold LONG_MIN in Hlt; lia|].
    destruct (Z.eqb_spec (p + 1 + Z.of_nat (S (length ds))) (p + 1)); [lia|].
    cbn [orb].
    replace (PTR_add (PTR_add (PTR_add (GetBaseAddr m) st) (ns * 18))
               (to_PTR (decimal_value (d :: ds))))
      with lpsz.
    2:{ unfold lpsz, PTR_add, to_PTR. rewrite Zplus_mod_idemp_r. reflexivity. }
    reflexivity.
Qed.

Lemma sections_loop_slash_name_witness :
  sections_loop long_section_name 16 0x500 0 1
    (fst (section_table long_section_name)) []
  = Some [section_record long_section_name (fst (section_table long_section_name))
            str_long].
Proof.
  assert (Hp : 0 <= fst (section_table long_section_name)) by by_computation.
  assert (Hv : view_mapped (m_view long_section_name))
    by (repeat split; by_computation).
  assert (Hsafe : IsPtrSafe long_section_name
                    (fst (section_table long_section_name) + 40) false = true)
    by by_computation.
  assert (Hslash : rd8 (m_view long_section_name)
                     (fst (section_table long_section_name)) = 47) by by_computation.
  destruct (sections_loop_slash_name long_section_name 16 0x500 0 0
              (fst (section_table long_section_name)) [] Hv Hp Hsafe Hslash)
    as [_ Hnum].
  rewrite (Hnum [52]).
  - by_computation.
  - discriminate.
  - constructor; [reflexivity|constructor].
  - intros i Hi. cbn [length] in Hi. replace i with 0%nat by lia. by_computation.
  - by_computation.
  - by_computation.
  - by_computation.
  - cbn [length]. lia.
Defined.
